(** * dwm: a shallow embedding of the window-management core of [dwm.c]

    The C program keeps its clients in calloc'ed records chained through the
    [next] (client list) and [snext] (focus stack) pointers of their monitor.
    The embedding keeps that shape: a heap of [Client] records indexed by
    address, optional addresses for pointers, and a state-and-error monad in
    which every function of [dwm.c] that has a body is written statement by
    statement.  Requests sent to the X server are appended to a log. *)

From Stdlib Require Import ZArith Lia Bool.
From Stdlib Require Import Floats.SpecFloat.
From stdpp Require Import base gmap strings pretty list fin_maps.

Open Scope Z_scope.

(** ** Machine integers

    [int] and [unsigned int] are 32 bits wide.  Values are kept in [Z]; the
    conversions below spell out the wrap-around of unsigned arithmetic and of
    the conversion of an out-of-range value to [int]. *)

Definition u32 (z : Z) : Z := z mod 2 ^ 32.
Definition s32 (z : Z) : Z := (z + 2 ^ 31) mod 2 ^ 32 - 2 ^ 31.

(** ** Floating point

    [float] is IEEE 754 binary32 and [double] binary64, both rounded to
    nearest even, with [float] expressions evaluated in [float]
    (FLT_EVAL_METHOD 0). *)

Module F32.
Definition prec : Z := 24.
Definition emax : Z := 128.
Definition add : spec_float -> spec_float -> spec_float := SFadd prec emax.
Definition mul : spec_float -> spec_float -> spec_float := SFmul prec emax.
Definition div : spec_float -> spec_float -> spec_float := SFdiv prec emax.
(** conversion of an [int] to [float] *)
Definition of_int (z : Z) : spec_float := binary_normalize prec emax z 0 false.
(** conversion of a [double] to [float] *)
Definition of_double (d : spec_float) : spec_float :=
  match d with
  | S754_finite s m e => binary_normalize prec emax (cond_Zopp s (Zpos m)) e s
  | _ => d
  end.
(** the value of a decimal constant [n / 10 ^ k] stored in a [float] *)
Definition of_decimal (n : Z) (k : Z) : spec_float := div (of_int n) (of_int (10 ^ k)).
(** truncation toward zero of a finite value; [None] for NaN and infinities *)
Definition trunc (f : spec_float) : option Z :=
  match f with
  | S754_zero _ => Some 0
  | S754_finite s m e =>
      Some (cond_Zopp s (match e with
                         | Zneg p => Z.shiftr (Zpos m) (Zpos p)
                         | _ => Z.shiftl (Zpos m) e
                         end))
  | _ => None
  end.
(** conversion to [unsigned int]: undefined when the truncated value does
    not fit *)
Definition to_uint (f : spec_float) : option Z :=
  match trunc f with
  | Some v => if decide (0 <= v < 2 ^ 32) then Some v else None
  | None => None
  end.
End F32.

Module F64.
Definition prec : Z := 53.
Definition emax : Z := 1024.
Definition sub : spec_float -> spec_float -> spec_float := SFsub prec emax.
Definition div : spec_float -> spec_float -> spec_float := SFdiv prec emax.
Definition of_int (z : Z) : spec_float := binary_normalize prec emax z 0 false.
(** the (exact) promotion of a [float] to [double] *)
Definition of_float (f : spec_float) : spec_float :=
  match f with
  | S754_finite s m e => binary_normalize prec emax (cond_Zopp s (Zpos m)) e s
  | _ => f
  end.
(** the [double] constant written [n / 10 ^ k] in decimal *)
Definition of_decimal (n : Z) (k : Z) : spec_float := div (of_int n) (of_int (10 ^ k)).
Definition ltb : spec_float -> spec_float -> bool := SFltb.
End F64.

(** ** Data model *)

(** A pointer to a [Client] is an address of the heap; [None] is NULL. *)
Definition addr := positive.

(** [struct Client].  The fields that no function with a body reads or writes
    ([name], [mina], [maxa], the size hints, [isurgent], [neverfocus],
    [oldstate], [isfullscreen]) are left out.  [mon] is left out as well:
    [createmon] allocates a monitor only while [mons] is NULL and nothing
    assigns [Monitor.next], so there is at most one monitor and every [mon]
    field points to it. *)
Record Client := mkClient {
  c_x : Z; c_y : Z; c_w : Z; c_h : Z;
  c_oldx : Z; c_oldy : Z; c_oldw : Z; c_oldh : Z;
  c_bw : Z; c_oldbw : Z;
  c_tags : Z;
  c_isfixed : Z; c_isfloating : Z;
  c_next : option addr;
  c_snext : option addr;
  c_win : Z
}.

(** [struct Monitor]; [ltsymbol], [num], [by], [next] and [barwin] are never
    accessed and left out. *)
Record Monitor := mkMonitor {
  m_mfact : spec_float;
  m_nmaster : Z;
  m_mx : Z; m_my : Z; m_mw : Z; m_mh : Z;
  m_wx : Z; m_wy : Z; m_ww : Z; m_wh : Z;
  m_seltags : Z;
  m_sellt : Z;
  m_tagset : list Z;
  m_showbar : Z;
  m_topbar : Z;
  m_clients : option addr;
  m_sel : option addr;
  m_stack : option addr
}.

(** Field assignments. *)
Definition with_geom (x y w h : Z) (c : Client) : Client :=
  mkClient x y w h (c_oldx c) (c_oldy c) (c_oldw c) (c_oldh c) (c_bw c) (c_oldbw c)
           (c_tags c) (c_isfixed c) (c_isfloating c) (c_next c) (c_snext c) (c_win c).
Definition with_tags (t : Z) (c : Client) : Client :=
  mkClient (c_x c) (c_y c) (c_w c) (c_h c) (c_oldx c) (c_oldy c) (c_oldw c) (c_oldh c)
           (c_bw c) (c_oldbw c) t (c_isfixed c) (c_isfloating c) (c_next c) (c_snext c)
           (c_win c).
Definition with_isfloating (f : Z) (c : Client) : Client :=
  mkClient (c_x c) (c_y c) (c_w c) (c_h c) (c_oldx c) (c_oldy c) (c_oldw c) (c_oldh c)
           (c_bw c) (c_oldbw c) (c_tags c) (c_isfixed c) f (c_next c) (c_snext c) (c_win c).
Definition with_next (n : option addr) (c : Client) : Client :=
  mkClient (c_x c) (c_y c) (c_w c) (c_h c) (c_oldx c) (c_oldy c) (c_oldw c) (c_oldh c)
           (c_bw c) (c_oldbw c) (c_tags c) (c_isfixed c) (c_isfloating c) n (c_snext c)
           (c_win c).
Definition with_snext (n : option addr) (c : Client) : Client :=
  mkClient (c_x c) (c_y c) (c_w c) (c_h c) (c_oldx c) (c_oldy c) (c_oldw c) (c_oldh c)
           (c_bw c) (c_oldbw c) (c_tags c) (c_isfixed c) (c_isfloating c) (c_next c) n
           (c_win c).

Definition with_mfact (f : spec_float) (m : Monitor) : Monitor :=
  mkMonitor f (m_nmaster m) (m_mx m) (m_my m) (m_mw m) (m_mh m) (m_wx m) (m_wy m) (m_ww m)
            (m_wh m) (m_seltags m) (m_sellt m) (m_tagset m) (m_showbar m) (m_topbar m)
            (m_clients m) (m_sel m) (m_stack m).
Definition with_screen (w h : Z) (m : Monitor) : Monitor :=
  mkMonitor (m_mfact m) (m_nmaster m) 0 0 w h 0 0 w h (m_seltags m) (m_sellt m)
            (m_tagset m) (m_showbar m) (m_topbar m) (m_clients m) (m_sel m) (m_stack m).
Definition with_seltags (t : Z) (m : Monitor) : Monitor :=
  mkMonitor (m_mfact m) (m_nmaster m) (m_mx m) (m_my m) (m_mw m) (m_mh m) (m_wx m) (m_wy m)
            (m_ww m) (m_wh m) t (m_sellt m) (m_tagset m) (m_showbar m) (m_topbar m)
            (m_clients m) (m_sel m) (m_stack m).
Definition with_sellt (l : Z) (m : Monitor) : Monitor :=
  mkMonitor (m_mfact m) (m_nmaster m) (m_mx m) (m_my m) (m_mw m) (m_mh m) (m_wx m) (m_wy m)
            (m_ww m) (m_wh m) (m_seltags m) l (m_tagset m) (m_showbar m) (m_topbar m)
            (m_clients m) (m_sel m) (m_stack m).
Definition with_tagset (t : list Z) (m : Monitor) : Monitor :=
  mkMonitor (m_mfact m) (m_nmaster m) (m_mx m) (m_my m) (m_mw m) (m_mh m) (m_wx m) (m_wy m)
            (m_ww m) (m_wh m) (m_seltags m) (m_sellt m) t (m_showbar m) (m_topbar m)
            (m_clients m) (m_sel m) (m_stack m).
Definition with_clients (p : option addr) (m : Monitor) : Monitor :=
  mkMonitor (m_mfact m) (m_nmaster m) (m_mx m) (m_my m) (m_mw m) (m_mh m) (m_wx m) (m_wy m)
            (m_ww m) (m_wh m) (m_seltags m) (m_sellt m) (m_tagset m) (m_showbar m)
            (m_topbar m) p (m_sel m) (m_stack m).
Definition with_sel (p : option addr) (m : Monitor) : Monitor :=
  mkMonitor (m_mfact m) (m_nmaster m) (m_mx m) (m_my m) (m_mw m) (m_mh m) (m_wx m) (m_wy m)
            (m_ww m) (m_wh m) (m_seltags m) (m_sellt m) (m_tagset m) (m_showbar m)
            (m_topbar m) (m_clients m) p (m_stack m).
Definition with_stack (p : option addr) (m : Monitor) : Monitor :=
  mkMonitor (m_mfact m) (m_nmaster m) (m_mx m) (m_my m) (m_mw m) (m_mh m) (m_wx m) (m_wy m)
            (m_ww m) (m_wh m) (m_seltags m) (m_sellt m) (m_tagset m) (m_showbar m)
            (m_topbar m) (m_clients m) (m_sel m) p.

(** The events [XSendEvent] can carry. *)
Inductive XEventOut :=
| EvConfigureNotify (event window x y width height border_width : Z)
| EvClientMessage (window : Z) (message_type : string) (data0 : string).

(** Requests issued to the X server. *)
Inductive XRequest :=
| XMoveResizeWindow (win x y w h : Z)
| XMoveWindow (win x y : Z)
| XSendEvent (win : Z) (ev : XEventOut)
| XKillClient (win : Z)
| XSelectInput (win : Z)
| XMapWindow (win : Z)
| XChangePropertyWMState (win : Z) (state : Z)
| XUngrabButton (win : Z)
| XGrabServer
| XUngrabServer
| XSync.

Definition NormalState : Z := 1.
Definition WithdrawnState : Z := 0.

(** What [config.h] defines and [dwm.c] uses. *)
Record Config := mkConfig {
  tags_length : Z;          (* LENGTH(tags) *)
  mfact : spec_float;
  nmaster : Z;
  showbar : Z;
  topbar : Z;
  borderpx : Z
}.

(** An X error event, as far as [xerror] looks at it. *)
Record XErrorEvent := mkXErrorEvent { request_code : Z; error_code : Z }.

(** The globals of [dwm.c] together with the heap, the request log and what
    was written to stderr.  [selmon] is not a field of its own: it is assigned
    only as [selmon = mons], right after [mons] is known to be set. *)
Record State := mkState {
  heap : gmap addr Client;
  mons : option Monitor;
  running : Z;
  sw : Z;
  sh : Z;
  xerrorxlib : option (XErrorEvent -> Z);
  xlog : list XRequest;
  stderr : list string
}.

Definition set_heap (h : gmap addr Client) (s : State) : State :=
  mkState h (mons s) (running s) (sw s) (sh s) (xerrorxlib s) (xlog s) (stderr s).
Definition set_mons (m : option Monitor) (s : State) : State :=
  mkState (heap s) m (running s) (sw s) (sh s) (xerrorxlib s) (xlog s) (stderr s).
Definition set_running (r : Z) (s : State) : State :=
  mkState (heap s) (mons s) r (sw s) (sh s) (xerrorxlib s) (xlog s) (stderr s).
Definition set_screen (w h : Z) (s : State) : State :=
  mkState (heap s) (mons s) (running s) w h (xerrorxlib s) (xlog s) (stderr s).
Definition set_xlog (l : list XRequest) (s : State) : State :=
  mkState (heap s) (mons s) (running s) (sw s) (sh s) (xerrorxlib s) l (stderr s).
Definition set_stderr (l : list string) (s : State) : State :=
  mkState (heap s) (mons s) (running s) (sw s) (sh s) (xerrorxlib s) (xlog s) l.

(** ** The monad

    A call either returns, runs into undefined behaviour (a NULL or dangling
    pointer is dereferenced, an array is indexed out of bounds, a division by
    zero, a conversion that does not fit), follows a pointer chain that never
    reaches NULL, or leaves the process through [exit]. *)
Inductive outcome (A : Type) : Type :=
| Ok (a : A) (s : State)
| Fault
| Diverge
| Exited (status : Z) (s : State).
Arguments Ok {A} a s.
Arguments Fault {A}.
Arguments Diverge {A}.
Arguments Exited {A} status s.

Definition M (A : Type) : Type := State -> outcome A.

Definition ret {A} (a : A) : M A := fun s => Ok a s.
Definition bind {A B} (c : M A) (k : A -> M B) : M B :=
  fun s => match c s with
           | Ok a s' => k a s'
           | Fault => Fault
           | Diverge => Diverge
           | Exited n s' => Exited n s'
           end.

Global Instance M_ret : MRet M := @ret.
Global Instance M_bind : MBind M := fun A B k c => bind c k.

Definition fault {A} : M A := fun _ => Fault.
Definition diverge {A} : M A := fun _ => Diverge.
Definition get : M State := fun s => Ok s s.
Definition modify (f : State -> State) : M unit := fun s => Ok tt (f s).

(** [*p] for a client pointer [p] *)
Definition load (p : option addr) : M Client :=
  fun s => match p with
           | Some a => match heap s !! a with Some c => Ok c s | None => Fault end
           | None => Fault
           end.

(** assignment to fields of [*p] *)
Definition store (p : option addr) (f : Client -> Client) : M unit :=
  fun s => match p with
           | Some a => match heap s !! a with
                       | Some c => Ok tt (set_heap (<[a := f c]> (heap s)) s)
                       | None => Fault
                       end
           | None => Fault
           end.

(** [*selmon] *)
Definition selmon : M Monitor :=
  fun s => match mons s with Some m => Ok m s | None => Fault end.

(** assignment to fields of [*selmon] *)
Definition setmon (f : Monitor -> Monitor) : M unit :=
  fun s => match mons s with
           | Some m => Ok tt (set_mons (Some (f m)) s)
           | None => Fault
           end.

(** a call of an Xlib request function *)
Definition xreq (r : XRequest) : M unit :=
  modify (fun s => set_xlog (xlog s ++ [r]) s).

(** the bound on the length of a NULL-terminated chain through the heap: a
    traversal that takes more steps than there are records is in a cycle *)
Definition fuel : M nat := fun s => Ok (S (size (heap s))) s.

(** [stderr] output *)
Definition eprint (msg : string) : M unit :=
  modify (fun s => set_stderr (stderr s ++ [msg]) s).

(** [a[i]] for an array of known length and an index of type [unsigned int],
    which is never negative; out of bounds is undefined *)
Definition index {A} (l : list A) (i : Z) : M A :=
  match l !! Z.to_nat i with
  | Some v => mret v
  | None => fault
  end.

(** [calloc(1, sizeof(Client))]: a record of zeroes at an address that is not
    in use *)
Definition zero_client : Client :=
  mkClient 0 0 0 0 0 0 0 0 0 0 0 0 0 None None 0.
Definition calloc_client : M (option addr) :=
  fun s => let a := fresh (dom (heap s)) in
           Ok (Some a) (set_heap (<[a := zero_client]> (heap s)) s).

(** [free(c)] *)
Definition free (c : option addr) : M unit :=
  fun s => match c with
           | Some a => match heap s !! a with
                       | Some _ => Ok tt (set_heap (delete a (heap s)) s)
                       | None => Fault
                       end
           | None => Ok tt s
           end.

(** the attributes [manage] reads from [XWindowAttributes] *)
Record XWindowAttributes := mkAttrs {
  wa_x : Z; wa_y : Z; wa_width : Z; wa_height : Z; wa_border_width : Z;
  wa_override_redirect : Z
}.

(** the layout functions stored in [layouts] *)
Inductive ArrangeFn := ArrTile | ArrMonocle.

Definition layouts : list (string * option ArrangeFn) :=
  [("[T]"%string, Some ArrTile); ("[F]"%string, None); ("[M]"%string, Some ArrMonocle)].

(** the pointer a [Client **] holds: [&mon->clients] or [&mon->stack], or the
    link field of a client *)
Inductive Slot := HeadSlot | LinkSlot (a : addr).

Section Dwm.
Variable cfg : Config.

Definition TAGMASK : Z := Z.shiftl 1 (tags_length cfg) - 1.

(** [C->tags & C->mon->tagset[C->mon->seltags]] *)
Definition ISVISIBLE (c : option addr) : M Z :=
  r ← load c;
  m ← selmon;
  t ← index (m_tagset m) (m_seltags m);
  mret (Z.land (c_tags r) t).

Definition WIDTH (r : Client) : Z := s32 (c_w r + s32 (2 * c_bw r)).
Definition HEIGHT (r : Client) : Z := s32 (c_h r + s32 (2 * c_bw r)).

Definition applyrules (c : option addr) : M unit :=
  m ← selmon;
  t ← index (m_tagset m) (m_seltags m);
  store c (with_tags t).

Definition attach (c : option addr) : M unit :=
  m ← selmon;
  store c (with_next (m_clients m));;
  setmon (with_clients c).

Definition attachstack (c : option addr) : M unit :=
  m ← selmon;
  store c (with_snext (m_stack m));;
  setmon (with_stack c).

Definition configure (c : option addr) : M unit :=
  r ← load c;
  xreq (XSendEvent (c_win r)
          (EvConfigureNotify (c_win r) (c_win r) (c_x r) (c_y r) (c_w r) (c_h r) (c_bw r))).

Definition createmon : M unit :=
  s ← get;
  match mons s with
  | None =>
      modify (set_mons (Some (mkMonitor (mfact cfg) (nmaster cfg) 0 0 0 0 0 0 0 0 0 0
                                [1; 1] (showbar cfg) (topbar cfg) None None None)))
  | Some _ => mret tt
  end.

(** [*tc] and [*tc = p] for the client list *)
Definition read_next (tc : Slot) : M (option addr) :=
  match tc with
  | HeadSlot => m ← selmon; mret (m_clients m)
  | LinkSlot a => r ← load (Some a); mret (c_next r)
  end.
Definition write_next (tc : Slot) (p : option addr) : M unit :=
  match tc with
  | HeadSlot => setmon (with_clients p)
  | LinkSlot a => store (Some a) (with_next p)
  end.

(** [for (tc = &c->mon->clients; *tc && *tc != c; tc = &( *tc)->next);] *)
Fixpoint detach_loop (n : nat) (c : option addr) (tc : Slot) : M Slot :=
  match n with
  | O => diverge
  | S n =>
      p ← read_next tc;
      match p with
      | None => mret tc
      | Some a => if decide (p = c) then mret tc else detach_loop n c (LinkSlot a)
      end
  end.

Definition detach (c : option addr) : M unit :=
  load c;;
  n ← fuel;
  tc ← detach_loop n c HeadSlot;
  r ← load c;
  write_next tc (c_next r).

(** the same for the stack list *)
Definition read_snext (tc : Slot) : M (option addr) :=
  match tc with
  | HeadSlot => m ← selmon; mret (m_stack m)
  | LinkSlot a => r ← load (Some a); mret (c_snext r)
  end.
Definition write_snext (tc : Slot) (p : option addr) : M unit :=
  match tc with
  | HeadSlot => setmon (with_stack p)
  | LinkSlot a => store (Some a) (with_snext p)
  end.

Fixpoint detachstack_loop (n : nat) (c : option addr) (tc : Slot) : M Slot :=
  match n with
  | O => diverge
  | S n =>
      p ← read_snext tc;
      match p with
      | None => mret tc
      | Some a => if decide (p = c) then mret tc else detachstack_loop n c (LinkSlot a)
      end
  end.

(** [for (t = from; t && !ISVISIBLE(t); t = t->snext);], the loop of
    [detachstack] and of [focus] *)
Fixpoint visible_loop (n : nat) (t : option addr) : M (option addr) :=
  match n with
  | O => diverge
  | S n =>
      match t with
      | None => mret None
      | Some _ =>
          v ← ISVISIBLE t;
          if decide (v = 0) then r ← load t; visible_loop n (c_snext r) else mret t
      end
  end.

Definition detachstack (c : option addr) : M unit :=
  load c;;
  n ← fuel;
  tc ← detachstack_loop n c HeadSlot;
  r ← load c;
  write_snext tc (c_snext r);;
  m ← selmon;
  if decide (c = m_sel m) then
    k ← fuel;
    m ← selmon;
    t ← visible_loop k (m_stack m);
    setmon (with_sel t)
  else mret tt.

Definition die {A} (msg : string) : M A :=
  fun s => Exited 1 (set_stderr (stderr s ++ [msg]) s).

Definition focus (c : option addr) : M unit :=
  c ← match c with
      | None => k ← fuel; m ← selmon; visible_loop k (m_stack m)
      | Some _ =>
          v ← ISVISIBLE c;
          if decide (v = 0) then k ← fuel; m ← selmon; visible_loop k (m_stack m)
          else mret c
      end;
  setmon (with_sel c).

(** [for (; c && !ISVISIBLE(c); c = c->next);], the forward loops of
    [focusstack] *)
Fixpoint focusstack_next (n : nat) (c : option addr) : M (option addr) :=
  match n with
  | O => diverge
  | S n =>
      match c with
      | None => mret None
      | Some _ =>
          v ← ISVISIBLE c;
          if decide (v = 0) then r ← load c; focusstack_next n (c_next r) else mret c
      end
  end.

(** [for (i = selmon->clients; i != selmon->sel; i = i->next) if
    (ISVISIBLE(i)) c = i;]: returns [i] and [c] *)
Fixpoint focusstack_before (n : nat) (sel i c : option addr) : M (option addr * option addr) :=
  match n with
  | O => diverge
  | S n =>
      if decide (i = sel) then mret (i, c) else
      v ← ISVISIBLE i;
      r ← load i;
      focusstack_before n sel (c_next r) (if decide (v ≠ 0) then i else c)
  end.

(** [for (; i; i = i->next) if (ISVISIBLE(i)) c = i;] *)
Fixpoint focusstack_after (n : nat) (i c : option addr) : M (option addr) :=
  match n with
  | O => diverge
  | S n =>
      match i with
      | None => mret c
      | Some _ =>
          v ← ISVISIBLE i;
          r ← load i;
          focusstack_after n (c_next r) (if decide (v ≠ 0) then i else c)
      end
  end.

Definition grabbuttons (c : option addr) (focused : Z) : M unit := mret tt.

Definition killclient : M unit :=
  m ← selmon;
  match m_sel m with
  | None => mret tt
  | Some _ => r ← load (m_sel m); xreq (XKillClient (c_win r))
  end.

(** [for (; c && (c->isfloating || !ISVISIBLE(c)); c = c->next); return c;] *)
Fixpoint nexttiled_loop (n : nat) (c : option addr) : M (option addr) :=
  match n with
  | O => diverge
  | S n =>
      match c with
      | None => mret None
      | Some _ =>
          r ← load c;
          if decide (c_isfloating r ≠ 0) then nexttiled_loop n (c_next r)
          else v ← ISVISIBLE c;
               if decide (v = 0) then nexttiled_loop n (c_next r) else mret c
      end
  end.

Definition nexttiled (c : option addr) : M (option addr) :=
  n ← fuel; nexttiled_loop n c.

Definition resize (c : option addr) (x y w h interact : Z) : M unit :=
  if decide (w <= 0 ∨ h <= 0) then mret tt else
  store c (with_geom x y w h);;
  r ← load c;
  xreq (XMoveResizeWindow (c_win r) (c_x r) (c_y r) (c_w r) (c_h r));;
  configure c.

Definition resizeclient (c : option addr) (x y w h : Z) : M unit :=
  resize c x y w h 0.

Definition restack : M unit := mret tt.

Definition focusstack (i : Z) : M unit :=
  m ← selmon;
  match m_sel m with
  | None => mret tt
  | Some _ =>
      c ← (if decide (i > 0) then
             r ← load (m_sel m);
             k ← fuel;
             c ← focusstack_next k (c_next r);
             match c with
             | None => m ← selmon; focusstack_next k (m_clients m)
             | Some _ => mret c
             end
           else
             k ← fuel;
             ic ← focusstack_before k (m_sel m) (m_clients m) None;
             match ic.2 with
             | None => focusstack_after k ic.1 None
             | Some _ => mret ic.2
             end);
      match c with
      | None => mret tt
      | Some _ => focus c;; restack
      end
  end.

Definition setclientstate (c : option addr) (state : Z) : M unit :=
  r ← load c;
  xreq (XChangePropertyWMState (c_win r) state).

(** [showhide] recurses along [snext]; [n] bounds the depth *)
Fixpoint showhide_rec (n : nat) (c : option addr) : M unit :=
  match n with
  | O => diverge
  | S n =>
      match c with
      | None => mret tt
      | Some _ =>
          v ← ISVISIBLE c;
          if decide (v ≠ 0) then
            r ← load c;
            xreq (XMoveWindow (c_win r) (c_x r) (c_y r));;
            m ← selmon;
            f ← match m_sel m with
                | None => mret 0
                | Some _ => q ← load (m_sel m); mret (c_isfloating q)
                end;
            (if decide (f ≠ 0) then
               r ← load c; resize c (c_x r) (c_y r) (c_w r) (c_h r) 0
             else mret tt);;
            r ← load c;
            showhide_rec n (c_snext r)
          else
            r ← load c;
            showhide_rec n (c_snext r);;
            r ← load c;
            xreq (XMoveWindow (c_win r) (s32 (WIDTH r * -2)) (c_y r))
      end
  end.

Definition showhide (c : option addr) : M unit :=
  n ← fuel; showhide_rec n c.

(** [for (n = 0, c = nexttiled(m->clients); c; c = nexttiled(c->next), n++);] *)
Fixpoint tile_count (k : nat) (c : option addr) (n : Z) : M Z :=
  match k with
  | O => diverge
  | S k =>
      match c with
      | None => mret n
      | Some _ => r ← load c; c' ← nexttiled (c_next r); tile_count k c' (u32 (n + 1))
      end
  end.

(** [MIN(n, m->nmaster)], compared and selected as [unsigned int] *)
Definition MIN_u (n nm : Z) : Z := if decide (n < u32 nm) then n else u32 nm.

(** unsigned division *)
Definition udiv (a b : Z) : M Z :=
  if decide (b = 0) then fault else mret (a / b).

(** the second loop of [tile]; [i], [my] and [ty] are [unsigned int] *)
Fixpoint tile_loop (k : nat) (m : Monitor) (n mw : Z) (c : option addr) (i my ty : Z)
  : M unit :=
  match k with
  | O => diverge
  | S k =>
      match c with
      | None => mret tt
      | Some _ =>
          if decide (i < u32 (m_nmaster m)) then
            h ← udiv (u32 (m_wh m - my)) (u32 (MIN_u n (m_nmaster m) - i));
            r ← load c;
            resize c (m_wx m) (s32 (u32 (m_wy m + my)))
                   (s32 (u32 (mw - s32 (2 * c_bw r))))
                   (s32 (u32 (h - s32 (2 * c_bw r)))) 0;;
            r ← load c;
            c' ← nexttiled (c_next r);
            tile_loop k m n mw c' (u32 (i + 1)) (u32 (my + HEIGHT r)) ty
          else
            h ← udiv (u32 (m_wh m - ty)) (u32 (n - i));
            r ← load c;
            resize c (s32 (u32 (m_wx m + mw))) (s32 (u32 (m_wy m + ty)))
                   (s32 (u32 (m_ww m - mw - s32 (2 * c_bw r))))
                   (s32 (u32 (h - s32 (2 * c_bw r)))) 0;;
            r ← load c;
            c' ← nexttiled (c_next r);
            tile_loop k m n mw c' (u32 (i + 1)) my (u32 (ty + HEIGHT r))
      end
  end.

(** the value assigned to [mw]: [m->nmaster ? m->ww * m->mfact : 0] is a
    [float] converted to [unsigned int] *)
Definition tile_mw (m : Monitor) (n : Z) : M Z :=
  if decide (n > u32 (m_nmaster m)) then
    if decide (m_nmaster m ≠ 0) then
      match F32.to_uint (F32.mul (F32.of_int (m_ww m)) (m_mfact m)) with
      | Some v => mret v
      | None => fault
      end
    else mret 0
  else mret (u32 (m_ww m)).

Definition tile : M unit :=
  m ← selmon;
  k ← fuel;
  c ← nexttiled (m_clients m);
  n ← tile_count k c 0;
  if decide (n = 0) then mret tt else
  mw ← tile_mw m n;
  c ← nexttiled (m_clients m);
  tile_loop k m n mw c 0 0 0.

(** [for (c = m->clients; c; c = c->next) if (ISVISIBLE(c)) n++;] *)
Fixpoint monocle_count (k : nat) (c : option addr) (n : Z) : M Z :=
  match k with
  | O => diverge
  | S k =>
      match c with
      | None => mret n
      | Some _ =>
          v ← ISVISIBLE c;
          r ← load c;
          monocle_count k (c_next r) (if decide (v ≠ 0) then u32 (n + 1) else n)
      end
  end.

Fixpoint monocle_loop (k : nat) (m : Monitor) (c : option addr) : M unit :=
  match k with
  | O => diverge
  | S k =>
      match c with
      | None => mret tt
      | Some _ =>
          r ← load c;
          resize c (m_wx m) (m_wy m) (s32 (m_ww m - s32 (2 * c_bw r)))
                 (s32 (m_wh m - s32 (2 * c_bw r))) 0;;
          r ← load c;
          c' ← nexttiled (c_next r);
          monocle_loop k m c'
      end
  end.

Definition monocle : M unit :=
  m ← selmon;
  k ← fuel;
  n ← monocle_count k (m_clients m) 0;
  if decide (n > 0) then
    c ← nexttiled (m_clients m);
    monocle_loop k m c
  else mret tt.

Definition arrange : M unit :=
  m ← selmon;
  showhide (m_stack m);;
  m ← selmon;
  l ← index layouts (m_sellt m);
  match l.2 with
  | Some ArrTile => tile
  | Some ArrMonocle => monocle
  | None => mret tt
  end;;
  restack.

Definition manage (w : Z) (wa : XWindowAttributes) : M unit :=
  c ← calloc_client;
  store c (fun _ => mkClient (wa_x wa) (wa_y wa) (wa_width wa) (wa_height wa)
                             (wa_x wa) (wa_y wa) (wa_width wa) (wa_height wa)
                             (borderpx cfg) (wa_border_width wa) 0 0 0 None None w);;
  applyrules c;;
  attach c;;
  attachstack c;;
  xreq (XSelectInput w);;
  grabbuttons c 0;;
  r ← load c;
  xreq (XMoveResizeWindow (c_win r) (c_x r) (c_y r) (c_w r) (c_h r));;
  setclientstate c NormalState;;
  configure c;;
  xreq (XMapWindow (c_win r));;
  focus c;;
  arrange.

Definition quit : M unit := modify (set_running 0).

Definition updateclientlist : M unit := mret tt.

Definition unmanage (c : option addr) (destroyed : Z) : M unit :=
  load c;;
  detach c;;
  detachstack c;;
  (if decide (destroyed = 0) then
     xreq XGrabServer;;
     r ← load c;
     xreq (XUngrabButton (c_win r));;
     setclientstate c WithdrawnState;;
     xreq XSync;;
     xreq XUngrabServer
   else mret tt);;
  free c;;
  focus None;;
  updateclientlist;;
  arrange.

Definition updategeom : M Z :=
  s ← get;
  (match mons s with None => createmon | Some _ => mret tt end);;
  s ← get;
  setmon (with_screen (sw s) (sh s));;
  mret 1.

Definition setmfact (arg : option spec_float) : M unit :=
  s ← get;
  match arg, mons s with
  | Some a, Some m =>
      let f := if F64.ltb (F64.of_float a) (F64.of_int 1)
               then F32.add a (m_mfact m)
               else F32.of_double (F64.sub (F64.of_float a) (F64.of_int 1)) in
      if F64.ltb (F64.of_float f) (F64.of_decimal 1 1)
         || F64.ltb (F64.of_decimal 9 1) (F64.of_float f)
      then mret tt
      else setmon (with_mfact f);; arrange
  | _, _ => mret tt
  end.

(** [arg] is the index of the entry of [layouts] the argument points to, or
    [None] when the argument or its pointer is NULL *)
Definition setlayout (arg : option Z) : M unit :=
  match arg with
  | None => m ← selmon; setmon (with_sellt (Z.lxor (m_sellt m) 1))
  | Some i => setmon (with_sellt (u32 i))
  end;;
  arrange.

Definition updatebars : M unit := mret tt.

Definition configurenotify : M unit :=
  updategeom;;
  updatebars.

(** [selmon->tagset[selmon->seltags] = v] *)
Definition set_tagset (v : Z) : M unit :=
  m ← selmon;
  index (m_tagset m) (m_seltags m);;
  setmon (with_tagset (<[Z.to_nat (m_seltags m) := v]> (m_tagset m))).

Definition tag (ui : Z) : M unit :=
  m ← selmon;
  if decide (m_sel m ≠ None ∧ Z.land ui TAGMASK ≠ 0) then
    store (m_sel m) (with_tags (Z.land ui TAGMASK));;
    focus None;;
    arrange
  else mret tt.

Definition togglefloating : M unit :=
  m ← selmon;
  match m_sel m with
  | None => mret tt
  | Some _ =>
      r ← load (m_sel m);
      store (m_sel m)
            (with_isfloating (if decide (c_isfloating r = 0 ∨ c_isfixed r ≠ 0) then 1 else 0));;
      r ← load (m_sel m);
      (if decide (c_isfloating r ≠ 0) then
         resize (m_sel m) (c_x r) (c_y r) (c_w r) (c_h r) 0
       else mret tt);;
      arrange
  end.

Definition toggletag (ui : Z) : M unit :=
  m ← selmon;
  match m_sel m with
  | None => mret tt
  | Some _ =>
      r ← load (m_sel m);
      let newtags := Z.lxor (c_tags r) (Z.land ui TAGMASK) in
      if decide (newtags ≠ 0) then
        store (m_sel m) (with_tags newtags);;
        focus None;;
        arrange
      else mret tt
  end.

Definition toggleview (ui : Z) : M unit :=
  m ← selmon;
  t ← index (m_tagset m) (m_seltags m);
  let newtagset := Z.lxor t (Z.land ui TAGMASK) in
  if decide (newtagset ≠ 0) then
    set_tagset newtagset;;
    focus None;;
    arrange
  else mret tt.

Definition view (ui : Z) : M unit :=
  m ← selmon;
  t ← index (m_tagset m) (m_seltags m);
  if decide (Z.land ui TAGMASK = t) then mret tt else
  setmon (with_seltags (Z.lxor (m_seltags m) 1));;
  (if decide (Z.land ui TAGMASK ≠ 0) then set_tagset (Z.land ui TAGMASK) else mret tt);;
  focus None;;
  arrange.
End Dwm.

(** [wintoclient]: the inner loop along the client list; the outer loop over
    the monitors runs once at most *)
Fixpoint wintoclient_loop (n : nat) (w : Z) (c : option addr) : M (option addr) :=
  match n with
  | O => diverge
  | S n =>
      match c with
      | None => mret None
      | Some _ =>
          r ← load c;
          if decide (c_win r = w) then mret c else wintoclient_loop n w (c_next r)
      end
  end.

Definition wintoclient (w : Z) : M (option addr) :=
  s ← get;
  match mons s with
  | None => mret None
  | Some m => n ← fuel; wintoclient_loop n w (m_clients m)
  end.

(** ** The X error handler *)

(** error codes of [X11/X.h] and request codes of [X11/Xproto.h] *)
Definition BadWindow : Z := 3.
Definition BadMatch : Z := 8.
Definition BadDrawable : Z := 9.
Definition BadAccess : Z := 10.
Definition BadAlloc : Z := 11.
Definition X_CreateWindow : Z := 1.
Definition X_ConfigureWindow : Z := 12.
Definition X_GrabButton : Z := 28.
Definition X_GrabKey : Z := 33.
Definition X_SetInputFocus : Z := 42.
Definition X_CopyArea : Z := 62.
Definition X_PolySegment : Z := 66.
Definition X_PolyFillRectangle : Z := 70.
Definition X_PolyText8 : Z := 74.

Definition newline : string := String (Ascii.ascii_of_nat 10) EmptyString.

(** the condition under which [xerror] returns 0 *)
Definition xerror_ignored (ee : XErrorEvent) : Prop :=
  error_code ee = BadWindow
  ∨ (request_code ee = X_SetInputFocus ∧ error_code ee = BadMatch)
  ∨ (request_code ee = X_PolyText8 ∧ error_code ee = BadDrawable)
  ∨ (request_code ee = X_PolyFillRectangle ∧ error_code ee = BadDrawable)
  ∨ (request_code ee = X_PolySegment ∧ error_code ee = BadDrawable)
  ∨ (request_code ee = X_ConfigureWindow ∧ error_code ee = BadMatch)
  ∨ (request_code ee = X_GrabButton ∧ error_code ee = BadAccess)
  ∨ (request_code ee = X_GrabKey ∧ error_code ee = BadAccess)
  ∨ (request_code ee = X_CopyArea ∧ error_code ee = BadDrawable).

Definition xerror_message (ee : XErrorEvent) : string :=
  "dwm: fatal error: request code=" +:+ pretty (request_code ee)
  +:+ ", error code=" +:+ pretty (error_code ee) +:+ newline.

(** [xerrorxlib(dpy, ee)]: a call through the function pointer *)
Definition call_xerrorxlib (ee : XErrorEvent) : M Z :=
  s ← get;
  match xerrorxlib s with
  | Some handler => mret (handler ee)
  | None => fault
  end.

Definition xerror (ee : XErrorEvent) : M Z :=
  if decide (xerror_ignored ee) then mret 0 else
  eprint (xerror_message ee);;
  call_xerrorxlib ee.

(** ** [main] *)

(** What [main] meets outside the program: whether [setlocale] and
    [XSupportsLocale] succeed, whether [XOpenDisplay] returns a display, and
    the session, that is what [setup], [scan], [run], [cleanup] and
    [XCloseDisplay] do on that display. *)
Record Env := mkEnv {
  locale_ok : bool;
  display_ok : bool;
  session : M unit
}.

Definition EXIT_SUCCESS : Z := 0.

Definition main (argv : list string) (env : Env) : M Z :=
  (if decide (length argv = 2%nat ∧ argv !! 1%nat = Some "-v"%string)
   then die ("dwm-minimal-1.0" +:+ newline)
   else if decide (length argv ≠ 1%nat)
        then die ("usage: dwm [-v]" +:+ newline)
        else mret tt);;
  (if locale_ok env then mret tt
   else eprint ("warning: no locale support" +:+ newline));;
  (if display_ok env then mret tt
   else die ("dwm: cannot open display" +:+ newline));;
  session env;;
  mret EXIT_SUCCESS.

(** the state of the process when [main] is entered: static storage is
    zero-initialised except for [running] *)
Definition boot : State := mkState ∅ None 1 0 0 None [] [].

(** [setup] on a display whose screen is [width] by [height].  The calls
    that only talk to the X server or to the operating system ([sigchld],
    [XInternAtom], [XSetErrorHandler], [XSync], [XSelectInput] on the root,
    [grabkeys]) assign none of the globals modelled here and are not logged;
    in particular the handler that [XSetErrorHandler] returns is dropped, not
    stored in [xerrorxlib]. *)
Definition setup (cfg : Config) (width height : Z) : M unit :=
  modify (set_screen width height);;
  updategeom cfg;;
  createmon cfg.

(** * Specification vocabulary *)

(** [chain nxt h p l]: following the link [nxt] from the pointer [p] through
    the heap [h] visits the addresses [l] in this order and ends at NULL. *)
Fixpoint chain (nxt : Client -> option addr) (h : gmap addr Client)
         (p : option addr) (l : list addr) : Prop :=
  match l with
  | [] => p = None
  | a :: l' => p = Some a ∧ ∃ c, h !! a = Some c ∧ chain nxt h (nxt c) l'
  end.

(** the tags a monitor views: [m->tagset[m->seltags]] *)
Definition viewed (m : Monitor) : option Z := m_tagset m !! Z.to_nat (m_seltags m).

(** [ISVISIBLE] and the condition [nexttiled] looks for, on the heap [h]
    when the monitor views the tags [t] *)
Definition visible_b (h : gmap addr Client) (t : Z) (a : addr) : bool :=
  match h !! a with
  | Some c => negb (Z.land (c_tags c) t =? 0)
  | None => false
  end.
Definition tiled_b (h : gmap addr Client) (t : Z) (a : addr) : bool :=
  match h !! a with
  | Some c => (c_isfloating c =? 0) && negb (Z.land (c_tags c) t =? 0)
  | None => false
  end.

(** the first visible client of a list *)
Definition first_visible (h : gmap addr Client) (t : Z) (l : list addr) : option addr :=
  List.find (visible_b h t) l.

(** two records that differ in their geometry at most *)
Definition same_links (c c' : Client) : Prop :=
  c' = with_geom (c_x c') (c_y c') (c_w c') (c_h c') c.

(** two heaps with the same addresses whose records differ in their geometry
    at most *)
Definition geom_only (h h' : gmap addr Client) : Prop :=
  ∀ a, match h !! a, h' !! a with
       | Some c, Some c' => same_links c c'
       | None, None => True
       | _, _ => False
       end.

(** what a re-arrangement may change: the geometry of clients and the
    request log *)
Record frame (s s' : State) : Prop := mkFrame {
  fr_heap : geom_only (heap s) (heap s');
  fr_mons : mons s' = mons s;
  fr_running : running s' = running s;
  fr_sw : sw s' = sw s;
  fr_sh : sh s' = sh s;
  fr_xerrorxlib : xerrorxlib s' = xerrorxlib s;
  fr_stderr : stderr s' = stderr s
}.

(** The states the window manager works on: the monitor [m] exists, its
    client list holds the addresses [cl] and its stack list the addresses
    [sl], the same clients in both; the selected client is on the stack; the
    indices into [tagset] and [layouts] are in bounds; there are fewer
    clients than an [unsigned int] counts. *)
Record wf (s : State) (m : Monitor) (cl sl : list addr) : Prop := mkWf {
  wf_mons : mons s = Some m;
  wf_clients : chain c_next (heap s) (m_clients m) cl;
  wf_stack : chain c_snext (heap s) (m_stack m) sl;
  wf_perm : cl ≡ₚ sl;
  wf_sel : ∀ a, m_sel m = Some a → a ∈ sl;
  wf_tagset : length (m_tagset m) = 2%nat;
  wf_seltags : m_seltags m = 0 ∨ m_seltags m = 1;
  wf_sellt : 0 <= m_sellt m < 3;
  wf_size : Z.of_nat (size (heap s)) < 2 ^ 32
}.

(** the client [focus c] selects *)
Definition focus_target (h : gmap addr Client) (t : Z) (sl : list addr) (c : option addr)
  : option addr :=
  match c with
  | Some a => if visible_b h t a then c else first_visible h t sl
  | None => first_visible h t sl
  end.

(** the part of a client list that [nexttiled] returns the head of *)
Fixpoint skip_untiled (h : gmap addr Client) (t : Z) (l : list addr) : list addr :=
  match l with
  | [] => []
  | a :: l' => if tiled_b h t a then l else skip_untiled h t l'
  end.

(** the number of tiled clients of a list *)
Definition tiled_count (h : gmap addr Client) (t : Z) (l : list addr) : Z :=
  Z.of_nat (length (List.filter (tiled_b h t) l)).

(** the conversion of the master width to [unsigned int] in [tile] is defined *)
Definition mw_defined (m : Monitor) : Prop :=
  is_Some (F32.to_uint (F32.mul (F32.of_int (m_ww m)) (m_mfact m))).

(** what [view] makes of the monitor when it does not return early, the
    selection apart; [a] is the masked argument *)
Definition view_mon (a : Z) (m : Monitor) : Monitor :=
  let m1 := with_seltags (Z.lxor (m_seltags m) 1) m in
  if decide (a ≠ 0)
  then with_tagset (<[Z.to_nat (m_seltags m1) := a]> (m_tagset m1)) m1
  else m1.

(** what [toggleview] makes of the monitor when the new tag set is not empty *)
Definition toggleview_mon (newtagset : Z) (m : Monitor) : Monitor :=
  with_tagset (<[Z.to_nat (m_seltags m) := newtagset]> (m_tagset m)) m.

(** the monitor and the state that [setup] leaves *)
Definition initial_monitor (cfg : Config) (width height : Z) : Monitor :=
  mkMonitor (mfact cfg) (nmaster cfg) 0 0 width height 0 0 width height 0 0 [1; 1]
            (showbar cfg) (topbar cfg) None None None.
Definition initial_state (cfg : Config) (width height : Z) : State :=
  mkState ∅ (Some (initial_monitor cfg width height)) 1 width height None [] [].

(** the tags the monitor views when a computation has returned *)
Definition viewed_after {A} (o : outcome A) : option Z :=
  match o with
  | Ok _ s => match mons s with Some m => viewed m | None => None end
  | _ => None
  end.

(** the entry of [tagset] that is not selected *)
Definition previous_view (m : Monitor) : option Z :=
  m_tagset m !! Z.to_nat (Z.lxor (m_seltags m) 1).

(** C3 as it is worded: after [view(A); view(B); view(0)] the monitor views
    [B]. *)
Definition claimed_view_previous (cfg : Config) (s : State) (A B : Z) : Prop :=
  ∀ m t, mons s = Some m -> viewed m = Some t ->
    Z.land A (TAGMASK cfg) ≠ 0 -> Z.land B (TAGMASK cfg) ≠ 0 ->
    Z.land A (TAGMASK cfg) ≠ Z.land B (TAGMASK cfg) ->
    Z.land A (TAGMASK cfg) ≠ t -> Z.land B (TAGMASK cfg) ≠ t ->
    viewed_after ((view cfg A;; view cfg B;; view cfg 0) s) = Some (Z.land B (TAGMASK cfg)).

(** a configuration with nine tags, [mfact] 0.55, one master and a border of
    one pixel *)
Definition config9 : Config := mkConfig 9 (F32.of_decimal 55 2) 1 1 1 1.

(** ** Runs of the window manager *)

(** the calls that key bindings and X events lead to *)
Inductive Action :=
| AView (ui : Z)
| AToggleView (ui : Z)
| ATag (ui : Z)
| AToggleTag (ui : Z)
| ASetMfact (arg : option spec_float)
| AKillClient
| AToggleFloating
| AQuit
| AFocusStack (i : Z)
| ASetLayout (arg : option Z)
| AConfigureNotify
| AManage (w : Z) (wa : XWindowAttributes)
| AUnmanage (c : option addr) (destroyed : Z).

Definition perform (cfg : Config) (a : Action) : M unit :=
  match a with
  | AView ui => view cfg ui
  | AToggleView ui => toggleview cfg ui
  | ATag ui => tag cfg ui
  | AToggleTag ui => toggletag cfg ui
  | ASetMfact arg => setmfact arg
  | AKillClient => killclient
  | AToggleFloating => togglefloating
  | AQuit => quit
  | AFocusStack i => focusstack i
  | ASetLayout arg => setlayout arg
  | AConfigureNotify => configurenotify cfg
  | AManage w wa => manage cfg w wa
  | AUnmanage c destroyed => unmanage c destroyed
  end.

(** the states reached from [setup] on a [width] by [height] screen by calls
    that return *)
Inductive Reachable (cfg : Config) (width height : Z) : State -> Prop :=
| Reachable_setup s :
    setup cfg width height boot = Ok tt s -> Reachable cfg width height s
| Reachable_step s a s' :
    Reachable cfg width height s -> perform cfg a s = Ok tt s' ->
    Reachable cfg width height s'.

(** [tagset] and [seltags] of the monitor *)
Definition tagstate (s : State) : option (list Z * Z) :=
  match mons s with
  | Some m => Some (m_tagset m, m_seltags m)
  | None => None
  end.

(** a computation that, when it returns, leaves the part [proj] of the state
    as it was *)
Definition keeps {X A} (proj : State -> X) (c : M A) : Prop :=
  ∀ s a s', c s = Ok a s' -> proj s' = proj s.

(** a part of the state that does not depend on the heap, on [running], on
    the request log, on stderr, nor on the fields [sel], [clients], [stack]
    [mfact] and [sellt] of the monitor nor on its rectangles *)
Record Projection {X} (proj : State -> X) : Prop := mkProjection {
  proj_heap : ∀ h s, proj (set_heap h s) = proj s;
  proj_running : ∀ r s, proj (set_running r s) = proj s;
  proj_xlog : ∀ l s, proj (set_xlog l s) = proj s;
  proj_stderr : ∀ l s, proj (set_stderr l s) = proj s;
  proj_sel : ∀ p m s, mons s = Some m -> proj (set_mons (Some (with_sel p m)) s) = proj s;
  proj_clients :
    ∀ p m s, mons s = Some m -> proj (set_mons (Some (with_clients p m)) s) = proj s;
  proj_stack :
    ∀ p m s, mons s = Some m -> proj (set_mons (Some (with_stack p m)) s) = proj s;
  proj_mfact :
    ∀ f m s, mons s = Some m -> proj (set_mons (Some (with_mfact f m)) s) = proj s;
  proj_sellt :
    ∀ l m s, mons s = Some m -> proj (set_mons (Some (with_sellt l m)) s) = proj s;
  proj_screen :
    ∀ w h m s, mons s = Some m -> proj (set_mons (Some (with_screen w h m)) s) = proj s
}.

(** both entries of [tagset] are non-zero and [seltags] selects one of them *)
Definition tags_nonzero (s : State) : Prop :=
  ∃ t0 t1 i, tagstate s = Some ([t0; t1], i) ∧ t0 ≠ 0 ∧ t1 ≠ 0 ∧ (i = 0 ∨ i = 1).

(** the status a run of [main] leaves the process with: the argument of
    [exit] or the value [main] returns *)
Definition exit_status (o : outcome Z) : option Z :=
  match o with
  | Ok v _ => Some v
  | Exited n _ => Some n
  | _ => None
  end.

(** an environment with a supported locale, a display that opens and a
    session that ends at once *)
Definition quiet_env : Env := mkEnv true true (mret tt).

(** the [WM_PROTOCOLS] property of each window, which is held by the X
    server: the atoms the window lists *)
Definition Protocols := Z -> list string.

(** C7 as it is worded: without a selected client nothing happens; a selected
    client that lists [WM_DELETE_WINDOW] gets a client message, any other is
    killed. *)
Definition claimed_killclient (protocols : Protocols) (s : State) : Prop :=
  ∀ m, mons s = Some m ->
    match m_sel m with
    | None => killclient s = Ok tt s
    | Some a =>
        ∀ r, heap s !! a = Some r ->
          killclient s
          = Ok tt (set_xlog
                     (xlog s ++
                        [if decide ("WM_DELETE_WINDOW"%string ∈ protocols (c_win r))
                         then XSendEvent (c_win r)
                                (EvClientMessage (c_win r) "WM_PROTOCOLS" "WM_DELETE_WINDOW")
                         else XKillClient (c_win r)]) s)
    end.

(** a state with one managed window, 101, which is selected *)
Definition one_client_monitor : Monitor :=
  mkMonitor (F32.of_decimal 55 2) 1 0 0 1000 800 0 0 1000 800 0 0 [1; 1] 1 1
            (Some 1%positive) (Some 1%positive) (Some 1%positive).
Definition one_client_state : State :=
  mkState {[ 1%positive := mkClient 0 0 998 798 10 20 300 200 1 0 1 0 0 None None 101 ]}
          (Some one_client_monitor) 1 1000 800 None [] [].

(** the [double] constants of [setmfact] and of its description *)
Definition d_1_0 : spec_float := F64.of_int 1.
Definition d_0_1 : spec_float := F64.of_decimal 1 1.
Definition d_0_9 : spec_float := F64.of_decimal 9 1.
Definition d_0_05 : spec_float := F64.of_decimal 5 2.
Definition d_0_95 : spec_float := F64.of_decimal 95 2.

(** the factor [f] an argument [a] asks for: an argument of at least 1.0 is
    absolute and stands for itself less 1.0, a smaller one is added to the
    current factor *)
Definition requested_mfact (a : spec_float) (m : Monitor) (f : spec_float) : Prop :=
  (SFleb d_1_0 (F64.of_float a) = true ∧ f = F32.of_double (F64.sub (F64.of_float a) d_1_0))
  ∨ (SFltb (F64.of_float a) d_1_0 = true ∧ f = F32.add a (m_mfact m)).

(** C4 as it is worded: a requested factor within [0.05, 0.95] is stored. *)
Definition claimed_setmfact (s : State) (a : spec_float) : Prop :=
  ∀ m f, mons s = Some m -> requested_mfact a m f ->
    SFleb d_0_05 (F64.of_float f) = true ->
    SFleb (F64.of_float f) d_0_95 = true ->
    ∃ s' m', setmfact (Some a) s = Ok tt s' ∧ mons s' = Some m' ∧ m_mfact m' = f.

(** the state after [setup] on a 1000 by 800 screen and the mapping of the
    windows 101 and then 102 (see [two_client_state_reached]) *)
Definition two_client_monitor : Monitor :=
  mkMonitor (F32.of_decimal 55 2) 1 0 0 1000 800 0 0 1000 800 0 0 [1; 1] 1 1
            (Some 2%positive) (Some 2%positive) (Some 2%positive).
Definition two_client_state : State :=
  mkState
    (<[2%positive := mkClient 0 0 548 798 30 40 300 200 1 0 1 0 0
                              (Some 1%positive) (Some 1%positive) 102]>
       (<[1%positive := mkClient 550 0 448 798 10 20 300 200 1 0 1 0 0 None None 101]> ∅))
    (Some two_client_monitor) 1 1000 800 None
    [XSelectInput 101; XMoveResizeWindow 101 10 20 300 200; XChangePropertyWMState 101 1;
     XSendEvent 101 (EvConfigureNotify 101 101 10 20 300 200 1); XMapWindow 101;
     XMoveWindow 101 10 20; XMoveResizeWindow 101 0 0 998 798;
     XSendEvent 101 (EvConfigureNotify 101 101 0 0 998 798 1);
     XSelectInput 102; XMoveResizeWindow 102 30 40 300 200; XChangePropertyWMState 102 1;
     XSendEvent 102 (EvConfigureNotify 102 102 30 40 300 200 1); XMapWindow 102;
     XMoveWindow 102 30 40; XMoveWindow 101 0 0; XMoveResizeWindow 102 0 0 548 798;
     XSendEvent 102 (EvConfigureNotify 102 102 0 0 548 798 1);
     XMoveResizeWindow 101 550 0 448 798;
     XSendEvent 101 (EvConfigureNotify 101 101 550 0 448 798 1)]
    [].

(** C8 as it is worded: two calls of [toggletag] with the same argument give
    the client that was selected its tags back, when neither exclusive or is
    empty. *)
Definition claimed_toggletag_twice (cfg : Config) (s : State) (ui : Z) : Prop :=
  ∀ m c r, mons s = Some m -> m_sel m = Some c -> heap s !! c = Some r ->
    Z.lxor (c_tags r) (Z.land ui (TAGMASK cfg)) ≠ 0 ->
    Z.lxor (Z.lxor (c_tags r) (Z.land ui (TAGMASK cfg))) (Z.land ui (TAGMASK cfg)) ≠ 0 ->
    ∃ s2 r2, (toggletag cfg ui;; toggletag cfg ui) s = Ok tt s2
             ∧ heap s2 !! c = Some r2 ∧ c_tags r2 = c_tags r.

(** the slot the loop of [detach] and [detachstack] stops at when it started
    at [tc] and passed the clients [l1] *)
Definition final_slot (tc : Slot) (l1 : list addr) : Slot :=
  match last l1 with
  | Some b => LinkSlot b
  | None => tc
  end.

(** the rectangle [(x, y, w, h)] a client record holds *)
Definition geometry (r : Client) : Z * Z * Z * Z := (c_x r, c_y r, c_w r, c_h r).

(** C2 as it is worded: after the windows [w1] and then [w2] are mapped on a
    1000 by 800 screen, the client of [w1] is at (0, 0, 548, 798) and the
    client of [w2] at (550, 0, 448, 798). *)
Definition claimed_tile_two (cfg : Config) (w1 w2 : Z) (wa1 wa2 : XWindowAttributes) : Prop :=
  ∃ s c1 c2 r1 r2,
    (manage cfg w1 wa1;; manage cfg w2 wa2) (initial_state cfg 1000 800) = Ok tt s
    ∧ wintoclient w1 s = Ok c1 s ∧ load c1 s = Ok r1 s
    ∧ wintoclient w2 s = Ok c2 s ∧ load c2 s = Ok r2 s
    ∧ geometry r1 = (0, 0, 548, 798)
    ∧ geometry r2 = (550, 0, 448, 798).

(** ** Well-formed states and admissible calls *)

(** a well-formed state on which [tile] can compute the master width *)
Definition good (s : State) : Prop :=
  ∃ m cl sl, wf s m cl sl ∧ mw_defined m.

(** the value [setmfact] computes from its argument *)
Definition setmfact_value (a : spec_float) (m : Monitor) : spec_float :=
  if F64.ltb (F64.of_float a) (F64.of_int 1)
  then F32.add a (m_mfact m)
  else F32.of_double (F64.sub (F64.of_float a) (F64.of_int 1)).

(** The calls that keep a good state good: a new factor is rejected or gives
    a master width that fits; the layout index stays within [layouts]; the
    screen gives a master width that fits; there is room for one more
    client; the client to unmanage is managed. *)
Definition admissible (a : Action) (s : State) : Prop :=
  match a with
  | ASetMfact (Some x) =>
      ∀ m, mons s = Some m ->
        F64.ltb (F64.of_float (setmfact_value x m)) (F64.of_decimal 1 1)
        || F64.ltb (F64.of_decimal 9 1) (F64.of_float (setmfact_value x m)) = true
        ∨ mw_defined (with_mfact (setmfact_value x m) m)
  | ASetLayout None => ∀ m, mons s = Some m -> m_sellt m ≠ 2
  | ASetLayout (Some i) => 0 <= u32 i < 3
  | AConfigureNotify => ∀ m, mons s = Some m -> mw_defined (with_screen (sw s) (sh s) m)
  | AManage _ _ => Z.of_nat (size (heap s)) + 1 < 2 ^ 32
  | AUnmanage c _ =>
      ∃ a m l, c = Some a ∧ mons s = Some m
               ∧ chain c_next (heap s) (m_clients m) l ∧ a ∈ l
  | _ => True
  end.

(** the record of a client that [manage] has set up, before [focus] and
    [arrange] run *)
Definition managed_client (cfg : Config) (m : Monitor) (t : Z) (w : Z)
           (wa : XWindowAttributes) : Client :=
  mkClient (wa_x wa) (wa_y wa) (wa_width wa) (wa_height wa)
           (wa_x wa) (wa_y wa) (wa_width wa) (wa_height wa)
           (borderpx cfg) (wa_border_width wa) t 0 0 (m_clients m) (m_stack m) w.

(** the state in which [manage] calls [focus]: the new client is at a fresh
    address and heads both lists *)
Definition managed_state (cfg : Config) (s : State) (m : Monitor) (t : Z) (w : Z)
           (wa : XWindowAttributes) : State :=
  let a := fresh (dom (heap s)) in
  mkState (<[a := managed_client cfg m t w wa]> (heap s))
          (Some (with_stack (Some a) (with_clients (Some a) m)))
          (running s) (sw s) (sh s) (xerrorxlib s)
          (xlog s ++ [XSelectInput w;
                      XMoveResizeWindow w (wa_x wa) (wa_y wa) (wa_width wa) (wa_height wa);
                      XChangePropertyWMState w NormalState;
                      XSendEvent w (EvConfigureNotify w w (wa_x wa) (wa_y wa) (wa_width wa)
                                      (wa_height wa) (borderpx cfg));
                      XMapWindow w])
          (stderr s).

(** two heaps with the same addresses whose records are related by [R] *)
Definition heap_rel (R : Client -> Client -> Prop) (h h' : gmap addr Client) : Prop :=
  ∀ a, match h !! a, h' !! a with
       | Some c, Some c' => R c c'
       | None, None => True
       | _, _ => False
       end.

(** two records that differ in [next], respectively [snext], at most *)
Definition next_differs (c c' : Client) : Prop := c' = with_next (c_next c') c.
Definition snext_differs (c c' : Client) : Prop := c' = with_snext (c_snext c') c.

(** the last visible client of a list, [acc] when there is none: what the
    backward search of [focusstack] keeps in [c] *)
Definition last_visible (h : gmap addr Client) (t : Z) (l : list addr) (acc : option addr)
  : option addr :=
  fold_left (fun c a => if visible_b h t a then Some a else c) l acc.

(** * The event handlers

    The handlers of the events that add or remove clients.  The fields of
    the event a handler reads are its arguments. *)

(** [destroynotify] *)
Definition destroynotify (window : Z) : M unit :=
  c ← wintoclient window;
  match c with
  | Some _ => unmanage c 1
  | None => mret tt
  end.

(** [unmapnotify] *)
Definition unmapnotify (window : Z) (send_event : Z) : M unit :=
  c ← wintoclient window;
  match c with
  | Some _ =>
      if decide (send_event ≠ 0) then setclientstate c WithdrawnState else unmanage c 0
  | None => mret tt
  end.


(** the modifier masks of [X11/X.h] *)
Definition ShiftMask : Z := 1.
Definition LockMask : Z := 2.
Definition ControlMask : Z := 4.
Definition Mod1Mask : Z := 8.
Definition Mod2Mask : Z := 16.
Definition Mod3Mask : Z := 32.
Definition Mod4Mask : Z := 64.
Definition Mod5Mask : Z := 128.

(** [CLEANMASK(mask)]; the global [numlockmask] it reads is an argument *)
Definition CLEANMASK (numlockmask mask : Z) : Z :=
  Z.land (Z.land mask (Z.lnot (Z.lor numlockmask LockMask)))
         (Z.lor ShiftMask (Z.lor ControlMask (Z.lor Mod1Mask (Z.lor Mod2Mask
            (Z.lor Mod3Mask (Z.lor Mod4Mask Mod5Mask)))))).

(** an entry of the array [keys] of [config.h]: [k_call] is the call
    [keys[i].func(&(keys[i].arg))], [None] when [func] is NULL *)
Record Key := mkKey { k_mod : Z; k_keysym : Z; k_call : option (M unit) }.

(** [keypress]: [keysym] is what [XKeycodeToKeysym] returns for the key code
    of the event and [state] the modifier state of the event; the loop runs
    over the whole array *)
Fixpoint keypress (numlockmask : Z) (keys : list Key) (keysym state : Z) : M unit :=
  match keys with
  | [] => mret tt
  | k :: rest =>
      (if decide (keysym = k_keysym k
                  ∧ CLEANMASK numlockmask (k_mod k) = CLEANMASK numlockmask state)
       then match k_call k with
            | Some call => call
            | None => mret tt
            end
       else mret tt);;
      keypress numlockmask rest keysym state
  end.

(** [xerrordummy] and [xerrorstart] *)
Definition xerrordummy (ee : XErrorEvent) : M Z := mret 0.
Definition xerrorstart (ee : XErrorEvent) : M Z :=
  (die "dwm: another window manager is already running" : M unit);;
  mret (-1).

(** * Runs of admissible calls *)

(** the selection rule: the selected client is on the stack and visible, and
    no client is selected only when no client of the stack is visible *)
Definition sel_ok (h : gmap addr Client) (t : Z) (sl : list addr) (sel : option addr) : Prop :=
  match sel with
  | Some a => a ∈ sl ∧ visible_b h t a = true
  | None => first_visible h t sl = None
  end.

(** the monitor covers the screen: both of its rectangles are the rectangle
    [updategeom] assigns *)
Definition spans (s : State) (m : Monitor) : Prop :=
  m_mx m = 0 ∧ m_my m = 0 ∧ m_mw m = sw s ∧ m_mh m = sh s
  ∧ m_wx m = 0 ∧ m_wy m = 0 ∧ m_ww m = sw s ∧ m_wh m = sh s.

(** What holds between calls, the selection rule apart: the state is well
    formed, the monitor views the tags [t], no entry of [tagset] is empty,
    the heap holds the records of the clients of the list and no other, every
    client has a tag, and the monitor covers the screen. *)
Record base (s : State) (m : Monitor) (cl sl : list addr) (t : Z) : Prop := mkBase {
  base_wf : wf s m cl sl;
  base_mw : mw_defined m;
  base_viewed : viewed m = Some t;
  base_tagset : ∀ x, x ∈ m_tagset m → x ≠ 0;
  base_heap : ∀ a, is_Some (heap s !! a) → a ∈ cl;
  base_tags : ∀ a r, heap s !! a = Some r → c_tags r ≠ 0;
  base_spans : spans s m
}.

Definition sound (s : State) (m : Monitor) (cl sl : list addr) (t : Z) : Prop :=
  base s m cl sl t ∧ sel_ok (heap s) t sl (m_sel m).

Definition Sound (s : State) : Prop := ∃ m cl sl t, sound s m cl sl t.

(** the states reached from [setup] by admissible calls *)
Inductive Run (cfg : Config) (width height : Z) : State -> Prop :=
| Run_setup s :
    mw_defined (initial_monitor cfg width height) ->
    setup cfg width height boot = Ok tt s -> Run cfg width height s
| Run_step s a s' :
    Run cfg width height s -> admissible a s -> perform cfg a s = Ok tt s' ->
    Run cfg width height s'.

(** the client [focusstack] looks for when the selected client [x] stands
    between [l1] and [l2] on the client list: forward, the first visible
    client after [x], else the first visible client of the list; backward,
    the last visible client before [x], else the last visible client from
    [x] on *)
Definition focusstack_target (h : gmap addr Client) (t : Z) (l1 : list addr) (x : addr)
           (l2 : list addr) (i : Z) : option addr :=
  if decide (i > 0) then
    match first_visible h t l2 with
    | Some b => Some b
    | None => first_visible h t (l1 ++ x :: l2)
    end
  else
    match last_visible h t l1 None with
    | Some b => Some b
    | None => last_visible h t (x :: l2) None
    end.

(** the screen size read in [setup] *)
Definition screen_size (s : State) : Z * Z := (sw s, sh s).

(** two records of the same client: what the window manager knows of the
    client apart from its place in the lists and its rectangle *)
Definition same_client (r r' : Client) : Prop :=
  c_win r' = c_win r ∧ c_tags r' = c_tags r ∧ c_isfloating r' = c_isfloating r
  ∧ c_isfixed r' = c_isfixed r ∧ c_bw r' = c_bw r ∧ c_oldbw r' = c_oldbw r
  ∧ (c_oldx r', c_oldy r', c_oldw r', c_oldh r') = (c_oldx r, c_oldy r, c_oldw r, c_oldh r).

(** the client at [a] is the client of the window [w] *)
Definition has_window (h : gmap addr Client) (w : Z) (a : addr) : bool :=
  match h !! a with
  | Some r => bool_decide (c_win r = w)
  | None => false
  end.

(** no two clients have the same window *)
Definition windows_distinct (s : State) : Prop :=
  ∀ a b ra rb, heap s !! a = Some ra -> heap s !! b = Some rb -> c_win ra = c_win rb -> a = b.

(** the state after [setup] on a 1000 by 800 screen in which the monocle
    layout, [layouts[2]], has been selected *)
Definition monocle_state : State :=
  set_mons (Some (with_sellt 2 (initial_monitor config9 1000 800)))
           (initial_state config9 1000 800).

(** * The layouts on lists *)

(** the record [resize(c, x, y, w, h, 0)] leaves in [*c] *)
Definition resized (x y w h : Z) (r : Client) : Client :=
  if decide (w <= 0 ∨ h <= 0) then r else with_geom x y w h r.

(** the record [monocle] leaves of a client it resizes *)
Definition monocle_cell (m : Monitor) (r : Client) : Client :=
  resized (m_wx m) (m_wy m) (s32 (m_ww m - s32 (2 * c_bw r)))
          (s32 (m_wh m - s32 (2 * c_bw r))) r.

(** the value [tile] assigns to [mw] for [n] tiled clients, 0 where the
    conversion of the product to [unsigned int] is undefined *)
Definition tile_mw_value (m : Monitor) (n : Z) : Z :=
  if decide (n > u32 (m_nmaster m)) then
    if decide (m_nmaster m ≠ 0) then
      default 0 (F32.to_uint (F32.mul (F32.of_int (m_ww m)) (m_mfact m)))
    else 0
  else u32 (m_ww m).

(** The second loop of [tile] on the list [T] of the tiled clients: the heap
    it leaves when it starts with the counters [i], [my] and [ty].  The
    divisions are those of the loop; where the loop would divide by zero the
    quotient is 0. *)
Fixpoint tile_heap (m : Monitor) (n mw : Z) (h : gmap addr Client) (T : list addr)
         (i my ty : Z) : gmap addr Client :=
  match T with
  | [] => h
  | a :: T' =>
      match h !! a with
      | None => h
      | Some r =>
          if decide (i < u32 (m_nmaster m)) then
            let hh := u32 (m_wh m - my) / u32 (MIN_u n (m_nmaster m) - i) in
            let r' := resized (m_wx m) (s32 (u32 (m_wy m + my)))
                              (s32 (u32 (mw - s32 (2 * c_bw r))))
                              (s32 (u32 (hh - s32 (2 * c_bw r)))) r in
            tile_heap m n mw (<[a := r']> h) T' (u32 (i + 1)) (u32 (my + HEIGHT r')) ty
          else
            let hh := u32 (m_wh m - ty) / u32 (n - i) in
            let r' := resized (s32 (u32 (m_wx m + mw))) (s32 (u32 (m_wy m + ty)))
                              (s32 (u32 (m_ww m - mw - s32 (2 * c_bw r))))
                              (s32 (u32 (hh - s32 (2 * c_bw r)))) r in
            tile_heap m n mw (<[a := r']> h) T' (u32 (i + 1)) my (u32 (ty + HEIGHT r'))
      end
  end.

(** the tiled clients of a list *)
Definition tiled (h : gmap addr Client) (t : Z) (l : list addr) : list addr :=
  List.filter (tiled_b h t) l.

(** * Properties *)

(** ** Constants *)

(** 0.55f is 0x3F0CCCCD and the double 0.1 is 0x3FB999999999999A. *)
Example f32_055_bits : F32.of_decimal 55 2 = S754_finite false 9227469 (-24).
Proof. reflexivity. Qed.

Example f64_01_bits : F64.of_decimal 1 1 = S754_finite false 7205759403792794 (-56).
Proof. reflexivity. Qed.

(** ** Running computations *)

Lemma bind_Ok {A B} (c : M A) (k : A -> M B) s a s' :
  c s = Ok a s' -> (c ≫= k) s = k a s'.
Proof. intros H. unfold mbind, M_bind, bind. now rewrite H. Qed.

Lemma bind_inv {A B} (c : M A) (k : A -> M B) s b s' :
  (c ≫= k) s = Ok b s' -> ∃ a s1, c s = Ok a s1 ∧ k a s1 = Ok b s'.
Proof.
  unfold mbind, M_bind, bind. destruct (c s) as [a s1 | | |]; try discriminate. eauto.
Qed.

Lemma bind_ret {A B} (a : A) (k : A -> M B) s : (mret a ≫= k) s = k a s.
Proof. reflexivity. Qed.

Lemma load_Ok s a c : heap s !! a = Some c -> load (Some a) s = Ok c s.
Proof. intros H. unfold load. now rewrite H. Qed.

Lemma store_Ok s a c f :
  heap s !! a = Some c -> store (Some a) f s = Ok tt (set_heap (<[a := f c]> (heap s)) s).
Proof. intros H. unfold store. now rewrite H. Qed.

Lemma selmon_Ok s m : mons s = Some m -> selmon s = Ok m s.
Proof. intros H. unfold selmon. now rewrite H. Qed.

Lemma setmon_Ok s m f : mons s = Some m -> setmon f s = Ok tt (set_mons (Some (f m)) s).
Proof. intros H. unfold setmon. now rewrite H. Qed.

Lemma index_Ok {A} (l : list A) i v s : l !! Z.to_nat i = Some v -> index l i s = Ok v s.
Proof. intros H. unfold index. now rewrite H. Qed.

(** ** [resize] with an empty rectangle *)

(** C10: a request for a width or a height that is not positive returns at
    once: the state is the one before the call, so the client's stored
    geometry is untouched and no request has been added to the log. *)
Theorem resize_nonpositive_noop (c : option addr) (x y w h interact : Z) (s : State) :
  w <= 0 \/ h <= 0 -> resize c x y w h interact s = Ok tt s.
Proof.
  intros Hwh. unfold resize.
  destruct (decide (w <= 0 ∨ h <= 0)) as [_ | Hn]; [reflexivity | tauto].
Qed.

Lemma resize_nonpositive_noop_witness :
  (548 <= 0 \/ -2 <= 0)
  /\ resize (Some 1%positive) 0 0 548 (-2) 0 one_client_state = Ok tt one_client_state.
Proof.
  split; [right; lia |].
  apply (resize_nonpositive_noop (Some 1%positive) 0 0 548 (-2) 0 one_client_state).
  right. lia.
Defined.

(** ** Pointer chains *)

Lemma chain_det nxt h p l1 l2 : chain nxt h p l1 -> chain nxt h p l2 -> l1 = l2.
Proof.
  revert p l2. induction l1 as [|a l1 IH]; intros p [|b l2]; simpl.
  - reflexivity.
  - intros -> [? _]. discriminate.
  - intros [-> _] ?. discriminate.
  - intros [-> (c & Hc & H1)] [Hb (c' & Hc' & H2)].
    injection Hb as <-. rewrite Hc in Hc'. injection Hc' as <-.
    f_equal. eapply IH; eassumption.
Qed.

Lemma chain_app_inv nxt h p l1 l2 :
  chain nxt h p (l1 ++ l2) -> ∃ q, chain nxt h q l2.
Proof.
  revert p. induction l1 as [|a l1 IH]; intros p; simpl.
  - eauto.
  - intros [_ (c & _ & H)]. eauto.
Qed.

Lemma chain_lookup nxt h p l a : chain nxt h p l -> a ∈ l -> is_Some (h !! a).
Proof.
  revert p. induction l as [|b l IH]; intros p H Hin.
  - inversion Hin.
  - destruct H as [_ (c & Hc & H)].
    apply elem_of_cons in Hin as [-> | Hin]; [eauto | eapply IH; eauto].
Qed.

Lemma chain_NoDup nxt h p l : chain nxt h p l -> NoDup l.
Proof.
  revert p. induction l as [|a l IH]; intros p H.
  - constructor.
  - pose proof H as [-> (c & Hc & Hl)]. constructor; [| eapply IH; eassumption].
    intros Hin. apply list_elem_of_split in Hin as (l1 & l2 & ->).
    destruct (chain_app_inv _ _ _ _ _ Hl) as [q Hq].
    pose proof Hq as [-> _].
    pose proof (chain_det _ _ _ _ _ H Hq) as Heq.
    apply (f_equal length) in Heq. simpl in Heq. rewrite length_app in Heq.
    simpl in Heq. lia.
Qed.

Lemma chain_length nxt h p l : chain nxt h p l -> (length l <= size h)%nat.
Proof.
  intros H. rewrite <- size_dom. unfold size at 1, set_size. simpl.
  apply submseteq_length, NoDup_submseteq; [eapply chain_NoDup; eassumption |].
  intros a Ha. apply elem_of_elements, elem_of_dom. eapply chain_lookup; eassumption.
Qed.

(** a chain only depends on the links of the records it visits *)
Lemma chain_ext nxt h h' p l :
  (∀ a c, a ∈ l -> h !! a = Some c -> ∃ c', h' !! a = Some c' ∧ nxt c' = nxt c) ->
  chain nxt h p l -> chain nxt h' p l.
Proof.
  revert p. induction l as [|a l IH]; intros p Hext; simpl; [auto |].
  intros [-> (c & Hc & H)]. split; [reflexivity |].
  destruct (Hext a c) as (c' & Hc' & Hn); [left | assumption |].
  exists c'. split; [assumption |]. rewrite Hn. apply IH; [| assumption].
  intros b cb Hb. apply Hext. now right.
Qed.

(** ** Heaps that differ in geometry only *)

Lemma same_links_refl c : same_links c c.
Proof. now destruct c. Qed.

Lemma same_links_trans c1 c2 c3 : same_links c1 c2 -> same_links c2 c3 -> same_links c1 c3.
Proof. unfold same_links. intros H1 H2. rewrite H2, H1. reflexivity. Qed.

Lemma same_links_with_geom x y w h c : same_links c (with_geom x y w h c).
Proof. reflexivity. Qed.

Lemma same_links_fields c c' :
  same_links c c' ->
  c_tags c' = c_tags c ∧ c_isfloating c' = c_isfloating c ∧ c_next c' = c_next c
  ∧ c_snext c' = c_snext c ∧ c_win c' = c_win c ∧ c_bw c' = c_bw c
  ∧ c_isfixed c' = c_isfixed c.
Proof. intros ->. repeat split. Qed.

Lemma geom_only_refl h : geom_only h h.
Proof. intros a. destruct (h !! a); [apply same_links_refl | exact I]. Qed.

Lemma geom_only_trans h1 h2 h3 : geom_only h1 h2 -> geom_only h2 h3 -> geom_only h1 h3.
Proof.
  intros H12 H23 a. specialize (H12 a). specialize (H23 a).
  destruct (h1 !! a), (h2 !! a), (h3 !! a); try tauto.
  eapply same_links_trans; eassumption.
Qed.

Lemma geom_only_insert h a c c' :
  h !! a = Some c -> same_links c c' -> geom_only h (<[a := c']> h).
Proof.
  intros Ha Hc b. destruct (decide (a = b)) as [<- | Hne].
  - now rewrite Ha, lookup_insert_eq.
  - rewrite lookup_insert_ne by assumption.
    destruct (h !! b); [apply same_links_refl | exact I].
Qed.

Lemma geom_only_lookup h h' a c :
  geom_only h h' -> h !! a = Some c -> ∃ c', h' !! a = Some c' ∧ same_links c c'.
Proof.
  intros H Ha. specialize (H a). rewrite Ha in H.
  destruct (h' !! a) as [c' |]; [eauto | contradiction].
Qed.

Lemma geom_only_dom h h' : geom_only h h' -> dom h = dom h'.
Proof.
  intros H. apply set_eq. intros a. rewrite !elem_of_dom. specialize (H a).
  destruct (h !! a), (h' !! a); try tauto; split; intros [? ?]; eauto; discriminate.
Qed.

Lemma geom_only_size h h' : geom_only h h' -> size h' = size h.
Proof. intros H. rewrite <- !size_dom. now rewrite (geom_only_dom _ _ H). Qed.

Lemma geom_only_chain_next h h' p l :
  geom_only h h' -> chain c_next h p l -> chain c_next h' p l.
Proof.
  intros H. apply chain_ext. intros a c _ Ha.
  destruct (geom_only_lookup _ _ _ _ H Ha) as (c' & Hc' & Hs).
  exists c'. split; [assumption |]. apply same_links_fields in Hs. tauto.
Qed.

Lemma geom_only_chain_snext h h' p l :
  geom_only h h' -> chain c_snext h p l -> chain c_snext h' p l.
Proof.
  intros H. apply chain_ext. intros a c _ Ha.
  destruct (geom_only_lookup _ _ _ _ H Ha) as (c' & Hc' & Hs).
  exists c'. split; [assumption |]. apply same_links_fields in Hs. tauto.
Qed.

Lemma geom_only_visible h h' t a : geom_only h h' -> visible_b h' t a = visible_b h t a.
Proof.
  intros H. unfold visible_b. specialize (H a).
  destruct (h !! a), (h' !! a); try tauto.
  apply same_links_fields in H. now destruct H as (-> & _).
Qed.

Lemma geom_only_tiled h h' t a : geom_only h h' -> tiled_b h' t a = tiled_b h t a.
Proof.
  intros H. unfold tiled_b. specialize (H a).
  destruct (h !! a), (h' !! a); try tauto.
  apply same_links_fields in H. now destruct H as (-> & -> & _).
Qed.

Lemma frame_refl s : frame s s.
Proof. constructor; auto using geom_only_refl. Qed.

Lemma frame_trans s1 s2 s3 : frame s1 s2 -> frame s2 s3 -> frame s1 s3.
Proof.
  intros [] []. constructor; try congruence.
  eapply geom_only_trans; eassumption.
Qed.

Lemma frame_xlog s l : frame s (set_xlog l s).
Proof. constructor; auto using geom_only_refl. Qed.

Lemma wf_frame s s' m cl sl : wf s m cl sl -> frame s s' -> wf s' m cl sl.
Proof.
  intros [] []. constructor; auto.
  - congruence.
  - eapply geom_only_chain_next; eassumption.
  - eapply geom_only_chain_snext; eassumption.
  - now rewrite (geom_only_size _ _ fr_heap0).
Qed.

(** ** Visibility and focus *)

Lemma ISVISIBLE_Ok s m t a c :
  mons s = Some m -> viewed m = Some t -> heap s !! a = Some c ->
  ISVISIBLE (Some a) s = Ok (Z.land (c_tags c) t) s.
Proof.
  intros Hm Ht Hc. unfold viewed in Ht. unfold ISVISIBLE.
  rewrite (bind_Ok _ _ _ _ _ (load_Ok _ _ _ Hc)).
  rewrite (bind_Ok _ _ _ _ _ (selmon_Ok _ _ Hm)).
  rewrite (bind_Ok _ _ _ _ _ (index_Ok _ _ _ _ Ht)).
  reflexivity.
Qed.

Lemma visible_b_land h t a c :
  h !! a = Some c -> visible_b h t a = negb (Z.land (c_tags c) t =? 0).
Proof. intros H. unfold visible_b. now rewrite H. Qed.

Lemma visible_loop_Ok s m t l : ∀ n p,
  mons s = Some m -> viewed m = Some t ->
  chain c_snext (heap s) p l -> (length l < n)%nat ->
  visible_loop n p s = Ok (first_visible (heap s) t l) s.
Proof.
  induction l as [|a l IH]; intros n p Hm Ht Hch Hn; (destruct n as [|n]; [simpl in Hn; lia |]).
  - simpl in Hch. subst p. reflexivity.
  - destruct Hch as [-> (c & Hc & Hch)]. simpl.
    rewrite (bind_Ok _ _ _ _ _ (ISVISIBLE_Ok _ _ _ _ _ Hm Ht Hc)).
    unfold first_visible. simpl. rewrite (visible_b_land _ _ _ _ Hc).
    destruct (decide (Z.land (c_tags c) t = 0)) as [Hz | Hz].
    + rewrite Hz. simpl.
      rewrite (bind_Ok _ _ _ _ _ (load_Ok _ _ _ Hc)).
      apply IH; auto. simpl in Hn. lia.
    + apply Z.eqb_neq in Hz. rewrite Hz. reflexivity.
Qed.

Lemma fuel_Ok s : fuel s = Ok (S (size (heap s))) s.
Proof. reflexivity. Qed.

Lemma first_visible_elem h t l a : first_visible h t l = Some a -> a ∈ l ∧ visible_b h t a = true.
Proof.
  unfold first_visible. intros H. apply List.find_some in H as [Hin Hv].
  split; [now apply list_elem_of_In | assumption].
Qed.

Lemma focus_Ok s m cl sl t c :
  wf s m cl sl -> viewed m = Some t ->
  (∀ a, c = Some a -> is_Some (heap s !! a)) ->
  focus c s = Ok tt (set_mons (Some (with_sel (focus_target (heap s) t sl c) m)) s).
Proof.
  intros Hwf Ht Hc. pose proof (wf_mons _ _ _ _ Hwf) as Hm.
  assert (Hscan : (k ← fuel; m0 ← selmon; visible_loop k (m_stack m0)) s
                  = Ok (first_visible (heap s) t sl) s).
  { rewrite (bind_Ok _ _ _ _ _ (fuel_Ok s)).
    rewrite (bind_Ok _ _ _ _ _ (selmon_Ok _ _ Hm)).
    eapply visible_loop_Ok; eauto using wf_stack.
    pose proof (chain_length _ _ _ _ (wf_stack _ _ _ _ Hwf)). lia. }
  unfold focus. destruct c as [a |].
  - destruct (Hc a eq_refl) as [r Hr].
    erewrite bind_Ok; [apply setmon_Ok; eassumption |].
    rewrite (bind_Ok _ _ _ _ _ (ISVISIBLE_Ok _ _ _ _ _ Hm Ht Hr)).
    simpl. rewrite (visible_b_land _ _ _ _ Hr).
    destruct (decide (Z.land (c_tags r) t = 0)) as [Hz | Hz].
    + rewrite Hz. simpl. exact Hscan.
    + apply Z.eqb_neq in Hz. rewrite Hz. reflexivity.
  - erewrite bind_Ok; [apply setmon_Ok; eassumption |]. exact Hscan.
Qed.

(** [focus] keeps the state well formed and only moves the selection *)
Lemma wf_set_sel s m cl sl p :
  wf s m cl sl -> (∀ a, p = Some a -> a ∈ sl) ->
  wf (set_mons (Some (with_sel p m)) s) (with_sel p m) cl sl.
Proof. intros [] Hp. constructor; auto. Qed.

(** ** [resize], [configure] and [showhide] *)

Lemma xreq_Ok r s : xreq r s = Ok tt (set_xlog (xlog s ++ [r]) s).
Proof. reflexivity. Qed.

Lemma frame_store s a c x y w h :
  heap s !! a = Some c ->
  frame s (set_heap (<[a := with_geom x y w h c]> (heap s)) s).
Proof.
  intros Hc. constructor; auto.
  simpl. eapply geom_only_insert; [eassumption | apply same_links_with_geom].
Qed.

Lemma resize_Ok s a c x y w h i :
  heap s !! a = Some c ->
  ∃ s', resize (Some a) x y w h i s = Ok tt s' ∧ frame s s'.
Proof.
  intros Hc. unfold resize. destruct (decide (w <= 0 ∨ h <= 0)).
  - exists s. split; [reflexivity | apply frame_refl].
  - rewrite (bind_Ok _ _ _ _ _ (store_Ok _ _ _ _ Hc)).
    set (s1 := set_heap _ s).
    assert (H1 : heap s1 !! a = Some (with_geom x y w h c)) by (simpl; apply lookup_insert_eq).
    rewrite (bind_Ok _ _ _ _ _ (load_Ok _ _ _ H1)).
    rewrite (bind_Ok _ _ _ _ _ (xreq_Ok _ _)).
    unfold configure.
    set (s2 := set_xlog _ s1).
    assert (H2 : heap s2 !! a = Some (with_geom x y w h c)) by exact H1.
    rewrite (bind_Ok _ _ _ _ _ (load_Ok _ _ _ H2)).
    rewrite xreq_Ok. eexists. split; [reflexivity |].
    eapply frame_trans; [apply (frame_store _ _ _ x y w h Hc) |].
    eapply frame_trans; apply frame_xlog.
Qed.

Lemma frame_lookup s s' a c :
  frame s s' -> heap s !! a = Some c -> ∃ c', heap s' !! a = Some c' ∧ same_links c c'.
Proof. intros [] ?. eapply geom_only_lookup; eassumption. Qed.

Lemma showhide_rec_Ok m t l : ∀ n p s,
  mons s = Some m -> viewed m = Some t ->
  (∀ b, m_sel m = Some b -> is_Some (heap s !! b)) ->
  chain c_snext (heap s) p l -> (length l < n)%nat ->
  ∃ s', showhide_rec n p s = Ok tt s' ∧ frame s s'.
Proof.
  induction l as [|a l IH]; intros n p s Hm Ht Hsel Hch Hn;
    (destruct n as [|n]; [simpl in Hn; lia |]).
  - simpl in Hch. subst p. exists s. split; [reflexivity | apply frame_refl].
  - destruct Hch as [-> (c & Hc & Hch)]. simpl in Hn. simpl.
    rewrite (bind_Ok _ _ _ _ _ (ISVISIBLE_Ok _ _ _ _ _ Hm Ht Hc)).
    destruct (decide (Z.land (c_tags c) t ≠ 0)) as [Hv | Hv].
    + rewrite (bind_Ok _ _ _ _ _ (load_Ok _ _ _ Hc)).
      rewrite (bind_Ok _ _ _ _ _ (xreq_Ok _ _)).
      set (s1 := set_xlog _ s).
      assert (Hm1 : mons s1 = Some m) by exact Hm.
      assert (Hc1 : heap s1 !! a = Some c) by exact Hc.
      rewrite (bind_Ok _ _ _ _ _ (selmon_Ok _ _ Hm1)).
      assert (Hf : ∃ f, match m_sel m with
                        | Some _ => q ← load (m_sel m); mret (c_isfloating q)
                        | None => mret 0
                        end s1 = Ok f s1).
      { destruct (m_sel m) as [b |] eqn:Hb; [| eexists; reflexivity].
        destruct (Hsel b eq_refl) as [q Hq].
        exists (c_isfloating q).
        now rewrite (bind_Ok _ _ _ _ _ (load_Ok s1 _ _ Hq)). }
      destruct Hf as [f Hf]. rewrite (bind_Ok _ _ _ _ _ Hf).
      assert (Hr : ∃ s2, (if decide (f ≠ 0)
                          then r ← load (Some a); resize (Some a) (c_x r) (c_y r) (c_w r) (c_h r) 0
                          else mret tt) s1 = Ok tt s2 ∧ frame s1 s2).
      { destruct (decide (f ≠ 0)).
        - rewrite (bind_Ok _ _ _ _ _ (load_Ok _ _ _ Hc1)). eapply resize_Ok; eassumption.
        - exists s1. split; [reflexivity | apply frame_refl]. }
      destruct Hr as (s2 & Hr & Hf12). rewrite (bind_Ok _ _ _ _ _ Hr).
      destruct (frame_lookup _ _ _ _ Hf12 Hc1) as (c2 & Hc2 & Hl2).
      rewrite (bind_Ok _ _ _ _ _ (load_Ok _ _ _ Hc2)).
      apply same_links_fields in Hl2. destruct Hl2 as (_ & _ & _ & Hsn & _).
      rewrite Hsn.
      assert (Hf02 : frame s s2) by (eapply frame_trans; [apply frame_xlog | exact Hf12]).
      destruct (IH n (c_snext c) s2) as (s3 & H3 & Hf23).
      * rewrite (fr_mons _ _ Hf02). exact Hm.
      * exact Ht.
      * intros b Hb. destruct (Hsel b Hb) as [q Hq].
        destruct (frame_lookup _ _ _ _ Hf02 Hq) as (q' & Hq' & _). eauto.
      * eapply geom_only_chain_snext; [apply (fr_heap _ _ Hf02) | exact Hch].
      * lia.
      * exists s3. split; [exact H3 | eapply frame_trans; eassumption].
    + rewrite (bind_Ok _ _ _ _ _ (load_Ok _ _ _ Hc)).
      destruct (IH n (c_snext c) s Hm Ht Hsel Hch) as (s1 & H1 & Hf01); [lia |].
      rewrite (bind_Ok _ _ _ _ _ H1).
      destruct (frame_lookup _ _ _ _ Hf01 Hc) as (c1 & Hc1 & _).
      rewrite (bind_Ok _ _ _ _ _ (load_Ok _ _ _ Hc1)).
      rewrite xreq_Ok. eexists. split; [reflexivity |].
      eapply frame_trans; [exact Hf01 | apply frame_xlog].
Qed.

(** ** [nexttiled] *)

Lemma skip_untiled_chain h0 h t nxt : ∀ l p,
  chain nxt h p l -> chain nxt h (head (skip_untiled h0 t l)) (skip_untiled h0 t l).
Proof.
  induction l as [|a l IH]; intros p Hch; simpl.
  - reflexivity.
  - destruct Hch as [-> (c & Hc & Hch)]. destruct (tiled_b h0 t a).
    + simpl. eauto.
    + eapply IH; eassumption.
Qed.

Lemma skip_untiled_length h t l : (length (skip_untiled h t l) <= length l)%nat.
Proof. induction l as [|a l IH]; simpl; [lia |]. destruct (tiled_b h t a); simpl; lia. Qed.

Lemma skip_untiled_idem h t l : skip_untiled h t (skip_untiled h t l) = skip_untiled h t l.
Proof.
  induction l as [|a l IH]; simpl; [reflexivity |].
  destruct (tiled_b h t a) eqn:Ha; [simpl; now rewrite Ha | exact IH].
Qed.

Lemma skip_untiled_count h t l : tiled_count h t (skip_untiled h t l) = tiled_count h t l.
Proof.
  unfold tiled_count. induction l as [|a l IH]; simpl; [reflexivity |].
  destruct (tiled_b h t a) eqn:Ha; [simpl; now rewrite Ha | exact IH].
Qed.

Lemma tiled_b_fields h t a c :
  h !! a = Some c -> tiled_b h t a = (c_isfloating c =? 0) && negb (Z.land (c_tags c) t =? 0).
Proof. intros H. unfold tiled_b. now rewrite H. Qed.

Lemma nexttiled_loop_Ok h0 s m t l : ∀ n p,
  mons s = Some m -> viewed m = Some t -> geom_only h0 (heap s) ->
  chain c_next (heap s) p l -> (length l < n)%nat ->
  nexttiled_loop n p s = Ok (head (skip_untiled h0 t l)) s.
Proof.
  intros n p Hm Ht Hg. revert n p.
  induction l as [|a l IH]; intros n p Hch Hn; (destruct n as [|n]; [simpl in Hn; lia |]).
  - simpl in Hch. subst p. reflexivity.
  - destruct Hch as [-> (c & Hc & Hch)]. simpl in Hn. simpl.
    rewrite (bind_Ok _ _ _ _ _ (load_Ok _ _ _ Hc)).
    rewrite <- (geom_only_tiled _ _ t a Hg), (tiled_b_fields _ _ _ _ Hc).
    destruct (decide (c_isfloating c ≠ 0)) as [Hf | Hf].
    + apply Z.eqb_neq in Hf. rewrite Hf. simpl. apply IH; [assumption | lia].
    + assert (Hf0 : c_isfloating c = 0) by lia. rewrite Hf0. simpl.
      rewrite (bind_Ok _ _ _ _ _ (ISVISIBLE_Ok _ _ _ _ _ Hm Ht Hc)).
      destruct (decide (Z.land (c_tags c) t = 0)) as [Hz | Hz].
      * rewrite Hz. simpl. apply IH; [assumption | lia].
      * apply Z.eqb_neq in Hz. rewrite Hz. reflexivity.
Qed.

Lemma nexttiled_Ok h0 s m t l p :
  mons s = Some m -> viewed m = Some t -> geom_only h0 (heap s) ->
  chain c_next (heap s) p l ->
  nexttiled p s = Ok (head (skip_untiled h0 t l)) s.
Proof.
  intros Hm Ht Hg Hch. unfold nexttiled.
  rewrite (bind_Ok _ _ _ _ _ (fuel_Ok s)).
  eapply nexttiled_loop_Ok; eauto.
  pose proof (chain_length _ _ _ _ Hch). lia.
Qed.

Lemma skip_untiled_head_tiled h t l a l' :
  skip_untiled h t l = a :: l' -> tiled_b h t a = true.
Proof.
  induction l as [|b l IH]; simpl; [discriminate |].
  destruct (tiled_b h t b) eqn:Hb; [| exact IH].
  intros [= -> ->]. exact Hb.
Qed.

Lemma tiled_count_cons h t a l :
  tiled_b h t a = true -> tiled_count h t (a :: l) = 1 + tiled_count h t l.
Proof. intros H. unfold tiled_count. simpl. rewrite H. simpl length. lia. Qed.

Lemma tiled_count_nonneg h t l : 0 <= tiled_count h t l.
Proof. unfold tiled_count. lia. Qed.

Lemma tiled_count_le h t l : tiled_count h t l <= Z.of_nat (length l).
Proof. unfold tiled_count. pose proof (List.filter_length_le (tiled_b h t) l). lia. Qed.

(** ** [tile] and [monocle] *)

Lemma u32_small z : 0 <= z < 2 ^ 32 -> u32 z = z.
Proof. intros H. unfold u32. now apply Z.mod_small. Qed.

Lemma u32_range z : 0 <= u32 z < 2 ^ 32.
Proof. unfold u32. apply Z.mod_pos_bound. lia. Qed.

Lemma tile_count_Ok h0 m t : ∀ k l c n0 s,
  mons s = Some m -> viewed m = Some t -> geom_only h0 (heap s) ->
  chain c_next (heap s) c l -> skip_untiled h0 t l = l -> (length l < k)%nat ->
  0 <= n0 -> n0 + tiled_count h0 t l < 2 ^ 32 ->
  tile_count k c n0 s = Ok (n0 + tiled_count h0 t l) s.
Proof.
  induction k as [|k IH]; intros l c n0 s Hm Ht Hg Hch Hsk Hk Hn0 Hn; [lia |].
  destruct l as [|a l].
  - simpl in Hch. subst c. simpl. unfold tiled_count. simpl. now rewrite Z.add_0_r.
  - pose proof (skip_untiled_head_tiled _ _ _ _ _ Hsk) as Ha.
    destruct Hch as [-> (r & Hr & Hch)]. simpl in Hk. simpl.
    rewrite (bind_Ok _ _ _ _ _ (load_Ok _ _ _ Hr)).
    rewrite (bind_Ok _ _ _ _ _ (nexttiled_Ok _ _ _ _ _ _ Hm Ht Hg Hch)).
    rewrite (tiled_count_cons _ _ _ _ Ha) in *.
    pose proof (tiled_count_nonneg h0 t l).
    rewrite u32_small by lia.
    rewrite (IH (skip_untiled h0 t l)); auto.
    + rewrite skip_untiled_count. f_equal. lia.
    + eapply skip_untiled_chain; eassumption.
    + apply skip_untiled_idem.
    + pose proof (skip_untiled_length h0 t l). lia.
    + lia.
    + rewrite skip_untiled_count. lia.
Qed.

Lemma bind_frame {A} (c : M A) (k : A -> M unit) s a s1 :
  c s = Ok a s1 -> frame s s1 ->
  (∃ s', k a s1 = Ok tt s' ∧ frame s1 s') ->
  ∃ s', (c ≫= k) s = Ok tt s' ∧ frame s s'.
Proof.
  intros Hc Hf (s' & Hk & Hf'). exists s'. split.
  - now rewrite (bind_Ok _ _ _ _ _ Hc).
  - eapply frame_trans; eassumption.
Qed.

Lemma udiv_Ok a b s : b ≠ 0 -> udiv a b s = Ok (a / b) s.
Proof. intros H. unfold udiv. destruct (decide (b = 0)); [contradiction | reflexivity]. Qed.

Lemma tile_loop_Ok h0 m t n mw : ∀ k l c i my ty s,
  mons s = Some m -> viewed m = Some t -> geom_only h0 (heap s) ->
  chain c_next (heap s) c l -> skip_untiled h0 t l = l -> (length l < k)%nat ->
  0 <= i -> i + tiled_count h0 t l = n -> n < 2 ^ 32 ->
  ∃ s', tile_loop k m n mw c i my ty s = Ok tt s' ∧ frame s s'.
Proof.
  induction k as [|k IH]; intros l c i my ty s Hm Ht Hg Hch Hsk Hk Hi Hn Hn32; [lia |].
  destruct l as [|a l].
  { simpl in Hch. subst c. exists s. split; [reflexivity | apply frame_refl]. }
  pose proof (skip_untiled_head_tiled _ _ _ _ _ Hsk) as Ha.
  destruct Hch as [-> (r & Hr & Hch)]. simpl in Hk.
  rewrite (tiled_count_cons _ _ _ _ Ha) in Hn.
  pose proof (tiled_count_nonneg h0 t l) as Hc0.
  (* what follows the call of [resize] is the same in both branches *)
  assert (Hrest : ∀ s1 my' ty', frame s s1 ->
            ∃ s', (r1 ← load (Some a); c' ← nexttiled (c_next r1);
                   tile_loop k m n mw c' (u32 (i + 1)) (my' r1) (ty' r1)) s1 = Ok tt s'
                  ∧ frame s1 s').
  { intros s1 my' ty' Hf1.
    destruct (frame_lookup _ _ _ _ Hf1 Hr) as (r1 & Hr1 & Hl1).
    apply same_links_fields in Hl1. destruct Hl1 as (_ & _ & Hnx & _).
    assert (Hm1 : mons s1 = Some m) by (rewrite (fr_mons _ _ Hf1); exact Hm).
    assert (Hg1 : geom_only h0 (heap s1))
      by (eapply geom_only_trans; [exact Hg | apply (fr_heap _ _ Hf1)]).
    assert (Hch1 : chain c_next (heap s1) (c_next r1) l)
      by (rewrite Hnx; eapply geom_only_chain_next; [apply (fr_heap _ _ Hf1) | exact Hch]).
    rewrite (bind_Ok _ _ _ _ _ (load_Ok _ _ _ Hr1)).
    rewrite (bind_Ok _ _ _ _ _ (nexttiled_Ok _ _ _ _ _ _ Hm1 Ht Hg1 Hch1)).
    rewrite u32_small by lia.
    apply (IH (skip_untiled h0 t l)); auto.
    - eapply skip_untiled_chain; eassumption.
    - apply skip_untiled_idem.
    - pose proof (skip_untiled_length h0 t l). lia.
    - lia.
    - rewrite skip_untiled_count. lia. }
  simpl. destruct (decide (i < u32 (m_nmaster m))) as [Hlt | Hge].
  - assert (Hd : u32 (MIN_u n (m_nmaster m) - i) ≠ 0).
    { pose proof (u32_range (m_nmaster m)). unfold MIN_u.
      destruct (decide (n < u32 (m_nmaster m))); rewrite u32_small; lia. }
    rewrite (bind_Ok _ _ _ _ _ (udiv_Ok _ _ _ Hd)).
    rewrite (bind_Ok _ _ _ _ _ (load_Ok _ _ _ Hr)).
    match goal with |- context [resize ?c ?x ?y ?w ?h ?i] =>
      destruct (resize_Ok s a r x y w h i Hr) as (s1 & Hrs & Hf1) end.
    eapply bind_frame; [exact Hrs | exact Hf1 |].
    apply (Hrest s1 (fun r1 => u32 (my + HEIGHT r1)) (fun _ => ty) Hf1).
  - assert (Hd : u32 (n - i) ≠ 0) by (rewrite u32_small; lia).
    rewrite (bind_Ok _ _ _ _ _ (udiv_Ok _ _ _ Hd)).
    rewrite (bind_Ok _ _ _ _ _ (load_Ok _ _ _ Hr)).
    match goal with |- context [resize ?c ?x ?y ?w ?h ?i] =>
      destruct (resize_Ok s a r x y w h i Hr) as (s1 & Hrs & Hf1) end.
    eapply bind_frame; [exact Hrs | exact Hf1 |].
    apply (Hrest s1 (fun _ => my) (fun r1 => u32 (ty + HEIGHT r1)) Hf1).
Qed.

Lemma wf_viewed s m cl sl : wf s m cl sl -> ∃ t, viewed m = Some t.
Proof.
  intros Hwf. unfold viewed.
  pose proof (wf_tagset _ _ _ _ Hwf) as Hlen.
  destruct (m_tagset m) as [|t0 [|t1 [|? ?]]]; try discriminate.
  destruct (wf_seltags _ _ _ _ Hwf) as [-> | ->]; simpl; eauto.
Qed.

Lemma wf_clients_bound s m cl sl : wf s m cl sl -> Z.of_nat (length cl) < 2 ^ 32.
Proof.
  intros Hwf. pose proof (chain_length _ _ _ _ (wf_clients _ _ _ _ Hwf)).
  pose proof (wf_size _ _ _ _ Hwf). lia.
Qed.

Lemma tile_Ok s m cl sl t :
  wf s m cl sl -> viewed m = Some t -> mw_defined m ->
  ∃ s', tile s = Ok tt s' ∧ frame s s'.
Proof.
  intros Hwf Ht Hmw. pose proof (wf_mons _ _ _ _ Hwf) as Hm.
  pose proof (wf_clients _ _ _ _ Hwf) as Hch.
  pose proof (chain_length _ _ _ _ Hch) as Hlen.
  pose proof (wf_clients_bound _ _ _ _ Hwf) as H32.
  pose proof (geom_only_refl (heap s)) as Hg.
  set (l := skip_untiled (heap s) t cl).
  assert (Hchl : chain c_next (heap s) (head l) l) by (eapply skip_untiled_chain; eassumption).
  assert (Hll : (length l <= length cl)%nat) by apply skip_untiled_length.
  assert (Hcnt : tiled_count (heap s) t l <= Z.of_nat (length cl)).
  { unfold l. rewrite skip_untiled_count. apply tiled_count_le. }
  pose proof (tiled_count_nonneg (heap s) t l) as Hc0.
  unfold tile.
  rewrite (bind_Ok _ _ _ _ _ (selmon_Ok _ _ Hm)).
  rewrite (bind_Ok _ _ _ _ _ (fuel_Ok s)).
  rewrite (bind_Ok _ _ _ _ _ (nexttiled_Ok _ _ _ _ _ _ Hm Ht Hg Hch)).
  assert (Hidem : skip_untiled (heap s) t l = l) by apply skip_untiled_idem.
  rewrite (bind_Ok _ _ _ _ _
             (tile_count_Ok (heap s) m t (S (size (heap s))) l (head l) 0 s Hm Ht Hg Hchl Hidem
                            ltac:(lia) ltac:(lia) ltac:(lia))).
  rewrite Z.add_0_l.
  destruct (decide (tiled_count (heap s) t l = 0)).
  { exists s. split; [reflexivity | apply frame_refl]. }
  assert (Hmwv : ∃ mw, tile_mw m (tiled_count (heap s) t l) s = Ok mw s).
  { unfold tile_mw. destruct (decide (_ > _)); [| eexists; reflexivity].
    destruct (decide (m_nmaster m ≠ 0)); [| eexists; reflexivity].
    destruct Hmw as [v Hv]. rewrite Hv. eexists; reflexivity. }
  destruct Hmwv as [mw Hmwv]. rewrite (bind_Ok _ _ _ _ _ Hmwv).
  rewrite (bind_Ok _ _ _ _ _ (nexttiled_Ok _ _ _ _ _ _ Hm Ht Hg Hch)).
  apply (tile_loop_Ok (heap s) m t _ mw _ l); auto; lia.
Qed.

Lemma monocle_count_Ok m t : ∀ l k c n s,
  mons s = Some m -> viewed m = Some t ->
  chain c_next (heap s) c l -> (length l < k)%nat ->
  ∃ n', monocle_count k c n s = Ok n' s.
Proof.
  induction l as [|a l IH]; intros k c n s Hm Ht Hch Hk; (destruct k as [|k]; [simpl in Hk; lia |]).
  - simpl in Hch. subst c. eexists; reflexivity.
  - destruct Hch as [-> (r & Hr & Hch)]. simpl in Hk. simpl.
    rewrite (bind_Ok _ _ _ _ _ (ISVISIBLE_Ok _ _ _ _ _ Hm Ht Hr)).
    rewrite (bind_Ok _ _ _ _ _ (load_Ok _ _ _ Hr)).
    apply IH; auto. lia.
Qed.

Lemma monocle_loop_Ok h0 m t : ∀ k l c s,
  mons s = Some m -> viewed m = Some t -> geom_only h0 (heap s) ->
  chain c_next (heap s) c l -> (length l < k)%nat ->
  ∃ s', monocle_loop k m c s = Ok tt s' ∧ frame s s'.
Proof.
  induction k as [|k IH]; intros l c s Hm Ht Hg Hch Hk; [lia |].
  destruct l as [|a l].
  { simpl in Hch. subst c. exists s. split; [reflexivity | apply frame_refl]. }
  destruct Hch as [-> (r & Hr & Hch)]. simpl in Hk. simpl.
  rewrite (bind_Ok _ _ _ _ _ (load_Ok _ _ _ Hr)).
  match goal with |- context [resize ?c ?x ?y ?w ?h ?i] =>
    destruct (resize_Ok s a r x y w h i Hr) as (s1 & Hrs & Hf1) end.
  eapply bind_frame; [exact Hrs | exact Hf1 |].
  destruct (frame_lookup _ _ _ _ Hf1 Hr) as (r1 & Hr1 & Hl1).
  apply same_links_fields in Hl1. destruct Hl1 as (_ & _ & Hnx & _).
  assert (Hm1 : mons s1 = Some m) by (rewrite (fr_mons _ _ Hf1); exact Hm).
  assert (Hg1 : geom_only h0 (heap s1))
    by (eapply geom_only_trans; [exact Hg | apply (fr_heap _ _ Hf1)]).
  assert (Hch1 : chain c_next (heap s1) (c_next r1) l)
    by (rewrite Hnx; eapply geom_only_chain_next; [apply (fr_heap _ _ Hf1) | exact Hch]).
  rewrite (bind_Ok _ _ _ _ _ (load_Ok _ _ _ Hr1)).
  rewrite (bind_Ok _ _ _ _ _ (nexttiled_Ok _ _ _ _ _ _ Hm1 Ht Hg1 Hch1)).
  apply (IH (skip_untiled h0 t l)); auto.
  - eapply skip_untiled_chain; eassumption.
  - pose proof (skip_untiled_length h0 t l). lia.
Qed.

Lemma monocle_Ok s m cl sl t :
  wf s m cl sl -> viewed m = Some t ->
  ∃ s', monocle s = Ok tt s' ∧ frame s s'.
Proof.
  intros Hwf Ht. pose proof (wf_mons _ _ _ _ Hwf) as Hm.
  pose proof (wf_clients _ _ _ _ Hwf) as Hch.
  pose proof (chain_length _ _ _ _ Hch) as Hlen.
  pose proof (geom_only_refl (heap s)) as Hg.
  unfold monocle.
  rewrite (bind_Ok _ _ _ _ _ (selmon_Ok _ _ Hm)).
  rewrite (bind_Ok _ _ _ _ _ (fuel_Ok s)).
  destruct (monocle_count_Ok m t cl (S (size (heap s))) (m_clients m) 0 s) as [n Hn];
    auto; [lia |].
  rewrite (bind_Ok _ _ _ _ _ Hn).
  destruct (decide (n > 0)); [| exists s; split; [reflexivity | apply frame_refl]].
  rewrite (bind_Ok _ _ _ _ _ (nexttiled_Ok _ _ _ _ _ _ Hm Ht Hg Hch)).
  apply (monocle_loop_Ok (heap s) m t _ (skip_untiled (heap s) t cl)); auto.
  - eapply skip_untiled_chain; eassumption.
  - pose proof (skip_untiled_length (heap s) t cl). lia.
Qed.

(** ** [arrange] *)

Lemma showhide_Ok s m cl sl t :
  wf s m cl sl -> viewed m = Some t ->
  ∃ s', showhide (m_stack m) s = Ok tt s' ∧ frame s s'.
Proof.
  intros Hwf Ht. unfold showhide. rewrite (bind_Ok _ _ _ _ _ (fuel_Ok s)).
  pose proof (wf_stack _ _ _ _ Hwf) as Hch.
  eapply showhide_rec_Ok; eauto using wf_mons.
  - intros b Hb. eapply chain_lookup; [exact Hch |]. eapply wf_sel; eassumption.
  - pose proof (chain_length _ _ _ _ Hch). lia.
Qed.

Lemma arrange_Ok s m cl sl :
  wf s m cl sl -> mw_defined m ->
  ∃ s', arrange s = Ok tt s' ∧ frame s s'.
Proof.
  intros Hwf Hmw. destruct (wf_viewed _ _ _ _ Hwf) as [t Ht].
  pose proof (wf_mons _ _ _ _ Hwf) as Hm.
  unfold arrange. rewrite (bind_Ok _ _ _ _ _ (selmon_Ok _ _ Hm)).
  destruct (showhide_Ok _ _ _ _ _ Hwf Ht) as (s1 & Hs1 & Hf1).
  eapply bind_frame; [exact Hs1 | exact Hf1 |].
  pose proof (wf_frame _ _ _ _ _ Hwf Hf1) as Hwf1.
  rewrite (bind_Ok _ _ _ _ _ (selmon_Ok _ _ (wf_mons _ _ _ _ Hwf1))).
  pose proof (wf_sellt _ _ _ _ Hwf) as Hlt.
  assert (Hcases : m_sellt m = 0 ∨ m_sellt m = 1 ∨ m_sellt m = 2) by lia.
  destruct Hcases as [Hl | [Hl | Hl]]; rewrite Hl.
  - rewrite (bind_Ok _ _ _ _ _ (index_Ok layouts 0 _ s1 eq_refl)). simpl.
    destruct (tile_Ok _ _ _ _ _ Hwf1 Ht Hmw) as (s2 & Hs2 & Hf2).
    exists s2. split; [| exact Hf2].
    now rewrite (bind_Ok _ _ _ _ _ Hs2).
  - rewrite (bind_Ok _ _ _ _ _ (index_Ok layouts 1 _ s1 eq_refl)). simpl.
    exists s1. split; [reflexivity | apply frame_refl].
  - rewrite (bind_Ok _ _ _ _ _ (index_Ok layouts 2 _ s1 eq_refl)). simpl.
    destruct (monocle_Ok _ _ _ _ _ Hwf1 Ht) as (s2 & Hs2 & Hf2).
    exists s2. split; [| exact Hf2].
    now rewrite (bind_Ok _ _ _ _ _ Hs2).
Qed.

(** ** Commands on well-formed states *)

Lemma mw_defined_view_mon a m : mw_defined m -> mw_defined (view_mon a m).
Proof. unfold view_mon. now destruct (decide (a ≠ 0)). Qed.

Lemma refocus_arrange_Ok s m cl sl t :
  wf s m cl sl -> mw_defined m -> viewed m = Some t ->
  ∃ s', (focus None;; arrange) s = Ok tt s'
        ∧ wf s' (with_sel (first_visible (heap s) t sl) m) cl sl
        ∧ frame (set_mons (Some (with_sel (first_visible (heap s) t sl) m)) s) s'.
Proof.
  intros Hwf Hmw Ht.
  assert (Hwf1 : wf (set_mons (Some (with_sel (first_visible (heap s) t sl) m)) s)
                    (with_sel (first_visible (heap s) t sl) m) cl sl).
  { apply wf_set_sel; [exact Hwf |]. intros a Ha. now apply first_visible_elem in Ha. }
  destruct (arrange_Ok _ _ _ _ Hwf1 Hmw) as (s' & Hs' & Hf).
  exists s'. split; [| split; [eapply wf_frame; eassumption | exact Hf]].
  erewrite bind_Ok; [exact Hs' |].
  rewrite (focus_Ok _ _ _ _ _ _ Hwf Ht); [reflexivity | discriminate].
Qed.

Lemma wf_set_mon s m m' cl sl :
  wf s m cl sl ->
  m_clients m' = m_clients m -> m_stack m' = m_stack m -> m_sel m' = m_sel m ->
  length (m_tagset m') = 2%nat -> (m_seltags m' = 0 ∨ m_seltags m' = 1) ->
  m_sellt m' = m_sellt m ->
  wf (set_mons (Some m') s) m' cl sl.
Proof.
  intros [] Hc Hs Hsel Hlen Hst Hlt. constructor; simpl; auto.
  - now rewrite Hc.
  - now rewrite Hs.
  - now rewrite Hsel.
  - now rewrite Hlt.
Qed.

Lemma lxor_1_bit z : z = 0 ∨ z = 1 -> Z.lxor z 1 = 0 ∨ Z.lxor z 1 = 1.
Proof. intros [-> | ->]; simpl; auto. Qed.

Lemma wf_view_mon s m cl sl a :
  wf s m cl sl -> wf (set_mons (Some (view_mon a m)) s) (view_mon a m) cl sl.
Proof.
  intros Hwf. pose proof (wf_tagset _ _ _ _ Hwf). pose proof (wf_seltags _ _ _ _ Hwf).
  apply wf_set_mon with (m := m); auto; unfold view_mon;
    destruct (decide (a ≠ 0)); simpl; auto using lxor_1_bit.
  now rewrite length_insert.
Qed.

Lemma set_tagset_Ok s m t v :
  mons s = Some m -> viewed m = Some t ->
  set_tagset v s
  = Ok tt (set_mons (Some (with_tagset (<[Z.to_nat (m_seltags m) := v]> (m_tagset m)) m)) s).
Proof.
  intros Hm Ht. unfold set_tagset.
  rewrite (bind_Ok _ _ _ _ _ (selmon_Ok _ _ Hm)).
  rewrite (bind_Ok _ _ _ _ _ (index_Ok _ _ _ _ Ht)).
  now rewrite (setmon_Ok _ _ _ Hm).
Qed.

Lemma viewed_lxor m :
  length (m_tagset m) = 2%nat -> m_seltags m = 0 ∨ m_seltags m = 1 ->
  ∃ t, viewed (with_seltags (Z.lxor (m_seltags m) 1) m) = Some t.
Proof.
  intros Hlen Hs. unfold viewed. simpl.
  destruct (m_tagset m) as [|t0 [|t1 [|? ?]]]; try discriminate.
  destruct Hs as [-> | ->]; simpl; eauto.
Qed.

(** [view] with an argument that differs from the viewed tags: the monitor
    becomes [view_mon], the selection moves to the first visible client of
    the stack, and the clients are re-arranged *)
Lemma view_Ok cfg s m cl sl t ui :
  wf s m cl sl -> mw_defined m -> viewed m = Some t ->
  Z.land ui (TAGMASK cfg) ≠ t ->
  ∃ s' p, view cfg ui s = Ok tt s'
          ∧ wf s' (with_sel p (view_mon (Z.land ui (TAGMASK cfg)) m)) cl sl
          ∧ frame (set_mons (Some (with_sel p (view_mon (Z.land ui (TAGMASK cfg)) m))) s) s'.
Proof.
  intros Hwf Hmw Ht Hne. pose proof (wf_mons _ _ _ _ Hwf) as Hm.
  set (a := Z.land ui (TAGMASK cfg)) in *.
  pose proof (wf_view_mon _ _ _ _ a Hwf) as Hwf2.
  destruct (wf_viewed _ _ _ _ Hwf2) as [t2 Ht2].
  destruct (refocus_arrange_Ok _ _ _ _ _ Hwf2 (mw_defined_view_mon a m Hmw) Ht2)
    as (s' & Hs' & Hwf' & Hf').
  exists s', (first_visible (heap s) t2 sl). split; [| split; assumption].
  unfold view. fold a.
  rewrite (bind_Ok _ _ _ _ _ (selmon_Ok _ _ Hm)).
  rewrite (bind_Ok _ _ _ _ _ (index_Ok _ _ _ _ Ht)).
  destruct (decide (a = t)); [contradiction |].
  rewrite (bind_Ok _ _ _ _ _ (setmon_Ok _ _ _ Hm)).
  destruct (viewed_lxor m (wf_tagset _ _ _ _ Hwf) (wf_seltags _ _ _ _ Hwf)) as [t1 Ht1].
  erewrite bind_Ok; [exact Hs' |].
  unfold view_mon. destruct (decide (a ≠ 0)).
  - erewrite set_tagset_Ok; [reflexivity | reflexivity | exact Ht1].
  - reflexivity.
Qed.

Lemma view_same cfg s m t ui :
  mons s = Some m -> viewed m = Some t -> Z.land ui (TAGMASK cfg) = t ->
  view cfg ui s = Ok tt s.
Proof.
  intros Hm Ht He. unfold view.
  rewrite (bind_Ok _ _ _ _ _ (selmon_Ok _ _ Hm)).
  rewrite (bind_Ok _ _ _ _ _ (index_Ok _ _ _ _ Ht)).
  destruct (decide (Z.land ui (TAGMASK cfg) = t)); [reflexivity | contradiction].
Qed.

Lemma wf_toggleview_mon s m cl sl v :
  wf s m cl sl -> wf (set_mons (Some (toggleview_mon v m)) s) (toggleview_mon v m) cl sl.
Proof.
  intros Hwf. pose proof (wf_tagset _ _ _ _ Hwf). pose proof (wf_seltags _ _ _ _ Hwf).
  apply wf_set_mon with (m := m); auto. simpl. now rewrite length_insert.
Qed.

Lemma toggleview_Ok cfg s m cl sl t ui :
  wf s m cl sl -> mw_defined m -> viewed m = Some t ->
  Z.lxor t (Z.land ui (TAGMASK cfg)) ≠ 0 ->
  ∃ s' p, toggleview cfg ui s = Ok tt s'
          ∧ wf s' (with_sel p (toggleview_mon (Z.lxor t (Z.land ui (TAGMASK cfg))) m)) cl sl
          ∧ frame (set_mons (Some (with_sel p
                     (toggleview_mon (Z.lxor t (Z.land ui (TAGMASK cfg))) m))) s) s'.
Proof.
  intros Hwf Hmw Ht Hne. pose proof (wf_mons _ _ _ _ Hwf) as Hm.
  set (v := Z.lxor t (Z.land ui (TAGMASK cfg))) in *.
  pose proof (wf_toggleview_mon _ _ _ _ v Hwf) as Hwf2.
  destruct (wf_viewed _ _ _ _ Hwf2) as [t2 Ht2].
  destruct (refocus_arrange_Ok _ _ _ _ _ Hwf2 Hmw Ht2) as (s' & Hs' & Hwf' & Hf').
  exists s', (first_visible (heap s) t2 sl). split; [| split; assumption].
  unfold toggleview.
  rewrite (bind_Ok _ _ _ _ _ (selmon_Ok _ _ Hm)).
  rewrite (bind_Ok _ _ _ _ _ (index_Ok _ _ _ _ Ht)).
  fold v. destruct (decide (v ≠ 0)); [| contradiction].
  erewrite bind_Ok; [exact Hs' |].
  now rewrite (set_tagset_Ok _ _ _ _ Hm Ht).
Qed.

Lemma toggleview_empty cfg s m t ui :
  mons s = Some m -> viewed m = Some t -> Z.lxor t (Z.land ui (TAGMASK cfg)) = 0 ->
  toggleview cfg ui s = Ok tt s.
Proof.
  intros Hm Ht He. unfold toggleview.
  rewrite (bind_Ok _ _ _ _ _ (selmon_Ok _ _ Hm)).
  rewrite (bind_Ok _ _ _ _ _ (index_Ok _ _ _ _ Ht)).
  rewrite He. destruct (decide (0 ≠ 0)); [contradiction | reflexivity].
Qed.

(** ** The state after [setup] *)

Lemma setup_boot cfg width height :
  setup cfg width height boot = Ok tt (initial_state cfg width height).
Proof. reflexivity. Qed.

Lemma wf_initial_state cfg width height :
  wf (initial_state cfg width height) (initial_monitor cfg width height) [] [].
Proof.
  constructor; simpl; auto; try reflexivity; try lia.
  - intros a Ha. discriminate.
Qed.

(** ** Example states *)

Lemma two_client_state_reached :
  (manage config9 101 (mkAttrs 10 20 300 200 0 0);;
   manage config9 102 (mkAttrs 30 40 300 200 0 0)) (initial_state config9 1000 800)
  = Ok tt two_client_state.
Proof. vm_compute. reflexivity. Qed.

Lemma wf_one_client_state :
  wf one_client_state one_client_monitor [1%positive] [1%positive].
Proof.
  constructor; simpl; auto; try reflexivity; try lia.
  - split; [reflexivity |]. eexists. split; reflexivity.
  - split; [reflexivity |]. eexists. split; reflexivity.
  - intros a [= <-]. apply list_elem_of_singleton. reflexivity.
Qed.

Lemma mw_defined_one_client : mw_defined one_client_monitor.
Proof. exists 550. vm_compute. reflexivity. Qed.

Lemma mw_defined_initial_1000 : mw_defined (initial_monitor config9 1000 800).
Proof. exists 550. vm_compute. reflexivity. Qed.

(** ** [view] and the previous view *)

Lemma view_mon_viewed a m :
  length (m_tagset m) = 2%nat -> m_seltags m = 0 ∨ m_seltags m = 1 -> a ≠ 0 ->
  viewed (view_mon a m) = Some a ∧ previous_view (view_mon a m) = viewed m.
Proof.
  intros Hlen Hs Ha. unfold view_mon, viewed, previous_view.
  destruct (decide (a ≠ 0)); [| contradiction]. simpl.
  destruct (m_tagset m) as [|t0 [|t1 [|? ?]]]; try discriminate.
  destruct Hs as [-> | ->]; simpl; auto.
Qed.

Lemma view_mon_0_viewed m :
  length (m_tagset m) = 2%nat -> m_seltags m = 0 ∨ m_seltags m = 1 ->
  viewed (view_mon 0 m) = previous_view m ∧ previous_view (view_mon 0 m) = viewed m.
Proof.
  intros Hlen Hs. unfold view_mon, viewed, previous_view.
  destruct (decide (0 ≠ 0)); [contradiction |]. simpl.
  destruct (m_tagset m) as [|t0 [|t1 [|? ?]]]; try discriminate.
  destruct Hs as [-> | ->]; simpl; auto.
Qed.

(** C3, amended: [view(A); view(B); view(0)] completes and leaves the monitor
    viewing [A], the view before [B]; [B] is kept as the previous view.  The
    last call only flips [seltags]. *)
Theorem view_previous_is_A cfg s m cl sl t A B :
  wf s m cl sl -> mw_defined m -> viewed m = Some t ->
  Z.land A (TAGMASK cfg) ≠ 0 -> Z.land B (TAGMASK cfg) ≠ 0 ->
  Z.land A (TAGMASK cfg) ≠ Z.land B (TAGMASK cfg) ->
  Z.land A (TAGMASK cfg) ≠ t -> Z.land B (TAGMASK cfg) ≠ t ->
  ∃ s2 m2 s3 m3,
    (view cfg A;; view cfg B) s = Ok tt s2 ∧ mons s2 = Some m2
    ∧ view cfg 0 s2 = Ok tt s3 ∧ mons s3 = Some m3
    ∧ (view cfg A;; view cfg B;; view cfg 0) s = Ok tt s3
    ∧ viewed m3 = Some (Z.land A (TAGMASK cfg))
    ∧ previous_view m3 = Some (Z.land B (TAGMASK cfg))
    ∧ m_tagset m3 = m_tagset m2
    ∧ m_seltags m3 = Z.lxor (m_seltags m2) 1.
Proof.
  intros Hwf Hmw Ht HA HB HAB HAt HBt.
  set (a := Z.land A (TAGMASK cfg)) in *. set (b := Z.land B (TAGMASK cfg)) in *.
  (* view(A) *)
  destruct (view_Ok cfg _ _ _ _ _ A Hwf Hmw Ht HAt) as (s1 & p1 & Hv1 & Hwf1 & _).
  fold a in Hwf1. set (m1 := with_sel p1 (view_mon a m)) in *.
  destruct (view_mon_viewed a m (wf_tagset _ _ _ _ Hwf) (wf_seltags _ _ _ _ Hwf) HA)
    as [Hv1a _].
  assert (Ht1 : viewed m1 = Some a) by exact Hv1a.
  assert (Hmw1 : mw_defined m1) by (apply mw_defined_view_mon; exact Hmw).
  (* view(B) *)
  destruct (view_Ok cfg _ _ _ _ _ B Hwf1 Hmw1 Ht1) as (s2 & p2 & Hv2 & Hwf2 & _);
    [fold b; congruence |].
  fold b in Hwf2. set (m2 := with_sel p2 (view_mon b m1)) in *.
  destruct (view_mon_viewed b m1 (wf_tagset _ _ _ _ Hwf1) (wf_seltags _ _ _ _ Hwf1) HB)
    as [Hv2b Hp2].
  assert (Ht2 : viewed m2 = Some b) by exact Hv2b.
  assert (Hmw2 : mw_defined m2) by (apply mw_defined_view_mon; exact Hmw1).
  (* view(0) *)
  assert (H0 : Z.land 0 (TAGMASK cfg) = 0) by apply Z.land_0_l.
  destruct (view_Ok cfg _ _ _ _ _ 0 Hwf2 Hmw2 Ht2) as (s3 & p3 & Hv3 & Hwf3 & _);
    [rewrite H0; congruence |].
  rewrite H0 in Hwf3. set (m3 := with_sel p3 (view_mon 0 m2)) in *.
  destruct (view_mon_0_viewed m2 (wf_tagset _ _ _ _ Hwf2) (wf_seltags _ _ _ _ Hwf2))
    as [Hv3a Hp3].
  assert (H12 : (view cfg A;; view cfg B) s = Ok tt s2)
    by (rewrite (bind_Ok _ _ _ _ _ Hv1); exact Hv2).
  exists s2, m2, s3, m3. split; [exact H12 |].
  split; [exact (wf_mons _ _ _ _ Hwf2) |].
  split; [exact Hv3 |].
  split; [exact (wf_mons _ _ _ _ Hwf3) |].
  split.
  { rewrite (bind_Ok _ _ _ _ _ Hv1). rewrite (bind_Ok _ _ _ _ _ Hv2). exact Hv3. }
  split.
  { change (viewed m3) with (viewed (view_mon 0 m2)). rewrite Hv3a.
    change (previous_view m2) with (previous_view (view_mon b m1)). rewrite Hp2.
    exact Ht1. }
  split.
  { change (previous_view m3) with (previous_view (view_mon 0 m2)). rewrite Hp3.
    exact Ht2. }
  split.
  - unfold m3, view_mon. destruct (decide (0 ≠ 0)); [contradiction | reflexivity].
  - unfold m3, view_mon. destruct (decide (0 ≠ 0)); [contradiction | reflexivity].
Qed.

Lemma view_previous_is_A_witness :
  ∃ s2 m2 s3 m3,
    (view config9 2;; view config9 4) (initial_state config9 1000 800) = Ok tt s2
    ∧ mons s2 = Some m2
    ∧ view config9 0 s2 = Ok tt s3 ∧ mons s3 = Some m3
    ∧ (view config9 2;; view config9 4;; view config9 0) (initial_state config9 1000 800)
      = Ok tt s3
    ∧ viewed m3 = Some (Z.land 2 (TAGMASK config9))
    ∧ previous_view m3 = Some (Z.land 4 (TAGMASK config9))
    ∧ m_tagset m3 = m_tagset m2
    ∧ m_seltags m3 = Z.lxor (m_seltags m2) 1.
Proof.
  apply (view_previous_is_A config9 (initial_state config9 1000 800)
           (initial_monitor config9 1000 800) [] [] 1 2 4).
  - apply wf_initial_state.
  - apply mw_defined_initial_1000.
  - reflexivity.
  - vm_compute. discriminate.
  - vm_compute. discriminate.
  - vm_compute. discriminate.
  - vm_compute. discriminate.
  - vm_compute. discriminate.
Defined.

(** C3 as worded fails: from the state after [setup], [view(2); view(4);
    view(0)] ends on the tags 2, not on 4. *)
Lemma view_previous_counterexample :
  viewed_after ((view config9 2;; view config9 4;; view config9 0)
                  (initial_state config9 1000 800)) = Some 2
  ∧ ¬ claimed_view_previous config9 (initial_state config9 1000 800) 2 4.
Proof.
  split; [vm_compute; reflexivity |].
  intros H.
  specialize (H (initial_monitor config9 1000 800) 1 eq_refl eq_refl).
  vm_compute in H.
  specialize (H ltac:(discriminate) ltac:(discriminate) ltac:(discriminate)
                ltac:(discriminate) ltac:(discriminate)).
  discriminate H.
Qed.

(** ** What a call leaves alone *)

Section Keeps.
Context {X : Type} (proj : State -> X).
Hypothesis HP : Projection proj.

Lemma keeps_ret {A} (a : A) : keeps proj (mret a).
Proof. intros s b s' [= _ <-]. reflexivity. Qed.

Lemma keeps_bind {A B} (c : M A) (k : A -> M B) :
  keeps proj c -> (∀ a, keeps proj (k a)) -> keeps proj (c ≫= k).
Proof.
  intros Hc Hk s b s' H. apply bind_inv in H as (a & s1 & H1 & H2).
  rewrite (Hk _ _ _ _ H2). eapply Hc; eassumption.
Qed.

Lemma keeps_fault {A} : keeps proj (@fault A).
Proof. intros s a s' H. discriminate. Qed.

Lemma keeps_diverge {A} : keeps proj (@diverge A).
Proof. intros s a s' H. discriminate. Qed.

Lemma keeps_die {A} msg : keeps proj (@die A msg).
Proof. intros s a s' H. discriminate. Qed.

Lemma keeps_get : keeps proj get.
Proof. intros s a s' [= _ <-]. reflexivity. Qed.

Lemma keeps_fuel : keeps proj fuel.
Proof. intros s a s' [= _ <-]. reflexivity. Qed.

Lemma keeps_load p : keeps proj (load p).
Proof.
  intros s a s'. unfold load. destruct p; [| discriminate].
  destruct (heap s !! _); [| discriminate]. intros [= _ <-]. reflexivity.
Qed.

Lemma keeps_store p f : keeps proj (store p f).
Proof.
  intros s a s'. unfold store. destruct p; [| discriminate].
  destruct (heap s !! _); [| discriminate]. intros [= _ <-]. apply (proj_heap _ HP).
Qed.

Lemma keeps_selmon : keeps proj selmon.
Proof.
  intros s a s'. unfold selmon. destruct (mons s); [| discriminate].
  intros [= _ <-]. reflexivity.
Qed.

Lemma keeps_setmon f :
  (∀ m s, mons s = Some m -> proj (set_mons (Some (f m)) s) = proj s) ->
  keeps proj (setmon f).
Proof.
  intros Hf s a s'. unfold setmon. destruct (mons s) as [m |] eqn:Hm; [| discriminate].
  intros [= _ <-]. now apply Hf.
Qed.

Lemma keeps_xreq r : keeps proj (xreq r).
Proof. intros s a s' [= _ <-]. apply (proj_xlog _ HP). Qed.

Lemma keeps_eprint msg : keeps proj (eprint msg).
Proof. intros s a s' [= _ <-]. apply (proj_stderr _ HP). Qed.

Lemma keeps_index {A} (l : list A) i : keeps proj (index l i).
Proof. unfold index. destruct (l !! Z.to_nat i); [apply keeps_ret | apply keeps_fault]. Qed.

Lemma keeps_calloc_client : keeps proj calloc_client.
Proof. intros s a s' [= _ <-]. apply (proj_heap _ HP). Qed.

Lemma keeps_free c : keeps proj (free c).
Proof.
  intros s a s'. unfold free. destruct c; [| intros [= _ <-]; reflexivity].
  destruct (heap s !! _); [| discriminate]. intros [= _ <-]. apply (proj_heap _ HP).
Qed.

Create HintDb keeps.
#[local] Hint Resolve keeps_ret keeps_fault keeps_diverge keeps_die keeps_get keeps_fuel
  keeps_load keeps_store keeps_selmon keeps_xreq keeps_eprint keeps_index
  keeps_calloc_client keeps_free : keeps.

(** splits a computation along its binds and case distinctions *)
Ltac keeps :=
  repeat match goal with
         | |- keeps _ (_ ≫= _) => apply keeps_bind; [| intro]
         | |- keeps _ (match ?x with _ => _ end) => destruct x
         | |- keeps _ (setmon (with_sel _)) => apply keeps_setmon, (proj_sel _ HP)
         | |- keeps _ (setmon (with_clients _)) => apply keeps_setmon, (proj_clients _ HP)
         | |- keeps _ (setmon (with_stack _)) => apply keeps_setmon, (proj_stack _ HP)
         | |- keeps _ (setmon (with_mfact _)) => apply keeps_setmon, (proj_mfact _ HP)
         | |- keeps _ (setmon (with_sellt _)) => apply keeps_setmon, (proj_sellt _ HP)
         | |- keeps _ (setmon (with_screen _ _)) => apply keeps_setmon, (proj_screen _ HP)
         | |- keeps _ (setmon _) => apply keeps_setmon; solve [auto]
         | |- _ => solve [eauto with keeps]
         end.

Lemma keeps_ISVISIBLE c : keeps proj (ISVISIBLE c).
Proof. unfold ISVISIBLE. keeps. Qed.
#[local] Hint Resolve keeps_ISVISIBLE : keeps.

Lemma keeps_visible_loop n : ∀ t, keeps proj (visible_loop n t).
Proof. induction n as [|n IH]; intros t; simpl; keeps. Qed.
#[local] Hint Resolve keeps_visible_loop : keeps.

Lemma keeps_focus c : keeps proj (focus c).
Proof. unfold focus. keeps. Qed.
#[local] Hint Resolve keeps_focus : keeps.

Lemma keeps_configure c : keeps proj (configure c).
Proof. unfold configure. keeps. Qed.
#[local] Hint Resolve keeps_configure : keeps.

Lemma keeps_resize c x y w h i : keeps proj (resize c x y w h i).
Proof. unfold resize. keeps. Qed.
#[local] Hint Resolve keeps_resize : keeps.

Lemma keeps_showhide_rec n : ∀ c, keeps proj (showhide_rec n c).
Proof. induction n as [|n IH]; intros c; simpl; keeps. Qed.
#[local] Hint Resolve keeps_showhide_rec : keeps.

Lemma keeps_nexttiled_loop n : ∀ c, keeps proj (nexttiled_loop n c).
Proof. induction n as [|n IH]; intros c; simpl; keeps. Qed.
#[local] Hint Resolve keeps_nexttiled_loop : keeps.

Lemma keeps_nexttiled c : keeps proj (nexttiled c).
Proof. unfold nexttiled. keeps. Qed.
#[local] Hint Resolve keeps_nexttiled : keeps.

Lemma keeps_tile_count k : ∀ c n, keeps proj (tile_count k c n).
Proof. induction k as [|k IH]; intros c n; simpl; keeps. Qed.
#[local] Hint Resolve keeps_tile_count : keeps.

Lemma keeps_udiv a b : keeps proj (udiv a b).
Proof. unfold udiv. keeps. Qed.
#[local] Hint Resolve keeps_udiv : keeps.

Lemma keeps_tile_loop k m n mw : ∀ c i my ty, keeps proj (tile_loop k m n mw c i my ty).
Proof. induction k as [|k IH]; intros c i my ty; simpl; keeps. Qed.
#[local] Hint Resolve keeps_tile_loop : keeps.

Lemma keeps_tile_mw m n : keeps proj (tile_mw m n).
Proof. unfold tile_mw. keeps. Qed.
#[local] Hint Resolve keeps_tile_mw : keeps.

Lemma keeps_tile : keeps proj tile.
Proof. unfold tile. keeps. Qed.

Lemma keeps_monocle_count k : ∀ c n, keeps proj (monocle_count k c n).
Proof. induction k as [|k IH]; intros c n; simpl; keeps. Qed.
#[local] Hint Resolve keeps_monocle_count : keeps.

Lemma keeps_monocle_loop k m : ∀ c, keeps proj (monocle_loop k m c).
Proof. induction k as [|k IH]; intros c; simpl; keeps. Qed.
#[local] Hint Resolve keeps_monocle_loop : keeps.

Lemma keeps_monocle : keeps proj monocle.
Proof. unfold monocle. keeps. Qed.
#[local] Hint Resolve keeps_tile keeps_monocle : keeps.

Lemma keeps_arrange : keeps proj arrange.
Proof. unfold arrange, showhide, restack. keeps. Qed.
#[local] Hint Resolve keeps_arrange : keeps.

Lemma keeps_refocus_arrange : keeps proj (focus None;; arrange).
Proof. keeps. Qed.

Lemma keeps_detach_loop n c : ∀ tc, keeps proj (detach_loop n c tc).
Proof. induction n as [|n IH]; intros tc; simpl; unfold read_next; keeps. Qed.
#[local] Hint Resolve keeps_detach_loop : keeps.

Lemma keeps_detachstack_loop n c : ∀ tc, keeps proj (detachstack_loop n c tc).
Proof. induction n as [|n IH]; intros tc; simpl; unfold read_snext; keeps. Qed.
#[local] Hint Resolve keeps_detachstack_loop : keeps.

Lemma keeps_detach c : keeps proj (detach c).
Proof. unfold detach, write_next. keeps. Qed.

Lemma keeps_detachstack c : keeps proj (detachstack c).
Proof. unfold detachstack, write_snext. keeps. Qed.
#[local] Hint Resolve keeps_detach keeps_detachstack : keeps.

Lemma keeps_manage cfg w wa : keeps proj (manage cfg w wa).
Proof.
  unfold manage, applyrules, attach, attachstack, grabbuttons, setclientstate. keeps.
Qed.

Lemma keeps_unmanage c destroyed : keeps proj (unmanage c destroyed).
Proof. unfold unmanage, setclientstate, updateclientlist. keeps. Qed.

Lemma keeps_killclient : keeps proj killclient.
Proof. unfold killclient. keeps. Qed.

Lemma keeps_tag cfg ui : keeps proj (tag cfg ui).
Proof. unfold tag. keeps. Qed.

Lemma keeps_toggletag cfg ui : keeps proj (toggletag cfg ui).
Proof. unfold toggletag. keeps. Qed.

Lemma keeps_togglefloating : keeps proj togglefloating.
Proof. unfold togglefloating. keeps. Qed.

Lemma keeps_setmfact arg : keeps proj (setmfact arg).
Proof. unfold setmfact. keeps. Qed.

Lemma keeps_focusstack_next n : ∀ c, keeps proj (focusstack_next n c).
Proof. induction n as [|n IH]; intros c; simpl; keeps. Qed.

Lemma keeps_focusstack_before n sel : ∀ i c, keeps proj (focusstack_before n sel i c).
Proof. induction n as [|n IH]; intros i c; simpl; keeps. Qed.

Lemma keeps_focusstack_after n : ∀ i c, keeps proj (focusstack_after n i c).
Proof. induction n as [|n IH]; intros i c; simpl; keeps. Qed.
#[local] Hint Resolve keeps_focusstack_next keeps_focusstack_before
  keeps_focusstack_after : keeps.

Lemma keeps_focusstack i : keeps proj (focusstack i).
Proof. unfold focusstack, restack. keeps. Qed.

Lemma keeps_setlayout arg : keeps proj (setlayout arg).
Proof. unfold setlayout. keeps. Qed.

(** [updategeom] creates the monitor when there is none; with a monitor it
    only assigns the rectangles *)
Lemma keeps_configurenotify cfg s a s' :
  mons s ≠ None -> configurenotify cfg s = Ok a s' -> proj s' = proj s.
Proof.
  intros Hm H. destruct (mons s) as [m |] eqn:Hms; [| contradiction].
  unfold configurenotify, updategeom, updatebars, mbind, M_bind, bind, setmon, get,
    mret, M_ret, ret in H.
  repeat (rewrite Hms in H; simpl in H).
  injection H as _ <-. now apply (proj_screen _ HP).
Qed.

Lemma keeps_quit : keeps proj quit.
Proof. intros s a s' [= _ <-]. apply (proj_running _ HP). Qed.

(** [view] and [toggleview] also assign [seltags] and [tagset] *)
Lemma keeps_view cfg ui :
  (∀ f m s, m_tagset (f m) = m_tagset m -> mons s = Some m ->
      proj (set_mons (Some (f m)) s) = proj s) ->
  (∀ f m s, m_seltags (f m) = m_seltags m -> mons s = Some m ->
      proj (set_mons (Some (f m)) s) = proj s) ->
  keeps proj (view cfg ui).
Proof.
  intros Hts Hst. unfold view, set_tagset. keeps.
Qed.

Lemma keeps_toggleview cfg ui :
  (∀ f m s, m_seltags (f m) = m_seltags m -> mons s = Some m ->
      proj (set_mons (Some (f m)) s) = proj s) ->
  keeps proj (toggleview cfg ui).
Proof.
  intros Hst. unfold toggleview, set_tagset. keeps.
Qed.
End Keeps.

Lemma Projection_tagstate : Projection tagstate.
Proof.
  constructor; try reflexivity; intros; unfold tagstate; simpl;
    match goal with H : mons _ = Some _ |- _ => now rewrite H end.
Qed.

Lemma Projection_xerrorxlib : Projection xerrorxlib.
Proof. constructor; reflexivity. Qed.

(** ** [view] and [toggleview] on [tagset] *)

Lemma tagstate_mons s ts i :
  tagstate s = Some (ts, i) -> ∃ m, mons s = Some m ∧ m_tagset m = ts ∧ m_seltags m = i.
Proof.
  unfold tagstate. destruct (mons s) as [m |]; [| discriminate].
  intros [= <- <-]. eauto.
Qed.

Lemma set_tagset_tagstate v s s' ts i :
  tagstate s = Some (ts, i) -> set_tagset v s = Ok tt s' ->
  tagstate s' = Some (<[Z.to_nat i := v]> ts, i).
Proof.
  intros Hts H. apply tagstate_mons in Hts as (m & Hm & <- & <-).
  unfold set_tagset in H.
  rewrite (bind_Ok _ _ _ _ _ (selmon_Ok _ _ Hm)) in H.
  apply bind_inv in H as (x & s1 & H1 & H2).
  unfold index in H1. destruct (m_tagset m !! _); [| discriminate].
  injection H1 as _ <-. rewrite (setmon_Ok _ _ _ Hm) in H2.
  injection H2 as <-. reflexivity.
Qed.

Lemma view_tagstate cfg ui s s' ts i t :
  tagstate s = Some (ts, i) -> ts !! Z.to_nat i = Some t ->
  view cfg ui s = Ok tt s' ->
  (Z.land ui (TAGMASK cfg) = t ∧ s' = s)
  ∨ (Z.land ui (TAGMASK cfg) ≠ t
     ∧ tagstate s' = Some (if decide (Z.land ui (TAGMASK cfg) ≠ 0)
                           then <[Z.to_nat (Z.lxor i 1) := Z.land ui (TAGMASK cfg)]> ts
                           else ts, Z.lxor i 1)).
Proof.
  intros Hts Ht H. apply tagstate_mons in Hts as (m & Hm & <- & <-).
  unfold view in H.
  rewrite (bind_Ok _ _ _ _ _ (selmon_Ok _ _ Hm)) in H.
  rewrite (bind_Ok _ _ _ _ _ (index_Ok _ _ _ _ Ht)) in H.
  destruct (decide (Z.land ui (TAGMASK cfg) = t)) as [He | Hne].
  { left. injection H as <-. auto. }
  right. split; [assumption |].
  rewrite (bind_Ok _ _ _ _ _ (setmon_Ok _ _ _ Hm)) in H.
  apply bind_inv in H as ([] & s2 & H2 & H).
  rewrite (keeps_refocus_arrange tagstate Projection_tagstate _ _ _ H).
  destruct (decide (Z.land ui (TAGMASK cfg) ≠ 0)).
  - eapply set_tagset_tagstate; [| exact H2]. reflexivity.
  - injection H2 as <-. reflexivity.
Qed.

Lemma toggleview_tagstate cfg ui s s' ts i t :
  tagstate s = Some (ts, i) -> ts !! Z.to_nat i = Some t ->
  toggleview cfg ui s = Ok tt s' ->
  (Z.lxor t (Z.land ui (TAGMASK cfg)) = 0 ∧ s' = s)
  ∨ (Z.lxor t (Z.land ui (TAGMASK cfg)) ≠ 0
     ∧ tagstate s' = Some (<[Z.to_nat i := Z.lxor t (Z.land ui (TAGMASK cfg))]> ts, i)).
Proof.
  intros Hts Ht H. pose proof Hts as Hts'.
  apply tagstate_mons in Hts as (m & Hm & <- & <-).
  unfold toggleview in H.
  rewrite (bind_Ok _ _ _ _ _ (selmon_Ok _ _ Hm)) in H.
  rewrite (bind_Ok _ _ _ _ _ (index_Ok _ _ _ _ Ht)) in H.
  destruct (decide (Z.lxor t (Z.land ui (TAGMASK cfg)) ≠ 0)) as [Hne | He].
  - right. split; [assumption |].
    apply bind_inv in H as ([] & s2 & H2 & H).
    rewrite (keeps_refocus_arrange tagstate Projection_tagstate _ _ _ H). eapply set_tagset_tagstate; eassumption.
  - left. injection H as <-. split; [lia | reflexivity].
Qed.

Lemma tags_nonzero_keeps {A} (c : M A) s a s' :
  keeps tagstate c -> tags_nonzero s -> c s = Ok a s' -> tags_nonzero s'.
Proof.
  intros Hk (t0 & t1 & i & Hts & H) Hc. exists t0, t1, i.
  rewrite (Hk _ _ _ Hc). auto.
Qed.

Lemma tags_nonzero_view cfg ui s s' :
  tags_nonzero s -> view cfg ui s = Ok tt s' -> tags_nonzero s'.
Proof.
  intros (t0 & t1 & i & Hts & H0 & H1 & Hi) Hv.
  assert (Ht : ∃ t, [t0; t1] !! Z.to_nat i = Some t)
    by (destruct Hi as [-> | ->]; simpl; eauto).
  destruct Ht as [t Ht].
  destruct (view_tagstate _ _ _ _ _ _ _ Hts Ht Hv) as [[_ ->] | [_ Hts']].
  { exists t0, t1, i. auto. }
  destruct (decide (Z.land ui (TAGMASK cfg) ≠ 0)) as [Ha | Ha].
  - destruct Hi as [-> | ->]; simpl in Hts'.
    + exists t0, (Z.land ui (TAGMASK cfg)), 1. auto.
    + exists (Z.land ui (TAGMASK cfg)), t1, 0. auto.
  - exists t0, t1, (Z.lxor i 1). split; [exact Hts' |].
    repeat split; auto. now apply lxor_1_bit.
Qed.

Lemma tags_nonzero_toggleview cfg ui s s' :
  tags_nonzero s -> toggleview cfg ui s = Ok tt s' -> tags_nonzero s'.
Proof.
  intros (t0 & t1 & i & Hts & H0 & H1 & Hi) Hv.
  assert (Ht : ∃ t, [t0; t1] !! Z.to_nat i = Some t)
    by (destruct Hi as [-> | ->]; simpl; eauto).
  destruct Ht as [t Ht].
  destruct (toggleview_tagstate _ _ _ _ _ _ _ Hts Ht Hv) as [[_ ->] | [Hne Hts']].
  { exists t0, t1, i. auto. }
  destruct Hi as [-> | ->]; simpl in Hts'.
  - exists (Z.lxor t (Z.land ui (TAGMASK cfg))), t1, 0. auto.
  - exists t0, (Z.lxor t (Z.land ui (TAGMASK cfg))), 1. auto.
Qed.

Lemma tags_nonzero_initial cfg width height : tags_nonzero (initial_state cfg width height).
Proof. exists 1, 1, 0. repeat split; auto; lia. Qed.

Lemma tags_nonzero_perform cfg a s s' :
  tags_nonzero s -> perform cfg a s = Ok tt s' -> tags_nonzero s'.
Proof.
  destruct a; simpl.
  - apply tags_nonzero_view.
  - apply tags_nonzero_toggleview.
  - intros H. apply tags_nonzero_keeps; [apply keeps_tag, Projection_tagstate | exact H].
  - intros H. apply tags_nonzero_keeps; [apply keeps_toggletag, Projection_tagstate | exact H].
  - intros H. apply tags_nonzero_keeps; [apply keeps_setmfact, Projection_tagstate | exact H].
  - intros H. apply tags_nonzero_keeps; [apply keeps_killclient, Projection_tagstate | exact H].
  - intros H. apply tags_nonzero_keeps; [apply keeps_togglefloating, Projection_tagstate | exact H].
  - intros H. apply tags_nonzero_keeps; [apply keeps_quit, Projection_tagstate | exact H].
  - intros H. apply tags_nonzero_keeps; [apply keeps_focusstack, Projection_tagstate | exact H].
  - intros H. apply tags_nonzero_keeps; [apply keeps_setlayout, Projection_tagstate | exact H].
  - intros (t0 & t1 & i & Hts & H) Hc. exists t0, t1, i.
    rewrite (keeps_configurenotify tagstate Projection_tagstate _ _ _ _ ltac:(
               apply tagstate_mons in Hts as (m & -> & _); discriminate) Hc).
    auto.
  - intros H. apply tags_nonzero_keeps; [apply keeps_manage, Projection_tagstate | exact H].
  - intros H. apply tags_nonzero_keeps; [apply keeps_unmanage, Projection_tagstate | exact H].
Qed.

Lemma Reachable_tags_nonzero cfg width height s :
  Reachable cfg width height s -> tags_nonzero s.
Proof.
  induction 1 as [s Hs | s a s' _ IH Hstep].
  - rewrite setup_boot in Hs. injection Hs as <-. apply tags_nonzero_initial.
  - eapply tags_nonzero_perform; eassumption.
Qed.

Lemma tags_nonzero_viewed s :
  tags_nonzero s -> ∃ m t, mons s = Some m ∧ viewed m = Some t ∧ t ≠ 0.
Proof.
  intros (t0 & t1 & i & Hts & H0 & H1 & Hi).
  apply tagstate_mons in Hts as (m & Hm & Hset & Hsel).
  exists m. unfold viewed. rewrite Hset, Hsel.
  destruct Hi as [-> | ->]; simpl; eauto.
Qed.

Lemma createmon_tagset cfg s s' :
  mons s = None -> createmon cfg s = Ok tt s' -> tagstate s' = Some ([1; 1], 0).
Proof.
  intros Hm H. unfold createmon in H.
  rewrite (bind_Ok _ _ _ _ _ (eq_refl : get s = Ok s s)) in H.
  rewrite Hm in H. injection H as <-. reflexivity.
Qed.

(** C1: in every state reached from [setup] the tags the monitor views,
    [tagset[seltags]], are not empty.  [createmon] sets both entries of
    [tagset] to 1; every call that returns, [view] and [toggleview] among
    them, leaves a state with the same property; [view] with an argument
    that is not empty under [TAGMASK] ends on that mask; [view(0)] flips
    [seltags] and leaves [tagset] as it is; [toggleview] changes nothing when
    the exclusive or would be empty; and on a well-formed state both commands
    do return. *)
Theorem tagset_selected_nonzero cfg width height s :
  Reachable cfg width height s ->
  ∃ m t,
    mons s = Some m ∧ viewed m = Some t ∧ t ≠ 0
    ∧ (∀ s0 s1, mons s0 = None -> createmon cfg s0 = Ok tt s1 ->
                tagstate s1 = Some ([1; 1], 0))
    ∧ (∀ a s', perform cfg a s = Ok tt s' ->
               ∃ m' t', mons s' = Some m' ∧ viewed m' = Some t' ∧ t' ≠ 0)
    ∧ (∀ ui s', Z.land ui (TAGMASK cfg) ≠ 0 -> view cfg ui s = Ok tt s' ->
                viewed_after (Ok tt s') = Some (Z.land ui (TAGMASK cfg)))
    ∧ (∀ s', view cfg 0 s = Ok tt s' ->
             tagstate s' = Some (m_tagset m, Z.lxor (m_seltags m) 1))
    ∧ (∀ ui, Z.lxor t (Z.land ui (TAGMASK cfg)) = 0 -> toggleview cfg ui s = Ok tt s)
    ∧ (∀ cl sl ui, wf s m cl sl -> mw_defined m ->
                   (∃ s', view cfg ui s = Ok tt s') ∧ (∃ s', toggleview cfg ui s = Ok tt s')).
Proof.
  intros Hr. pose proof (Reachable_tags_nonzero _ _ _ _ Hr) as Hnz.
  pose proof Hnz as (t0 & t1 & i & Hts & H0 & H1 & Hi).
  destruct (tags_nonzero_viewed _ Hnz) as (m & t & Hm & Ht & Htnz).
  pose proof Hts as Hts'. apply tagstate_mons in Hts' as (m' & Hm' & Hset & Hsel).
  rewrite Hm in Hm'. injection Hm' as <-.
  assert (Hlk : [t0; t1] !! Z.to_nat i = Some t)
    by (unfold viewed in Ht; now rewrite Hset, Hsel in Ht).
  exists m, t.
  split; [exact Hm |]. split; [exact Ht |]. split; [exact Htnz |].
  split; [apply createmon_tagset |].
  split.
  { intros a s' Hp. apply tags_nonzero_viewed.
    eapply tags_nonzero_perform; eassumption. }
  split.
  { intros ui s' Ha Hv. simpl.
    destruct (view_tagstate _ _ _ _ _ _ _ Hts Hlk Hv) as [[He ->] | [_ Hts2]].
    - rewrite Hm, Ht. now rewrite He.
    - destruct (decide (Z.land ui (TAGMASK cfg) ≠ 0)); [| contradiction].
      apply tagstate_mons in Hts2 as (m2 & -> & Hset2 & Hsel2).
      unfold viewed. rewrite Hset2, Hsel2.
      destruct Hi as [-> | ->]; reflexivity. }
  split.
  { intros s' Hv.
    destruct (view_tagstate _ _ _ _ _ _ _ Hts Hlk Hv) as [[He _] | [_ Hts2]].
    - rewrite Z.land_0_l in He. congruence.
    - rewrite Z.land_0_l in Hts2. destruct (decide (0 ≠ 0)); [contradiction |].
      now rewrite Hts2, Hset, Hsel. }
  split.
  { intros ui He. eapply toggleview_empty; eassumption. }
  intros cl sl ui Hwf Hmw. split.
  - destruct (decide (Z.land ui (TAGMASK cfg) = t)) as [He | Hne].
    + exists s. eapply view_same; eassumption.
    + destruct (view_Ok cfg _ _ _ _ _ ui Hwf Hmw Ht Hne) as (s' & _ & Hv & _). eauto.
  - destruct (decide (Z.lxor t (Z.land ui (TAGMASK cfg)) = 0)) as [He | Hne].
    + exists s. eapply toggleview_empty; eassumption.
    + destruct (toggleview_Ok cfg _ _ _ _ _ ui Hwf Hmw Ht Hne) as (s' & _ & Hv & _). eauto.
Qed.

Lemma tagset_selected_nonzero_witness :
  Reachable config9 1000 800 (initial_state config9 1000 800)
  ∧ ∃ m t,
      mons (initial_state config9 1000 800) = Some m ∧ viewed m = Some t ∧ t ≠ 0
      ∧ (∀ s0 s1, mons s0 = None -> createmon config9 s0 = Ok tt s1 ->
                  tagstate s1 = Some ([1; 1], 0))
      ∧ (∀ a s', perform config9 a (initial_state config9 1000 800) = Ok tt s' ->
                 ∃ m' t', mons s' = Some m' ∧ viewed m' = Some t' ∧ t' ≠ 0)
      ∧ (∀ ui s', Z.land ui (TAGMASK config9) ≠ 0 ->
                  view config9 ui (initial_state config9 1000 800) = Ok tt s' ->
                  viewed_after (Ok tt s') = Some (Z.land ui (TAGMASK config9)))
      ∧ (∀ s', view config9 0 (initial_state config9 1000 800) = Ok tt s' ->
               tagstate s' = Some (m_tagset m, Z.lxor (m_seltags m) 1))
      ∧ (∀ ui, Z.lxor t (Z.land ui (TAGMASK config9)) = 0 ->
               toggleview config9 ui (initial_state config9 1000 800)
               = Ok tt (initial_state config9 1000 800))
      ∧ (∀ cl sl ui, wf (initial_state config9 1000 800) m cl sl -> mw_defined m ->
                     (∃ s', view config9 ui (initial_state config9 1000 800) = Ok tt s')
                     ∧ (∃ s', toggleview config9 ui (initial_state config9 1000 800)
                              = Ok tt s')).
Proof.
  assert (Hr : Reachable config9 1000 800 (initial_state config9 1000 800))
    by (apply Reachable_setup; reflexivity).
  split; [exact Hr |].
  exact (tagset_selected_nonzero config9 1000 800 (initial_state config9 1000 800) Hr).
Defined.

(** ** Command line *)

(** C9, amended: with the single argument [-v] the program prints the version
    string to stderr and leaves with status 1, the status [die] always uses;
    with any other non-empty argument list it prints the usage message to
    stderr and leaves with status 1. *)
Theorem main_arguments_exit_1 (prog : string) (args : list string) (env : Env) (s : State) :
  args ≠ [] ->
  main (prog :: args) env s
  = Exited 1 (set_stderr
                (stderr s ++ [if decide (args = ["-v"%string])
                              then ("dwm-minimal-1.0" +:+ newline)%string
                              else ("usage: dwm [-v]" +:+ newline)%string]) s).
Proof.
  intros Hne. unfold main.
  destruct (decide (args = ["-v"%string])) as [-> | Hv].
  - reflexivity.
  - destruct (decide (length (prog :: args) = 2%nat ∧ (prog :: args) !! 1%nat = Some "-v"%string))
      as [[Hlen Harg] | _].
    + exfalso. apply Hv. destruct args as [|a [|b args]]; try discriminate.
      simpl in Harg. congruence.
    + destruct (decide (length (prog :: args) ≠ 1%nat)) as [_ | Hlen]; [reflexivity |].
      exfalso. destruct args; [contradiction |]. simpl in Hlen. lia.
Qed.

Lemma main_arguments_exit_1_witness :
  ["-x"%string; "-v"%string] ≠ []
  ∧ main ["dwm"%string; "-x"%string; "-v"%string] quiet_env boot
    = Exited 1 (set_stderr [("usage: dwm [-v]" +:+ newline)%string] boot).
Proof.
  split; [discriminate |].
  apply (main_arguments_exit_1 "dwm" ["-x"%string; "-v"%string] quiet_env boot).
  discriminate.
Defined.

(** C9 as worded fails: [dwm -v] leaves with status 1, not 0. *)
Lemma main_v_counterexample :
  exit_status (main ["dwm"%string; "-v"%string] quiet_env boot) = Some 1
  ∧ exit_status (main ["dwm"%string; "-v"%string] quiet_env boot) ≠ Some 0.
Proof. split; [reflexivity | discriminate]. Qed.

(** ** The X error handler *)

Lemma xerror_ignored_returns_0 ee s : xerror_ignored ee -> xerror ee s = Ok 0 s.
Proof.
  intros H. unfold xerror. destruct (decide (xerror_ignored ee)); [reflexivity | contradiction].
Qed.

Lemma xerror_other_delegates ee s :
  ¬ xerror_ignored ee ->
  xerror ee s = call_xerrorxlib ee (set_stderr (stderr s ++ [xerror_message ee]) s).
Proof.
  intros H. unfold xerror. destruct (decide (xerror_ignored ee)); [contradiction | reflexivity].
Qed.

Lemma keeps_xerrorxlib_perform cfg a : keeps xerrorxlib (perform cfg a).
Proof.
  destruct a; simpl.
  - apply keeps_view; [apply Projection_xerrorxlib | reflexivity | reflexivity].
  - apply keeps_toggleview; [apply Projection_xerrorxlib | reflexivity].
  - apply keeps_tag, Projection_xerrorxlib.
  - apply keeps_toggletag, Projection_xerrorxlib.
  - apply keeps_setmfact, Projection_xerrorxlib.
  - apply keeps_killclient, Projection_xerrorxlib.
  - apply keeps_togglefloating, Projection_xerrorxlib.
  - apply keeps_quit, Projection_xerrorxlib.
  - apply keeps_focusstack, Projection_xerrorxlib.
  - apply keeps_setlayout, Projection_xerrorxlib.
  - intros s u s' H.
    unfold configurenotify, updategeom, updatebars, createmon, mbind, M_bind, bind,
      setmon, get, modify, mret, M_ret, ret in H.
    destruct (mons s) eqn:Hms; simpl in H; rewrite ?Hms in H; injection H as _ <-; reflexivity.
  - apply keeps_manage, Projection_xerrorxlib.
  - apply keeps_unmanage, Projection_xerrorxlib.
Qed.

(** [xerrorxlib] is NULL when the process starts and nothing assigns it *)
Lemma Reachable_xerrorxlib cfg width height s :
  Reachable cfg width height s -> xerrorxlib s = None.
Proof.
  induction 1 as [s Hs | s a s' _ IH Hstep].
  - rewrite setup_boot in Hs. injection Hs as <-. reflexivity.
  - rewrite (keeps_xerrorxlib_perform _ _ _ _ _ Hstep). exact IH.
Qed.

(** C6: [xerror] returns 0, and prints nothing, exactly on the listed
    errors.  On every other error it prints the request and error codes and
    then calls through [xerrorxlib]; but [xerrorxlib] is never assigned (the
    handler that [XSetErrorHandler] returns in [setup] is dropped), so in every
    state reached from [setup] the call goes through a NULL pointer instead of
    reaching the default handler of Xlib. *)
Theorem xerror_unlisted_calls_null cfg width height s ee :
  Reachable cfg width height s ->
  (xerror_ignored ee -> xerror ee s = Ok 0 s)
  ∧ (¬ xerror_ignored ee ->
     xerror ee s = call_xerrorxlib ee (set_stderr (stderr s ++ [xerror_message ee]) s)
     ∧ xerror ee s = Fault).
Proof.
  intros Hr. split; [apply xerror_ignored_returns_0 |].
  intros Hn. pose proof (xerror_other_delegates _ s Hn) as Hd.
  split; [exact Hd |]. rewrite Hd.
  unfold call_xerrorxlib.
  erewrite bind_Ok; [| reflexivity]. simpl.
  rewrite (Reachable_xerrorxlib _ _ _ _ Hr). reflexivity.
Qed.

Lemma xerror_unlisted_calls_null_witness :
  Reachable config9 1000 800 two_client_state
  ∧ ¬ xerror_ignored (mkXErrorEvent X_CreateWindow BadAlloc)
  ∧ xerror (mkXErrorEvent X_CreateWindow BadAlloc) two_client_state = Fault.
Proof.
  assert (Hr : Reachable config9 1000 800 two_client_state).
  { destruct (bind_inv _ _ _ _ _ two_client_state_reached) as ([] & s1 & H1 & H2).
    eapply (Reachable_step _ _ _ s1 (AManage 102 (mkAttrs 30 40 300 200 0 0))); [| exact H2].
    eapply (Reachable_step _ _ _ _ (AManage 101 (mkAttrs 10 20 300 200 0 0))); [| exact H1].
    apply Reachable_setup. reflexivity. }
  assert (Hn : ¬ xerror_ignored (mkXErrorEvent X_CreateWindow BadAlloc)).
  { unfold xerror_ignored. simpl. unfold BadAlloc, BadWindow, BadMatch, BadDrawable,
      BadAccess, X_CreateWindow. lia. }
  split; [exact Hr |]. split; [exact Hn |].
  apply (xerror_unlisted_calls_null config9 1000 800 two_client_state
           (mkXErrorEvent X_CreateWindow BadAlloc) Hr).
  exact Hn.
Defined.

(** ** [killclient] *)

(** C7, amended: without a selected client [killclient] does nothing; with a
    selected client it issues [XKillClient] on the client's window, whatever
    the window lists in [WM_PROTOCOLS]; no client message is sent. *)
Theorem killclient_always_kills (protocols : Protocols) s m :
  mons s = Some m ->
  match m_sel m with
  | None => killclient s = Ok tt s
  | Some a =>
      ∀ r, heap s !! a = Some r ->
        killclient s = Ok tt (set_xlog (xlog s ++ [XKillClient (c_win r)]) s)
  end.
Proof.
  intros Hm. unfold killclient.
  rewrite (bind_Ok _ _ _ _ _ (selmon_Ok _ _ Hm)).
  destruct (m_sel m) as [a |]; [| reflexivity].
  intros r Hr. now rewrite (bind_Ok _ _ _ _ _ (load_Ok _ _ _ Hr)).
Qed.

Lemma killclient_always_kills_witness :
  mons one_client_state = Some one_client_monitor
  ∧ ∀ r, heap one_client_state !! 1%positive = Some r ->
      killclient one_client_state
      = Ok tt (set_xlog (xlog one_client_state ++ [XKillClient (c_win r)]) one_client_state).
Proof.
  split; [reflexivity |].
  exact (killclient_always_kills (fun _ => ["WM_DELETE_WINDOW"%string]) one_client_state _ eq_refl).
Defined.

(** C7 as worded fails: the selected window 101 lists [WM_DELETE_WINDOW], and
    [killclient] still issues [XKillClient] for it. *)
Lemma killclient_counterexample :
  killclient one_client_state = Ok tt (set_xlog [XKillClient 101] one_client_state)
  ∧ ¬ claimed_killclient (fun _ => ["WM_DELETE_WINDOW"%string]) one_client_state.
Proof.
  split; [reflexivity |].
  intros H. specialize (H _ eq_refl). simpl in H.
  specialize (H _ eq_refl). vm_compute in H. discriminate H.
Qed.

(** ** [setmfact] *)

Lemma SFcompare_antisym x y : SFcompare y x = option_map CompOpp (SFcompare x y).
Proof.
  destruct x as [sx | sx | | sx mx ex], y as [sy | sy | | sy my ey]; simpl;
    try destruct sx; try destruct sy; simpl; try reflexivity;
    rewrite (Z.compare_antisym ex ey); destruct (ex ?= ey); simpl; try reflexivity;
    rewrite (Pos.compare_cont_antisym mx my Eq); reflexivity.
Qed.

Lemma SFleb_not_ltb x y : SFleb x y = true -> SFltb y x = false.
Proof.
  unfold SFleb, SFltb. rewrite (SFcompare_antisym x y).
  destruct (SFcompare x y) as [[] |]; simpl; congruence.
Qed.

(** the value the code computes is the requested factor *)
Lemma setmfact_value_requested a m f :
  requested_mfact a m f ->
  (if F64.ltb (F64.of_float a) (F64.of_int 1)
   then F32.add a (m_mfact m)
   else F32.of_double (F64.sub (F64.of_float a) (F64.of_int 1))) = f.
Proof.
  unfold requested_mfact, F64.ltb, d_1_0. intros [[Hle ->] | [Hlt ->]].
  - now rewrite (SFleb_not_ltb _ _ Hle).
  - now rewrite Hlt.
Qed.

(** C4, amended: an argument of at least 1.0 is absolute (less 1.0) and a
    smaller one is relative to the current factor; a result below 0.1 or
    above 0.9 is rejected: the state, [mfact] included, is left as it is and
    nothing is re-arranged; a result within [0.1, 0.9] is stored and the
    monitor is re-arranged. *)
Theorem setmfact_bounds_01_09 s m cl sl a f :
  wf s m cl sl -> requested_mfact a m f ->
  (SFltb (F64.of_float f) d_0_1 = true ∨ SFltb d_0_9 (F64.of_float f) = true ->
   setmfact (Some a) s = Ok tt s)
  ∧ (SFleb d_0_1 (F64.of_float f) = true -> SFleb (F64.of_float f) d_0_9 = true ->
     setmfact (Some a) s = arrange (set_mons (Some (with_mfact f m)) s)
     ∧ (mw_defined (with_mfact f m) ->
        ∃ s', setmfact (Some a) s = Ok tt s'
              ∧ mons s' = Some (with_mfact f m)
              ∧ frame (set_mons (Some (with_mfact f m)) s) s')).
Proof.
  intros Hwf Hreq. pose proof (wf_mons _ _ _ _ Hwf) as Hm.
  assert (Hrun : setmfact (Some a) s
                 = (if F64.ltb (F64.of_float f) (F64.of_decimal 1 1)
                       || F64.ltb (F64.of_decimal 9 1) (F64.of_float f)
                    then mret tt
                    else setmon (with_mfact f);; arrange) s).
  { unfold setmfact. rewrite (bind_Ok _ _ _ _ _ (eq_refl : get s = Ok s s)).
    rewrite Hm. cbv zeta. now rewrite (setmfact_value_requested _ _ _ Hreq). }
  rewrite Hrun. unfold F64.ltb. fold d_0_1 d_0_9. split.
  - intros [H | H]; rewrite H; [reflexivity | now rewrite orb_true_r].
  - intros H1 H9.
    rewrite (SFleb_not_ltb _ _ H1), (SFleb_not_ltb _ _ H9). simpl.
    rewrite (bind_Ok _ _ _ _ _ (setmon_Ok _ _ _ Hm)).
    split; [reflexivity |]. intros Hmw.
    assert (Hwf' : wf (set_mons (Some (with_mfact f m)) s) (with_mfact f m) cl sl)
      by (destruct Hwf; constructor; auto).
    destruct (arrange_Ok _ _ _ _ Hwf' Hmw) as (s' & Hs' & Hf).
    exists s'. split; [exact Hs' |]. split; [| exact Hf].
    rewrite (fr_mons _ _ Hf). reflexivity.
Qed.

Lemma setmfact_bounds_01_09_witness :
  wf one_client_state one_client_monitor [1%positive] [1%positive]
  ∧ requested_mfact (F32.of_decimal (-5) 2) one_client_monitor (F32.of_decimal 5 1)
  ∧ ∃ s', setmfact (Some (F32.of_decimal (-5) 2)) one_client_state = Ok tt s'
          ∧ mons s' = Some (with_mfact (F32.of_decimal 5 1) one_client_monitor).
Proof.
  assert (Hreq : requested_mfact (F32.of_decimal (-5) 2) one_client_monitor
                                 (F32.of_decimal 5 1))
    by (right; split; vm_compute; reflexivity).
  split; [exact wf_one_client_state |]. split; [exact Hreq |].
  destruct (setmfact_bounds_01_09 one_client_state _ _ _ (F32.of_decimal (-5) 2)
              (F32.of_decimal 5 1) wf_one_client_state Hreq) as [_ Hstore].
  destruct Hstore as [_ Hs]; [vm_compute; reflexivity | vm_compute; reflexivity |].
  destruct Hs as (s' & Hs' & Hm' & _); [exists 500; vm_compute; reflexivity |].
  exists s'. split; [exact Hs' | exact Hm'].
Defined.

(** C4 as worded fails: from a factor of 0.55 the argument -0.48 asks for
    0.07, which lies within [0.05, 0.95], and [setmfact] leaves the factor at
    0.55. *)
Lemma setmfact_counterexample :
  setmfact (Some (F32.of_decimal (-48) 2)) (initial_state config9 1000 800)
  = Ok tt (initial_state config9 1000 800)
  ∧ ¬ claimed_setmfact (initial_state config9 1000 800) (F32.of_decimal (-48) 2).
Proof.
  split; [vm_compute; reflexivity |].
  intros H.
  destruct (H (initial_monitor config9 1000 800)
              (F32.add (F32.of_decimal (-48) 2) (F32.of_decimal 55 2)) eq_refl)
    as (s' & m' & Hs' & Hm' & Hf).
  - right. split; vm_compute; reflexivity.
  - vm_compute. reflexivity.
  - vm_compute. reflexivity.
  - assert (Hrun : setmfact (Some (F32.of_decimal (-48) 2)) (initial_state config9 1000 800)
                   = Ok tt (initial_state config9 1000 800)) by (vm_compute; reflexivity).
    rewrite Hrun in Hs'. injection Hs' as <-.
    injection Hm' as <-. vm_compute in Hf. discriminate Hf.
Qed.

(** ** [toggletag] *)

Lemma wf_store_links s m cl sl a r r' :
  wf s m cl sl -> heap s !! a = Some r ->
  c_next r' = c_next r -> c_snext r' = c_snext r ->
  wf (set_heap (<[a := r']> (heap s)) s) m cl sl.
Proof.
  intros [] Hr Hn Hsn.
  assert (Hext : ∀ nxt : Client -> option addr, nxt r' = nxt r ->
            ∀ b c, heap s !! b = Some c ->
              ∃ c', <[a := r']> (heap s) !! b = Some c' ∧ nxt c' = nxt c).
  { intros nxt Hnx b c Hb. destruct (decide (a = b)) as [<- | Hne].
    - rewrite lookup_insert_eq. rewrite Hr in Hb. injection Hb as <-. eauto.
    - rewrite lookup_insert_ne by assumption. eauto. }
  constructor; simpl; auto.
  - eapply chain_ext; [| eassumption]. intros b c _. apply (Hext c_next Hn).
  - eapply chain_ext; [| eassumption]. intros b c _. apply (Hext c_snext Hsn).
  - rewrite map_size_insert_Some by eauto. assumption.
Qed.

Lemma wf_store_tags s m cl sl a r v :
  wf s m cl sl -> heap s !! a = Some r ->
  wf (set_heap (<[a := with_tags v r]> (heap s)) s) m cl sl.
Proof. intros Hwf Hr. eapply wf_store_links; eauto. Qed.

(** [toggletag] when the new tags are not empty: the tags of the selected
    client are replaced, the selection moves to the first visible client of
    the stack, and the clients are re-arranged *)
Lemma toggletag_Ok cfg s m cl sl t c r ui :
  wf s m cl sl -> mw_defined m -> viewed m = Some t ->
  m_sel m = Some c -> heap s !! c = Some r ->
  Z.lxor (c_tags r) (Z.land ui (TAGMASK cfg)) ≠ 0 ->
  ∃ s' p,
    toggletag cfg ui s = Ok tt s'
    ∧ wf s' (with_sel p m) cl sl
    ∧ frame (set_mons (Some (with_sel p m))
               (set_heap (<[c := with_tags (Z.lxor (c_tags r) (Z.land ui (TAGMASK cfg))) r]>
                            (heap s)) s)) s'.
Proof.
  intros Hwf Hmw Ht Hsel Hr Hne. pose proof (wf_mons _ _ _ _ Hwf) as Hm.
  set (v := Z.lxor (c_tags r) (Z.land ui (TAGMASK cfg))) in *.
  pose proof (wf_store_tags _ _ _ _ _ _ v Hwf Hr) as Hwf1.
  destruct (refocus_arrange_Ok _ _ _ _ _ Hwf1 Hmw Ht) as (s' & Hs' & Hwf' & Hf').
  eexists s', _. split; [| split; [exact Hwf' | exact Hf']].
  unfold toggletag.
  rewrite (bind_Ok _ _ _ _ _ (selmon_Ok _ _ Hm)). rewrite Hsel.
  rewrite (bind_Ok _ _ _ _ _ (load_Ok _ _ _ Hr)).
  cbv zeta. fold v. destruct (decide (v ≠ 0)); [| contradiction].
  rewrite (bind_Ok _ _ _ _ _ (store_Ok _ _ _ _ Hr)). exact Hs'.
Qed.

Lemma lxor_twice a b : Z.lxor (Z.lxor a b) b = a.
Proof. now rewrite Z.lxor_assoc, Z.lxor_nilpotent, Z.lxor_0_r. Qed.

(** C8, amended: when the client is still the selected one after the first
    call, two calls of [toggletag] with the same argument give it its tags
    back, provided neither exclusive or is empty.  (The first call ends with
    [focus(NULL)], which selects the first visible client of the stack; the
    second call acts on that client.) *)
Theorem toggletag_twice_same_client cfg s m cl sl c r ui :
  wf s m cl sl -> mw_defined m ->
  m_sel m = Some c -> heap s !! c = Some r ->
  Z.lxor (c_tags r) (Z.land ui (TAGMASK cfg)) ≠ 0 ->
  Z.lxor (Z.lxor (c_tags r) (Z.land ui (TAGMASK cfg))) (Z.land ui (TAGMASK cfg)) ≠ 0 ->
  ∃ s1 m1,
    toggletag cfg ui s = Ok tt s1 ∧ mons s1 = Some m1
    ∧ (m_sel m1 = Some c ->
       ∃ s2 r2, toggletag cfg ui s1 = Ok tt s2
                ∧ (toggletag cfg ui;; toggletag cfg ui) s = Ok tt s2
                ∧ heap s2 !! c = Some r2 ∧ c_tags r2 = c_tags r).
Proof.
  intros Hwf Hmw Hsel Hr Hne1 Hne2.
  destruct (wf_viewed _ _ _ _ Hwf) as [t Ht].
  destruct (toggletag_Ok cfg _ _ _ _ _ _ _ ui Hwf Hmw Ht Hsel Hr Hne1)
    as (s1 & p1 & H1 & Hwf1 & Hf1).
  exists s1, (with_sel p1 m). split; [exact H1 |].
  split; [exact (wf_mons _ _ _ _ Hwf1) |].
  intros Hsel1.
  destruct (frame_lookup _ _ c _ Hf1 (lookup_insert_eq _ _ _)) as (r1 & Hr1 & Hl1).
  apply same_links_fields in Hl1. destruct Hl1 as (Htags1 & _). simpl in Htags1.
  assert (Hne2' : Z.lxor (c_tags r1) (Z.land ui (TAGMASK cfg)) ≠ 0) by (now rewrite Htags1).
  destruct (toggletag_Ok cfg _ _ _ _ _ _ _ ui Hwf1 Hmw Ht Hsel1 Hr1 Hne2')
    as (s2 & p2 & H2 & Hwf2 & Hf2).
  destruct (frame_lookup _ _ c _ Hf2 (lookup_insert_eq _ _ _)) as (r2 & Hr2 & Hl2).
  apply same_links_fields in Hl2. destruct Hl2 as (Htags2 & _). simpl in Htags2.
  exists s2, r2. split; [exact H2 |].
  split; [now rewrite (bind_Ok _ _ _ _ _ H1) |].
  split; [exact Hr2 |].
  rewrite Htags2, Htags1. apply lxor_twice.
Qed.

Lemma toggletag_twice_same_client_witness :
  wf one_client_state one_client_monitor [1%positive] [1%positive]
  ∧ m_sel one_client_monitor = Some 1%positive
  ∧ ∃ s2 r2, (toggletag config9 2;; toggletag config9 2) one_client_state = Ok tt s2
             ∧ heap s2 !! 1%positive = Some r2 ∧ c_tags r2 = 1.
Proof.
  split; [exact wf_one_client_state |]. split; [reflexivity |].
  destruct (toggletag_twice_same_client config9 one_client_state one_client_monitor
              [1%positive] [1%positive] 1%positive
              (mkClient 0 0 998 798 10 20 300 200 1 0 1 0 0 None None 101) 2
              wf_one_client_state mw_defined_one_client eq_refl eq_refl)
    as (s1 & m1 & H1 & Hm1 & Hnext).
  - vm_compute. discriminate.
  - vm_compute. discriminate.
  - vm_compute in H1. injection H1 as <-.
    vm_compute in Hm1. injection Hm1 as <-.
    destruct (Hnext eq_refl) as (s2 & r2 & _ & H2 & Hr2 & Ht2).
    exists s2, r2. split; [exact H2 |]. split; [exact Hr2 | exact Ht2].
Defined.

(** C8 as worded fails: with the windows 101 and 102 on tag 1 and 102
    selected, [toggletag(3)] moves 102 to tag 2 and out of view, the selection
    passes to 101, and the second [toggletag(3)] changes the tags of 101; 102
    stays on tag 2. *)
Lemma toggletag_twice_counterexample :
  ¬ claimed_toggletag_twice config9 two_client_state 3.
Proof.
  intros H.
  destruct (H _ 2%positive _ eq_refl eq_refl eq_refl) as (s2 & r2 & Hrun & Hr2 & Ht2).
  - vm_compute. discriminate.
  - vm_compute. discriminate.
  - vm_compute in Hrun. injection Hrun as <-.
    vm_compute in Hr2. injection Hr2 as <-.
    vm_compute in Ht2. discriminate Ht2.
Qed.

(** ** Unlinking a client from a chain *)

Lemma chain_app_elim nxt h : ∀ l1 p c l2,
  chain nxt h p (l1 ++ c :: l2) ->
  ∃ rc, h !! c = Some rc ∧ chain nxt h (nxt rc) l2.
Proof.
  induction l1 as [|a l1 IH]; intros p c l2; simpl.
  - intros [_ (rc & Hrc & H)]. eauto.
  - intros [_ (ra & _ & H)]. eapply IH; eassumption.
Qed.

Lemma chain_insert_notin nxt h a r p l :
  a ∉ l -> chain nxt h p l -> chain nxt (<[a := r]> h) p l.
Proof.
  intros Hn. apply chain_ext. intros b c Hb Hc. exists c. split; [| reflexivity].
  rewrite lookup_insert_ne; [assumption |]. intros ->. contradiction.
Qed.

Lemma final_slot_cons tc a l1 : final_slot tc (a :: l1) = final_slot (LinkSlot a) l1.
Proof. unfold final_slot. rewrite last_cons. now destruct (last l1). Qed.

Section Unlink.
Variable nxt : Client -> option addr.
Variable setnxt : option addr -> Client -> Client.
Hypothesis nxt_setnxt : ∀ v r, nxt (setnxt v r) = v.

(** storing the successor of [c] in the link of its predecessor [b], the
    last of [l1], takes [c] out of the chain *)
Lemma chain_unlink h c l2 : ∀ l1 p b rb rc,
  chain nxt h p (l1 ++ c :: l2) -> last l1 = Some b ->
  h !! b = Some rb -> h !! c = Some rc ->
  chain nxt (<[b := setnxt (nxt rc) rb]> h) p (l1 ++ l2).
Proof.
  induction l1 as [|a l1 IH]; intros p b rb rc Hch Hlast Hb Hc; [discriminate |].
  pose proof (chain_NoDup _ _ _ _ Hch) as Hnd.
  rewrite <- app_comm_cons in Hnd. apply NoDup_cons in Hnd as [Hnotin _].
  destruct Hch as [-> (ra & Ha & Hch)]. simpl. split; [reflexivity |].
  destruct (decide (l1 = [])) as [-> | Hl1].
  - (* [a] is the predecessor *)
    injection Hlast as <-. rewrite Ha in Hb. injection Hb as <-.
    exists (setnxt (nxt rc) ra). split; [apply lookup_insert_eq |].
    rewrite nxt_setnxt. simpl in Hch. destruct Hch as [_ (rc' & Hc' & Hch)].
    rewrite Hc in Hc'. injection Hc' as <-.
    apply chain_insert_notin; [| exact Hch].
    intros Hin. apply Hnotin. simpl. now right.
  - assert (Hlast' : last l1 = Some b).
    { rewrite last_cons in Hlast. destruct (last l1) eqn:Hl; [exact Hlast |].
      apply last_None in Hl. contradiction. }
    assert (Hab : b ≠ a).
    { intros ->. apply Hnotin. apply elem_of_app. left.
      apply last_Some_elem_of. exact Hlast'. }
    exists ra. split; [now rewrite lookup_insert_ne |].
    eapply IH; eassumption.
Qed.
End Unlink.

(** ** [detachstack] *)

Lemma read_snext_head s m : mons s = Some m -> read_snext HeadSlot s = Ok (m_stack m) s.
Proof. intros Hm. unfold read_snext. now rewrite (bind_Ok _ _ _ _ _ (selmon_Ok _ _ Hm)). Qed.

Lemma read_snext_link s a r :
  heap s !! a = Some r -> read_snext (LinkSlot a) s = Ok (c_snext r) s.
Proof. intros Hr. unfold read_snext. now rewrite (bind_Ok _ _ _ _ _ (load_Ok _ _ _ Hr)). Qed.

Lemma detachstack_loop_Ok s c l2 : ∀ l1 n tc p,
  read_snext tc s = Ok p s ->
  chain c_snext (heap s) p (l1 ++ c :: l2) -> (length l1 < n)%nat ->
  detachstack_loop n (Some c) tc s = Ok (final_slot tc l1) s.
Proof.
  induction l1 as [|a l1 IH]; intros n tc p Hrd Hch Hn;
    (destruct n as [|n]; [simpl in Hn; lia |]).
  - destruct Hch as [-> _]. simpl. rewrite (bind_Ok _ _ _ _ _ Hrd).
    destruct (decide (Some c = Some c)); [reflexivity | contradiction].
  - pose proof (chain_NoDup _ _ _ _ Hch) as Hnd.
    destruct Hch as [-> (ra & Ha & Hch)]. simpl in Hn. simpl detachstack_loop.
    rewrite (bind_Ok _ _ _ _ _ Hrd).
    destruct (decide (Some a = Some c)) as [[= ->] | _].
    + exfalso. simpl in Hnd. apply NoDup_cons in Hnd as [Hnd _]. apply Hnd.
      apply elem_of_app. right. left.
    + rewrite final_slot_cons.
      eapply IH; [apply read_snext_link; exact Ha | exact Hch | lia].
Qed.

(** *** Heaps related record by record *)

Section HeapRel.
Variable R : Client -> Client -> Prop.

Lemma heap_rel_lookup h h' a c :
  heap_rel R h h' -> h !! a = Some c -> ∃ c', h' !! a = Some c' ∧ R c c'.
Proof.
  intros H Ha. specialize (H a). rewrite Ha in H.
  destruct (h' !! a) as [c' |]; [eauto | contradiction].
Qed.

Lemma heap_rel_size h h' : heap_rel R h h' -> size h' = size h.
Proof.
  intros H. rewrite <- !size_dom. f_equal. apply set_eq. intros a.
  rewrite !elem_of_dom. specialize (H a).
  destruct (h !! a), (h' !! a); try tauto; split; intros [? ?]; eauto; discriminate.
Qed.

Lemma heap_rel_chain nxt h h' p l :
  (∀ c c', R c c' -> nxt c' = nxt c) ->
  heap_rel R h h' -> chain nxt h p l -> chain nxt h' p l.
Proof.
  intros Hn H. apply chain_ext. intros a c _ Ha.
  destruct (heap_rel_lookup _ _ _ _ H Ha) as (c' & Hc' & HR). eauto.
Qed.

Lemma heap_rel_visible h h' t a :
  (∀ c c', R c c' -> c_tags c' = c_tags c) ->
  heap_rel R h h' -> visible_b h' t a = visible_b h t a.
Proof.
  intros Ht H. unfold visible_b. specialize (H a).
  destruct (h !! a), (h' !! a); try tauto. now rewrite (Ht _ _ H).
Qed.

Hypothesis R_refl : ∀ c, R c c.

Lemma heap_rel_refl h : heap_rel R h h.
Proof. intros a. destruct (h !! a); [apply R_refl | exact I]. Qed.

Lemma heap_rel_insert h a c c' :
  h !! a = Some c -> R c c' -> heap_rel R h (<[a := c']> h).
Proof.
  intros Ha Hc b. destruct (decide (a = b)) as [<- | Hne].
  - now rewrite Ha, lookup_insert_eq.
  - rewrite lookup_insert_ne by assumption. destruct (h !! b); [apply R_refl | exact I].
Qed.
End HeapRel.

Lemma snext_differs_refl c : snext_differs c c.
Proof. now destruct c. Qed.

Lemma next_differs_refl c : next_differs c c.
Proof. now destruct c. Qed.

Lemma with_stack_id m : with_stack (m_stack m) m = m.
Proof. now destruct m. Qed.

Lemma with_clients_id m : with_clients (m_clients m) m = m.
Proof. now destruct m. Qed.

Lemma with_sel_id m : with_sel (m_sel m) m = m.
Proof. now destruct m. Qed.

(** the first half of [detachstack]: the loop and the assignment [*tc =
    c->snext] *)
Lemma detachstack_unlink_Ok s m c l1 l2 :
  mons s = Some m -> chain c_snext (heap s) (m_stack m) (l1 ++ c :: l2) ->
  ∃ s1 q,
    (load (Some c);; n ← fuel; tc ← detachstack_loop n (Some c) HeadSlot;
     r ← load (Some c); write_snext tc (c_snext r)) s = Ok tt s1
    ∧ mons s1 = Some (with_stack q m)
    ∧ chain c_snext (heap s1) q (l1 ++ l2)
    ∧ heap_rel snext_differs (heap s) (heap s1).
Proof.
  intros Hm Hch.
  destruct (chain_app_elim _ _ _ _ _ _ Hch) as (rc & Hc & Hl2).
  pose proof (chain_length _ _ _ _ Hch) as Hlen. rewrite length_app in Hlen. simpl in Hlen.
  assert (Hloop : detachstack_loop (S (size (heap s))) (Some c) HeadSlot s
                  = Ok (final_slot HeadSlot l1) s).
  { eapply detachstack_loop_Ok; [apply read_snext_head; exact Hm | exact Hch | lia]. }
  rewrite (bind_Ok _ _ _ _ _ (load_Ok _ _ _ Hc)).
  rewrite (bind_Ok _ _ _ _ _ (fuel_Ok s)).
  rewrite (bind_Ok _ _ _ _ _ Hloop).
  rewrite (bind_Ok _ _ _ _ _ (load_Ok _ _ _ Hc)).
  unfold final_slot. destruct (last l1) as [b |] eqn:Hlast.
  - (* the predecessor [b] gets the successor of [c] *)
    assert (Hb : ∃ rb, heap s !! b = Some rb).
    { eapply chain_lookup; [exact Hch |]. apply elem_of_app. left.
      apply last_Some_elem_of. exact Hlast. }
    destruct Hb as [rb Hb]. unfold write_snext. rewrite (store_Ok _ _ _ _ Hb).
    eexists _, (m_stack m). split; [reflexivity |].
    split; [simpl; now rewrite with_stack_id |].
    split.
    + simpl. eapply (chain_unlink c_snext with_snext); eauto.
    + simpl. eapply heap_rel_insert; [apply snext_differs_refl | exact Hb | reflexivity].
  - (* [c] is the head of the stack *)
    apply last_None in Hlast. subst l1. unfold write_snext. rewrite (setmon_Ok _ _ _ Hm).
    eexists _, (c_snext rc). split; [reflexivity |]. split; [reflexivity |].
    split; [exact Hl2 |]. apply heap_rel_refl, snext_differs_refl.
Qed.

(** [detachstack] on a client of the stack list *)
Lemma detachstack_Ok s m t c l1 l2 :
  mons s = Some m -> viewed m = Some t ->
  chain c_snext (heap s) (m_stack m) (l1 ++ c :: l2) ->
  ∃ s' q,
    detachstack (Some c) s = Ok tt s'
    ∧ mons s' = Some (with_sel (if decide (Some c = m_sel m)
                                then first_visible (heap s') t (l1 ++ l2)
                                else m_sel m) (with_stack q m))
    ∧ chain c_snext (heap s') q (l1 ++ l2)
    ∧ heap_rel snext_differs (heap s) (heap s').
Proof.
  intros Hm Ht Hch.
  destruct (detachstack_unlink_Ok _ _ _ _ _ Hm Hch) as (s1 & q & H1 & Hm1 & Hch1 & Hrel).
  assert (Ht1 : viewed (with_stack q m) = Some t) by exact Ht.
  assert (Hrun : detachstack (Some c) s
                 = (m0 ← selmon;
                    if decide (Some c = m_sel m0)
                    then k ← fuel; m2 ← selmon; p ← visible_loop k (m_stack m2);
                         setmon (with_sel p)
                    else mret tt) s1).
  { unfold detachstack.
    apply bind_inv in H1 as (x0 & s0 & Hl & H1). rewrite (bind_Ok _ _ _ _ _ Hl).
    apply bind_inv in H1 as (n & sa & Hn & H1). rewrite (bind_Ok _ _ _ _ _ Hn).
    apply bind_inv in H1 as (tc & sb & Htc & H1). rewrite (bind_Ok _ _ _ _ _ Htc).
    apply bind_inv in H1 as (r & sc & Hr & H1). rewrite (bind_Ok _ _ _ _ _ Hr).
    now rewrite (bind_Ok _ _ _ _ _ H1). }
  rewrite Hrun. rewrite (bind_Ok _ _ _ _ _ (selmon_Ok _ _ Hm1)).
  change (m_sel (with_stack q m)) with (m_sel m).
  destruct (decide (Some c = m_sel m)) as [He | Hne].
  - rewrite (bind_Ok _ _ _ _ _ (fuel_Ok s1)).
    rewrite (bind_Ok _ _ _ _ _ (selmon_Ok _ _ Hm1)).
    pose proof (chain_length _ _ _ _ Hch1) as Hlen.
    assert (Hfuel : (length (l1 ++ l2) < S (size (heap s1)))%nat) by lia.
    rewrite (bind_Ok _ _ _ _ _
               (visible_loop_Ok s1 _ t (l1 ++ l2) _ _ Hm1 Ht1 Hch1 Hfuel)).
    rewrite (setmon_Ok _ _ _ Hm1).
    eexists _, q. split; [reflexivity |]. split; [reflexivity |].
    split; [exact Hch1 | exact Hrel].
  - exists s1, q. split; [reflexivity |].
    split; [rewrite Hm1; f_equal; now destruct m |].
    split; [exact Hch1 | exact Hrel].
Qed.

(** C5: [detachstack(c)] takes a client [c] of the stack list out of that
    list, and leaves the other clients in their order; when [c] was the
    selected client the selection becomes the first client of the remaining
    stack that is visible under the viewed tags, or none when no client is
    visible; otherwise the selection stays. *)
Theorem detachstack_removes_and_reselects s m t sl c :
  mons s = Some m -> viewed m = Some t ->
  chain c_snext (heap s) (m_stack m) sl -> c ∈ sl ->
  ∃ s' m' l1 l2,
    detachstack (Some c) s = Ok tt s' ∧ mons s' = Some m'
    ∧ sl = l1 ++ c :: l2
    ∧ chain c_snext (heap s') (m_stack m') (l1 ++ l2)
    ∧ (c ∉ l1 ++ l2)
    ∧ (m_sel m = Some c -> m_sel m' = first_visible (heap s') t (l1 ++ l2))
    ∧ (m_sel m ≠ Some c -> m_sel m' = m_sel m)
    ∧ viewed m' = Some t
    ∧ (∀ a, visible_b (heap s') t a = visible_b (heap s) t a).
Proof.
  intros Hm Ht Hch Hin.
  apply list_elem_of_split in Hin as (l1 & l2 & ->).
  pose proof (chain_NoDup _ _ _ _ Hch) as Hnd.
  assert (Hnotin : c ∉ l1 ++ l2).
  { apply NoDup_app in Hnd as (_ & H1 & H2). apply NoDup_cons in H2 as [H2 _].
    intros Hc. apply elem_of_app in Hc as [Hc | Hc]; [| contradiction].
    apply (H1 c Hc). left. }
  destruct (detachstack_Ok _ _ _ _ _ _ Hm Ht Hch) as (s' & q & Hrun & Hm' & Hch' & Hrel).
  eexists s', _, l1, l2. split; [exact Hrun |]. split; [exact Hm' |].
  split; [reflexivity |]. split; [exact Hch' |]. split; [exact Hnotin |].
  simpl. split.
  { intros He. destruct (decide (Some c = m_sel m)); [reflexivity | congruence]. }
  split.
  { intros Hne. destruct (decide (Some c = m_sel m)); [congruence | reflexivity]. }
  split; [exact Ht |].
  intros a. eapply heap_rel_visible; [| exact Hrel]. now intros r r' ->.
Qed.

Lemma detachstack_removes_and_reselects_witness :
  mons two_client_state = Some two_client_monitor
  ∧ viewed two_client_monitor = Some 1
  ∧ chain c_snext (heap two_client_state) (m_stack two_client_monitor) [2%positive; 1%positive]
  ∧ 2%positive ∈ [2%positive; 1%positive]
  ∧ ∃ s' m' l1 l2,
      detachstack (Some 2%positive) two_client_state = Ok tt s' ∧ mons s' = Some m'
      ∧ [2%positive; 1%positive] = l1 ++ 2%positive :: l2
      ∧ chain c_snext (heap s') (m_stack m') (l1 ++ l2)
      ∧ (2%positive ∉ l1 ++ l2)
      ∧ (m_sel two_client_monitor = Some 2%positive ->
         m_sel m' = first_visible (heap s') 1 (l1 ++ l2))
      ∧ (m_sel two_client_monitor ≠ Some 2%positive -> m_sel m' = m_sel two_client_monitor)
      ∧ viewed m' = Some 1
      ∧ (∀ a, visible_b (heap s') 1 a = visible_b (heap two_client_state) 1 a).
Proof.
  assert (Hch : chain c_snext (heap two_client_state) (m_stack two_client_monitor)
                      [2%positive; 1%positive]).
  { split; [reflexivity |]. eexists. split; [reflexivity |].
    split; [reflexivity |]. eexists. split; reflexivity. }
  assert (Hin : 2%positive ∈ [2%positive; 1%positive]) by left.
  split; [reflexivity |]. split; [reflexivity |]. split; [exact Hch |]. split; [exact Hin |].
  exact (detachstack_removes_and_reselects two_client_state two_client_monitor 1
           [2%positive; 1%positive] 2%positive eq_refl eq_refl Hch Hin).
Defined.

(** ** The tile layout with two clients *)

(** C2, amended: on a 1000 by 800 screen with [mfact] 0.55, one master and a
    border of one pixel, mapping [w1] and then [w2] puts [w2] first in the
    client list, because [attach] prepends; [tile] makes it the master at
    (0, 0, 548, 798) and puts [w1] on the stack at (550, 0, 448, 798).  The
    master column starts at [wx] and is [mw = ww * mfact = 550] wide, the stack
    column starts at [wx + mw] and is [ww - mw] wide, each cell is as high as
    the window area, and twice the border is taken off each cell. *)
Theorem tile_two_clients_newest_is_master (ntags sb tb : Z) (w1 w2 : Z)
        (wa1 wa2 : XWindowAttributes) :
  ∃ s m a1 a2 r1 r2,
    (manage (mkConfig ntags (F32.of_decimal 55 2) 1 sb tb 1) w1 wa1;;
     manage (mkConfig ntags (F32.of_decimal 55 2) 1 sb tb 1) w2 wa2)
      (initial_state (mkConfig ntags (F32.of_decimal 55 2) 1 sb tb 1) 1000 800) = Ok tt s
    ∧ mons s = Some m
    ∧ chain c_next (heap s) (m_clients m) [a2; a1]
    ∧ heap s !! a1 = Some r1 ∧ heap s !! a2 = Some r2
    ∧ c_win r2 = w2 ∧ geometry r2 = (0, 0, 548, 798)
    ∧ c_win r1 = w1 ∧ geometry r1 = (550, 0, 448, 798)
    ∧ F32.to_uint (F32.mul (F32.of_int (m_ww m)) (m_mfact m)) = Some 550
    ∧ geometry r2 = (m_wx m, m_wy m, 550 - 2 * c_bw r2, m_wh m - 2 * c_bw r2)
    ∧ geometry r1 = (m_wx m + 550, m_wy m, m_ww m - 550 - 2 * c_bw r1, m_wh m - 2 * c_bw r1).
Proof.
  eexists _, _, 1%positive, 2%positive, _, _.
  split; [vm_compute; reflexivity |].
  split; [reflexivity |].
  split.
  { split; [reflexivity |]. eexists. split; [reflexivity |].
    split; [reflexivity |]. eexists. split; reflexivity. }
  repeat split; reflexivity.
Qed.

(** C2 as worded fails: with the windows 101 and then 102 mapped, the client
    of 101 is at (550, 0, 448, 798), on the stack, not at (0, 0, 548, 798). *)
Lemma tile_two_clients_counterexample :
  ¬ claimed_tile_two config9 101 102 (mkAttrs 10 20 300 200 0 0) (mkAttrs 30 40 300 200 0 0).
Proof.
  intros (s & c1 & c2 & r1 & r2 & Hrun & Hc1 & Hr1 & _ & _ & Hg1 & _).
  vm_compute in Hrun. injection Hrun as <-.
  vm_compute in Hc1. injection Hc1 as <-.
  vm_compute in Hr1. injection Hr1 as <-.
  vm_compute in Hg1. discriminate Hg1.
Qed.

(** ** [detach] *)

Lemma read_next_head s m : mons s = Some m -> read_next HeadSlot s = Ok (m_clients m) s.
Proof. intros Hm. unfold read_next. now rewrite (bind_Ok _ _ _ _ _ (selmon_Ok _ _ Hm)). Qed.

Lemma read_next_link s a r :
  heap s !! a = Some r -> read_next (LinkSlot a) s = Ok (c_next r) s.
Proof. intros Hr. unfold read_next. now rewrite (bind_Ok _ _ _ _ _ (load_Ok _ _ _ Hr)). Qed.

Lemma detach_loop_Ok s c l2 : ∀ l1 n tc p,
  read_next tc s = Ok p s ->
  chain c_next (heap s) p (l1 ++ c :: l2) -> (length l1 < n)%nat ->
  detach_loop n (Some c) tc s = Ok (final_slot tc l1) s.
Proof.
  induction l1 as [|a l1 IH]; intros n tc p Hrd Hch Hn;
    (destruct n as [|n]; [simpl in Hn; lia |]).
  - destruct Hch as [-> _]. simpl. rewrite (bind_Ok _ _ _ _ _ Hrd).
    destruct (decide (Some c = Some c)); [reflexivity | contradiction].
  - pose proof (chain_NoDup _ _ _ _ Hch) as Hnd.
    destruct Hch as [-> (ra & Ha & Hch)]. simpl in Hn. simpl detach_loop.
    rewrite (bind_Ok _ _ _ _ _ Hrd).
    destruct (decide (Some a = Some c)) as [[= ->] | _].
    + exfalso. simpl in Hnd. apply NoDup_cons in Hnd as [Hnd _]. apply Hnd.
      apply elem_of_app. right. left.
    + rewrite final_slot_cons.
      eapply IH; [apply read_next_link; exact Ha | exact Hch | lia].
Qed.

(** [detach] on a client of the client list *)
Lemma detach_Ok s m c l1 l2 :
  mons s = Some m -> chain c_next (heap s) (m_clients m) (l1 ++ c :: l2) ->
  ∃ s1 q,
    detach (Some c) s = Ok tt s1
    ∧ mons s1 = Some (with_clients q m)
    ∧ chain c_next (heap s1) q (l1 ++ l2)
    ∧ heap_rel next_differs (heap s) (heap s1).
Proof.
  intros Hm Hch. unfold detach.
  destruct (chain_app_elim _ _ _ _ _ _ Hch) as (rc & Hc & Hl2).
  pose proof (chain_length _ _ _ _ Hch) as Hlen. rewrite length_app in Hlen. simpl in Hlen.
  assert (Hloop : detach_loop (S (size (heap s))) (Some c) HeadSlot s
                  = Ok (final_slot HeadSlot l1) s).
  { eapply detach_loop_Ok; [apply read_next_head; exact Hm | exact Hch | lia]. }
  rewrite (bind_Ok _ _ _ _ _ (load_Ok _ _ _ Hc)).
  rewrite (bind_Ok _ _ _ _ _ (fuel_Ok s)).
  rewrite (bind_Ok _ _ _ _ _ Hloop).
  rewrite (bind_Ok _ _ _ _ _ (load_Ok _ _ _ Hc)).
  unfold final_slot. destruct (last l1) as [b |] eqn:Hlast.
  - (* the predecessor [b] gets the successor of [c] *)
    assert (Hb : ∃ rb, heap s !! b = Some rb).
    { eapply chain_lookup; [exact Hch |]. apply elem_of_app. left.
      apply last_Some_elem_of. exact Hlast. }
    destruct Hb as [rb Hb]. unfold write_next. rewrite (store_Ok _ _ _ _ Hb).
    eexists _, (m_clients m). split; [reflexivity |].
    split; [simpl; now rewrite with_clients_id |].
    split.
    + simpl. eapply (chain_unlink c_next with_next); eauto.
    + simpl. eapply heap_rel_insert; [apply next_differs_refl | exact Hb | reflexivity].
  - (* [c] is the head of the client list *)
    apply last_None in Hlast. subst l1. unfold write_next. rewrite (setmon_Ok _ _ _ Hm).
    eexists _, (c_next rc). split; [reflexivity |]. split; [reflexivity |].
    split; [exact Hl2 |]. apply heap_rel_refl, next_differs_refl.
Qed.

(** ** Every admissible call returns and keeps the state good *)

Lemma mw_defined_ext m m' :
  m_ww m' = m_ww m -> m_mfact m' = m_mfact m -> mw_defined m -> mw_defined m'.
Proof. unfold mw_defined. now intros -> ->. Qed.

Lemma good_frame s s' : good s -> frame s s' -> good s'.
Proof. intros (m & cl & sl & Hwf & Hmw) Hf. exists m, cl, sl. eauto using wf_frame. Qed.

Lemma good_refocus_arrange s :
  good s -> ∃ s', (focus None;; arrange) s = Ok tt s' ∧ good s'.
Proof.
  intros (m & cl & sl & Hwf & Hmw). destruct (wf_viewed _ _ _ _ Hwf) as [t Ht].
  destruct (refocus_arrange_Ok _ _ _ _ _ Hwf Hmw Ht) as (s' & Hs' & Hwf' & _).
  exists s'. split; [exact Hs' |]. eexists _, cl, sl. split; [exact Hwf' | exact Hmw].
Qed.

Lemma good_sel_lookup s m cl sl c :
  wf s m cl sl -> m_sel m = Some c -> ∃ r, heap s !! c = Some r.
Proof.
  intros Hwf Hsel. eapply chain_lookup; [apply (wf_stack _ _ _ _ Hwf) |].
  eapply wf_sel; eassumption.
Qed.

Lemma good_view cfg ui s : good s -> ∃ s', view cfg ui s = Ok tt s' ∧ good s'.
Proof.
  intros (m & cl & sl & Hwf & Hmw). destruct (wf_viewed _ _ _ _ Hwf) as [t Ht].
  destruct (decide (Z.land ui (TAGMASK cfg) = t)) as [He | Hne].
  - exists s. split; [eapply view_same; eauto using wf_mons |]. exists m, cl, sl. auto.
  - destruct (view_Ok cfg _ _ _ _ _ ui Hwf Hmw Ht Hne) as (s' & p & Hv & Hwf' & _).
    exists s'. split; [exact Hv |]. eexists _, cl, sl. split; [exact Hwf' |].
    now apply mw_defined_view_mon.
Qed.

Lemma good_toggleview cfg ui s : good s -> ∃ s', toggleview cfg ui s = Ok tt s' ∧ good s'.
Proof.
  intros (m & cl & sl & Hwf & Hmw). destruct (wf_viewed _ _ _ _ Hwf) as [t Ht].
  destruct (decide (Z.lxor t (Z.land ui (TAGMASK cfg)) = 0)) as [He | Hne].
  - exists s. split; [eapply toggleview_empty; eauto using wf_mons |]. exists m, cl, sl. auto.
  - destruct (toggleview_Ok cfg _ _ _ _ _ ui Hwf Hmw Ht Hne) as (s' & p & Hv & Hwf' & _).
    exists s'. split; [exact Hv |]. eexists _, cl, sl. split; [exact Hwf' | exact Hmw].
Qed.

Lemma good_tag cfg ui s : good s -> ∃ s', tag cfg ui s = Ok tt s' ∧ good s'.
Proof.
  intros Hg. pose proof Hg as (m & cl & sl & Hwf & Hmw).
  pose proof (wf_mons _ _ _ _ Hwf) as Hm. unfold tag.
  rewrite (bind_Ok _ _ _ _ _ (selmon_Ok _ _ Hm)).
  destruct (decide (m_sel m ≠ None ∧ Z.land ui (TAGMASK cfg) ≠ 0)) as [[Hsel _] | _];
    [| exists s; split; [reflexivity | exact Hg]].
  destruct (m_sel m) as [c |] eqn:Hc; [| contradiction].
  destruct (good_sel_lookup _ _ _ _ _ Hwf Hc) as [r Hr].
  rewrite (bind_Ok _ _ _ _ _ (store_Ok _ _ _ _ Hr)).
  apply good_refocus_arrange. exists m, cl, sl. split; [| exact Hmw].
  now apply wf_store_tags.
Qed.

Lemma good_toggletag cfg ui s : good s -> ∃ s', toggletag cfg ui s = Ok tt s' ∧ good s'.
Proof.
  intros Hg. pose proof Hg as (m & cl & sl & Hwf & Hmw).
  pose proof (wf_mons _ _ _ _ Hwf) as Hm. unfold toggletag.
  rewrite (bind_Ok _ _ _ _ _ (selmon_Ok _ _ Hm)).
  destruct (m_sel m) as [c |] eqn:Hc; [| exists s; split; [reflexivity | exact Hg]].
  destruct (good_sel_lookup _ _ _ _ _ Hwf Hc) as [r Hr].
  rewrite (bind_Ok _ _ _ _ _ (load_Ok _ _ _ Hr)). cbv zeta.
  destruct (decide (Z.lxor (c_tags r) (Z.land ui (TAGMASK cfg)) ≠ 0));
    [| exists s; split; [reflexivity | exact Hg]].
  rewrite (bind_Ok _ _ _ _ _ (store_Ok _ _ _ _ Hr)).
  apply good_refocus_arrange. exists m, cl, sl. split; [| exact Hmw].
  now apply wf_store_tags.
Qed.

Lemma good_arrange s : good s -> ∃ s', arrange s = Ok tt s' ∧ good s'.
Proof.
  intros Hg. pose proof Hg as (m & cl & sl & Hwf & Hmw).
  destruct (arrange_Ok _ _ _ _ Hwf Hmw) as (s' & Hs' & Hf).
  exists s'. split; [exact Hs' | eapply good_frame; eassumption].
Qed.

Lemma good_setmfact arg s :
  good s -> admissible (ASetMfact arg) s -> ∃ s', setmfact arg s = Ok tt s' ∧ good s'.
Proof.
  intros Hg Ha. pose proof Hg as (m & cl & sl & Hwf & Hmw).
  pose proof (wf_mons _ _ _ _ Hwf) as Hm. unfold setmfact.
  rewrite (bind_Ok _ _ _ _ _ (eq_refl : get s = Ok s s)). rewrite Hm.
  destruct arg as [x |]; [| exists s; split; [reflexivity | exact Hg]].
  cbv zeta. fold (setmfact_value x m).
  destruct (F64.ltb _ _ || F64.ltb _ _) eqn:Hrej;
    [exists s; split; [reflexivity | exact Hg] |].
  destruct (Ha m Hm) as [Hr | Hmw']; [congruence |].
  rewrite (bind_Ok _ _ _ _ _ (setmon_Ok _ _ _ Hm)).
  apply good_arrange. exists (with_mfact (setmfact_value x m) m), cl, sl.
  split; [| exact Hmw']. destruct Hwf. constructor; auto.
Qed.

Lemma good_killclient s : good s -> ∃ s', killclient s = Ok tt s' ∧ good s'.
Proof.
  intros Hg. pose proof Hg as (m & cl & sl & Hwf & Hmw).
  pose proof (wf_mons _ _ _ _ Hwf) as Hm. unfold killclient.
  rewrite (bind_Ok _ _ _ _ _ (selmon_Ok _ _ Hm)).
  destruct (m_sel m) as [c |] eqn:Hc; [| exists s; split; [reflexivity | exact Hg]].
  destruct (good_sel_lookup _ _ _ _ _ Hwf Hc) as [r Hr].
  rewrite (bind_Ok _ _ _ _ _ (load_Ok _ _ _ Hr)). rewrite xreq_Ok.
  eexists. split; [reflexivity |]. eapply good_frame; [exact Hg | apply frame_xlog].
Qed.

Lemma good_quit s : good s -> ∃ s', quit s = Ok tt s' ∧ good s'.
Proof.
  intros (m & cl & sl & Hwf & Hmw). eexists. split; [reflexivity |].
  exists m, cl, sl. split; [| exact Hmw]. destruct Hwf. constructor; auto.
Qed.

Lemma good_togglefloating s : good s -> ∃ s', togglefloating s = Ok tt s' ∧ good s'.
Proof.
  intros Hg. pose proof Hg as (m & cl & sl & Hwf & Hmw).
  pose proof (wf_mons _ _ _ _ Hwf) as Hm. unfold togglefloating.
  rewrite (bind_Ok _ _ _ _ _ (selmon_Ok _ _ Hm)).
  destruct (m_sel m) as [c |] eqn:Hc; [| exists s; split; [reflexivity | exact Hg]].
  destruct (good_sel_lookup _ _ _ _ _ Hwf Hc) as [r Hr].
  rewrite (bind_Ok _ _ _ _ _ (load_Ok _ _ _ Hr)).
  rewrite (bind_Ok _ _ _ _ _ (store_Ok _ _ _ _ Hr)).
  set (r1 := with_isfloating _ r). set (s1 := set_heap _ s).
  assert (Hg1 : good s1).
  { exists m, cl, sl. split; [| exact Hmw]. eapply wf_store_links; eauto. }
  assert (Hr1 : heap s1 !! c = Some r1) by apply lookup_insert_eq.
  rewrite (bind_Ok _ _ _ _ _ (load_Ok _ _ _ Hr1)).
  assert (Hrs : ∃ s2, (if decide (c_isfloating r1 ≠ 0)
                       then resize (Some c) (c_x r1) (c_y r1) (c_w r1) (c_h r1) 0
                       else mret tt) s1 = Ok tt s2 ∧ frame s1 s2).
  { destruct (decide (c_isfloating r1 ≠ 0)).
    - eapply resize_Ok; eassumption.
    - exists s1. split; [reflexivity | apply frame_refl]. }
  destruct Hrs as (s2 & Hs2 & Hf2). rewrite (bind_Ok _ _ _ _ _ Hs2).
  apply good_arrange. eapply good_frame; eassumption.
Qed.

Lemma good_setlayout arg s :
  good s -> admissible (ASetLayout arg) s -> ∃ s', setlayout arg s = Ok tt s' ∧ good s'.
Proof.
  intros Hg Ha. pose proof Hg as (m & cl & sl & Hwf & Hmw).
  pose proof (wf_mons _ _ _ _ Hwf) as Hm. unfold setlayout.
  assert (Hset : ∃ l, match arg with
                      | Some i => setmon (with_sellt (u32 i))
                      | None => m0 ← selmon; setmon (with_sellt (Z.lxor (m_sellt m0) 1))
                      end s = Ok tt (set_mons (Some (with_sellt l m)) s) ∧ 0 <= l < 3).
  { destruct arg as [i |].
    - exists (u32 i). split; [now rewrite (setmon_Ok _ _ _ Hm) | exact Ha].
    - exists (Z.lxor (m_sellt m) 1).
      rewrite (bind_Ok _ _ _ _ _ (selmon_Ok _ _ Hm)), (setmon_Ok _ _ _ Hm).
      split; [reflexivity |]. pose proof (wf_sellt _ _ _ _ Hwf). specialize (Ha m Hm).
      assert (Hc : m_sellt m = 0 ∨ m_sellt m = 1) by lia.
      destruct (lxor_1_bit _ Hc) as [-> | ->]; lia. }
  destruct Hset as (l & Hset & Hl). rewrite (bind_Ok _ _ _ _ _ Hset).
  apply good_arrange. exists (with_sellt l m), cl, sl. split; [| exact Hmw].
  destruct Hwf. constructor; auto.
Qed.

Lemma good_configurenotify cfg s :
  good s -> admissible AConfigureNotify s ->
  ∃ s', configurenotify cfg s = Ok tt s' ∧ good s'.
Proof.
  intros (m & cl & sl & Hwf & Hmw) Ha. pose proof (wf_mons _ _ _ _ Hwf) as Hm.
  exists (set_mons (Some (with_screen (sw s) (sh s) m)) s). split.
  - unfold configurenotify, updategeom, updatebars, mbind, M_bind, bind, setmon, get,
      mret, M_ret, ret.
    repeat (rewrite Hm; simpl). reflexivity.
  - exists (with_screen (sw s) (sh s) m), cl, sl. split; [| exact (Ha m Hm)].
    destruct Hwf. constructor; auto.
Qed.

Lemma State_eq s1 s2 :
  heap s1 = heap s2 -> mons s1 = mons s2 -> running s1 = running s2 ->
  sw s1 = sw s2 -> sh s1 = sh s2 -> xerrorxlib s1 = xerrorxlib s2 ->
  xlog s1 = xlog s2 -> stderr s1 = stderr s2 -> s1 = s2.
Proof. destruct s1, s2. simpl. congruence. Qed.

(** [manage] up to the call of [focus], with what follows as [k] *)
Lemma manage_prefix_run cfg w wa s m t (k : option addr -> M unit) :
  mons s = Some m -> viewed m = Some t ->
  (c ← calloc_client;
   store c (fun _ => mkClient (wa_x wa) (wa_y wa) (wa_width wa) (wa_height wa)
                              (wa_x wa) (wa_y wa) (wa_width wa) (wa_height wa)
                              (borderpx cfg) (wa_border_width wa) 0 0 0 None None w);;
   applyrules c;;
   attach c;;
   attachstack c;;
   xreq (XSelectInput w);;
   grabbuttons c 0;;
   r ← load c;
   xreq (XMoveResizeWindow (c_win r) (c_x r) (c_y r) (c_w r) (c_h r));;
   setclientstate c NormalState;;
   configure c;;
   xreq (XMapWindow (c_win r));;
   k c) s
  = k (Some (fresh (dom (heap s)))) (managed_state cfg s m t w wa).
Proof.
  intros Hm Ht. unfold viewed in Ht.
  unfold calloc_client, applyrules, attach, attachstack, grabbuttons,
    setclientstate, configure, xreq, modify, store, load, selmon, setmon, index,
    mbind, M_bind, bind, mret, M_ret, ret.
  simpl. repeat (progress (rewrite ?lookup_insert_eq, ?Hm, ?Ht; simpl)).
  f_equal. apply State_eq; simpl; try reflexivity.
  - now rewrite !insert_insert_eq.
  - now rewrite <- !app_assoc.
Qed.

Lemma manage_unfold cfg w wa s m t :
  mons s = Some m -> viewed m = Some t ->
  manage cfg w wa s
  = (focus (Some (fresh (dom (heap s))));; arrange) (managed_state cfg s m t w wa).
Proof. intros Hm Ht. exact (manage_prefix_run cfg w wa s m t _ Hm Ht). Qed.

Lemma focus_target_elem h t sl c a :
  (∀ b, c = Some b -> b ∈ sl) -> focus_target h t sl c = Some a -> a ∈ sl.
Proof.
  intros Hc. unfold focus_target. destruct c as [b |].
  - destruct (visible_b h t b).
    + intros [= <-]. auto.
    + intros H. now apply first_visible_elem in H.
  - intros H. now apply first_visible_elem in H.
Qed.

(** [focus(c)] for a client of the stack, followed by [arrange] *)
Lemma good_focus_arrange s m cl sl c :
  wf s m cl sl -> mw_defined m -> c ∈ sl ->
  ∃ s', (focus (Some c);; arrange) s = Ok tt s' ∧ good s'.
Proof.
  intros Hwf Hmw Hc. destruct (wf_viewed _ _ _ _ Hwf) as [t Ht].
  assert (Hlk : ∀ a, Some c = Some a -> is_Some (heap s !! a)).
  { intros a [= <-]. eapply chain_lookup; [apply (wf_stack _ _ _ _ Hwf) | exact Hc]. }
  rewrite (bind_Ok _ _ _ _ _ (focus_Ok _ _ _ _ _ _ Hwf Ht Hlk)).
  apply good_arrange.
  exists (with_sel (focus_target (heap s) t sl (Some c)) m), cl, sl. split; [| exact Hmw].
  apply wf_set_sel; [exact Hwf |]. intros a Ha.
  eapply focus_target_elem; [| exact Ha]. intros b [= <-]. exact Hc.
Qed.

Lemma fresh_lookup_None (h : gmap addr Client) : h !! fresh (dom h) = None.
Proof. apply not_elem_of_dom, is_fresh. Qed.

Lemma wf_managed_state cfg s m cl sl t w wa :
  wf s m cl sl -> Z.of_nat (size (heap s)) + 1 < 2 ^ 32 ->
  wf (managed_state cfg s m t w wa)
     (with_stack (Some (fresh (dom (heap s)))) (with_clients (Some (fresh (dom (heap s)))) m))
     (fresh (dom (heap s)) :: cl) (fresh (dom (heap s)) :: sl).
Proof.
  intros Hwf Hsize. pose proof (fresh_lookup_None (heap s)) as Hnone.
  set (a := fresh (dom (heap s))) in *.
  assert (Hnotin : ∀ nxt p l, chain nxt (heap s) p l -> a ∉ l).
  { intros nxt p l Hch Hin. destruct (chain_lookup _ _ _ _ _ Hch Hin) as [r Hr]. congruence. }
  destruct Hwf. constructor; simpl; auto.
  - split; [reflexivity |]. eexists. split; [apply lookup_insert_eq |]. simpl.
    apply chain_insert_notin; eauto.
  - split; [reflexivity |]. eexists. split; [apply lookup_insert_eq |]. simpl.
    apply chain_insert_notin; eauto.
  - intros b Hb. right. auto.
  - rewrite map_size_insert_None by exact Hnone. lia.
Qed.

Lemma good_manage cfg w wa s :
  good s -> admissible (AManage w wa) s -> ∃ s', manage cfg w wa s = Ok tt s' ∧ good s'.
Proof.
  intros (m & cl & sl & Hwf & Hmw) Ha. destruct (wf_viewed _ _ _ _ Hwf) as [t Ht].
  rewrite (manage_unfold cfg w wa s m t (wf_mons _ _ _ _ Hwf) Ht).
  eapply good_focus_arrange.
  - apply wf_managed_state; eassumption.
  - exact Hmw.
  - left.
Qed.

(** *** [unmanage] *)

Lemma NoDup_middle_notin (a : addr) l1 l2 : NoDup (l1 ++ a :: l2) -> a ∉ l1 ++ l2.
Proof.
  rewrite NoDup_app, NoDup_cons. intros (_ & H1 & H2 & _) [Hin | Hin]%elem_of_app.
  - apply (H1 _ Hin). left.
  - auto.
Qed.

Lemma elem_of_middle_ne (a b : addr) l1 l2 : b ∈ l1 ++ a :: l2 -> b ≠ a -> b ∈ l1 ++ l2.
Proof.
  rewrite !elem_of_app, elem_of_cons. intros [H | [H | H]] Hne; auto. contradiction.
Qed.

(** [free] of a client that is on neither list *)
Lemma wf_free s m cl sl a :
  wf s m cl sl -> a ∉ cl -> wf (set_heap (delete a (heap s)) s) m cl sl.
Proof.
  intros Hwf Hn. assert (Hn' : a ∉ sl) by (rewrite <- (wf_perm _ _ _ _ Hwf); exact Hn).
  assert (Hkeep : ∀ (nxt : Client -> option addr) (l : list addr), a ∉ l ->
            ∀ b c, b ∈ l -> heap s !! b = Some c ->
              ∃ c', delete a (heap s) !! b = Some c' ∧ nxt c' = nxt c).
  { intros nxt l Hl b c Hb Hc. exists c. split; [| reflexivity].
    rewrite lookup_delete_ne; [exact Hc |]. intros ->. contradiction. }
  destruct Hwf. constructor; simpl; auto.
  - eapply chain_ext; [apply Hkeep; exact Hn | assumption].
  - eapply chain_ext; [apply Hkeep; exact Hn' | assumption].
  - rewrite map_size_delete. destruct (heap s !! a); simpl; lia.
Qed.

(** the requests of [unmanage] for a window that still exists *)
Lemma unmanage_requests_Ok s c r destroyed :
  heap s !! c = Some r ->
  ∃ s', (if decide (destroyed = 0) then
           xreq XGrabServer;;
           r ← load (Some c);
           xreq (XUngrabButton (c_win r));;
           setclientstate (Some c) WithdrawnState;;
           xreq XSync;;
           xreq XUngrabServer
         else mret tt) s = Ok tt s' ∧ frame s s'.
Proof.
  intros Hr. destruct (decide (destroyed = 0)).
  - unfold setclientstate, xreq, modify, load, mbind, M_bind, bind. simpl.
    repeat (rewrite Hr; simpl).
    eexists. split; [reflexivity |]. constructor; simpl; auto. apply geom_only_refl.
  - exists s. split; [reflexivity | apply frame_refl].
Qed.

(** [unmanage] of a managed client returns and keeps the state good *)
Lemma good_unmanage c destroyed s :
  good s -> admissible (AUnmanage c destroyed) s ->
  ∃ s', unmanage c destroyed s = Ok tt s' ∧ good s'.
Proof.
  intros (m & cl & sl & Hwf & Hmw) (a & m' & l & -> & Hm' & Hl & Hin).
  pose proof (wf_mons _ _ _ _ Hwf) as Hm. rewrite Hm in Hm'. injection Hm' as <-.
  rewrite (chain_det _ _ _ _ _ Hl (wf_clients _ _ _ _ Hwf)) in Hin. clear l Hl.
  destruct (wf_viewed _ _ _ _ Hwf) as [t Ht].
  assert (Hins : a ∈ sl) by (rewrite <- (wf_perm _ _ _ _ Hwf); exact Hin).
  apply list_elem_of_split in Hin as (l1 & l2 & ->).
  apply list_elem_of_split in Hins as (k1 & k2 & ->).
  pose proof (wf_clients _ _ _ _ Hwf) as Hcl. pose proof (wf_stack _ _ _ _ Hwf) as Hsl.
  destruct (chain_app_elim _ _ _ _ _ _ Hcl) as (ra & Hra & _).
  (* [detach] *)
  destruct (detach_Ok _ _ _ _ _ Hm Hcl) as (s1 & q1 & Hd1 & Hm1 & Hcl1 & Hrel1).
  assert (Hsl1 : chain c_snext (heap s1) (m_stack (with_clients q1 m)) (k1 ++ a :: k2)).
  { eapply heap_rel_chain; [| exact Hrel1 | exact Hsl]. now intros c c' ->. }
  (* [detachstack] *)
  destruct (detachstack_Ok _ _ t _ _ _ Hm1 Ht Hsl1) as (s2 & q2 & Hd2 & Hm2 & Hsl2 & Hrel2).
  assert (Hcl2 : chain c_next (heap s2) q1 (l1 ++ l2)).
  { eapply heap_rel_chain; [| exact Hrel2 | exact Hcl1]. now intros c c' ->. }
  set (m2 := with_sel _ _) in Hm2.
  assert (Hwf2 : wf s2 m2 (l1 ++ l2) (k1 ++ k2)).
  { constructor; auto.
    - eapply Permutation_app_inv, (wf_perm _ _ _ _ Hwf).
    - subst m2. simpl. intros b. destruct (decide (Some a = m_sel m)) as [He | Hne].
      + intros Hb. now apply first_visible_elem in Hb.
      + intros Hb. eapply elem_of_middle_ne; [eapply wf_sel; eassumption |].
        intros ->. now apply Hne.
    - apply (wf_tagset _ _ _ _ Hwf).
    - apply (wf_seltags _ _ _ _ Hwf).
    - apply (wf_sellt _ _ _ _ Hwf).
    - rewrite (heap_rel_size _ _ _ Hrel2), (heap_rel_size _ _ _ Hrel1).
      apply (wf_size _ _ _ _ Hwf). }
  destruct (heap_rel_lookup _ _ _ _ _ Hrel1 Hra) as (ra1 & Hra1 & _).
  destruct (heap_rel_lookup _ _ _ _ _ Hrel2 Hra1) as (ra2 & Hra2 & _).
  (* the requests and [free] *)
  destruct (unmanage_requests_Ok s2 a ra2 destroyed Hra2) as (s3 & Hx & Hf3).
  destruct (frame_lookup _ _ _ _ Hf3 Hra2) as (ra3 & Hra3 & _).
  assert (Hfree : free (Some a) s3 = Ok tt (set_heap (delete a (heap s3)) s3)).
  { unfold free. now rewrite Hra3. }
  assert (Hg4 : good (set_heap (delete a (heap s3)) s3)).
  { exists m2, (l1 ++ l2), (k1 ++ k2). split; [| exact Hmw].
    apply wf_free; [eapply wf_frame; eassumption |].
    apply NoDup_middle_notin. eapply chain_NoDup. exact Hcl. }
  destruct (good_refocus_arrange _ Hg4) as (s5 & Hs5 & Hg5).
  exists s5. split; [| exact Hg5].
  unfold unmanage.
  rewrite (bind_Ok _ _ _ _ _ (load_Ok _ _ _ Hra)).
  rewrite (bind_Ok _ _ _ _ _ Hd1), (bind_Ok _ _ _ _ _ Hd2), (bind_Ok _ _ _ _ _ Hx).
  rewrite (bind_Ok _ _ _ _ _ Hfree). rewrite <- Hs5.
  unfold updateclientlist, mbind, M_bind, bind.
  destruct (focus None _); reflexivity.
Qed.

(** *** [focusstack] *)

Lemma focusstack_next_Ok s m t l : ∀ n p,
  mons s = Some m -> viewed m = Some t ->
  chain c_next (heap s) p l -> (length l < n)%nat ->
  focusstack_next n p s = Ok (first_visible (heap s) t l) s.
Proof.
  induction l as [|a l IH]; intros n p Hm Ht Hch Hn; (destruct n as [|n]; [simpl in Hn; lia |]).
  - simpl in Hch. subst p. reflexivity.
  - destruct Hch as [-> (c & Hc & Hch)]. simpl.
    rewrite (bind_Ok _ _ _ _ _ (ISVISIBLE_Ok _ _ _ _ _ Hm Ht Hc)).
    unfold first_visible. simpl. rewrite (visible_b_land _ _ _ _ Hc).
    destruct (decide (Z.land (c_tags c) t = 0)) as [Hz | Hz].
    + rewrite Hz. simpl.
      rewrite (bind_Ok _ _ _ _ _ (load_Ok _ _ _ Hc)).
      apply IH; auto. simpl in Hn. lia.
    + apply Z.eqb_neq in Hz. rewrite Hz. reflexivity.
Qed.

Lemma focusstack_after_Ok s m t l : ∀ n p acc,
  mons s = Some m -> viewed m = Some t ->
  chain c_next (heap s) p l -> (length l < n)%nat ->
  focusstack_after n p acc s = Ok (last_visible (heap s) t l acc) s.
Proof.
  induction l as [|a l IH]; intros n p acc Hm Ht Hch Hn;
    (destruct n as [|n]; [simpl in Hn; lia |]).
  - simpl in Hch. subst p. reflexivity.
  - destruct Hch as [-> (c & Hc & Hch)]. simpl focusstack_after.
    rewrite (bind_Ok _ _ _ _ _ (ISVISIBLE_Ok _ _ _ _ _ Hm Ht Hc)).
    rewrite (bind_Ok _ _ _ _ _ (load_Ok _ _ _ Hc)).
    unfold last_visible. simpl fold_left. rewrite (visible_b_land _ _ _ _ Hc).
    simpl in Hn.
    destruct (decide (Z.land (c_tags c) t ≠ 0)) as [Hz | Hz].
    + apply Z.eqb_neq in Hz. rewrite Hz. simpl. apply IH; auto. lia.
    + apply dec_stable in Hz. rewrite Hz. simpl. apply IH; auto. lia.
Qed.

Lemma focusstack_before_Ok s m t x l2 : ∀ l1 n p acc,
  mons s = Some m -> viewed m = Some t ->
  chain c_next (heap s) p (l1 ++ x :: l2) -> (length l1 < n)%nat ->
  focusstack_before n (Some x) p acc s
  = Ok (Some x, last_visible (heap s) t l1 acc) s.
Proof.
  induction l1 as [|a l1 IH]; intros n p acc Hm Ht Hch Hn;
    (destruct n as [|n]; [simpl in Hn; lia |]).
  - destruct Hch as [-> _]. simpl.
    destruct (decide (Some x = Some x)); [reflexivity | contradiction].
  - pose proof (chain_NoDup _ _ _ _ Hch) as Hnd.
    destruct Hch as [-> (c & Hc & Hch)]. simpl focusstack_before.
    destruct (decide (Some a = Some x)) as [[= ->] | _].
    { exfalso. simpl in Hnd. apply NoDup_cons in Hnd as [Hnd _]. apply Hnd.
      apply elem_of_app. right. left. }
    rewrite (bind_Ok _ _ _ _ _ (ISVISIBLE_Ok _ _ _ _ _ Hm Ht Hc)).
    rewrite (bind_Ok _ _ _ _ _ (load_Ok _ _ _ Hc)).
    unfold last_visible. simpl fold_left. rewrite (visible_b_land _ _ _ _ Hc).
    simpl in Hn.
    destruct (decide (Z.land (c_tags c) t ≠ 0)) as [Hz | Hz].
    + apply Z.eqb_neq in Hz. rewrite Hz. simpl. apply IH; auto. lia.
    + apply dec_stable in Hz. rewrite Hz. simpl. apply IH; auto. lia.
Qed.

Lemma last_visible_elem h t l : ∀ acc a,
  last_visible h t l acc = Some a -> a ∈ l ∨ acc = Some a.
Proof.
  unfold last_visible. induction l as [|b l IH]; intros acc a; simpl; [auto |].
  intros H. apply IH in H as [H | H]; [left; now right |].
  destruct (visible_b h t b); [injection H as ->; left; left | auto].
Qed.

(** the client [focusstack] picks is on the client list *)
Lemma focusstack_pick_Ok s m cl sl x i :
  wf s m cl sl -> m_sel m = Some x ->
  ∃ c, (if decide (i > 0) then
          r ← load (m_sel m);
          k ← fuel;
          c ← focusstack_next k (c_next r);
          match c with
          | None => m ← selmon; focusstack_next k (m_clients m)
          | Some _ => mret c
          end
        else
          k ← fuel;
          ic ← focusstack_before k (m_sel m) (m_clients m) None;
          match ic.2 with
          | None => focusstack_after k ic.1 None
          | Some _ => mret ic.2
          end) s = Ok c s
       ∧ ∀ b, c = Some b -> b ∈ cl.
Proof.
  intros Hwf Hsel. pose proof (wf_mons _ _ _ _ Hwf) as Hm.
  destruct (wf_viewed _ _ _ _ Hwf) as [t Ht].
  pose proof (wf_clients _ _ _ _ Hwf) as Hcl.
  pose proof (chain_length _ _ _ _ Hcl) as Hlen.
  assert (Hx : x ∈ cl).
  { rewrite (wf_perm _ _ _ _ Hwf). eapply wf_sel; eassumption. }
  apply list_elem_of_split in Hx as (l1 & l2 & ->).
  destruct (chain_app_elim _ _ _ _ _ _ Hcl) as (rx & Hrx & Hl2).
  assert (Hxl2 : chain c_next (heap s) (Some x) (x :: l2)) by (split; eauto).
  rewrite length_app in Hlen. simpl in Hlen. rewrite Hsel.
  destruct (decide (i > 0)) as [_ | _].
  - rewrite (bind_Ok _ _ _ _ _ (load_Ok _ _ _ Hrx)).
    rewrite (bind_Ok _ _ _ _ _ (fuel_Ok s)).
    assert (Hn2 : (length l2 < S (size (heap s)))%nat) by lia.
    rewrite (bind_Ok _ _ _ _ _ (focusstack_next_Ok _ _ _ _ _ _ Hm Ht Hl2 Hn2)).
    destruct (first_visible (heap s) t l2) as [b |] eqn:Hb.
    + exists (Some b). split; [reflexivity |]. intros b' [= <-].
      apply first_visible_elem in Hb as [Hb _]. apply elem_of_app. right. now right.
    + rewrite (bind_Ok _ _ _ _ _ (selmon_Ok _ _ Hm)).
      assert (Hn : (length (l1 ++ x :: l2) < S (size (heap s)))%nat).
      { rewrite length_app. simpl. lia. }
      rewrite (focusstack_next_Ok _ _ _ _ _ _ Hm Ht Hcl Hn).
      eexists. split; [reflexivity |]. intros b' Hb'.
      now apply first_visible_elem in Hb'.
  - rewrite (bind_Ok _ _ _ _ _ (fuel_Ok s)).
    assert (Hn1 : (length l1 < S (size (heap s)))%nat) by lia.
    rewrite (bind_Ok _ _ _ _ _ (focusstack_before_Ok _ _ _ _ _ _ _ _ None Hm Ht Hcl Hn1)).
    cbv beta iota delta [fst snd].
    destruct (last_visible (heap s) t l1 None) as [b |] eqn:Hb.
    + exists (Some b). split; [reflexivity |]. intros b' [= <-].
      apply last_visible_elem in Hb as [Hb | Hb]; [| discriminate].
      apply elem_of_app. now left.
    + assert (Hn2 : (length (x :: l2) < S (size (heap s)))%nat) by (simpl; lia).
      rewrite (focusstack_after_Ok _ _ _ _ _ _ None Hm Ht Hxl2 Hn2).
      eexists. split; [reflexivity |]. intros b' Hb'.
      apply last_visible_elem in Hb' as [Hb' | Hb']; [| discriminate].
      apply elem_of_app. now right.
Qed.

(** [focusstack] returns and keeps the state good *)
Lemma good_focusstack i s : good s -> ∃ s', focusstack i s = Ok tt s' ∧ good s'.
Proof.
  intros Hg. pose proof Hg as (m & cl & sl & Hwf & Hmw).
  pose proof (wf_mons _ _ _ _ Hwf) as Hm. unfold focusstack.
  rewrite (bind_Ok _ _ _ _ _ (selmon_Ok _ _ Hm)).
  destruct (m_sel m) as [x |] eqn:Hsel; [| exists s; split; [reflexivity | exact Hg]].
  destruct (focusstack_pick_Ok s m cl sl x i Hwf Hsel) as (c & Hc & Hin).
  rewrite Hsel in Hc. rewrite (bind_Ok _ _ _ _ _ Hc).
  destruct c as [b |]; [| exists s; split; [reflexivity | exact Hg]].
  destruct (wf_viewed _ _ _ _ Hwf) as [t Ht].
  assert (Hb : b ∈ sl) by (rewrite <- (wf_perm _ _ _ _ Hwf); auto).
  assert (Hlk : ∀ a, Some b = Some a -> is_Some (heap s !! a)).
  { intros a [= <-]. eapply chain_lookup; [apply (wf_stack _ _ _ _ Hwf) | exact Hb]. }
  rewrite (bind_Ok _ _ _ _ _ (focus_Ok _ _ _ _ _ _ Hwf Ht Hlk)).
  eexists. split; [reflexivity |].
  exists (with_sel (focus_target (heap s) t sl (Some b)) m), cl, sl. split; [| exact Hmw].
  apply wf_set_sel; [exact Hwf |]. intros a Ha.
  eapply focus_target_elem; [| exact Ha]. intros b' [= <-]. exact Hb.
Qed.

(** *** Every call *)

(** An admissible call on a good state returns, neither faulting nor
    looping, and leaves a good state. *)
Theorem good_perform cfg a s :
  good s -> admissible a s -> ∃ s', perform cfg a s = Ok tt s' ∧ good s'.
Proof.
  intros Hg Ha. destruct a; simpl perform.
  - now apply good_view.
  - now apply good_toggleview.
  - now apply good_tag.
  - now apply good_toggletag.
  - now apply good_setmfact.
  - now apply good_killclient.
  - now apply good_togglefloating.
  - now apply good_quit.
  - now apply good_focusstack.
  - now apply good_setlayout.
  - now apply good_configurenotify.
  - now apply good_manage.
  - now apply good_unmanage.
Qed.

(** [setup] leaves a good state when the master width of the screen fits. *)
Lemma good_setup cfg width height :
  mw_defined (initial_monitor cfg width height) ->
  ∃ s, setup cfg width height boot = Ok tt s ∧ good s.
Proof.
  intros Hmw. exists (initial_state cfg width height). split; [apply setup_boot |].
  exists (initial_monitor cfg width height), [], []. split; [apply wf_initial_state | exact Hmw].
Qed.

(** ** What holds in every run *)

Lemma first_visible_ext h h' t l :
  (∀ a, a ∈ l -> visible_b h' t a = visible_b h t a) ->
  first_visible h' t l = first_visible h t l.
Proof.
  unfold first_visible. induction l as [|a l IH]; intros H; simpl; [reflexivity |].
  rewrite (H a) by left. destruct (visible_b h t a); [reflexivity |].
  apply IH. intros b Hb. apply H. now right.
Qed.

Lemma sel_ok_ext h h' t sl p :
  (∀ a, visible_b h' t a = visible_b h t a) -> sel_ok h t sl p -> sel_ok h' t sl p.
Proof.
  intros H. destruct p as [a |]; simpl.
  - rewrite H. auto.
  - intros <-. now apply first_visible_ext.
Qed.

Lemma sel_ok_first_visible h t sl : sel_ok h t sl (first_visible h t sl).
Proof.
  destruct (first_visible h t sl) as [a |] eqn:Ha; simpl; [| exact Ha].
  now apply first_visible_elem in Ha.
Qed.

Lemma geom_only_tags h h' a r r' :
  geom_only h h' -> h !! a = Some r -> h' !! a = Some r' -> c_tags r' = c_tags r.
Proof.
  intros H Hr Hr'. specialize (H a). rewrite Hr, Hr' in H. unfold same_links in H.
  now rewrite H.
Qed.

Lemma base_frame s s' m cl sl t : base s m cl sl t -> frame s s' -> base s' m cl sl t.
Proof.
  intros [] Hf. pose proof (fr_heap _ _ Hf) as Hg. constructor; auto.
  - eapply wf_frame; eassumption.
  - intros a [r' Hr']. apply base_heap0. specialize (Hg a). rewrite Hr' in Hg.
    destruct (heap s !! a); [eauto | contradiction].
  - intros a r' Hr'. pose proof (Hg a) as Ha. rewrite Hr' in Ha.
    destruct (heap s !! a) as [r |] eqn:Hr; [| contradiction].
    rewrite (geom_only_tags _ _ _ _ _ Hg Hr Hr'). eauto.
  - unfold spans in *. now rewrite (fr_sw _ _ Hf), (fr_sh _ _ Hf).
Qed.

Lemma sound_frame s s' m cl sl t : sound s m cl sl t -> frame s s' -> sound s' m cl sl t.
Proof.
  intros [Hb Hs] Hf. split; [eapply base_frame; eassumption |].
  eapply sel_ok_ext; [| exact Hs]. intros a. apply geom_only_visible, (fr_heap _ _ Hf).
Qed.

Lemma base_set_sel s m cl sl t p :
  base s m cl sl t -> (∀ a, p = Some a -> a ∈ sl) ->
  base (set_mons (Some (with_sel p m)) s) (with_sel p m) cl sl t.
Proof. intros [] Hp. constructor; auto. now apply wf_set_sel. Qed.

(** [focus(NULL)] followed by [arrange] establishes the selection rule *)
Lemma sound_refocus_arrange s m cl sl t :
  base s m cl sl t ->
  ∃ s', (focus None;; arrange) s = Ok tt s'
        ∧ sound s' (with_sel (first_visible (heap s) t sl) m) cl sl t.
Proof.
  intros Hb.
  destruct (refocus_arrange_Ok _ _ _ _ _ (base_wf _ _ _ _ _ Hb) (base_mw _ _ _ _ _ Hb)
              (base_viewed _ _ _ _ _ Hb)) as (s' & Hs' & _ & Hf).
  exists s'. split; [exact Hs' |]. eapply sound_frame; [| exact Hf]. split.
  - apply base_set_sel; [exact Hb |]. intros a Ha. now apply first_visible_elem in Ha.
  - apply sel_ok_first_visible.
Qed.

(** [arrange] keeps what holds between calls *)
Lemma sound_arrange s m cl sl t :
  sound s m cl sl t -> ∃ s', arrange s = Ok tt s' ∧ sound s' m cl sl t.
Proof.
  intros Hs. destruct Hs as [Hb Hsel].
  destruct (arrange_Ok _ _ _ _ (base_wf _ _ _ _ _ Hb) (base_mw _ _ _ _ _ Hb)) as (s' & Hs' & Hf).
  exists s'. split; [exact Hs' |]. eapply sound_frame; [split; eassumption | exact Hf].
Qed.

Lemma insert_nonzero (l : list Z) i v :
  (∀ x, x ∈ l -> x ≠ 0) -> v ≠ 0 -> ∀ x, x ∈ <[i:=v]> l -> x ≠ 0.
Proof.
  intros Hl Hv x Hx. apply list_elem_of_lookup in Hx as [j Hj].
  apply list_lookup_insert_Some in Hj as [(_ & <- & _) | (_ & Hj)]; [exact Hv |].
  eapply Hl, list_elem_of_lookup_2, Hj.
Qed.

Lemma base_viewed_nonzero s m cl sl t : base s m cl sl t -> t ≠ 0.
Proof.
  intros Hb. eapply (base_tagset _ _ _ _ _ Hb), list_elem_of_lookup_2.
  exact (base_viewed _ _ _ _ _ Hb).
Qed.

(** a change of the monitor that leaves its lists and its selection alone *)
Lemma base_set_mon s m m' cl sl t t' :
  base s m cl sl t -> wf (set_mons (Some m') s) m' cl sl -> mw_defined m' ->
  viewed m' = Some t' -> (∀ x, x ∈ m_tagset m' -> x ≠ 0) -> spans s m' ->
  base (set_mons (Some m') s) m' cl sl t'.
Proof. intros [] Hwf Hmw Ht Hts Hsp. constructor; auto. Qed.

(** an assignment to a client that leaves its links alone and gives it a
    tag *)
Lemma base_store s m cl sl t c r r' :
  base s m cl sl t -> heap s !! c = Some r ->
  c_next r' = c_next r -> c_snext r' = c_snext r -> c_tags r' ≠ 0 ->
  base (set_heap (<[c := r']> (heap s)) s) m cl sl t.
Proof.
  intros [] Hr Hn Hsn Ht. constructor; auto.
  - eapply wf_store_links; eassumption.
  - simpl. intros a Ha. apply base_heap0. destruct (decide (c = a)) as [<- | Hne]; [eauto |].
    now rewrite lookup_insert_ne in Ha.
  - simpl. intros a ra. destruct (decide (c = a)) as [<- | Hne].
    + rewrite lookup_insert_eq. now intros [= <-].
    + rewrite lookup_insert_ne by assumption. apply base_tags0.
Qed.

Lemma visible_b_insert_tags h t c r r' a :
  h !! c = Some r -> c_tags r' = c_tags r ->
  visible_b (<[c := r']> h) t a = visible_b h t a.
Proof.
  intros Hr Ht. unfold visible_b. destruct (decide (c = a)) as [<- | Hne].
  - now rewrite lookup_insert_eq, Hr, Ht.
  - now rewrite lookup_insert_ne.
Qed.

Lemma view_run cfg s m cl sl t ui :
  wf s m cl sl -> viewed m = Some t -> Z.land ui (TAGMASK cfg) ≠ t ->
  view cfg ui s
  = (focus None;; arrange) (set_mons (Some (view_mon (Z.land ui (TAGMASK cfg)) m)) s).
Proof.
  intros Hwf Ht Hne. pose proof (wf_mons _ _ _ _ Hwf) as Hm.
  set (a := Z.land ui (TAGMASK cfg)) in *. unfold view. fold a.
  rewrite (bind_Ok _ _ _ _ _ (selmon_Ok _ _ Hm)).
  rewrite (bind_Ok _ _ _ _ _ (index_Ok _ _ _ _ Ht)).
  destruct (decide (a = t)); [contradiction |].
  rewrite (bind_Ok _ _ _ _ _ (setmon_Ok _ _ _ Hm)).
  destruct (viewed_lxor m (wf_tagset _ _ _ _ Hwf) (wf_seltags _ _ _ _ Hwf)) as [t1 Ht1].
  unfold view_mon. destruct (decide (a ≠ 0)).
  - erewrite bind_Ok; [reflexivity |].
    erewrite set_tagset_Ok; [reflexivity | reflexivity | exact Ht1].
  - reflexivity.
Qed.

Lemma toggleview_run cfg s m t ui :
  mons s = Some m -> viewed m = Some t -> Z.lxor t (Z.land ui (TAGMASK cfg)) ≠ 0 ->
  toggleview cfg ui s
  = (focus None;; arrange)
      (set_mons (Some (toggleview_mon (Z.lxor t (Z.land ui (TAGMASK cfg))) m)) s).
Proof.
  intros Hm Ht Hne. unfold toggleview.
  rewrite (bind_Ok _ _ _ _ _ (selmon_Ok _ _ Hm)).
  rewrite (bind_Ok _ _ _ _ _ (index_Ok _ _ _ _ Ht)).
  cbv zeta. destruct (decide (Z.lxor t (Z.land ui (TAGMASK cfg)) ≠ 0)); [| contradiction].
  erewrite bind_Ok; [reflexivity |]. now rewrite (set_tagset_Ok _ _ _ _ Hm Ht).
Qed.

Lemma spans_view_mon s a m : spans s m -> spans s (view_mon a m).
Proof. unfold view_mon. destruct (decide (a ≠ 0)); exact id. Qed.

Lemma tagset_view_mon a m :
  (∀ x, x ∈ m_tagset m -> x ≠ 0) -> ∀ x, x ∈ m_tagset (view_mon a m) -> x ≠ 0.
Proof.
  intros H. unfold view_mon. destruct (decide (a ≠ 0)); simpl; [| exact H].
  now apply insert_nonzero.
Qed.

Lemma sound_view cfg ui s : Sound s -> ∃ s', view cfg ui s = Ok tt s' ∧ Sound s'.
Proof.
  intros (m & cl & sl & t & Hb & Hsel). pose proof (base_wf _ _ _ _ _ Hb) as Hwf.
  pose proof (base_viewed _ _ _ _ _ Hb) as Ht.
  destruct (decide (Z.land ui (TAGMASK cfg) = t)) as [He | Hne].
  - exists s. split; [eapply view_same; eauto using wf_mons |]. exists m, cl, sl, t. now split.
  - rewrite (view_run _ _ _ _ _ _ _ Hwf Ht Hne). set (a := Z.land ui (TAGMASK cfg)).
    pose proof (wf_view_mon _ _ _ _ a Hwf) as Hwf2.
    destruct (wf_viewed _ _ _ _ Hwf2) as [t2 Ht2].
    assert (Hb2 : base (set_mons (Some (view_mon a m)) s) (view_mon a m) cl sl t2).
    { eapply base_set_mon; eauto.
      - apply mw_defined_view_mon, (base_mw _ _ _ _ _ Hb).
      - apply tagset_view_mon, (base_tagset _ _ _ _ _ Hb).
      - apply spans_view_mon, (base_spans _ _ _ _ _ Hb). }
    destruct (sound_refocus_arrange _ _ _ _ _ Hb2) as (s' & Hs' & Hsd).
    exists s'. split; [exact Hs' |]. eexists _, cl, sl, t2. exact Hsd.
Qed.

Lemma sound_toggleview cfg ui s : Sound s -> ∃ s', toggleview cfg ui s = Ok tt s' ∧ Sound s'.
Proof.
  intros (m & cl & sl & t & Hb & Hsel). pose proof (base_wf _ _ _ _ _ Hb) as Hwf.
  pose proof (base_viewed _ _ _ _ _ Hb) as Ht. pose proof (wf_mons _ _ _ _ Hwf) as Hm.
  destruct (decide (Z.lxor t (Z.land ui (TAGMASK cfg)) = 0)) as [He | Hne].
  - exists s. split; [eapply toggleview_empty; eauto |]. exists m, cl, sl, t. now split.
  - rewrite (toggleview_run _ _ _ _ _ Hm Ht Hne).
    set (v := Z.lxor t (Z.land ui (TAGMASK cfg))) in *.
    pose proof (wf_toggleview_mon _ _ _ _ v Hwf) as Hwf2.
    destruct (wf_viewed _ _ _ _ Hwf2) as [t2 Ht2].
    assert (Hb2 : base (set_mons (Some (toggleview_mon v m)) s) (toggleview_mon v m) cl sl t2).
    { eapply base_set_mon; eauto.
      - exact (base_mw _ _ _ _ _ Hb).
      - simpl. apply insert_nonzero; [apply (base_tagset _ _ _ _ _ Hb) | exact Hne].
      - exact (base_spans _ _ _ _ _ Hb). }
    destruct (sound_refocus_arrange _ _ _ _ _ Hb2) as (s' & Hs' & Hsd).
    exists s'. split; [exact Hs' |]. eexists _, cl, sl, t2. exact Hsd.
Qed.

Lemma sound_sel_lookup s m cl sl t c :
  base s m cl sl t -> m_sel m = Some c -> ∃ r, heap s !! c = Some r.
Proof. intros Hb. eapply good_sel_lookup, (base_wf _ _ _ _ _ Hb). Qed.

Lemma sound_tag cfg ui s : Sound s -> ∃ s', tag cfg ui s = Ok tt s' ∧ Sound s'.
Proof.
  intros Hs. pose proof Hs as (m & cl & sl & t & Hb & Hsel).
  pose proof (wf_mons _ _ _ _ (base_wf _ _ _ _ _ Hb)) as Hm. unfold tag.
  rewrite (bind_Ok _ _ _ _ _ (selmon_Ok _ _ Hm)).
  destruct (decide (m_sel m ≠ None ∧ Z.land ui (TAGMASK cfg) ≠ 0)) as [[Hc Hne] | _];
    [| exists s; split; [reflexivity | exact Hs]].
  destruct (m_sel m) as [c |] eqn:Hc'; [| contradiction].
  destruct (sound_sel_lookup _ _ _ _ _ _ Hb Hc') as [r Hr].
  rewrite (bind_Ok _ _ _ _ _ (store_Ok _ _ _ _ Hr)).
  assert (Hb1 : base (set_heap (<[c := with_tags (Z.land ui (TAGMASK cfg)) r]> (heap s)) s)
                     m cl sl t) by (eapply base_store; eauto).
  destruct (sound_refocus_arrange _ _ _ _ _ Hb1) as (s' & Hs' & Hsd).
  exists s'. split; [exact Hs' |]. eexists _, cl, sl, t. exact Hsd.
Qed.

Lemma sound_toggletag cfg ui s : Sound s -> ∃ s', toggletag cfg ui s = Ok tt s' ∧ Sound s'.
Proof.
  intros Hs. pose proof Hs as (m & cl & sl & t & Hb & Hsel).
  pose proof (wf_mons _ _ _ _ (base_wf _ _ _ _ _ Hb)) as Hm. unfold toggletag.
  rewrite (bind_Ok _ _ _ _ _ (selmon_Ok _ _ Hm)).
  destruct (m_sel m) as [c |] eqn:Hc; [| exists s; split; [reflexivity | exact Hs]].
  destruct (sound_sel_lookup _ _ _ _ _ _ Hb Hc) as [r Hr].
  rewrite (bind_Ok _ _ _ _ _ (load_Ok _ _ _ Hr)). cbv zeta.
  destruct (decide (Z.lxor (c_tags r) (Z.land ui (TAGMASK cfg)) ≠ 0)) as [Hne | _];
    [| exists s; split; [reflexivity | exact Hs]].
  rewrite (bind_Ok _ _ _ _ _ (store_Ok _ _ _ _ Hr)).
  assert (Hb1 : base (set_heap (<[c := with_tags (Z.lxor (c_tags r) (Z.land ui (TAGMASK cfg))) r]>
                                  (heap s)) s) m cl sl t) by (eapply base_store; eauto).
  destruct (sound_refocus_arrange _ _ _ _ _ Hb1) as (s' & Hs' & Hsd).
  exists s'. split; [exact Hs' |]. eexists _, cl, sl, t. exact Hsd.
Qed.

Lemma sound_setmfact arg s :
  Sound s -> admissible (ASetMfact arg) s -> ∃ s', setmfact arg s = Ok tt s' ∧ Sound s'.
Proof.
  intros Hs Ha. pose proof Hs as (m & cl & sl & t & Hb & Hsel).
  pose proof (base_wf _ _ _ _ _ Hb) as Hwf. pose proof (wf_mons _ _ _ _ Hwf) as Hm.
  unfold setmfact. rewrite (bind_Ok _ _ _ _ _ (eq_refl : get s = Ok s s)). rewrite Hm.
  destruct arg as [x |]; [| exists s; split; [reflexivity | exact Hs]].
  cbv zeta. fold (setmfact_value x m).
  destruct (F64.ltb _ _ || F64.ltb _ _) eqn:Hrej;
    [exists s; split; [reflexivity | exact Hs] |].
  destruct (Ha m Hm) as [Hr | Hmw']; [congruence |].
  rewrite (bind_Ok _ _ _ _ _ (setmon_Ok _ _ _ Hm)).
  set (m' := with_mfact (setmfact_value x m) m).
  assert (Hsd : sound (set_mons (Some m') s) m' cl sl t).
  { split; [| exact Hsel]. destruct Hb. constructor; auto.
    destruct Hwf. constructor; auto. }
  destruct (sound_arrange _ _ _ _ _ Hsd) as (s' & Hs' & Hsd').
  exists s'. split; [exact Hs' |]. exists m', cl, sl, t. exact Hsd'.
Qed.

Lemma sound_killclient s : Sound s -> ∃ s', killclient s = Ok tt s' ∧ Sound s'.
Proof.
  intros Hs. pose proof Hs as (m & cl & sl & t & Hb & Hsel).
  pose proof (wf_mons _ _ _ _ (base_wf _ _ _ _ _ Hb)) as Hm. unfold killclient.
  rewrite (bind_Ok _ _ _ _ _ (selmon_Ok _ _ Hm)).
  destruct (m_sel m) as [c |] eqn:Hc; [| exists s; split; [reflexivity | exact Hs]].
  destruct (sound_sel_lookup _ _ _ _ _ _ Hb Hc) as [r Hr].
  rewrite (bind_Ok _ _ _ _ _ (load_Ok _ _ _ Hr)). rewrite xreq_Ok.
  eexists. split; [reflexivity |]. exists m, cl, sl, t.
  eapply sound_frame; [| apply frame_xlog]. split; [exact Hb |]. now rewrite Hc.
Qed.

Lemma sound_quit s : Sound s -> ∃ s', quit s = Ok tt s' ∧ Sound s'.
Proof.
  intros (m & cl & sl & t & Hb & Hsel). eexists. split; [reflexivity |].
  exists m, cl, sl, t. split; [| exact Hsel]. destruct Hb. constructor; auto.
  destruct base_wf0. constructor; auto.
Qed.

Lemma sound_togglefloating s : Sound s -> ∃ s', togglefloating s = Ok tt s' ∧ Sound s'.
Proof.
  intros Hs. pose proof Hs as (m & cl & sl & t & Hb & Hsel).
  pose proof (wf_mons _ _ _ _ (base_wf _ _ _ _ _ Hb)) as Hm. unfold togglefloating.
  rewrite (bind_Ok _ _ _ _ _ (selmon_Ok _ _ Hm)).
  destruct (m_sel m) as [c |] eqn:Hc; [| exists s; split; [reflexivity | exact Hs]].
  destruct (sound_sel_lookup _ _ _ _ _ _ Hb Hc) as [r Hr].
  rewrite (bind_Ok _ _ _ _ _ (load_Ok _ _ _ Hr)).
  rewrite (bind_Ok _ _ _ _ _ (store_Ok _ _ _ _ Hr)).
  set (r1 := with_isfloating _ r). set (s1 := set_heap _ s).
  assert (Hsd1 : sound s1 m cl sl t).
  { split.
    - eapply base_store; eauto. exact (base_tags _ _ _ _ _ Hb _ _ Hr).
    - rewrite Hc. eapply sel_ok_ext; [| exact Hsel].
      intros a. now apply (visible_b_insert_tags _ _ _ r). }
  assert (Hr1 : heap s1 !! c = Some r1) by apply lookup_insert_eq.
  rewrite (bind_Ok _ _ _ _ _ (load_Ok _ _ _ Hr1)).
  assert (Hrs : ∃ s2, (if decide (c_isfloating r1 ≠ 0)
                       then resize (Some c) (c_x r1) (c_y r1) (c_w r1) (c_h r1) 0
                       else mret tt) s1 = Ok tt s2 ∧ frame s1 s2).
  { destruct (decide (c_isfloating r1 ≠ 0)).
    - eapply resize_Ok; eassumption.
    - exists s1. split; [reflexivity | apply frame_refl]. }
  destruct Hrs as (s2 & Hs2 & Hf2). rewrite (bind_Ok _ _ _ _ _ Hs2).
  destruct (sound_arrange _ _ _ _ _ (sound_frame _ _ _ _ _ _ Hsd1 Hf2)) as (s' & Hs' & Hsd').
  exists s'. split; [exact Hs' |]. exists m, cl, sl, t. exact Hsd'.
Qed.

Lemma sound_setlayout arg s :
  Sound s -> admissible (ASetLayout arg) s -> ∃ s', setlayout arg s = Ok tt s' ∧ Sound s'.
Proof.
  intros Hs Ha. pose proof Hs as (m & cl & sl & t & Hb & Hsel).
  pose proof (base_wf _ _ _ _ _ Hb) as Hwf. pose proof (wf_mons _ _ _ _ Hwf) as Hm.
  unfold setlayout.
  assert (Hset : ∃ l, match arg with
                      | Some i => setmon (with_sellt (u32 i))
                      | None => m0 ← selmon; setmon (with_sellt (Z.lxor (m_sellt m0) 1))
                      end s = Ok tt (set_mons (Some (with_sellt l m)) s) ∧ 0 <= l < 3).
  { destruct arg as [i |].
    - exists (u32 i). split; [now rewrite (setmon_Ok _ _ _ Hm) | exact Ha].
    - exists (Z.lxor (m_sellt m) 1).
      rewrite (bind_Ok _ _ _ _ _ (selmon_Ok _ _ Hm)), (setmon_Ok _ _ _ Hm).
      split; [reflexivity |]. pose proof (wf_sellt _ _ _ _ Hwf). specialize (Ha m Hm).
      assert (Hc : m_sellt m = 0 ∨ m_sellt m = 1) by lia.
      destruct (lxor_1_bit _ Hc) as [-> | ->]; lia. }
  destruct Hset as (l & Hset & Hl). rewrite (bind_Ok _ _ _ _ _ Hset).
  assert (Hsd : sound (set_mons (Some (with_sellt l m)) s) (with_sellt l m) cl sl t).
  { split; [| exact Hsel]. destruct Hb. constructor; auto.
    destruct Hwf. constructor; auto. }
  destruct (sound_arrange _ _ _ _ _ Hsd) as (s' & Hs' & Hsd').
  exists s'. split; [exact Hs' |]. eexists _, cl, sl, t. exact Hsd'.
Qed.

Lemma with_screen_spans s m : spans s m -> with_screen (sw s) (sh s) m = m.
Proof.
  destruct m. unfold spans, with_screen. simpl.
  intros (-> & -> & -> & -> & -> & -> & -> & ->). reflexivity.
Qed.

Lemma set_mons_id s m : mons s = Some m -> set_mons (Some m) s = s.
Proof. destruct s. simpl. now intros ->. Qed.

(** [configurenotify] changes nothing: the screen size it assigns is the
    one read in [setup] *)
Lemma configurenotify_id cfg s m :
  mons s = Some m -> spans s m -> configurenotify cfg s = Ok tt s.
Proof.
  intros Hm Hsp.
  assert (H : configurenotify cfg s
              = Ok tt (set_mons (Some (with_screen (sw s) (sh s) m)) s)).
  { unfold configurenotify, updategeom, updatebars, mbind, M_bind, bind, setmon, get,
      mret, M_ret, ret.
    repeat (rewrite Hm; simpl). reflexivity. }
  rewrite H, (with_screen_spans _ _ Hsp), (set_mons_id _ _ Hm). reflexivity.
Qed.

Lemma sound_configurenotify cfg s :
  Sound s -> ∃ s', configurenotify cfg s = Ok tt s' ∧ Sound s'.
Proof.
  intros Hs. pose proof Hs as (m & cl & sl & t & Hb & Hsel). exists s. split; [| exact Hs].
  eapply configurenotify_id;
    [apply (wf_mons _ _ _ _ (base_wf _ _ _ _ _ Hb)) | apply (base_spans _ _ _ _ _ Hb)].
Qed.

Lemma last_visible_visible h t l : ∀ acc a,
  last_visible h t l acc = Some a -> (a ∈ l ∧ visible_b h t a = true) ∨ acc = Some a.
Proof.
  unfold last_visible. induction l as [|b l IH]; intros acc a; simpl; [auto |].
  intros H. apply IH in H as [[H Hv] | H]; [left; split; [now right | exact Hv] |].
  destruct (visible_b h t b) eqn:Hb; [injection H as ->; left; split; [left | exact Hb] | auto].
Qed.

Lemma last_visible_app h t l1 l2 acc :
  last_visible h t (l1 ++ l2) acc = last_visible h t l2 (last_visible h t l1 acc).
Proof. unfold last_visible. apply fold_left_app. Qed.

(** the search of [focusstack] *)
Lemma focusstack_pick_exact s m sl t x l1 l2 i :
  wf s m (l1 ++ x :: l2) sl -> viewed m = Some t -> m_sel m = Some x ->
  (if decide (i > 0) then
     r ← load (m_sel m);
     k ← fuel;
     c ← focusstack_next k (c_next r);
     match c with
     | None => m ← selmon; focusstack_next k (m_clients m)
     | Some _ => mret c
     end
   else
     k ← fuel;
     ic ← focusstack_before k (m_sel m) (m_clients m) None;
     match ic.2 with
     | None => focusstack_after k ic.1 None
     | Some _ => mret ic.2
     end) s = Ok (focusstack_target (heap s) t l1 x l2 i) s.
Proof.
  intros Hwf Ht Hsel. pose proof (wf_mons _ _ _ _ Hwf) as Hm.
  pose proof (wf_clients _ _ _ _ Hwf) as Hcl.
  pose proof (chain_length _ _ _ _ Hcl) as Hlen.
  destruct (chain_app_elim _ _ _ _ _ _ Hcl) as (rx & Hrx & Hl2).
  assert (Hxl2 : chain c_next (heap s) (Some x) (x :: l2)) by (split; eauto).
  rewrite length_app in Hlen. simpl in Hlen. rewrite Hsel. unfold focusstack_target.
  destruct (decide (i > 0)) as [_ | _].
  - rewrite (bind_Ok _ _ _ _ _ (load_Ok _ _ _ Hrx)).
    rewrite (bind_Ok _ _ _ _ _ (fuel_Ok s)).
    assert (Hn2 : (length l2 < S (size (heap s)))%nat) by lia.
    rewrite (bind_Ok _ _ _ _ _ (focusstack_next_Ok _ _ _ _ _ _ Hm Ht Hl2 Hn2)).
    destruct (first_visible (heap s) t l2) as [b |] eqn:Hb; [reflexivity |].
    rewrite (bind_Ok _ _ _ _ _ (selmon_Ok _ _ Hm)).
    assert (Hn : (length (l1 ++ x :: l2) < S (size (heap s)))%nat).
    { rewrite length_app. simpl. lia. }
    exact (focusstack_next_Ok _ _ _ _ _ _ Hm Ht Hcl Hn).
  - rewrite (bind_Ok _ _ _ _ _ (fuel_Ok s)).
    assert (Hn1 : (length l1 < S (size (heap s)))%nat) by lia.
    rewrite (bind_Ok _ _ _ _ _ (focusstack_before_Ok _ _ _ _ _ _ _ _ None Hm Ht Hcl Hn1)).
    cbv beta iota delta [fst snd].
    destruct (last_visible (heap s) t l1 None) as [b |] eqn:Hb; [reflexivity |].
    assert (Hn2 : (length (x :: l2) < S (size (heap s)))%nat) by (simpl; lia).
    exact (focusstack_after_Ok _ _ _ _ _ _ None Hm Ht Hxl2 Hn2).
Qed.

Lemma focusstack_target_visible h t l1 x l2 i b :
  focusstack_target h t l1 x l2 i = Some b ->
  b ∈ l1 ++ x :: l2 ∧ visible_b h t b = true.
Proof.
  unfold focusstack_target. destruct (decide (i > 0)).
  - destruct (first_visible h t l2) as [b' |] eqn:Hb.
    + intros [= <-]. apply first_visible_elem in Hb as [Hb Hv]. split; [| exact Hv].
      apply elem_of_app. right. now right.
    + apply first_visible_elem.
  - destruct (last_visible h t l1 None) as [b' |] eqn:Hb.
    + intros [= <-]. apply last_visible_visible in Hb as [[Hb Hv] | Hb]; [| discriminate].
      split; [| exact Hv]. apply elem_of_app. now left.
    + intros H. apply last_visible_visible in H as [[H Hv] | H]; [| discriminate].
      split; [| exact Hv]. apply elem_of_app. now right.
Qed.

Lemma last_visible_is_Some h t l : ∀ acc, is_Some acc -> is_Some (last_visible h t l acc).
Proof.
  unfold last_visible. induction l as [|b l IH]; intros acc Hacc; simpl; [exact Hacc |].
  apply IH. destruct (visible_b h t b); eauto.
Qed.

(** with a visible selected client the search finds a client *)
Lemma focusstack_target_Some h t l1 x l2 i :
  visible_b h t x = true -> is_Some (focusstack_target h t l1 x l2 i).
Proof.
  intros Hx. unfold focusstack_target. destruct (decide (i > 0)).
  - destruct (first_visible h t l2); [eauto |].
    destruct (first_visible h t (l1 ++ x :: l2)) as [b |] eqn:Hb; [eauto |].
    unfold first_visible in Hb. eapply List.find_none in Hb.
    + rewrite Hx in Hb. discriminate.
    + apply in_or_app. right. left. reflexivity.
  - destruct (last_visible h t l1 None); [eauto |].
    change (x :: l2) with ([x] ++ l2). rewrite last_visible_app.
    apply last_visible_is_Some. unfold last_visible. simpl. rewrite Hx. eauto.
Qed.

Lemma Projection_screen_size : Projection screen_size.
Proof. constructor; reflexivity. Qed.

Lemma same_client_refl r : same_client r r.
Proof. repeat split. Qed.

Lemma same_client_trans r1 r2 r3 : same_client r1 r2 -> same_client r2 r3 -> same_client r1 r3.
Proof.
  unfold same_client. intros (? & ? & ? & ? & ? & ? & ?) (? & ? & ? & ? & ? & ? & ?).
  repeat split; congruence.
Qed.

Lemma same_links_same_client r r' : same_links r r' -> same_client r r'.
Proof. unfold same_links. intros ->. repeat split. Qed.

Lemma next_differs_same_client r r' : next_differs r r' -> same_client r r'.
Proof. unfold next_differs. intros ->. repeat split. Qed.

Lemma snext_differs_same_client r r' : snext_differs r r' -> same_client r r'.
Proof. unfold snext_differs. intros ->. repeat split. Qed.

(** [focusstack] in a state in which the selection rule holds: the client
    searched for exists and becomes the selected client *)
Lemma focusstack_run s m sl t x l1 l2 i :
  sound s m (l1 ++ x :: l2) sl t -> m_sel m = Some x ->
  ∃ b, focusstack_target (heap s) t l1 x l2 i = Some b
       ∧ b ∈ sl ∧ visible_b (heap s) t b = true
       ∧ focusstack i s = Ok tt (set_mons (Some (with_sel (Some b) m)) s).
Proof.
  intros [Hb Hsel] Hx. pose proof (base_wf _ _ _ _ _ Hb) as Hwf.
  pose proof (base_viewed _ _ _ _ _ Hb) as Ht. pose proof (wf_mons _ _ _ _ Hwf) as Hm.
  rewrite Hx in Hsel. destruct Hsel as [_ Hvx].
  destruct (focusstack_target_Some (heap s) t l1 x l2 i Hvx) as [b Hb'].
  destruct (focusstack_target_visible _ _ _ _ _ _ _ Hb') as [Hin Hv].
  assert (Hbs : b ∈ sl) by (rewrite <- (wf_perm _ _ _ _ Hwf); exact Hin).
  exists b. split; [exact Hb' |]. split; [exact Hbs |]. split; [exact Hv |].
  pose proof (focusstack_pick_exact s m sl t x l1 l2 i Hwf Ht Hx) as Hp.
  unfold focusstack. rewrite (bind_Ok _ _ _ _ _ (selmon_Ok _ _ Hm)).
  rewrite Hx in Hp |- *. rewrite (bind_Ok _ _ _ _ _ Hp). rewrite Hb'.
  assert (Hlk : ∀ a, Some b = Some a -> is_Some (heap s !! a)).
  { intros a [= <-]. eapply chain_lookup; [apply (wf_stack _ _ _ _ Hwf) | exact Hbs]. }
  rewrite (bind_Ok _ _ _ _ _ (focus_Ok _ _ _ _ _ _ Hwf Ht Hlk)).
  unfold focus_target. rewrite Hv. reflexivity.
Qed.

Lemma sound_focusstack i s : Sound s -> ∃ s', focusstack i s = Ok tt s' ∧ Sound s'.
Proof.
  intros Hs. pose proof Hs as (m & cl & sl & t & Hsd).
  destruct (m_sel m) as [x |] eqn:Hx.
  - assert (Hin : x ∈ cl).
    { destruct Hsd as [Hb Hsel]. rewrite Hx in Hsel.
      rewrite (wf_perm _ _ _ _ (base_wf _ _ _ _ _ Hb)). apply Hsel. }
    apply list_elem_of_split in Hin as (l1 & l2 & ->).
    destruct (focusstack_run _ _ _ _ _ _ _ i Hsd Hx) as (b & _ & Hbs & Hv & Hrun).
    eexists. split; [exact Hrun |]. eexists _, _, sl, t. split.
    + apply base_set_sel; [apply Hsd |]. now intros a [= <-].
    + simpl. split; assumption.
  - exists s. split; [| exact Hs]. unfold focusstack.
    rewrite (bind_Ok _ _ _ _ _ (selmon_Ok _ _ (wf_mons _ _ _ _ (base_wf _ _ _ _ _ (proj1 Hsd))))).
    now rewrite Hx.
Qed.

(** [manage] in a state in which the selection rule holds: the new client
    heads both lists and is selected *)
Lemma manage_run cfg w wa s m cl sl t :
  sound s m cl sl t -> Z.of_nat (size (heap s)) + 1 < 2 ^ 32 ->
  ∃ s', manage cfg w wa s = Ok tt s'
        ∧ sound s' (with_sel (Some (fresh (dom (heap s))))
                      (with_stack (Some (fresh (dom (heap s))))
                         (with_clients (Some (fresh (dom (heap s)))) m)))
                (fresh (dom (heap s)) :: cl) (fresh (dom (heap s)) :: sl) t
        ∧ frame (set_mons (Some (with_sel (Some (fresh (dom (heap s))))
                                   (with_stack (Some (fresh (dom (heap s))))
                                      (with_clients (Some (fresh (dom (heap s)))) m))))
                   (managed_state cfg s m t w wa)) s'.
Proof.
  intros [Hb Hsel] Hsize. pose proof (base_wf _ _ _ _ _ Hb) as Hwf.
  pose proof (base_viewed _ _ _ _ _ Hb) as Ht.
  pose proof (base_viewed_nonzero _ _ _ _ _ Hb) as Htz.
  rewrite (manage_unfold cfg w wa s m t (wf_mons _ _ _ _ Hwf) Ht).
  set (a := fresh (dom (heap s))). set (s1 := managed_state cfg s m t w wa).
  set (m1 := with_stack (Some a) (with_clients (Some a) m)).
  assert (Hra : heap s1 !! a = Some (managed_client cfg m t w wa)) by apply lookup_insert_eq.
  assert (Hb1 : base s1 m1 (a :: cl) (a :: sl) t).
  { constructor.
    - apply wf_managed_state; assumption.
    - exact (base_mw _ _ _ _ _ Hb).
    - exact Ht.
    - exact (base_tagset _ _ _ _ _ Hb).
    - intros b Hb'. destruct (decide (a = b)) as [<- | Hne]; [left |].
      right. apply (base_heap _ _ _ _ _ Hb). unfold s1, managed_state in Hb'. simpl in Hb'.
      fold a in Hb'. now rewrite lookup_insert_ne in Hb'.
    - intros b r. unfold s1, managed_state. simpl. fold a.
      destruct (decide (a = b)) as [<- | Hne].
      + rewrite lookup_insert_eq. now intros [= <-].
      + rewrite lookup_insert_ne by assumption. apply (base_tags _ _ _ _ _ Hb).
    - exact (base_spans _ _ _ _ _ Hb). }
  assert (Hva : visible_b (heap s1) t a = true).
  { rewrite (visible_b_land _ _ _ _ Hra). simpl. rewrite Z.land_diag.
    apply negb_true_iff, Z.eqb_neq, Htz. }
  assert (Hlk : ∀ b, Some a = Some b -> is_Some (heap s1 !! b)) by (intros b [= <-]; eauto).
  rewrite (bind_Ok _ _ _ _ _ (focus_Ok _ _ _ _ _ _ (base_wf _ _ _ _ _ Hb1) Ht Hlk)).
  unfold focus_target. rewrite Hva.
  assert (Hsd2 : sound (set_mons (Some (with_sel (Some a) m1)) s1) (with_sel (Some a) m1)
                       (a :: cl) (a :: sl) t).
  { split.
    - apply base_set_sel; [exact Hb1 |]. intros b [= <-]. left.
    - simpl. split; [left | exact Hva]. }
  destruct (arrange_Ok _ _ _ _ (base_wf _ _ _ _ _ (proj1 Hsd2)) (base_mw _ _ _ _ _ (proj1 Hsd2)))
    as (s' & Hs' & Hf).
  exists s'. split; [exact Hs' |]. split; [eapply sound_frame; eassumption | exact Hf].
Qed.

Lemma sound_manage cfg w wa s :
  Sound s -> admissible (AManage w wa) s -> ∃ s', manage cfg w wa s = Ok tt s' ∧ Sound s'.
Proof.
  intros (m & cl & sl & t & Hsd) Ha.
  destruct (manage_run cfg w wa _ _ _ _ _ Hsd Ha) as (s' & Hs' & Hsd' & _).
  exists s'. split; [exact Hs' |]. eexists _, _, _, t. exact Hsd'.
Qed.

Lemma heap_rel_lookup_inv R h h' a c' :
  heap_rel R h h' -> h' !! a = Some c' -> ∃ c, h !! a = Some c ∧ R c c'.
Proof.
  intros H Ha. specialize (H a). rewrite Ha in H.
  destruct (h !! a) as [c |]; [eauto | contradiction].
Qed.

Lemma heap_rel_mono (R R' : Client -> Client -> Prop) h h' :
  (∀ c c', R c c' -> R' c c') -> heap_rel R h h' -> heap_rel R' h h'.
Proof. intros HR H a. specialize (H a). destruct (h !! a), (h' !! a); auto. Qed.

Lemma heap_rel_same_client_trans h1 h2 h3 :
  heap_rel same_client h1 h2 -> heap_rel same_client h2 h3 -> heap_rel same_client h1 h3.
Proof.
  intros H12 H23 a. specialize (H12 a). specialize (H23 a).
  destruct (h1 !! a), (h2 !! a), (h3 !! a); try tauto. eapply same_client_trans; eassumption.
Qed.

(** [unmanage] in a state in which the selection rule holds: the client
    leaves both lists and the heap, the other clients stay as they are *)
Lemma unmanage_run a destroyed s m l1 l2 k1 k2 t :
  sound s m (l1 ++ a :: l2) (k1 ++ a :: k2) t ->
  ∃ s' m', unmanage (Some a) destroyed s = Ok tt s'
           ∧ sound s' m' (l1 ++ l2) (k1 ++ k2) t
           ∧ heap s' !! a = None
           ∧ (∀ b r, heap s !! b = Some r -> b ≠ a ->
                ∃ r', heap s' !! b = Some r' ∧ same_client r r')
           ∧ m_sel m' = first_visible (heap s') t (k1 ++ k2)
           ∧ (∀ b r', heap s' !! b = Some r' ->
                ∃ r, heap s !! b = Some r ∧ same_client r r').
Proof.
  intros [Hb Hsel]. pose proof (base_wf _ _ _ _ _ Hb) as Hwf.
  pose proof (base_viewed _ _ _ _ _ Hb) as Ht. pose proof (wf_mons _ _ _ _ Hwf) as Hm.
  pose proof (wf_clients _ _ _ _ Hwf) as Hcl. pose proof (wf_stack _ _ _ _ Hwf) as Hsl.
  destruct (chain_app_elim _ _ _ _ _ _ Hcl) as (ra & Hra & _).
  (* [detach] *)
  destruct (detach_Ok _ _ _ _ _ Hm Hcl) as (s1 & q1 & Hd1 & Hm1 & Hcl1 & Hrel1).
  assert (Hsl1 : chain c_snext (heap s1) (m_stack (with_clients q1 m)) (k1 ++ a :: k2)).
  { eapply heap_rel_chain; [| exact Hrel1 | exact Hsl]. now intros c c' ->. }
  (* [detachstack] *)
  destruct (detachstack_Ok _ _ t _ _ _ Hm1 Ht Hsl1) as (s2 & q2 & Hd2 & Hm2 & Hsl2 & Hrel2).
  assert (Hcl2 : chain c_next (heap s2) q1 (l1 ++ l2)).
  { eapply heap_rel_chain; [| exact Hrel2 | exact Hcl1]. now intros c c' ->. }
  set (m2 := with_sel _ _) in Hm2.
  assert (Hwf2 : wf s2 m2 (l1 ++ l2) (k1 ++ k2)).
  { constructor; auto.
    - eapply Permutation_app_inv, (wf_perm _ _ _ _ Hwf).
    - subst m2. simpl. intros b. destruct (decide (Some a = m_sel m)) as [He | Hne].
      + intros Hb'. now apply first_visible_elem in Hb'.
      + intros Hb'. eapply elem_of_middle_ne; [eapply wf_sel; eassumption |].
        intros ->. now apply Hne.
    - apply (wf_tagset _ _ _ _ Hwf).
    - apply (wf_seltags _ _ _ _ Hwf).
    - apply (wf_sellt _ _ _ _ Hwf).
    - rewrite (heap_rel_size _ _ _ Hrel2), (heap_rel_size _ _ _ Hrel1).
      apply (wf_size _ _ _ _ Hwf). }
  destruct (heap_rel_lookup _ _ _ _ _ Hrel1 Hra) as (ra1 & Hra1 & _).
  destruct (heap_rel_lookup _ _ _ _ _ Hrel2 Hra1) as (ra2 & Hra2 & _).
  (* the requests and [free] *)
  destruct (unmanage_requests_Ok s2 a ra2 destroyed Hra2) as (s3 & Hx & Hf3).
  destruct (frame_lookup _ _ _ _ Hf3 Hra2) as (ra3 & Hra3 & _).
  set (s4 := set_heap (delete a (heap s3)) s3).
  assert (Hfree : free (Some a) s3 = Ok tt s4).
  { unfold free. now rewrite Hra3. }
  assert (Hsc : heap_rel same_client (heap s) (heap s3)).
  { eapply heap_rel_same_client_trans;
      [eapply heap_rel_mono; [apply next_differs_same_client | exact Hrel1] |].
    eapply heap_rel_same_client_trans;
      [eapply heap_rel_mono; [apply snext_differs_same_client | exact Hrel2] |].
    eapply heap_rel_mono; [apply same_links_same_client | exact (fr_heap _ _ Hf3)]. }
  assert (Hscr : screen_size s3 = screen_size s).
  { unfold screen_size. rewrite (fr_sw _ _ Hf3), (fr_sh _ _ Hf3).
    change (screen_size s2 = screen_size s).
    rewrite (keeps_detachstack _ Projection_screen_size _ _ _ _ Hd2).
    apply (keeps_detach _ Projection_screen_size _ _ _ _ Hd1). }
  assert (Hnotin : a ∉ l1 ++ l2).
  { apply NoDup_middle_notin. eapply chain_NoDup. exact Hcl. }
  assert (Hb4 : base s4 m2 (l1 ++ l2) (k1 ++ k2) t).
  { constructor.
    - apply wf_free; [eapply wf_frame; eassumption | exact Hnotin].
    - exact (base_mw _ _ _ _ _ Hb).
    - exact Ht.
    - exact (base_tagset _ _ _ _ _ Hb).
    - intros b [r4 Hr4]. unfold s4 in Hr4. simpl in Hr4.
      apply lookup_delete_Some in Hr4 as [Hne Hr4].
      destruct (heap_rel_lookup_inv _ _ _ _ _ Hsc Hr4) as (r & Hr & _).
      eapply elem_of_middle_ne; [apply (base_heap _ _ _ _ _ Hb); eauto | congruence].
    - intros b r4 Hr4. unfold s4 in Hr4. simpl in Hr4.
      apply lookup_delete_Some in Hr4 as [Hne Hr4].
      destruct (heap_rel_lookup_inv _ _ _ _ _ Hsc Hr4) as (r & Hr & _ & Htags & _).
      rewrite Htags. exact (base_tags _ _ _ _ _ Hb _ _ Hr).
    - pose proof (base_spans _ _ _ _ _ Hb) as Hsp. injection Hscr as Hw Hh.
      unfold spans in *. subst m2. simpl. now rewrite Hw, Hh. }
  destruct (sound_refocus_arrange _ _ _ _ _ Hb4) as (s5 & Hs5 & Hsd5).
  pose proof (refocus_arrange_Ok _ _ _ _ _ (base_wf _ _ _ _ _ Hb4) (base_mw _ _ _ _ _ Hb4) Ht)
    as (s5' & Hs5' & _ & Hf5).
  rewrite Hs5 in Hs5'. injection Hs5' as <-.
  exists s5. eexists. split; [| split; [exact Hsd5 | split; [| split; [| split]]]].
  - unfold unmanage.
    rewrite (bind_Ok _ _ _ _ _ (load_Ok _ _ _ Hra)).
    rewrite (bind_Ok _ _ _ _ _ Hd1), (bind_Ok _ _ _ _ _ Hd2), (bind_Ok _ _ _ _ _ Hx).
    rewrite (bind_Ok _ _ _ _ _ Hfree). rewrite <- Hs5.
    unfold updateclientlist, mbind, M_bind, bind.
    destruct (focus None _); reflexivity.
  - pose proof (fr_heap _ _ Hf5 a) as Ha. simpl in Ha. rewrite lookup_delete_eq in Ha.
    destruct (heap s5 !! a); [contradiction | reflexivity].
  - intros b r Hr Hne.
    destruct (heap_rel_lookup _ _ _ _ _ Hsc Hr) as (r3 & Hr3 & Hsc3).
    assert (Hr4 : heap s4 !! b = Some r3).
    { unfold s4. simpl. rewrite lookup_delete_ne by congruence. exact Hr3. }
    destruct (frame_lookup _ _ _ _ Hf5 Hr4) as (r5 & Hr5 & Hl5).
    exists r5. split; [exact Hr5 |].
    eapply same_client_trans; [exact Hsc3 | now apply same_links_same_client].
  - simpl. symmetry. apply first_visible_ext. intros b _.
    apply geom_only_visible, (fr_heap _ _ Hf5).
  - intros b r5 Hr5.
    destruct (heap_rel_lookup_inv _ _ _ _ _ (fr_heap _ _ Hf5) Hr5) as (r4 & Hr4 & Hl5).
    simpl in Hr4. apply lookup_delete_Some in Hr4 as [_ Hr3].
    destruct (heap_rel_lookup_inv _ _ _ _ _ Hsc Hr3) as (r & Hr & Hsc3).
    exists r. split; [exact Hr |].
    eapply same_client_trans; [exact Hsc3 | now apply same_links_same_client].
Qed.

Lemma sound_unmanage c destroyed s :
  Sound s -> admissible (AUnmanage c destroyed) s ->
  ∃ s', unmanage c destroyed s = Ok tt s' ∧ Sound s'.
Proof.
  intros (m & cl & sl & t & Hsd) (a & m' & l & -> & Hm' & Hl & Hin).
  pose proof (base_wf _ _ _ _ _ (proj1 Hsd)) as Hwf.
  pose proof (wf_mons _ _ _ _ Hwf) as Hm. rewrite Hm in Hm'. injection Hm' as <-.
  rewrite (chain_det _ _ _ _ _ Hl (wf_clients _ _ _ _ Hwf)) in Hin. clear l Hl.
  assert (Hins : a ∈ sl) by (rewrite <- (wf_perm _ _ _ _ Hwf); exact Hin).
  apply list_elem_of_split in Hin as (l1 & l2 & ->).
  apply list_elem_of_split in Hins as (k1 & k2 & ->).
  destruct (unmanage_run a destroyed _ _ _ _ _ _ _ Hsd) as (s' & m' & Hs' & Hsd' & _).
  exists s'. split; [exact Hs' |]. eexists _, _, _, t. exact Hsd'.
Qed.

(** Every admissible call returns and keeps what holds between calls. *)
Lemma sound_perform cfg a s :
  Sound s -> admissible a s -> ∃ s', perform cfg a s = Ok tt s' ∧ Sound s'.
Proof.
  intros Hs Ha. destruct a; simpl perform.
  - now apply sound_view.
  - now apply sound_toggleview.
  - now apply sound_tag.
  - now apply sound_toggletag.
  - now apply sound_setmfact.
  - now apply sound_killclient.
  - now apply sound_togglefloating.
  - now apply sound_quit.
  - now apply sound_focusstack.
  - now apply sound_setlayout.
  - now apply sound_configurenotify.
  - now apply sound_manage.
  - now apply sound_unmanage.
Qed.

Lemma sound_initial_state cfg width height :
  mw_defined (initial_monitor cfg width height) ->
  sound (initial_state cfg width height) (initial_monitor cfg width height) [] [] 1.
Proof.
  intros Hmw. split; [| reflexivity]. constructor.
  - apply wf_initial_state.
  - exact Hmw.
  - reflexivity.
  - simpl. intros x Hx. apply elem_of_cons in Hx as [-> | Hx]; [lia |].
    apply elem_of_cons in Hx as [-> | Hx]; [lia |]. now apply elem_of_nil in Hx.
  - simpl. intros a [r Hr]. now rewrite lookup_empty in Hr.
  - simpl. intros a r Hr. now rewrite lookup_empty in Hr.
  - repeat split.
Qed.

Lemma Run_Sound cfg width height s : Run cfg width height s -> Sound s.
Proof.
  induction 1 as [s Hmw Hs | s a s' _ IH Ha Hs].
  - rewrite setup_boot in Hs. injection Hs as <-.
    eexists _, _, _, _. now apply sound_initial_state.
  - destruct (sound_perform cfg a s IH Ha) as (s'' & Hs'' & Hsd). congruence.
Qed.

Lemma base_size s m cl sl t : base s m cl sl t -> size (heap s) = length cl.
Proof.
  intros Hb. pose proof (wf_clients _ _ _ _ (base_wf _ _ _ _ _ Hb)) as Hcl.
  apply Nat.le_antisymm; [| eapply chain_length; exact Hcl].
  rewrite <- size_dom, <- (size_list_to_set (C := gset addr) cl)
    by (eapply chain_NoDup; exact Hcl).
  apply subseteq_size. intros a Ha. apply elem_of_list_to_set.
  apply (base_heap _ _ _ _ _ Hb). now apply elem_of_dom.
Qed.

Lemma base_heap_iff s m cl sl t a : base s m cl sl t -> is_Some (heap s !! a) ↔ a ∈ cl.
Proof.
  intros Hb. split; [apply (base_heap _ _ _ _ _ Hb) |].
  eapply chain_lookup, (wf_clients _ _ _ _ (base_wf _ _ _ _ _ Hb)).
Qed.

(** ** The example state with two clients *)

Lemma wf_two_client_state :
  wf two_client_state two_client_monitor [2%positive; 1%positive] [2%positive; 1%positive].
Proof.
  constructor; try reflexivity; simpl; auto; try lia.
  - split; [reflexivity |]. eexists. split; [reflexivity |]. simpl.
    split; [reflexivity |]. eexists. split; [reflexivity |]. reflexivity.
  - split; [reflexivity |]. eexists. split; [reflexivity |]. simpl.
    split; [reflexivity |]. eexists. split; [reflexivity |]. reflexivity.
  - intros a [= <-]. left.
Qed.

Lemma two_client_state_lookup a r :
  heap two_client_state !! a = Some r ->
  (a = 2%positive ∧ r = mkClient 0 0 548 798 30 40 300 200 1 0 1 0 0
                                (Some 1%positive) (Some 1%positive) 102)
  ∨ (a = 1%positive ∧ r = mkClient 550 0 448 798 10 20 300 200 1 0 1 0 0 None None 101).
Proof.
  unfold two_client_state. simpl. intros H.
  apply lookup_insert_Some in H as [[<- <-] | [_ H]]; [now left |].
  apply lookup_insert_Some in H as [[<- <-] | [_ H]]; [now right |].
  now rewrite lookup_empty in H.
Qed.

Lemma sound_two_client_state :
  sound two_client_state two_client_monitor [2%positive; 1%positive] [2%positive; 1%positive] 1.
Proof.
  split; [constructor |].
  - exact wf_two_client_state.
  - vm_compute. eauto.
  - reflexivity.
  - simpl. intros x Hx. apply elem_of_cons in Hx as [-> | Hx]; [lia |].
    apply elem_of_cons in Hx as [-> | Hx]; [lia |]. now apply elem_of_nil in Hx.
  - intros a [r Hr]. apply two_client_state_lookup in Hr as [[-> _] | [-> _]];
      [left | right; left].
  - intros a r Hr. apply two_client_state_lookup in Hr as [[_ ->] | [_ ->]]; simpl; lia.
  - repeat split.
  - simpl. split; [left | reflexivity].
Qed.

Lemma Sound_two_client_state : Sound two_client_state.
Proof. eexists _, _, _, _. exact sound_two_client_state. Qed.

Lemma Run_initial_state : Run config9 1000 800 (initial_state config9 1000 800).
Proof. apply Run_setup; [exact mw_defined_initial_1000 | apply setup_boot]. Qed.

Lemma Run_two_client_state : Run config9 1000 800 two_client_state.
Proof.
  destruct (bind_inv _ _ _ _ _ two_client_state_reached) as ([] & s1 & H1 & H2).
  pose proof (sound_initial_state config9 1000 800 mw_defined_initial_1000) as Hs0.
  assert (Ha0 : Z.of_nat (size (heap (initial_state config9 1000 800))) + 1 < 2 ^ 32).
  { simpl. rewrite map_size_empty. lia. }
  destruct (manage_run config9 101 (mkAttrs 10 20 300 200 0 0) _ _ _ _ _ Hs0 Ha0)
    as (s1' & Hs1' & Hsd1 & _).
  rewrite H1 in Hs1'. injection Hs1' as <-.
  assert (R1 : Run config9 1000 800 s1).
  { exact (Run_step _ _ _ _ (AManage 101 (mkAttrs 10 20 300 200 0 0)) _
                    Run_initial_state Ha0 H1). }
  refine (Run_step _ _ _ _ (AManage 102 (mkAttrs 30 40 300 200 0 0)) _ R1 _ H2).
  simpl. rewrite (base_size _ _ _ _ _ (proj1 Hsd1)). simpl. lia.
Qed.

(** * Further properties of the code *)

(** ** Runs *)



(** X2: in every run the selected client is visible under the viewed tags,
    and no client is selected only when no client is visible. *)
Theorem run_selected_client_is_visible cfg width height s :
  Run cfg width height s ->
  ∃ m t, mons s = Some m ∧ viewed m = Some t
         ∧ match m_sel m with
           | Some a => ∃ r, heap s !! a = Some r ∧ Z.land (c_tags r) t ≠ 0
           | None => ∀ a r, heap s !! a = Some r -> Z.land (c_tags r) t = 0
           end.
Proof.
  intros Hr. destruct (Run_Sound _ _ _ _ Hr) as (m & cl & sl & t & Hb & Hsel).
  pose proof (base_wf _ _ _ _ _ Hb) as Hwf.
  exists m, t. split; [apply (wf_mons _ _ _ _ Hwf) |].
  split; [apply (base_viewed _ _ _ _ _ Hb) |].
  destruct (m_sel m) as [a |]; simpl in Hsel.
  - destruct Hsel as [_ Hv]. unfold visible_b in Hv.
    destruct (heap s !! a) as [r |]; [| discriminate]. exists r. split; [reflexivity |].
    apply negb_true_iff, Z.eqb_neq in Hv. exact Hv.
  - intros a r Hr'. assert (Hin : a ∈ sl).
    { rewrite <- (wf_perm _ _ _ _ Hwf). apply (base_heap _ _ _ _ _ Hb). eauto. }
    unfold first_visible in Hsel. apply list_elem_of_In in Hin.
    pose proof (List.find_none _ _ Hsel a Hin) as Hv. rewrite (visible_b_land _ _ _ _ Hr') in Hv.
    apply negb_false_iff, Z.eqb_eq in Hv. exact Hv.
Qed.

Lemma run_selected_client_is_visible_witness :
  Run config9 1000 800 two_client_state
  ∧ ∃ m t, mons two_client_state = Some m ∧ viewed m = Some t
           ∧ match m_sel m with
             | Some a => ∃ r, heap two_client_state !! a = Some r ∧ Z.land (c_tags r) t ≠ 0
             | None => ∀ a r, heap two_client_state !! a = Some r -> Z.land (c_tags r) t = 0
             end.
Proof.
  split; [exact Run_two_client_state |].
  exact (run_selected_client_is_visible config9 1000 800 two_client_state
           Run_two_client_state).
Defined.

(** X3: in every run the heap holds the records of the clients of the
    client list and no other record: what [manage] allocates is on the client
    list and on the stack, each once, and what [unmanage] takes off the lists
    is freed. *)
Theorem run_heap_holds_the_clients cfg width height s :
  Run cfg width height s ->
  ∃ m cl sl,
    mons s = Some m
    ∧ chain c_next (heap s) (m_clients m) cl
    ∧ chain c_snext (heap s) (m_stack m) sl
    ∧ cl ≡ₚ sl ∧ NoDup cl
    ∧ (∀ a, is_Some (heap s !! a) ↔ a ∈ cl)
    ∧ size (heap s) = length cl.
Proof.
  intros Hr. destruct (Run_Sound _ _ _ _ Hr) as (m & cl & sl & t & Hb & _).
  pose proof (base_wf _ _ _ _ _ Hb) as Hwf. exists m, cl, sl.
  split; [apply (wf_mons _ _ _ _ Hwf) |].
  split; [apply (wf_clients _ _ _ _ Hwf) |].
  split; [apply (wf_stack _ _ _ _ Hwf) |].
  split; [apply (wf_perm _ _ _ _ Hwf) |].
  split; [eapply chain_NoDup, (wf_clients _ _ _ _ Hwf) |].
  split; [intros a; eapply base_heap_iff; exact Hb | eapply base_size; exact Hb].
Qed.

Lemma run_heap_holds_the_clients_witness :
  Run config9 1000 800 two_client_state
  ∧ ∃ m cl sl,
      mons two_client_state = Some m
      ∧ chain c_next (heap two_client_state) (m_clients m) cl
      ∧ chain c_snext (heap two_client_state) (m_stack m) sl
      ∧ cl ≡ₚ sl ∧ NoDup cl
      ∧ (∀ a, is_Some (heap two_client_state !! a) ↔ a ∈ cl)
      ∧ size (heap two_client_state) = length cl.
Proof.
  split; [exact Run_two_client_state |].
  exact (run_heap_holds_the_clients config9 1000 800 two_client_state Run_two_client_state).
Defined.

(** X4: in every run every client has at least one tag, and neither entry of
    [tagset] is empty: [applyrules] copies the viewed tags, and [tag],
    [toggletag], [view] and [toggleview] store no empty mask. *)
Theorem run_clients_have_tags cfg width height s :
  Run cfg width height s ->
  (∀ a r, heap s !! a = Some r -> c_tags r ≠ 0)
  ∧ ∃ m, mons s = Some m ∧ ∀ x, x ∈ m_tagset m -> x ≠ 0.
Proof.
  intros Hr. destruct (Run_Sound _ _ _ _ Hr) as (m & cl & sl & t & Hb & _).
  split; [apply (base_tags _ _ _ _ _ Hb) |]. exists m.
  split; [apply (wf_mons _ _ _ _ (base_wf _ _ _ _ _ Hb)) | apply (base_tagset _ _ _ _ _ Hb)].
Qed.

Lemma run_clients_have_tags_witness :
  Run config9 1000 800 two_client_state
  ∧ (∀ a r, heap two_client_state !! a = Some r -> c_tags r ≠ 0)
  ∧ ∃ m, mons two_client_state = Some m ∧ ∀ x, x ∈ m_tagset m -> x ≠ 0.
Proof.
  split; [exact Run_two_client_state |].
  exact (run_clients_have_tags config9 1000 800 two_client_state Run_two_client_state).
Defined.

(** X5: in every run [configurenotify] changes nothing.  [updategeom]
    assigns the screen size held in [sw] and [sh], which only [setup] reads
    from the display, so the rectangles of the monitor stay those of the
    screen found at start. *)
Theorem run_configurenotify_changes_nothing cfg width height s :
  Run cfg width height s ->
  configurenotify cfg s = Ok tt s
  ∧ ∃ m, mons s = Some m
         ∧ (m_mx m, m_my m, m_mw m, m_mh m) = (0, 0, sw s, sh s)
         ∧ (m_wx m, m_wy m, m_ww m, m_wh m) = (0, 0, sw s, sh s).
Proof.
  intros Hr. destruct (Run_Sound _ _ _ _ Hr) as (m & cl & sl & t & Hb & _).
  pose proof (wf_mons _ _ _ _ (base_wf _ _ _ _ _ Hb)) as Hm.
  pose proof (base_spans _ _ _ _ _ Hb) as Hsp.
  split; [eapply configurenotify_id; eassumption |]. exists m. split; [exact Hm |].
  destruct Hsp as (-> & -> & -> & -> & -> & -> & -> & ->). split; reflexivity.
Qed.

Lemma run_configurenotify_changes_nothing_witness :
  Run config9 1000 800 two_client_state
  ∧ configurenotify config9 two_client_state = Ok tt two_client_state
  ∧ ∃ m, mons two_client_state = Some m
         ∧ (m_mx m, m_my m, m_mw m, m_mh m) = (0, 0, sw two_client_state, sh two_client_state)
         ∧ (m_wx m, m_wy m, m_ww m, m_wh m) = (0, 0, sw two_client_state, sh two_client_state).
Proof.
  split; [exact Run_two_client_state |].
  exact (run_configurenotify_changes_nothing config9 1000 800 two_client_state
           Run_two_client_state).
Defined.

(** ** [wintoclient], [manage] and [unmanage] *)

Lemma wintoclient_loop_Ok s w cl : ∀ n p,
  chain c_next (heap s) p cl -> (length cl < n)%nat ->
  wintoclient_loop n w p s = Ok (List.find (has_window (heap s) w) cl) s.
Proof.
  induction cl as [|a cl IH]; intros n p Hch Hn; (destruct n as [|n]; [simpl in Hn; lia |]).
  - simpl in Hch. subst p. reflexivity.
  - destruct Hch as [-> (r & Hr & Hch)]. simpl wintoclient_loop.
    rewrite (bind_Ok _ _ _ _ _ (load_Ok _ _ _ Hr)). simpl List.find.
    unfold has_window at 1. rewrite Hr.
    destruct (decide (c_win r = w)) as [He | Hne].
    + now rewrite (bool_decide_eq_true_2 _ He).
    + rewrite (bool_decide_eq_false_2 _ Hne). apply IH; [exact Hch | simpl in Hn; lia].
Qed.

Lemma wintoclient_Ok s m cl w :
  mons s = Some m -> chain c_next (heap s) (m_clients m) cl ->
  wintoclient w s = Ok (List.find (has_window (heap s) w) cl) s.
Proof.
  intros Hm Hcl. unfold wintoclient.
  rewrite (bind_Ok _ _ _ _ _ (eq_refl : get s = Ok s s)). rewrite Hm.
  rewrite (bind_Ok _ _ _ _ _ (fuel_Ok s)).
  apply wintoclient_loop_Ok; [exact Hcl |].
  pose proof (chain_length _ _ _ _ Hcl). lia.
Qed.

(** X6: [wintoclient(w)] returns the first client of the client list whose
    window is [w], and NULL when the list has no such client; it changes
    nothing. *)
Theorem wintoclient_finds_first_client s m cl w :
  mons s = Some m -> chain c_next (heap s) (m_clients m) cl ->
  ∃ c, wintoclient w s = Ok c s
       ∧ match c with
         | Some a =>
             ∃ l1 l2 r, cl = l1 ++ a :: l2 ∧ heap s !! a = Some r ∧ c_win r = w
                        ∧ ∀ b rb, b ∈ l1 -> heap s !! b = Some rb -> c_win rb ≠ w
         | None => ∀ b rb, b ∈ cl -> heap s !! b = Some rb -> c_win rb ≠ w
         end.
Proof.
  intros Hm Hcl. exists (List.find (has_window (heap s) w) cl).
  split; [eapply wintoclient_Ok; eassumption |]. clear Hm Hcl.
  assert (Hno : ∀ b rb, has_window (heap s) w b = false -> heap s !! b = Some rb ->
                        c_win rb ≠ w).
  { intros b rb Hf Hb. unfold has_window in Hf. rewrite Hb in Hf.
    now apply bool_decide_eq_false in Hf. }
  induction cl as [|a cl IH]; simpl.
  - intros b rb Hb. now apply elem_of_nil in Hb.
  - destruct (has_window (heap s) w a) eqn:Ha.
    + unfold has_window in Ha. destruct (heap s !! a) as [r |] eqn:Hr; [| discriminate].
      apply bool_decide_eq_true in Ha. exists [], cl, r. repeat split; auto.
      intros b rb Hb. now apply elem_of_nil in Hb.
    + destruct (List.find (has_window (heap s) w) cl) as [c |].
      * destruct IH as (l1 & l2 & r & -> & Hr & Hw & Hl1).
        exists (a :: l1), l2, r. repeat split; auto.
        intros b rb Hb. apply elem_of_cons in Hb as [-> | Hb]; eauto.
      * intros b rb Hb. apply elem_of_cons in Hb as [-> | Hb]; eauto.
Qed.

Lemma wintoclient_finds_first_client_witness :
  mons two_client_state = Some two_client_monitor
  ∧ chain c_next (heap two_client_state) (m_clients two_client_monitor)
          [2%positive; 1%positive]
  ∧ ∃ c, wintoclient 101 two_client_state = Ok c two_client_state
         ∧ match c with
           | Some a =>
               ∃ l1 l2 r, [2%positive; 1%positive] = l1 ++ a :: l2
                          ∧ heap two_client_state !! a = Some r ∧ c_win r = 101
                          ∧ ∀ b rb, b ∈ l1 -> heap two_client_state !! b = Some rb ->
                                    c_win rb ≠ 101
           | None => ∀ b rb, b ∈ [2%positive; 1%positive] ->
                             heap two_client_state !! b = Some rb -> c_win rb ≠ 101
           end.
Proof.
  split; [reflexivity |]. split; [exact (wf_clients _ _ _ _ wf_two_client_state) |].
  exact (wintoclient_finds_first_client two_client_state two_client_monitor
           [2%positive; 1%positive] 101 eq_refl (wf_clients _ _ _ _ wf_two_client_state)).
Defined.

Lemma Run_sound cfg width height s m cl sl t :
  Run cfg width height s -> mons s = Some m -> viewed m = Some t ->
  chain c_next (heap s) (m_clients m) cl -> chain c_snext (heap s) (m_stack m) sl ->
  sound s m cl sl t.
Proof.
  intros Hr Hm Ht Hcl Hsl. destruct (Run_Sound _ _ _ _ Hr) as (m' & cl' & sl' & t' & Hsd).
  pose proof (base_wf _ _ _ _ _ (proj1 Hsd)) as Hwf.
  pose proof (wf_mons _ _ _ _ Hwf) as Hm'. rewrite Hm in Hm'. injection Hm' as <-.
  pose proof (base_viewed _ _ _ _ _ (proj1 Hsd)) as Ht'. rewrite Ht in Ht'. injection Ht' as <-.
  rewrite (chain_det _ _ _ _ _ Hcl (wf_clients _ _ _ _ Hwf)).
  rewrite (chain_det _ _ _ _ _ Hsl (wf_stack _ _ _ _ Hwf)). exact Hsd.
Qed.

Lemma sound_chains s m cl sl t :
  sound s m cl sl t ->
  mons s = Some m ∧ chain c_next (heap s) (m_clients m) cl
  ∧ chain c_snext (heap s) (m_stack m) sl.
Proof.
  intros [Hb _]. pose proof (base_wf _ _ _ _ _ Hb) as Hwf.
  split; [apply (wf_mons _ _ _ _ Hwf) |].
  split; [apply (wf_clients _ _ _ _ Hwf) | apply (wf_stack _ _ _ _ Hwf)].
Qed.

(** what [manage] leaves *)
Lemma manage_facts cfg w wa s m cl sl t :
  sound s m cl sl t -> Z.of_nat (size (heap s)) + 1 < 2 ^ 32 ->
  ∃ s' m' a r,
    manage cfg w wa s = Ok tt s' ∧ heap s !! a = None
    ∧ sound s' m' (a :: cl) (a :: sl) t ∧ m_sel m' = Some a
    ∧ heap s' !! a = Some r ∧ same_client (managed_client cfg m t w wa) r
    ∧ wintoclient w s' = Ok (Some a) s'
    ∧ (∀ b rb, heap s !! b = Some rb -> ∃ rb', heap s' !! b = Some rb' ∧ same_client rb rb').
Proof.
  intros Hsd Hsize.
  destruct (manage_run cfg w wa _ _ _ _ _ Hsd Hsize) as (s' & Hs' & Hsd' & Hf).
  set (a := fresh (dom (heap s))) in *.
  destruct (sound_chains _ _ _ _ _ Hsd') as (Hm' & Hcl' & Hsl').
  assert (Hra : heap (managed_state cfg s m t w wa) !! a = Some (managed_client cfg m t w wa))
    by apply lookup_insert_eq.
  destruct (frame_lookup _ _ _ _ Hf Hra) as (r & Hr' & Hlk).
  pose proof (same_links_same_client _ _ Hlk) as Hsc.
  eexists s', _, a, r. split; [exact Hs' |]. split; [apply fresh_lookup_None |].
  split; [exact Hsd' |]. split; [reflexivity |]. split; [exact Hr' |]. split; [exact Hsc |].
  split.
  - rewrite (wintoclient_Ok _ _ _ w Hm' Hcl'). simpl. unfold has_window. rewrite Hr'.
    destruct Hsc as [Hw _]. now rewrite (bool_decide_eq_true_2 _ Hw).
  - intros b rb Hb. assert (Hne : a ≠ b).
    { intros Hab. rewrite <- Hab in Hb. unfold a in Hb.
      rewrite fresh_lookup_None in Hb. discriminate. }
    assert (Hb1 : heap (managed_state cfg s m t w wa) !! b = Some rb).
    { unfold managed_state. simpl. fold a. now rewrite lookup_insert_ne. }
    destruct (frame_lookup _ _ _ _ Hf Hb1) as (rb' & Hrb' & Hl).
    exists rb'. split; [exact Hrb' | now apply same_links_same_client].
Qed.



(** X8: [unmanage(c)] of a client of the client list takes it out of the
    client list and of the stack, where the other clients keep their order,
    and frees its record; the other clients stay as they are, and the
    selection becomes the first visible client of the remaining stack. *)
Theorem unmanage_removes_client cfg width height s m cl sl t a destroyed :
  Run cfg width height s -> mons s = Some m -> viewed m = Some t ->
  chain c_next (heap s) (m_clients m) cl -> chain c_snext (heap s) (m_stack m) sl ->
  a ∈ cl ->
  ∃ s' m' l1 l2 k1 k2,
    cl = l1 ++ a :: l2 ∧ sl = k1 ++ a :: k2
    ∧ unmanage (Some a) destroyed s = Ok tt s' ∧ mons s' = Some m'
    ∧ chain c_next (heap s') (m_clients m') (l1 ++ l2)
    ∧ chain c_snext (heap s') (m_stack m') (k1 ++ k2)
    ∧ heap s' !! a = None
    ∧ (∀ b r, heap s !! b = Some r -> b ≠ a -> ∃ r', heap s' !! b = Some r' ∧ same_client r r')
    ∧ m_sel m' = first_visible (heap s') t (k1 ++ k2).
Proof.
  intros Hr Hm Ht Hcl Hsl Hin.
  pose proof (Run_sound _ _ _ _ _ _ _ _ Hr Hm Ht Hcl Hsl) as Hsd.
  assert (Hins : a ∈ sl).
  { rewrite <- (wf_perm _ _ _ _ (base_wf _ _ _ _ _ (proj1 Hsd))). exact Hin. }
  apply list_elem_of_split in Hin as (l1 & l2 & ->).
  apply list_elem_of_split in Hins as (k1 & k2 & ->).
  destruct (unmanage_run a destroyed _ _ _ _ _ _ _ Hsd)
    as (s' & m' & Hs' & Hsd' & Hfree & Hoth & Hs & _).
  destruct (sound_chains _ _ _ _ _ Hsd') as (Hm' & Hcl' & Hsl').
  exists s', m', l1, l2, k1, k2. repeat (split; [assumption || reflexivity |]). exact Hs.
Qed.

Lemma unmanage_removes_client_witness :
  Run config9 1000 800 two_client_state
  ∧ ∃ s' m' l1 l2 k1 k2,
      [2%positive; 1%positive] = l1 ++ 2%positive :: l2
      ∧ [2%positive; 1%positive] = k1 ++ 2%positive :: k2
      ∧ unmanage (Some 2%positive) 0 two_client_state = Ok tt s' ∧ mons s' = Some m'
      ∧ chain c_next (heap s') (m_clients m') (l1 ++ l2)
      ∧ chain c_snext (heap s') (m_stack m') (k1 ++ k2)
      ∧ heap s' !! 2%positive = None
      ∧ (∀ b r, heap two_client_state !! b = Some r -> b ≠ 2%positive ->
                ∃ r', heap s' !! b = Some r' ∧ same_client r r')
      ∧ m_sel m' = first_visible (heap s') 1 (k1 ++ k2).
Proof.
  split; [exact Run_two_client_state |].
  refine (unmanage_removes_client config9 1000 800 two_client_state two_client_monitor
            [2%positive; 1%positive] [2%positive; 1%positive] 1 2%positive 0
            Run_two_client_state eq_refl eq_refl
            (wf_clients _ _ _ _ wf_two_client_state) (wf_stack _ _ _ _ wf_two_client_state) _).
  left.
Defined.

(** X9: [manage] followed by [unmanage] of the new client gives back the
    client list and the stack as they were, with a record for each of the
    clients there were and for no other; the records keep their window, tags
    and flags. *)
Theorem manage_unmanage_round_trip cfg width height w wa destroyed s m cl sl t :
  Run cfg width height s -> mons s = Some m -> viewed m = Some t ->
  chain c_next (heap s) (m_clients m) cl -> chain c_snext (heap s) (m_stack m) sl ->
  Z.of_nat (size (heap s)) + 1 < 2 ^ 32 ->
  ∃ s1 a s2 m2,
    manage cfg w wa s = Ok tt s1 ∧ wintoclient w s1 = Ok (Some a) s1
    ∧ unmanage (Some a) destroyed s1 = Ok tt s2 ∧ mons s2 = Some m2
    ∧ chain c_next (heap s2) (m_clients m2) cl
    ∧ chain c_snext (heap s2) (m_stack m2) sl
    ∧ (∀ b, is_Some (heap s2 !! b) ↔ is_Some (heap s !! b))
    ∧ (∀ b r, heap s !! b = Some r -> ∃ r2, heap s2 !! b = Some r2 ∧ same_client r r2).
Proof.
  intros Hr Hm Ht Hcl Hsl Hsize. pose proof (Run_sound _ _ _ _ _ _ _ _ Hr Hm Ht Hcl Hsl) as Hsd.
  destruct (manage_facts cfg w wa _ _ _ _ _ Hsd Hsize)
    as (s1 & m1 & a & r & Hs1 & Hnew & Hsd1 & _ & _ & _ & Hwin & Hoth1).
  destruct (unmanage_run a destroyed s1 m1 [] cl [] sl t Hsd1)
    as (s2 & m2 & Hs2 & Hsd2 & _ & Hoth2 & _).
  destruct (sound_chains _ _ _ _ _ Hsd2) as (Hm2 & Hcl2 & Hsl2).
  exists s1, a, s2, m2. repeat (split; [assumption |]). split.
  - intros b. rewrite (base_heap_iff _ _ _ _ _ b (proj1 Hsd2)).
    now rewrite (base_heap_iff _ _ _ _ _ b (proj1 Hsd)).
  - intros b rb Hb. destruct (Hoth1 b rb Hb) as (r1 & Hr1 & Hsc1).
    assert (Hne : b ≠ a) by (intros ->; congruence).
    destruct (Hoth2 b r1 Hr1 Hne) as (r2 & Hr2 & Hsc2).
    exists r2. split; [exact Hr2 | eapply same_client_trans; eassumption].
Qed.

Lemma manage_unmanage_round_trip_witness :
  Run config9 1000 800 two_client_state
  ∧ ∃ s1 a s2 m2,
      manage config9 103 (mkAttrs 0 0 100 100 2 0) two_client_state = Ok tt s1
      ∧ wintoclient 103 s1 = Ok (Some a) s1
      ∧ unmanage (Some a) 1 s1 = Ok tt s2 ∧ mons s2 = Some m2
      ∧ chain c_next (heap s2) (m_clients m2) [2%positive; 1%positive]
      ∧ chain c_snext (heap s2) (m_stack m2) [2%positive; 1%positive]
      ∧ (∀ b, is_Some (heap s2 !! b) ↔ is_Some (heap two_client_state !! b))
      ∧ (∀ b r, heap two_client_state !! b = Some r ->
                ∃ r2, heap s2 !! b = Some r2 ∧ same_client r r2).
Proof.
  split; [exact Run_two_client_state |].
  refine (manage_unmanage_round_trip config9 1000 800 103 (mkAttrs 0 0 100 100 2 0) 1
            two_client_state two_client_monitor [2%positive; 1%positive]
            [2%positive; 1%positive] 1 Run_two_client_state eq_refl eq_refl
            (wf_clients _ _ _ _ wf_two_client_state) (wf_stack _ _ _ _ wf_two_client_state) _).
  rewrite (base_size _ _ _ _ _ (proj1 sound_two_client_state)). simpl. lia.
Defined.

(** ** The client list and the stack *)








(** X12: [detach(c)] of a client of the client list takes it out of the
    list, where the other clients keep their order; it writes one link (the
    head pointer of the monitor or the [next] field of the predecessor) and
    frees nothing. *)
Theorem detach_removes_client_keeps_order s m cl c :
  mons s = Some m -> chain c_next (heap s) (m_clients m) cl -> c ∈ cl ->
  ∃ s' m' l1 l2,
    cl = l1 ++ c :: l2 ∧ detach (Some c) s = Ok tt s' ∧ mons s' = Some m'
    ∧ chain c_next (heap s') (m_clients m') (l1 ++ l2) ∧ (c ∉ l1 ++ l2)
    ∧ m' = with_clients (m_clients m') m
    ∧ (∀ b r, heap s !! b = Some r ->
         ∃ r', heap s' !! b = Some r' ∧ r' = with_next (c_next r') r)
    ∧ (∀ b, heap s !! b = None -> heap s' !! b = None).
Proof.
  intros Hm Hcl Hin. apply list_elem_of_split in Hin as (l1 & l2 & ->).
  destruct (detach_Ok _ _ _ _ _ Hm Hcl) as (s' & q & Hs' & Hm' & Hcl' & Hrel).
  exists s', (with_clients q m), l1, l2. split; [reflexivity |]. split; [exact Hs' |].
  split; [exact Hm' |]. split; [exact Hcl' |].
  split; [apply NoDup_middle_notin; eapply chain_NoDup; exact Hcl |].
  split; [reflexivity |]. split.
  - intros b r Hb. exact (heap_rel_lookup _ _ _ _ _ Hrel Hb).
  - intros b Hb. specialize (Hrel b). rewrite Hb in Hrel.
    destruct (heap s' !! b); [contradiction | reflexivity].
Qed.

Lemma detach_removes_client_keeps_order_witness :
  mons two_client_state = Some two_client_monitor
  ∧ chain c_next (heap two_client_state) (m_clients two_client_monitor)
          [2%positive; 1%positive]
  ∧ 1%positive ∈ [2%positive; 1%positive]
  ∧ ∃ s' m' l1 l2,
      [2%positive; 1%positive] = l1 ++ 1%positive :: l2
      ∧ detach (Some 1%positive) two_client_state = Ok tt s' ∧ mons s' = Some m'
      ∧ chain c_next (heap s') (m_clients m') (l1 ++ l2) ∧ (1%positive ∉ l1 ++ l2)
      ∧ m' = with_clients (m_clients m') two_client_monitor
      ∧ (∀ b r, heap two_client_state !! b = Some r ->
           ∃ r', heap s' !! b = Some r' ∧ r' = with_next (c_next r') r)
      ∧ (∀ b, heap two_client_state !! b = None -> heap s' !! b = None).
Proof.
  assert (Hin : 1%positive ∈ [2%positive; 1%positive]) by (right; left).
  split; [reflexivity |]. split; [exact (wf_clients _ _ _ _ wf_two_client_state) |].
  split; [exact Hin |].
  exact (detach_removes_client_keeps_order two_client_state two_client_monitor
           [2%positive; 1%positive] 1%positive eq_refl
           (wf_clients _ _ _ _ wf_two_client_state) Hin).
Defined.





(** ** The event handlers *)

Lemma wintoclient_cases s m cl sl t w :
  sound s m cl sl t ->
  (wintoclient w s = Ok None s ∧ ∀ b r, heap s !! b = Some r -> c_win r ≠ w)
  ∨ (∃ a ra, wintoclient w s = Ok (Some a) s ∧ a ∈ cl ∧ heap s !! a = Some ra ∧ c_win ra = w).
Proof.
  intros Hsd. destruct (sound_chains _ _ _ _ _ Hsd) as (Hm & Hcl & _).
  rewrite (wintoclient_Ok _ _ _ w Hm Hcl).
  destruct (List.find (has_window (heap s) w) cl) as [a |] eqn:Hfind.
  - right. apply List.find_some in Hfind as [Hin Hw]. unfold has_window in Hw.
    destruct (heap s !! a) as [ra |] eqn:Hra; [| discriminate].
    apply bool_decide_eq_true in Hw. exists a, ra. split; [reflexivity |].
    split; [now apply list_elem_of_In | auto].
  - left. split; [reflexivity |]. intros b r Hb.
    assert (Hin : b ∈ cl) by (apply (base_heap _ _ _ _ _ (proj1 Hsd)); eauto).
    apply list_elem_of_In in Hin. pose proof (List.find_none _ _ Hfind b Hin) as Hw.
    unfold has_window in Hw. rewrite Hb in Hw. now apply bool_decide_eq_false in Hw.
Qed.

(** the part [destroynotify] and [unmapnotify] share: the client of the
    window, when there is one, is unmanaged *)
Lemma remove_window_facts cfg width height destroyed w s :
  Run cfg width height s -> windows_distinct s ->
  ∃ s', (c ← wintoclient w;
         match c with Some _ => unmanage c destroyed | None => mret tt end) s = Ok tt s'
        ∧ Run cfg width height s' ∧ windows_distinct s'
        ∧ (∀ b r, heap s' !! b = Some r -> c_win r ≠ w)
        ∧ ((∀ b r, heap s !! b = Some r -> c_win r ≠ w) -> s' = s)
        ∧ (∀ b r, heap s !! b = Some r -> c_win r ≠ w ->
             ∃ r', heap s' !! b = Some r' ∧ same_client r r').
Proof.
  intros Hr Hd. destruct (Run_Sound _ _ _ _ Hr) as (m & cl & sl & t & Hsd).
  destruct (wintoclient_cases _ _ _ _ _ w Hsd) as [[Hw Hno] | (a & ra & Hw & Hin & Hra & Hwa)];
    rewrite (bind_Ok _ _ _ _ _ Hw).
  - exists s. split; [reflexivity |]. split; [exact Hr |]. split; [exact Hd |].
    split; [exact Hno |]. split; [reflexivity |]. intros b r Hb _. exists r.
    split; [exact Hb | apply same_client_refl].
  - destruct (sound_chains _ _ _ _ _ Hsd) as (Hm & Hcl & _).
    assert (Hadm : admissible (AUnmanage (Some a) destroyed) s) by (exists a, m, cl; auto).
    assert (Hins : a ∈ sl).
    { rewrite <- (wf_perm _ _ _ _ (base_wf _ _ _ _ _ (proj1 Hsd))). exact Hin. }
    apply list_elem_of_split in Hin as (l1 & l2 & ->).
    apply list_elem_of_split in Hins as (k1 & k2 & ->).
    destruct (unmanage_run a destroyed _ _ _ _ _ _ _ Hsd)
      as (s' & m' & Hs' & Hsd' & Hfree & Hoth & _ & Hback).
    exists s'. split; [exact Hs' |].
    split; [exact (Run_step _ _ _ _ (AUnmanage (Some a) destroyed) _ Hr Hadm Hs') |].
    assert (Hne : ∀ b r', heap s' !! b = Some r' -> b ≠ a) by (intros b r' Hb ->; congruence).
    split; [| split; [| split]].
    + intros b1 b2 r1 r2 H1 H2 He.
      destruct (Hback _ _ H1) as (q1 & Hq1 & (Hw1 & _)).
      destruct (Hback _ _ H2) as (q2 & Hq2 & (Hw2 & _)).
      apply (Hd _ _ _ _ Hq1 Hq2). congruence.
    + intros b r' Hb He. destruct (Hback _ _ Hb) as (q & Hq & (Hwq & _)).
      apply (Hne _ _ Hb). apply (Hd _ _ _ _ Hq Hra). congruence.
    + intros Hno. exfalso. exact (Hno _ _ Hra Hwa).
    + intros b r Hb Hwb. apply (Hoth _ _ Hb). intros ->. congruence.
Qed.

Lemma windows_distinct_two_client_state : windows_distinct two_client_state.
Proof.
  intros a b ra rb Ha Hb.
  apply two_client_state_lookup in Ha as [[-> ->] | [-> ->]];
    apply two_client_state_lookup in Hb as [[-> ->] | [-> ->]]; simpl; congruence.
Qed.

(** X14: [destroynotify] for the window [w] returns in every run, for any
    [w].  Afterwards no client has the window [w]; the clients of other
    windows stay as they are; when no client had the window the state is
    unchanged. *)
Theorem destroynotify_unmanages_window cfg width height s w :
  Run cfg width height s -> windows_distinct s ->
  ∃ s', destroynotify w s = Ok tt s'
        ∧ Run cfg width height s' ∧ windows_distinct s'
        ∧ (∀ b r, heap s' !! b = Some r -> c_win r ≠ w)
        ∧ ((∀ b r, heap s !! b = Some r -> c_win r ≠ w) -> s' = s)
        ∧ (∀ b r, heap s !! b = Some r -> c_win r ≠ w ->
             ∃ r', heap s' !! b = Some r' ∧ same_client r r').
Proof. intros Hr Hd. exact (remove_window_facts cfg width height 1 w s Hr Hd). Qed.

Lemma destroynotify_unmanages_window_witness :
  Run config9 1000 800 two_client_state ∧ windows_distinct two_client_state
  ∧ ∃ s', destroynotify 101 two_client_state = Ok tt s'
          ∧ Run config9 1000 800 s' ∧ windows_distinct s'
          ∧ (∀ b r, heap s' !! b = Some r -> c_win r ≠ 101)
          ∧ ((∀ b r, heap two_client_state !! b = Some r -> c_win r ≠ 101) ->
             s' = two_client_state)
          ∧ (∀ b r, heap two_client_state !! b = Some r -> c_win r ≠ 101 ->
               ∃ r', heap s' !! b = Some r' ∧ same_client r r').
Proof.
  split; [exact Run_two_client_state |]. split; [exact windows_distinct_two_client_state |].
  exact (destroynotify_unmanages_window config9 1000 800 two_client_state 101
           Run_two_client_state windows_distinct_two_client_state).
Defined.

(** X15: [unmapnotify] for the window [w].  With [send_event] set it only
    sets the [WM_STATE] of the window to withdrawn: the client stays managed
    and nothing else changes; without a client of [w] nothing happens.  With
    [send_event] clear the client of [w] is unmanaged: afterwards no client
    has the window. *)
Theorem unmapnotify_withdraws_or_unmanages cfg width height s w send_event :
  Run cfg width height s -> windows_distinct s ->
  (send_event ≠ 0 ->
     ((∀ b r, heap s !! b = Some r -> c_win r ≠ w) -> unmapnotify w send_event s = Ok tt s)
     ∧ (∀ b r, heap s !! b = Some r -> c_win r = w ->
          unmapnotify w send_event s
          = Ok tt (set_xlog (xlog s ++ [XChangePropertyWMState w WithdrawnState]) s)))
  ∧ (send_event = 0 ->
       ∃ s', unmapnotify w send_event s = Ok tt s'
             ∧ Run cfg width height s' ∧ windows_distinct s'
             ∧ (∀ b r, heap s' !! b = Some r -> c_win r ≠ w)
             ∧ (∀ b r, heap s !! b = Some r -> c_win r ≠ w ->
                  ∃ r', heap s' !! b = Some r' ∧ same_client r r')).
Proof.
  intros Hr Hd. split.
  - intros Hse. destruct (Run_Sound _ _ _ _ Hr) as (m & cl & sl & t & Hsd).
    unfold unmapnotify.
    destruct (wintoclient_cases _ _ _ _ _ w Hsd) as [[Hw Hno] | (a & ra & Hw & Hin & Hra & Hwa)];
      rewrite (bind_Ok _ _ _ _ _ Hw).
    + split; [reflexivity |]. intros b r Hb He. exfalso. exact (Hno _ _ Hb He).
    + destruct (decide (send_event ≠ 0)); [| contradiction]. split.
      * intros Hno. exfalso. exact (Hno _ _ Hra Hwa).
      * intros _ _ _ _. unfold setclientstate.
        rewrite (bind_Ok _ _ _ _ _ (load_Ok _ _ _ Hra)). now rewrite xreq_Ok, Hwa.
  - intros ->. destruct (remove_window_facts cfg width height 0 w s Hr Hd)
      as (s' & Hs' & Hr' & Hd' & Hno & _ & Hoth).
    exists s'. split; [| auto]. rewrite <- Hs'. unfold unmapnotify.
    unfold mbind, M_bind, bind. destruct (wintoclient w s) as [[c |] s0 | | |]; reflexivity.
Qed.

Lemma unmapnotify_withdraws_or_unmanages_witness :
  Run config9 1000 800 two_client_state ∧ windows_distinct two_client_state
  ∧ (1 ≠ 0 ->
       ((∀ b r, heap two_client_state !! b = Some r -> c_win r ≠ 102) ->
        unmapnotify 102 1 two_client_state = Ok tt two_client_state)
       ∧ (∀ b r, heap two_client_state !! b = Some r -> c_win r = 102 ->
            unmapnotify 102 1 two_client_state
            = Ok tt (set_xlog (xlog two_client_state
                               ++ [XChangePropertyWMState 102 WithdrawnState])
                       two_client_state)))
  ∧ (1 = 0 ->
       ∃ s', unmapnotify 102 1 two_client_state = Ok tt s'
             ∧ Run config9 1000 800 s' ∧ windows_distinct s'
             ∧ (∀ b r, heap s' !! b = Some r -> c_win r ≠ 102)
             ∧ (∀ b r, heap two_client_state !! b = Some r -> c_win r ≠ 102 ->
                  ∃ r', heap s' !! b = Some r' ∧ same_client r r')).
Proof.
  split; [exact Run_two_client_state |]. split; [exact windows_distinct_two_client_state |].
  exact (unmapnotify_withdraws_or_unmanages config9 1000 800 two_client_state 102 1
           Run_two_client_state windows_distinct_two_client_state).
Defined.



Lemma CLEANMASK_lor numlockmask state :
  CLEANMASK numlockmask (Z.lor state (Z.lor numlockmask LockMask))
  = CLEANMASK numlockmask state.
Proof.
  unfold CLEANMASK. f_equal. apply Z.bits_inj'. intros n Hn.
  rewrite !Z.land_spec, !Z.lor_spec, !Z.lnot_spec by lia. rewrite Z.lor_spec.
  destruct (Z.testbit state n), (Z.testbit numlockmask n), (Z.testbit LockMask n);
    reflexivity.
Qed.

(** X17: [keypress] does the same whether or not the modifier state of the
    event has the bits of [LockMask] and of [numlockmask] set: Caps Lock
    never keeps a key binding from matching. *)
Theorem keypress_ignores_lock_masks numlockmask keys keysym state s :
  keypress numlockmask keys keysym (Z.lor state (Z.lor numlockmask LockMask)) s
  = keypress numlockmask keys keysym state s.
Proof.
  revert s. induction keys as [|k keys IH]; intros s; [reflexivity |].
  simpl. rewrite CLEANMASK_lor. unfold mbind, M_bind, bind.
  destruct (_ s) as [[] s1 | | |]; auto.
Qed.

(** ** [view], [toggleview] and [setlayout] *)

Lemma Sound_tagstate s :
  Sound s -> ∃ ts i t, tagstate s = Some (ts, i) ∧ ts !! Z.to_nat i = Some t ∧ t ≠ 0.
Proof.
  intros (m & cl & sl & t & Hb & _). exists (m_tagset m), (m_seltags m), t.
  unfold tagstate. rewrite (wf_mons _ _ _ _ (base_wf _ _ _ _ _ Hb)).
  split; [reflexivity |].
  split; [exact (base_viewed _ _ _ _ _ Hb) | exact (base_viewed_nonzero _ _ _ _ _ Hb)].
Qed.

(** X18: in every run two calls of [toggleview] with the same argument give
    back [tagset] and [seltags] as they were, whether the calls change the
    view or are rejected. *)
Theorem toggleview_twice_restores_view cfg width height s ui :
  Run cfg width height s ->
  ∃ s2, (toggleview cfg ui;; toggleview cfg ui) s = Ok tt s2 ∧ tagstate s2 = tagstate s.
Proof.
  intros Hr. pose proof (Run_Sound _ _ _ _ Hr) as Hs.
  destruct (sound_toggleview cfg ui s Hs) as (s1 & H1 & Hs1).
  destruct (sound_toggleview cfg ui s1 Hs1) as (s2 & H2 & _).
  exists s2. split; [now rewrite (bind_Ok _ _ _ _ _ H1) |].
  destruct (Sound_tagstate s Hs) as (ts & i & t & Hts & Ht & Htz).
  destruct (toggleview_tagstate _ _ _ _ _ _ _ Hts Ht H1) as [[He ->] | [Hne Hts1]].
  - destruct (toggleview_tagstate _ _ _ _ _ _ _ Hts Ht H2) as [[_ ->] | [Hne _]];
      [reflexivity | contradiction].
  - set (a := Z.land ui (TAGMASK cfg)) in *.
    assert (Hlen : (Z.to_nat i < length ts)%nat) by (eapply lookup_lt_Some; exact Ht).
    assert (Ht1 : <[Z.to_nat i := Z.lxor t a]> ts !! Z.to_nat i = Some (Z.lxor t a))
      by now apply list_lookup_insert_eq.
    destruct (toggleview_tagstate _ _ _ _ _ _ _ Hts1 Ht1 H2) as [[He _] | [_ Hts2]].
    + fold a in He. rewrite lxor_twice in He. contradiction.
    + fold a in Hts2. rewrite lxor_twice, list_insert_insert_eq in Hts2.
      rewrite (list_insert_id _ _ _ Ht) in Hts2. now rewrite Hts2, Hts.
Qed.

Lemma toggleview_twice_restores_view_witness :
  Run config9 1000 800 two_client_state
  ∧ ∃ s2, (toggleview config9 6;; toggleview config9 6) two_client_state = Ok tt s2
          ∧ tagstate s2 = tagstate two_client_state.
Proof.
  split; [exact Run_two_client_state |].
  exact (toggleview_twice_restores_view config9 1000 800 two_client_state 6
           Run_two_client_state).
Defined.

(** X19: in every run two calls of [view] with the argument 0 give back
    [tagset] and [seltags] as they were: each call only flips [seltags]. *)
Theorem view_zero_twice_restores_view cfg width height s :
  Run cfg width height s ->
  ∃ s1 s2 ts i,
    view cfg 0 s = Ok tt s1 ∧ view cfg 0 s1 = Ok tt s2
    ∧ tagstate s = Some (ts, i) ∧ tagstate s1 = Some (ts, Z.lxor i 1)
    ∧ tagstate s2 = Some (ts, i).
Proof.
  intros Hr. pose proof (Run_Sound _ _ _ _ Hr) as Hs.
  destruct (sound_view cfg 0 s Hs) as (s1 & H1 & Hs1).
  destruct (sound_view cfg 0 s1 Hs1) as (s2 & H2 & _).
  destruct (Sound_tagstate s Hs) as (ts & i & t & Hts & Ht & Htz).
  exists s1, s2, ts, i. split; [exact H1 |]. split; [exact H2 |]. split; [exact Hts |].
  assert (Hz : Z.land 0 (TAGMASK cfg) = 0) by apply Z.land_0_l.
  destruct (view_tagstate _ _ _ _ _ _ _ Hts Ht H1) as [[He _] | [_ Hts1]]; [congruence |].
  rewrite Hz in Hts1. destruct (decide (0 ≠ 0)); [contradiction |].
  split; [exact Hts1 |].
  destruct (Sound_tagstate s1 Hs1) as (ts1 & i1 & t1 & Hts1' & Ht1 & Htz1).
  rewrite Hts1 in Hts1'. injection Hts1' as <- <-.
  destruct (view_tagstate _ _ _ _ _ _ _ Hts1 Ht1 H2) as [[He _] | [_ Hts2]]; [congruence |].
  rewrite Hz in Hts2. destruct (decide (0 ≠ 0)); [contradiction |].
  now rewrite lxor_twice in Hts2.
Qed.

Lemma view_zero_twice_restores_view_witness :
  Run config9 1000 800 two_client_state
  ∧ ∃ s1 s2 ts i,
      view config9 0 two_client_state = Ok tt s1 ∧ view config9 0 s1 = Ok tt s2
      ∧ tagstate two_client_state = Some (ts, i) ∧ tagstate s1 = Some (ts, Z.lxor i 1)
      ∧ tagstate s2 = Some (ts, i).
Proof.
  split; [exact Run_two_client_state |].
  exact (view_zero_twice_restores_view config9 1000 800 two_client_state
           Run_two_client_state).
Defined.

Lemma Run_monocle_state : Run config9 1000 800 monocle_state.
Proof.
  refine (Run_step _ _ _ _ (ASetLayout (Some 2)) _ Run_initial_state _ _).
  - simpl. unfold u32. rewrite Z.mod_small; lia.
  - vm_compute. reflexivity.
Qed.

(** X20: [setlayout(NULL)] while [layouts[2]] is selected reads [layouts]
    out of bounds: [sellt ^= 1] makes the index 3 and [arrange] evaluates
    [layouts[3].arrange], past the three entries of the array. *)
Theorem setlayout_null_from_monocle_overruns_layouts cfg width height s m :
  Run cfg width height s -> mons s = Some m -> m_sellt m = 2 ->
  setlayout None s = Fault.
Proof.
  intros Hr Hm Hlt. destruct (Run_Sound _ _ _ _ Hr) as (m' & cl & sl & t & Hb & Hsel).
  pose proof (base_wf _ _ _ _ _ Hb) as Hwf. pose proof (wf_mons _ _ _ _ Hwf) as Hm'.
  rewrite Hm in Hm'. injection Hm' as <-.
  set (m1 := with_sellt (Z.lxor 2 1) m). set (s1 := set_mons (Some m1) s).
  assert (Hset : (m0 ← selmon; setmon (with_sellt (Z.lxor (m_sellt m0) 1))) s = Ok tt s1).
  { rewrite (bind_Ok _ _ _ _ _ (selmon_Ok _ _ Hm)), (setmon_Ok _ _ _ Hm). now rewrite Hlt. }
  unfold setlayout. rewrite (bind_Ok _ _ _ _ _ Hset).
  assert (Hm1 : mons s1 = Some m1) by reflexivity.
  unfold arrange. rewrite (bind_Ok _ _ _ _ _ (selmon_Ok _ _ Hm1)).
  pose proof (chain_length _ _ _ _ (wf_stack _ _ _ _ Hwf)) as Hlen.
  assert (Hfuel : (length sl < S (size (heap s1)))%nat) by (simpl; lia).
  assert (Hlk : ∀ b, m_sel m1 = Some b -> is_Some (heap s1 !! b)).
  { intros b Hb'. exact (good_sel_lookup s m cl sl b Hwf Hb'). }
  destruct (showhide_rec_Ok m1 t sl _ (m_stack m1) s1 Hm1 (base_viewed _ _ _ _ _ Hb) Hlk
              (wf_stack _ _ _ _ Hwf) Hfuel) as (s2 & Hs2 & Hf2).
  assert (Hsh : showhide (m_stack m1) s1 = Ok tt s2).
  { unfold showhide. now rewrite (bind_Ok _ _ _ _ _ (fuel_Ok s1)). }
  rewrite (bind_Ok _ _ _ _ _ Hsh).
  assert (Hm2 : mons s2 = Some m1) by (rewrite (fr_mons _ _ Hf2); exact Hm1).
  rewrite (bind_Ok _ _ _ _ _ (selmon_Ok _ _ Hm2)). reflexivity.
Qed.

Lemma setlayout_null_from_monocle_overruns_layouts_witness :
  Run config9 1000 800 monocle_state
  ∧ mons monocle_state = Some (with_sellt 2 (initial_monitor config9 1000 800))
  ∧ m_sellt (with_sellt 2 (initial_monitor config9 1000 800)) = 2
  ∧ setlayout None monocle_state = Fault.
Proof.
  split; [exact Run_monocle_state |]. split; [reflexivity |]. split; [reflexivity |].
  exact (setlayout_null_from_monocle_overruns_layouts config9 1000 800 monocle_state _
           Run_monocle_state eq_refl eq_refl).
Defined.

(** ** The layouts *)

Lemma resized_same_links x y w h r : same_links r (resized x y w h r).
Proof.
  unfold resized. destruct (decide (w <= 0 ∨ h <= 0));
    [apply same_links_refl | apply same_links_with_geom].
Qed.

Lemma resized_own r : resized (c_x r) (c_y r) (c_w r) (c_h r) r = r.
Proof. unfold resized. destruct (decide _); [reflexivity | now destruct r]. Qed.

Lemma resized_next x y w h r : c_next (resized x y w h r) = c_next r.
Proof. unfold resized. now destruct (decide _). Qed.

(** [resize] on an allocated client *)
Lemma resize_exact s a r x y w h i :
  heap s !! a = Some r ->
  ∃ s', resize (Some a) x y w h i s = Ok tt s' ∧ frame s s'
        ∧ heap s' = <[a := resized x y w h r]> (heap s).
Proof.
  intros Hr. unfold resize, resized. destruct (decide (w <= 0 ∨ h <= 0)).
  - exists s. split; [reflexivity |]. split; [apply frame_refl |].
    symmetry. now apply insert_id.
  - rewrite (bind_Ok _ _ _ _ _ (store_Ok _ _ _ _ Hr)).
    set (s1 := set_heap _ s).
    assert (H1 : heap s1 !! a = Some (with_geom x y w h r)) by (simpl; apply lookup_insert_eq).
    rewrite (bind_Ok _ _ _ _ _ (load_Ok _ _ _ H1)).
    rewrite (bind_Ok _ _ _ _ _ (xreq_Ok _ _)).
    unfold configure.
    set (s2 := set_xlog _ s1).
    assert (H2 : heap s2 !! a = Some (with_geom x y w h r)) by exact H1.
    rewrite (bind_Ok _ _ _ _ _ (load_Ok _ _ _ H2)).
    rewrite xreq_Ok. eexists. split; [reflexivity |]. split; [| reflexivity].
    eapply frame_trans; [apply (frame_store _ _ _ x y w h Hr) |].
    eapply frame_trans; apply frame_xlog.
Qed.

(** [showhide] changes no record *)
Lemma showhide_rec_heap m t l : ∀ n p s,
  mons s = Some m -> viewed m = Some t ->
  (∀ b, m_sel m = Some b -> is_Some (heap s !! b)) ->
  chain c_snext (heap s) p l -> (length l < n)%nat ->
  ∃ s', showhide_rec n p s = Ok tt s' ∧ frame s s' ∧ heap s' = heap s.
Proof.
  induction l as [|a l IH]; intros n p s Hm Ht Hsel Hch Hn;
    (destruct n as [|n]; [simpl in Hn; lia |]).
  - simpl in Hch. subst p. exists s. split; [reflexivity |]. split; [apply frame_refl | reflexivity].
  - destruct Hch as [-> (c & Hc & Hch)]. simpl in Hn. simpl.
    rewrite (bind_Ok _ _ _ _ _ (ISVISIBLE_Ok _ _ _ _ _ Hm Ht Hc)).
    destruct (decide (Z.land (c_tags c) t ≠ 0)) as [Hv | Hv].
    + rewrite (bind_Ok _ _ _ _ _ (load_Ok _ _ _ Hc)).
      rewrite (bind_Ok _ _ _ _ _ (xreq_Ok _ _)).
      set (s1 := set_xlog _ s).
      assert (Hm1 : mons s1 = Some m) by exact Hm.
      assert (Hc1 : heap s1 !! a = Some c) by exact Hc.
      rewrite (bind_Ok _ _ _ _ _ (selmon_Ok _ _ Hm1)).
      assert (Hf : ∃ f, match m_sel m with
                        | Some _ => q ← load (m_sel m); mret (c_isfloating q)
                        | None => mret 0
                        end s1 = Ok f s1).
      { destruct (m_sel m) as [b |] eqn:Hb; [| eexists; reflexivity].
        destruct (Hsel b eq_refl) as [q Hq].
        exists (c_isfloating q).
        now rewrite (bind_Ok _ _ _ _ _ (load_Ok s1 _ _ Hq)). }
      destruct Hf as [f Hf]. rewrite (bind_Ok _ _ _ _ _ Hf).
      assert (Hr : ∃ s2, (if decide (f ≠ 0)
                          then r ← load (Some a); resize (Some a) (c_x r) (c_y r) (c_w r) (c_h r) 0
                          else mret tt) s1 = Ok tt s2 ∧ frame s1 s2 ∧ heap s2 = heap s1).
      { destruct (decide (f ≠ 0)).
        - rewrite (bind_Ok _ _ _ _ _ (load_Ok _ _ _ Hc1)).
          destruct (resize_exact s1 a c (c_x c) (c_y c) (c_w c) (c_h c) 0 Hc1)
            as (s2 & Hs2 & Hf2 & Hh2).
          exists s2. split; [exact Hs2 |]. split; [exact Hf2 |].
          rewrite Hh2, resized_own. now apply insert_id.
        - exists s1. split; [reflexivity |]. split; [apply frame_refl | reflexivity]. }
      destruct Hr as (s2 & Hr & Hf12 & Hh12). rewrite (bind_Ok _ _ _ _ _ Hr).
      assert (Hh02 : heap s2 = heap s) by exact Hh12.
      assert (Hc2 : heap s2 !! a = Some c) by (rewrite Hh02; exact Hc).
      rewrite (bind_Ok _ _ _ _ _ (load_Ok _ _ _ Hc2)).
      assert (Hf02 : frame s s2) by (eapply frame_trans; [apply frame_xlog | exact Hf12]).
      destruct (IH n (c_snext c) s2) as (s3 & H3 & Hf23 & Hh23).
      * rewrite (fr_mons _ _ Hf02). exact Hm.
      * exact Ht.
      * intros b Hb. rewrite Hh02. auto.
      * rewrite Hh02. exact Hch.
      * lia.
      * exists s3. split; [exact H3 |].
        split; [eapply frame_trans; eassumption | congruence].
    + rewrite (bind_Ok _ _ _ _ _ (load_Ok _ _ _ Hc)).
      destruct (IH n (c_snext c) s Hm Ht Hsel Hch) as (s1 & H1 & Hf01 & Hh01); [lia |].
      rewrite (bind_Ok _ _ _ _ _ H1).
      assert (Hc1 : heap s1 !! a = Some c) by (rewrite Hh01; exact Hc).
      rewrite (bind_Ok _ _ _ _ _ (load_Ok _ _ _ Hc1)).
      rewrite xreq_Ok. eexists. split; [reflexivity |]. split; [| exact Hh01].
      eapply frame_trans; [exact Hf01 | apply frame_xlog].
Qed.

Lemma showhide_heap s m cl sl t :
  wf s m cl sl -> viewed m = Some t ->
  ∃ s', showhide (m_stack m) s = Ok tt s' ∧ frame s s' ∧ heap s' = heap s.
Proof.
  intros Hwf Ht. unfold showhide. rewrite (bind_Ok _ _ _ _ _ (fuel_Ok s)).
  pose proof (chain_length _ _ _ _ (wf_stack _ _ _ _ Hwf)) as Hlen.
  eapply showhide_rec_heap; eauto using wf_mons, wf_stack, good_sel_lookup.
  - intros b Hb. eapply good_sel_lookup; eassumption.
  - lia.
Qed.

Lemma tiled_b_visible h t a : tiled_b h t a = true -> visible_b h t a = true.
Proof.
  unfold tiled_b, visible_b. destruct (h !! a); [| discriminate].
  now intros [_ H]%andb_true_iff.
Qed.

(** [skip_untiled] drops clients that are not tiled from the front *)
Lemma skip_untiled_split h t l :
  ∃ pre, l = pre ++ skip_untiled h t l ∧ tiled h t pre = [].
Proof.
  induction l as [|a l (pre & Hpre & Hno)]; simpl; [exists []; auto |].
  destruct (tiled_b h t a) eqn:Ha; [exists []; auto |].
  exists (a :: pre). split; [simpl; now rewrite <- Hpre |].
  unfold tiled in *. simpl. now rewrite Ha.
Qed.

Lemma tiled_skip_untiled h t l : tiled h t (skip_untiled h t l) = tiled h t l.
Proof.
  destruct (skip_untiled_split h t l) as (pre & Hpre & Hno).
  rewrite Hpre at 2. unfold tiled in *. now rewrite List.filter_app, Hno.
Qed.

Lemma NoDup_skip_untiled h t l : NoDup l -> NoDup (skip_untiled h t l).
Proof.
  destruct (skip_untiled_split h t l) as (pre & Hpre & _). intros Hnd.
  rewrite Hpre in Hnd. now apply NoDup_app in Hnd as (_ & _ & Hnd).
Qed.

Lemma elem_of_tiled h t l a : a ∈ tiled h t l ↔ a ∈ l ∧ tiled_b h t a = true.
Proof. unfold tiled. rewrite !list_elem_of_In. apply List.filter_In. Qed.

Lemma monocle_count_exact m t : ∀ l k c n s,
  mons s = Some m -> viewed m = Some t ->
  chain c_next (heap s) c l -> (length l < k)%nat ->
  0 <= n -> n + Z.of_nat (length l) < 2 ^ 32 ->
  monocle_count k c n s
  = Ok (n + Z.of_nat (length (List.filter (visible_b (heap s) t) l))) s.
Proof.
  induction l as [|a l IH]; intros k c n s Hm Ht Hch Hk Hn0 Hn;
    (destruct k as [|k]; [simpl in Hk; lia |]).
  - simpl in Hch. subst c. simpl. now rewrite Z.add_0_r.
  - destruct Hch as [-> (r & Hr & Hch)]. simpl in Hk, Hn. simpl monocle_count.
    rewrite (bind_Ok _ _ _ _ _ (ISVISIBLE_Ok _ _ _ _ _ Hm Ht Hr)).
    rewrite (bind_Ok _ _ _ _ _ (load_Ok _ _ _ Hr)).
    simpl List.filter. rewrite (visible_b_land _ _ _ _ Hr).
    destruct (decide (Z.land (c_tags r) t ≠ 0)) as [Hz | Hz].
    + rewrite u32_small by lia. rewrite IH; auto; try lia.
      apply Z.eqb_neq in Hz. rewrite Hz. simpl. f_equal. lia.
    + rewrite IH; auto; try lia.
      apply dec_stable in Hz. rewrite Hz. reflexivity.
Qed.

Lemma monocle_loop_exact h0 m t : ∀ k l c s,
  mons s = Some m -> viewed m = Some t -> geom_only h0 (heap s) ->
  chain c_next (heap s) c l -> skip_untiled h0 t l = l -> (length l < k)%nat ->
  ∃ s', monocle_loop k m c s = Ok tt s' ∧ frame s s'
        ∧ ∀ b, heap s' !! b = if bool_decide (b ∈ tiled h0 t l)
                              then monocle_cell m <$> heap s !! b else heap s !! b.
Proof.
  induction k as [|k IH]; intros l c s Hm Ht Hg Hch Hsk Hk; [lia |].
  destruct l as [|a l].
  { simpl in Hch. subst c. exists s. split; [reflexivity |]. split; [apply frame_refl |].
    intros b. rewrite bool_decide_eq_false_2; [reflexivity | apply not_elem_of_nil]. }
  pose proof (skip_untiled_head_tiled _ _ _ _ _ Hsk) as Ha.
  pose proof (chain_NoDup _ _ _ _ Hch) as Hnd. apply NoDup_cons in Hnd as [Hal Hnd].
  destruct Hch as [-> (r & Hr & Hch)]. simpl in Hk. simpl monocle_loop.
  rewrite (bind_Ok _ _ _ _ _ (load_Ok _ _ _ Hr)).
  match goal with |- context [resize ?c ?x ?y ?w ?h ?i] =>
    destruct (resize_exact s a r x y w h i Hr) as (s1 & Hrs & Hf1 & Hh1) end.
  fold (monocle_cell m r) in Hh1.
  rewrite (bind_Ok _ _ _ _ _ Hrs).
  assert (Hr1 : heap s1 !! a = Some (monocle_cell m r)) by (rewrite Hh1; apply lookup_insert_eq).
  assert (Hnx : c_next (monocle_cell m r) = c_next r) by apply resized_next.
  assert (Hm1 : mons s1 = Some m) by (rewrite (fr_mons _ _ Hf1); exact Hm).
  assert (Hg1 : geom_only h0 (heap s1))
    by (eapply geom_only_trans; [exact Hg | apply (fr_heap _ _ Hf1)]).
  assert (Hch1 : chain c_next (heap s1) (c_next (monocle_cell m r)) l)
    by (rewrite Hnx; eapply geom_only_chain_next; [apply (fr_heap _ _ Hf1) | exact Hch]).
  rewrite (bind_Ok _ _ _ _ _ (load_Ok _ _ _ Hr1)).
  rewrite (bind_Ok _ _ _ _ _ (nexttiled_Ok _ _ _ _ _ _ Hm1 Ht Hg1 Hch1)).
  destruct (IH (skip_untiled h0 t l) (head (skip_untiled h0 t l)) s1) as (s' & Hs' & Hf' & Hh');
    auto.
  - eapply skip_untiled_chain; eassumption.
  - apply skip_untiled_idem.
  - pose proof (skip_untiled_length h0 t l). lia.
  - exists s'. split; [exact Hs' |]. split; [eapply frame_trans; eassumption |].
    intros b. rewrite Hh', tiled_skip_untiled, Hh1.
    unfold tiled at 2. simpl. rewrite Ha. fold (tiled h0 t l).
    destruct (decide (a = b)) as [<- | Hne].
    + rewrite lookup_insert_eq, Hr. simpl.
      rewrite bool_decide_eq_false_2 by (rewrite elem_of_tiled; tauto).
      rewrite bool_decide_eq_true_2 by left. reflexivity.
    + rewrite lookup_insert_ne by assumption.
      destruct (decide (b ∈ tiled h0 t l)) as [Hin | Hnin].
      * rewrite !bool_decide_eq_true_2; [reflexivity | now right | exact Hin].
      * rewrite !bool_decide_eq_false_2; [reflexivity | | exact Hnin].
        intros Hb. apply elem_of_cons in Hb as [-> | Hb]; contradiction.
Qed.

(** [monocle] *)
Lemma monocle_exact s m cl sl t :
  wf s m cl sl -> viewed m = Some t ->
  ∃ s', monocle s = Ok tt s' ∧ frame s s'
        ∧ ∀ b, heap s' !! b = if bool_decide (b ∈ tiled (heap s) t cl)
                              then monocle_cell m <$> heap s !! b else heap s !! b.
Proof.
  intros Hwf Ht. pose proof (wf_mons _ _ _ _ Hwf) as Hm.
  pose proof (wf_clients _ _ _ _ Hwf) as Hch.
  pose proof (chain_length _ _ _ _ Hch) as Hlen.
  pose proof (wf_clients_bound _ _ _ _ Hwf) as H32.
  pose proof (geom_only_refl (heap s)) as Hg.
  unfold monocle.
  rewrite (bind_Ok _ _ _ _ _ (selmon_Ok _ _ Hm)).
  rewrite (bind_Ok _ _ _ _ _ (fuel_Ok s)).
  rewrite (bind_Ok _ _ _ _ _ (monocle_count_exact m t cl (S (size (heap s))) (m_clients m) 0 s
                                Hm Ht Hch ltac:(lia) ltac:(lia) ltac:(lia))).
  rewrite Z.add_0_l.
  destruct (decide (Z.of_nat (length (List.filter (visible_b (heap s) t) cl)) > 0)) as [Hpos | Hz].
  - rewrite (bind_Ok _ _ _ _ _ (nexttiled_Ok _ _ _ _ _ _ Hm Ht Hg Hch)).
    destruct (monocle_loop_exact (heap s) m t (S (size (heap s))) (skip_untiled (heap s) t cl)
                (head (skip_untiled (heap s) t cl)) s) as (s' & Hs' & Hf' & Hh'); auto.
    + eapply skip_untiled_chain; eassumption.
    + apply skip_untiled_idem.
    + pose proof (skip_untiled_length (heap s) t cl). lia.
    + exists s'. split; [exact Hs' |]. split; [exact Hf' |].
      intros b. now rewrite Hh', tiled_skip_untiled.
  - exists s. split; [reflexivity |]. split; [apply frame_refl |]. intros b.
    rewrite bool_decide_eq_false_2; [reflexivity |]. rewrite elem_of_tiled.
    intros [Hin Htl]. apply tiled_b_visible in Htl.
    assert (Hbv : b ∈ List.filter (visible_b (heap s) t) cl).
    { apply list_elem_of_In, List.filter_In. split; [now apply list_elem_of_In | exact Htl]. }
    destruct (List.filter (visible_b (heap s) t) cl); [now apply elem_of_nil in Hbv |].
    simpl in Hz. lia.
Qed.

Lemma tiled_cons h t a l : tiled_b h t a = true -> tiled h t (a :: l) = a :: tiled h t l.
Proof. intros H. unfold tiled. simpl. now rewrite H. Qed.

Lemma tiled_count_length h t l : tiled_count h t l = Z.of_nat (length (tiled h t l)).
Proof. reflexivity. Qed.

(** the second loop of [tile] computes [tile_heap] *)
Lemma tile_loop_exact h0 m t n mw : ∀ k l c i my ty s,
  mons s = Some m -> viewed m = Some t -> geom_only h0 (heap s) ->
  chain c_next (heap s) c l -> skip_untiled h0 t l = l -> (length l < k)%nat ->
  0 <= i -> i + tiled_count h0 t l = n -> n < 2 ^ 32 ->
  ∃ s', tile_loop k m n mw c i my ty s = Ok tt s' ∧ frame s s'
        ∧ heap s' = tile_heap m n mw (heap s) (tiled h0 t l) i my ty.
Proof.
  induction k as [|k IH]; intros l c i my ty s Hm Ht Hg Hch Hsk Hk Hi Hn Hn32; [lia |].
  destruct l as [|a l].
  { simpl in Hch. subst c. exists s. split; [reflexivity |].
    split; [apply frame_refl | reflexivity]. }
  pose proof (skip_untiled_head_tiled _ _ _ _ _ Hsk) as Ha.
  destruct Hch as [-> (r & Hr & Hch)]. simpl in Hk.
  rewrite (tiled_count_cons _ _ _ _ Ha) in Hn.
  pose proof (tiled_count_nonneg h0 t l) as Hc0.
  assert (Hi1 : u32 (i + 1) = i + 1) by (apply u32_small; lia).
  (* what follows the call of [resize] is the same in both branches *)
  assert (Hrest : ∀ s1 r' my' ty', frame s s1 -> heap s1 = <[a := r']> (heap s) ->
            c_next r' = c_next r ->
            ∃ s', (r1 ← load (Some a); c' ← nexttiled (c_next r1);
                   tile_loop k m n mw c' (u32 (i + 1)) (my' r1) (ty' r1)) s1 = Ok tt s'
                  ∧ frame s1 s'
                  ∧ heap s' = tile_heap m n mw (<[a := r']> (heap s)) (tiled h0 t l)
                                        (u32 (i + 1)) (my' r') (ty' r')).
  { intros s1 r' my' ty' Hf1 Hh1 Hnx.
    assert (Hr1 : heap s1 !! a = Some r') by (rewrite Hh1; apply lookup_insert_eq).
    assert (Hm1 : mons s1 = Some m) by (rewrite (fr_mons _ _ Hf1); exact Hm).
    assert (Hg1 : geom_only h0 (heap s1))
      by (eapply geom_only_trans; [exact Hg | apply (fr_heap _ _ Hf1)]).
    assert (Hch1 : chain c_next (heap s1) (c_next r') l)
      by (rewrite Hnx; eapply geom_only_chain_next; [apply (fr_heap _ _ Hf1) | exact Hch]).
    rewrite (bind_Ok _ _ _ _ _ (load_Ok _ _ _ Hr1)).
    rewrite (bind_Ok _ _ _ _ _ (nexttiled_Ok _ _ _ _ _ _ Hm1 Ht Hg1 Hch1)).
    rewrite <- Hh1, <- (tiled_skip_untiled h0 t l).
    apply (IH (skip_untiled h0 t l)); auto.
    - eapply skip_untiled_chain; eassumption.
    - apply skip_untiled_idem.
    - pose proof (skip_untiled_length h0 t l). lia.
    - lia.
    - rewrite skip_untiled_count. lia. }
  rewrite (tiled_cons _ _ _ _ Ha). simpl tile_loop. simpl tile_heap. rewrite Hr.
  destruct (decide (i < u32 (m_nmaster m))) as [Hlt | Hge].
  - assert (Hd : u32 (MIN_u n (m_nmaster m) - i) ≠ 0).
    { pose proof (u32_range (m_nmaster m)). unfold MIN_u.
      destruct (decide (n < u32 (m_nmaster m))); rewrite u32_small; lia. }
    rewrite (bind_Ok _ _ _ _ _ (udiv_Ok _ _ _ Hd)).
    rewrite (bind_Ok _ _ _ _ _ (load_Ok _ _ _ Hr)).
    match goal with |- context [resize ?c ?x ?y ?w ?h ?i] =>
      destruct (resize_exact s a r x y w h i Hr) as (s1 & Hrs & Hf1 & Hh1) end.
    rewrite (bind_Ok _ _ _ _ _ Hrs).
    destruct (Hrest s1 _ (fun r1 => u32 (my + HEIGHT r1)) (fun _ => ty) Hf1 Hh1
                (resized_next _ _ _ _ _)) as (s' & Hs' & Hf' & Hh').
    exists s'. split; [exact Hs' |]. split; [eapply frame_trans; eassumption | exact Hh'].
  - assert (Hd : u32 (n - i) ≠ 0) by (rewrite u32_small; lia).
    rewrite (bind_Ok _ _ _ _ _ (udiv_Ok _ _ _ Hd)).
    rewrite (bind_Ok _ _ _ _ _ (load_Ok _ _ _ Hr)).
    match goal with |- context [resize ?c ?x ?y ?w ?h ?i] =>
      destruct (resize_exact s a r x y w h i Hr) as (s1 & Hrs & Hf1 & Hh1) end.
    rewrite (bind_Ok _ _ _ _ _ Hrs).
    destruct (Hrest s1 _ (fun _ => my) (fun r1 => u32 (ty + HEIGHT r1)) Hf1 Hh1
                (resized_next _ _ _ _ _)) as (s' & Hs' & Hf' & Hh').
    exists s'. split; [exact Hs' |]. split; [eapply frame_trans; eassumption | exact Hh'].
Qed.

Lemma tile_mw_Ok m n s :
  mw_defined m -> tile_mw m n s = Ok (tile_mw_value m n) s.
Proof.
  intros [v Hv]. unfold tile_mw, tile_mw_value.
  destruct (decide (_ > _)); [| reflexivity].
  destruct (decide (m_nmaster m ≠ 0)); [| reflexivity]. now rewrite Hv.
Qed.

(** [tile] *)
Lemma tile_exact s m cl sl t :
  wf s m cl sl -> viewed m = Some t -> mw_defined m ->
  ∃ s', tile s = Ok tt s' ∧ frame s s'
        ∧ heap s' = tile_heap m (Z.of_nat (length (tiled (heap s) t cl)))
                      (tile_mw_value m (Z.of_nat (length (tiled (heap s) t cl))))
                      (heap s) (tiled (heap s) t cl) 0 0 0.
Proof.
  intros Hwf Ht Hmw. pose proof (wf_mons _ _ _ _ Hwf) as Hm.
  pose proof (wf_clients _ _ _ _ Hwf) as Hch.
  pose proof (chain_length _ _ _ _ Hch) as Hlen.
  pose proof (wf_clients_bound _ _ _ _ Hwf) as H32.
  pose proof (geom_only_refl (heap s)) as Hg.
  set (l := skip_untiled (heap s) t cl).
  assert (Hchl : chain c_next (heap s) (head l) l) by (eapply skip_untiled_chain; eassumption).
  assert (Hll : (length l <= length cl)%nat) by apply skip_untiled_length.
  assert (Hcnt : tiled_count (heap s) t l <= Z.of_nat (length cl)).
  { unfold l. rewrite skip_untiled_count. apply tiled_count_le. }
  pose proof (tiled_count_nonneg (heap s) t l) as Hc0.
  assert (Htl : tiled (heap s) t cl = tiled (heap s) t l)
    by (symmetry; apply tiled_skip_untiled).
  rewrite Htl, <- tiled_count_length.
  unfold tile.
  rewrite (bind_Ok _ _ _ _ _ (selmon_Ok _ _ Hm)).
  rewrite (bind_Ok _ _ _ _ _ (fuel_Ok s)).
  rewrite (bind_Ok _ _ _ _ _ (nexttiled_Ok _ _ _ _ _ _ Hm Ht Hg Hch)).
  assert (Hidem : skip_untiled (heap s) t l = l) by apply skip_untiled_idem.
  rewrite (bind_Ok _ _ _ _ _
             (tile_count_Ok (heap s) m t (S (size (heap s))) l (head l) 0 s Hm Ht Hg Hchl Hidem
                            ltac:(lia) ltac:(lia) ltac:(lia))).
  rewrite Z.add_0_l.
  destruct (decide (tiled_count (heap s) t l = 0)) as [Hz | Hz].
  { exists s. split; [reflexivity |]. split; [apply frame_refl |].
    rewrite tiled_count_length in Hz. destruct (tiled (heap s) t l); [reflexivity |].
    simpl in Hz. lia. }
  rewrite (bind_Ok _ _ _ _ _ (tile_mw_Ok _ _ _ Hmw)).
  rewrite (bind_Ok _ _ _ _ _ (nexttiled_Ok _ _ _ _ _ _ Hm Ht Hg Hch)).
  apply (tile_loop_exact (heap s) m t _ _ _ l); auto; lia.
Qed.

Lemma tile_heap_other m n mw a : ∀ T h i my ty,
  a ∉ T -> tile_heap m n mw h T i my ty !! a = h !! a.
Proof.
  induction T as [|b T IH]; intros h i my ty Ha; [reflexivity |].
  apply not_elem_of_cons in Ha as [Hne Ha]. simpl.
  destruct (h !! b) as [r |]; [| reflexivity].
  destruct (decide (i < u32 (m_nmaster m))); rewrite IH by assumption;
    now rewrite lookup_insert_ne.
Qed.

Lemma s32_u32 z : - 2 ^ 31 <= z < 2 ^ 31 -> s32 (u32 z) = z.
Proof.
  intros H. unfold s32, u32. rewrite Zplus_mod_idemp_l. rewrite Z.mod_small; lia.
Qed.

Lemma s32_small z : - 2 ^ 31 <= z < 2 ^ 31 -> s32 z = z.
Proof. intros H. unfold s32. rewrite Z.mod_small; lia. Qed.

Lemma frame_only_log s s' : frame s s' -> heap s' = heap s -> s' = set_xlog (xlog s') s.
Proof. intros [] Hh. apply State_eq; simpl; auto. Qed.

(** X21: [showhide] changes no client record and no field of the monitor:
    it only sends requests.  (The [resize] it calls for a floating selection
    stores the rectangle the client has.) *)
Theorem showhide_changes_no_record s m cl sl t :
  wf s m cl sl -> viewed m = Some t ->
  ∃ s', showhide (m_stack m) s = Ok tt s' ∧ s' = set_xlog (xlog s') s.
Proof.
  intros Hwf Ht. destruct (showhide_heap _ _ _ _ _ Hwf Ht) as (s' & Hs' & Hf & Hh).
  exists s'. split; [exact Hs' | now apply frame_only_log].
Qed.

Lemma showhide_changes_no_record_witness :
  wf two_client_state two_client_monitor [2%positive; 1%positive] [2%positive; 1%positive]
  ∧ viewed two_client_monitor = Some 1
  ∧ ∃ s', showhide (m_stack two_client_monitor) two_client_state = Ok tt s'
          ∧ s' = set_xlog (xlog s') two_client_state.
Proof.
  split; [exact wf_two_client_state |]. split; [reflexivity |].
  exact (showhide_changes_no_record two_client_state two_client_monitor _ _ 1
           wf_two_client_state eq_refl).
Defined.

(** X22: [monocle] gives every client of the client list that is visible
    and not floating the window area of the monitor less its border, through
    [resize]; every other record stays as it is.  Where nothing overflows and
    the rectangle is not empty, the client ends at [(wx, wy, ww - 2bw,
    wh - 2bw)]. *)
Theorem monocle_fills_window_area s m cl sl t :
  wf s m cl sl -> viewed m = Some t ->
  ∃ s', monocle s = Ok tt s' ∧ frame s s'
        ∧ (∀ a, a ∉ tiled (heap s) t cl -> heap s' !! a = heap s !! a)
        ∧ (∀ a r, a ∈ tiled (heap s) t cl -> heap s !! a = Some r ->
             heap s' !! a = Some (monocle_cell m r)
             ∧ (0 <= c_bw r < 2 ^ 30 ->
                0 < m_ww m - 2 * c_bw r < 2 ^ 31 -> 0 < m_wh m - 2 * c_bw r < 2 ^ 31 ->
                geometry (monocle_cell m r)
                = (m_wx m, m_wy m, m_ww m - 2 * c_bw r, m_wh m - 2 * c_bw r))).
Proof.
  intros Hwf Ht. destruct (monocle_exact _ _ _ _ _ Hwf Ht) as (s' & Hs' & Hf & Hh).
  exists s'. split; [exact Hs' |]. split; [exact Hf |]. split.
  - intros a Ha. now rewrite Hh, bool_decide_eq_false_2.
  - intros a r Ha Hr. split; [now rewrite Hh, bool_decide_eq_true_2, Hr |].
    intros Hbw Hw Hh'. unfold monocle_cell, resized.
    rewrite (s32_small (2 * c_bw r)) by lia. rewrite !s32_small by lia.
    destruct (decide _) as [Hbad | _]; [lia | reflexivity].
Qed.

Lemma monocle_fills_window_area_witness :
  wf two_client_state two_client_monitor [2%positive; 1%positive] [2%positive; 1%positive]
  ∧ viewed two_client_monitor = Some 1
  ∧ ∃ s', monocle two_client_state = Ok tt s' ∧ frame two_client_state s'
          ∧ (∀ a, a ∉ tiled (heap two_client_state) 1 [2%positive; 1%positive] ->
               heap s' !! a = heap two_client_state !! a)
          ∧ (∀ a r, a ∈ tiled (heap two_client_state) 1 [2%positive; 1%positive] ->
               heap two_client_state !! a = Some r ->
               heap s' !! a = Some (monocle_cell two_client_monitor r)
               ∧ (0 <= c_bw r < 2 ^ 30 ->
                  0 < m_ww two_client_monitor - 2 * c_bw r < 2 ^ 31 ->
                  0 < m_wh two_client_monitor - 2 * c_bw r < 2 ^ 31 ->
                  geometry (monocle_cell two_client_monitor r)
                  = (m_wx two_client_monitor, m_wy two_client_monitor,
                     m_ww two_client_monitor - 2 * c_bw r,
                     m_wh two_client_monitor - 2 * c_bw r))).
Proof.
  split; [exact wf_two_client_state |]. split; [reflexivity |].
  exact (monocle_fills_window_area two_client_state two_client_monitor _ _ 1
           wf_two_client_state eq_refl).
Defined.

(** [tile] leaves the heap that the loop run on the list of the tiled
    clients computes ([tile_heap]), with the number of tiled clients for [n]
    and the master width of [tile_mw_value]; the records of the clients that
    are floating or not visible stay as they are, and nothing but rectangles
    and the request log changes. *)
Theorem tile_lays_out_tiled_clients s m cl sl t :
  wf s m cl sl -> viewed m = Some t -> mw_defined m ->
  ∃ s', tile s = Ok tt s' ∧ frame s s'
        ∧ heap s' = tile_heap m (Z.of_nat (length (tiled (heap s) t cl)))
                      (tile_mw_value m (Z.of_nat (length (tiled (heap s) t cl))))
                      (heap s) (tiled (heap s) t cl) 0 0 0
        ∧ (∀ a, a ∉ tiled (heap s) t cl -> heap s' !! a = heap s !! a).
Proof.
  intros Hwf Ht Hmw. destruct (tile_exact _ _ _ _ _ Hwf Ht Hmw) as (s' & Hs' & Hf & Hh).
  exists s'. split; [exact Hs' |]. split; [exact Hf |]. split; [exact Hh |].
  intros a Ha. rewrite Hh. now apply tile_heap_other.
Qed.

Lemma tile_lays_out_tiled_clients_witness :
  wf two_client_state two_client_monitor [2%positive; 1%positive] [2%positive; 1%positive]
  ∧ viewed two_client_monitor = Some 1 ∧ mw_defined two_client_monitor
  ∧ ∃ s', tile two_client_state = Ok tt s' ∧ frame two_client_state s'
          ∧ heap s'
            = tile_heap two_client_monitor
                (Z.of_nat (length (tiled (heap two_client_state) 1 [2%positive; 1%positive])))
                (tile_mw_value two_client_monitor
                   (Z.of_nat (length (tiled (heap two_client_state) 1
                                        [2%positive; 1%positive]))))
                (heap two_client_state)
                (tiled (heap two_client_state) 1 [2%positive; 1%positive]) 0 0 0
          ∧ (∀ a, a ∉ tiled (heap two_client_state) 1 [2%positive; 1%positive] ->
               heap s' !! a = heap two_client_state !! a).
Proof.
  split; [exact wf_two_client_state |]. split; [reflexivity |].
  split; [exact (base_mw _ _ _ _ _ (proj1 sound_two_client_state)) |].
  exact (tile_lays_out_tiled_clients two_client_state two_client_monitor _ _ 1
           wf_two_client_state eq_refl (base_mw _ _ _ _ _ (proj1 sound_two_client_state))).
Defined.

Lemma tile_heap_single m n mw h a r i my ty :
  h !! a = Some r ->
  tile_heap m n mw h [a] i my ty
  = <[a := if decide (i < u32 (m_nmaster m))
           then resized (m_wx m) (s32 (u32 (m_wy m + my)))
                        (s32 (u32 (mw - s32 (2 * c_bw r))))
                        (s32 (u32 (u32 (m_wh m - my) / u32 (MIN_u n (m_nmaster m) - i)
                                   - s32 (2 * c_bw r)))) r
           else resized (s32 (u32 (m_wx m + mw))) (s32 (u32 (m_wy m + ty)))
                        (s32 (u32 (m_ww m - mw - s32 (2 * c_bw r))))
                        (s32 (u32 (u32 (m_wh m - ty) / u32 (n - i) - s32 (2 * c_bw r)))) r]> h.
Proof. intros Hr. simpl. rewrite Hr. now destruct (decide _). Qed.

Lemma resized_geometry x y w h r :
  0 < w -> 0 < h -> geometry (resized x y w h r) = (x, y, w, h).
Proof. intros Hw Hh. unfold resized. destruct (decide _); [lia | reflexivity]. Qed.

Lemma u32_zero_int z : - 2 ^ 31 <= z < 2 ^ 31 -> u32 z <= 0 -> z = 0.
Proof.
  intros Hz Hu. pose proof (u32_range z) as Hr. unfold u32 in *.
  destruct (decide (0 <= z)) as [Hp | Hn]; [rewrite Z.mod_small in Hu; lia |].
  assert (Hm : z mod 2 ^ 32 = z + 2 ^ 32).
  { symmetry. apply (Z.mod_unique z (2 ^ 32) (-1)); lia. }
  lia.
Qed.

(** X23: with one client that is visible and not floating, [tile] gives it
    the window area of the monitor less its border, whatever [nmaster] and
    [mfact] are, where nothing overflows and the rectangle is not empty; the
    other records stay as they are. *)
Theorem tile_single_client_fills_window_area s m cl sl t a r :
  wf s m cl sl -> viewed m = Some t -> mw_defined m ->
  tiled (heap s) t cl = [a] -> heap s !! a = Some r ->
  - 2 ^ 31 <= m_nmaster m < 2 ^ 31 ->
  0 <= m_wx m < 2 ^ 31 -> 0 <= m_wy m < 2 ^ 31 -> 0 <= c_bw r < 2 ^ 30 ->
  0 < m_ww m - 2 * c_bw r -> m_ww m < 2 ^ 31 ->
  0 < m_wh m - 2 * c_bw r -> m_wh m < 2 ^ 31 ->
  ∃ s' r',
    tile s = Ok tt s' ∧ heap s' !! a = Some r'
    ∧ geometry r' = (m_wx m, m_wy m, m_ww m - 2 * c_bw r, m_wh m - 2 * c_bw r)
    ∧ ∀ b, b ≠ a -> heap s' !! b = heap s !! b.
Proof.
  intros Hwf Ht Hmw Htl Hr Hnm Hwx Hwy Hbw Hw Hww Hh Hwh.
  destruct (tile_exact _ _ _ _ _ Hwf Ht Hmw) as (s' & Hs' & _ & Hheap).
  rewrite Htl in Hheap. change (Z.of_nat (length [a])) with 1 in Hheap.
  rewrite (tile_heap_single _ _ _ _ _ _ _ _ _ Hr) in Hheap.
  pose proof (u32_range (m_nmaster m)) as Hnr.
  eexists s', _. split; [exact Hs' |]. split; [rewrite Hheap; apply lookup_insert_eq |].
  split; [| intros b Hb; rewrite Hheap; now apply lookup_insert_ne].
  rewrite (s32_small (2 * c_bw r)) by lia.
  destruct (decide (0 < u32 (m_nmaster m))) as [Hpos | Hzero].
  - assert (Hmwv : tile_mw_value m 1 = m_ww m).
    { unfold tile_mw_value. destruct (decide (1 > u32 (m_nmaster m))); [lia |].
      apply u32_small. lia. }
    assert (Hmin : u32 (MIN_u 1 (m_nmaster m) - 0) = 1).
    { unfold MIN_u. destruct (decide (1 < u32 (m_nmaster m))); [reflexivity |].
      replace (u32 (m_nmaster m)) with 1 by lia. reflexivity. }
    rewrite Hmwv, Hmin, Z.div_1_r, Z.add_0_r, Z.sub_0_r.
    rewrite (u32_small (m_wh m)) by lia. rewrite !s32_u32 by lia.
    apply resized_geometry; lia.
  - assert (Hz : m_nmaster m = 0) by (apply u32_zero_int; lia).
    assert (Hmwv : tile_mw_value m 1 = 0).
    { unfold tile_mw_value. rewrite Hz.
      destruct (decide (1 > u32 0)) as [_ | Hbad]; [| exfalso; apply Hbad; reflexivity].
      destruct (decide (0 ≠ 0)); [contradiction | reflexivity]. }
    assert (Hone : u32 (1 - 0) = 1) by reflexivity.
    rewrite Hmwv, Hone, Z.div_1_r, !Z.add_0_r, !Z.sub_0_r.
    rewrite (u32_small (m_wh m)) by lia. rewrite !s32_u32 by lia.
    apply resized_geometry; lia.
Qed.

Lemma tile_single_client_fills_window_area_witness :
  wf one_client_state one_client_monitor [1%positive] [1%positive]
  ∧ viewed one_client_monitor = Some 1 ∧ mw_defined one_client_monitor
  ∧ tiled (heap one_client_state) 1 [1%positive] = [1%positive]
  ∧ heap one_client_state !! 1%positive
    = Some (mkClient 0 0 998 798 10 20 300 200 1 0 1 0 0 None None 101)
  ∧ ∃ s' r',
      tile one_client_state = Ok tt s' ∧ heap s' !! 1%positive = Some r'
      ∧ geometry r' = (0, 0, 1000 - 2 * 1, 800 - 2 * 1)
      ∧ ∀ b, b ≠ 1%positive -> heap s' !! b = heap one_client_state !! b.
Proof.
  split; [exact wf_one_client_state |]. split; [reflexivity |].
  split; [exact mw_defined_one_client |]. split; [reflexivity |]. split; [reflexivity |].
  apply (tile_single_client_fills_window_area one_client_state one_client_monitor
           [1%positive] [1%positive] 1 1%positive
           (mkClient 0 0 998 798 10 20 300 200 1 0 1 0 0 None None 101)
           wf_one_client_state eq_refl mw_defined_one_client eq_refl eq_refl);
    simpl; lia.
Defined.





(** [arrange]: the heap each layout leaves *)
Lemma arrange_exact s m cl sl t :
  wf s m cl sl -> mw_defined m -> viewed m = Some t ->
  ∃ s', arrange s = Ok tt s' ∧ frame s s'
        ∧ (m_sellt m = 0 ->
             heap s' = tile_heap m (Z.of_nat (length (tiled (heap s) t cl)))
                         (tile_mw_value m (Z.of_nat (length (tiled (heap s) t cl))))
                         (heap s) (tiled (heap s) t cl) 0 0 0)
        ∧ (m_sellt m = 1 -> heap s' = heap s)
        ∧ (m_sellt m = 2 ->
             ∀ b, heap s' !! b = if bool_decide (b ∈ tiled (heap s) t cl)
                                 then monocle_cell m <$> heap s !! b else heap s !! b).
Proof.
  intros Hwf Hmw Ht. pose proof (wf_mons _ _ _ _ Hwf) as Hm.
  unfold arrange. rewrite (bind_Ok _ _ _ _ _ (selmon_Ok _ _ Hm)).
  destruct (showhide_heap _ _ _ _ _ Hwf Ht) as (s1 & Hs1 & Hf1 & Hh1).
  rewrite (bind_Ok _ _ _ _ _ Hs1).
  pose proof (wf_frame _ _ _ _ _ Hwf Hf1) as Hwf1.
  rewrite (bind_Ok _ _ _ _ _ (selmon_Ok _ _ (wf_mons _ _ _ _ Hwf1))).
  pose proof (wf_sellt _ _ _ _ Hwf) as Hlt.
  assert (Hcases : m_sellt m = 0 ∨ m_sellt m = 1 ∨ m_sellt m = 2) by lia.
  destruct Hcases as [Hl | [Hl | Hl]]; rewrite Hl.
  - rewrite (bind_Ok _ _ _ _ _ (index_Ok layouts 0 _ s1 eq_refl)). simpl.
    destruct (tile_exact _ _ _ _ _ Hwf1 Ht Hmw) as (s2 & Hs2 & Hf2 & Hh2).
    exists s2. split; [now rewrite (bind_Ok _ _ _ _ _ Hs2) |].
    split; [eapply frame_trans; eassumption |].
    split; [intros _; now rewrite Hh2, Hh1 |]. split; intros Hbad; lia.
  - rewrite (bind_Ok _ _ _ _ _ (index_Ok layouts 1 _ s1 eq_refl)). simpl.
    exists s1. split; [reflexivity |]. split; [exact Hf1 |].
    split; [intros Hbad; lia |]. split; [intros _; exact Hh1 | intros Hbad; lia].
  - rewrite (bind_Ok _ _ _ _ _ (index_Ok layouts 2 _ s1 eq_refl)). simpl.
    destruct (monocle_exact _ _ _ _ _ Hwf1 Ht) as (s2 & Hs2 & Hf2 & Hh2).
    exists s2. split; [now rewrite (bind_Ok _ _ _ _ _ Hs2) |].
    split; [eapply frame_trans; eassumption |].
    split; [intros Hbad; lia |]. split; [intros Hbad; lia |].
    intros _ b. now rewrite Hh2, Hh1.
Qed.

Lemma arrange_untouched s m cl sl t :
  wf s m cl sl -> mw_defined m -> viewed m = Some t ->
  ∃ s', arrange s = Ok tt s' ∧ frame s s'
        ∧ (∀ a, a ∉ tiled (heap s) t cl -> heap s' !! a = heap s !! a)
        ∧ (m_sellt m = 1 -> s' = set_xlog (xlog s') s).
Proof.
  intros Hwf Hmw Ht.
  destruct (arrange_exact _ _ _ _ _ Hwf Hmw Ht) as (s' & Hs' & Hf & H0 & H1 & H2).
  exists s'. split; [exact Hs' |]. split; [exact Hf |]. split.
  - intros a Ha. pose proof (wf_sellt _ _ _ _ Hwf) as Hlt.
    assert (Hcases : m_sellt m = 0 ∨ m_sellt m = 1 ∨ m_sellt m = 2) by lia.
    destruct Hcases as [Hl | [Hl | Hl]].
    + rewrite (H0 Hl). now apply tile_heap_other.
    + now rewrite (H1 Hl).
    + now rewrite (H2 Hl), bool_decide_eq_false_2.
  - intros Hl. apply frame_only_log; auto.
Qed.

(** X25: [arrange] changes rectangles of clients that are visible and not
    floating, and the request log, and nothing else: the lists, the tags, the
    flags and the selection stay, a client that is floating or not visible
    keeps its whole record, and in the floating layout ([layouts[1]], whose
    [arrange] is NULL) no record changes. *)
Theorem arrange_moves_tiled_clients_only s m cl sl t :
  wf s m cl sl -> mw_defined m -> viewed m = Some t ->
  ∃ s', arrange s = Ok tt s' ∧ frame s s'
        ∧ (∀ a, a ∉ tiled (heap s) t cl -> heap s' !! a = heap s !! a)
        ∧ (m_sellt m = 1 -> s' = set_xlog (xlog s') s).
Proof. exact (arrange_untouched s m cl sl t). Qed.

Lemma arrange_moves_tiled_clients_only_witness :
  wf two_client_state two_client_monitor [2%positive; 1%positive] [2%positive; 1%positive]
  ∧ mw_defined two_client_monitor ∧ viewed two_client_monitor = Some 1
  ∧ ∃ s', arrange two_client_state = Ok tt s' ∧ frame two_client_state s'
          ∧ (∀ a, a ∉ tiled (heap two_client_state) 1 [2%positive; 1%positive] ->
               heap s' !! a = heap two_client_state !! a)
          ∧ (m_sellt two_client_monitor = 1 -> s' = set_xlog (xlog s') two_client_state).
Proof.
  split; [exact wf_two_client_state |].
  split; [exact (base_mw _ _ _ _ _ (proj1 sound_two_client_state)) |]. split; [reflexivity |].
  exact (arrange_moves_tiled_clients_only two_client_state two_client_monitor _ _ 1
           wf_two_client_state (base_mw _ _ _ _ _ (proj1 sound_two_client_state)) eq_refl).
Defined.

(** ** [focus] and [focusstack] *)

(** X26: [focus(c)] selects [c] when [c] is visible, and otherwise the first
    visible client of the stack, NULL when the stack has none; it changes
    nothing but [sel]. *)
Theorem focus_selects_visible_client s m cl sl t c :
  wf s m cl sl -> viewed m = Some t ->
  (∀ a, c = Some a -> is_Some (heap s !! a)) ->
  ∃ p, focus c s = Ok tt (set_mons (Some (with_sel p m)) s)
       ∧ (∀ a, c = Some a -> visible_b (heap s) t a = true -> p = Some a)
       ∧ ((∀ a, c = Some a -> visible_b (heap s) t a = false) ->
          p = first_visible (heap s) t sl)
       ∧ (∀ a, p = Some a -> visible_b (heap s) t a = true)
       ∧ (p = None -> ∀ a, a ∈ sl -> visible_b (heap s) t a = false).
Proof.
  intros Hwf Ht Hc. exists (focus_target (heap s) t sl c).
  split; [now apply (focus_Ok _ _ cl) |]. unfold focus_target.
  split; [intros a -> Hv; now rewrite Hv |].
  split; [intros Hno; destruct c as [a |]; [now rewrite (Hno a eq_refl) | reflexivity] |].
  assert (Hfv : ∀ a, first_visible (heap s) t sl = Some a -> visible_b (heap s) t a = true).
  { intros a Ha. now apply first_visible_elem in Ha. }
  assert (Hnone : first_visible (heap s) t sl = None ->
                  ∀ a, a ∈ sl -> visible_b (heap s) t a = false).
  { intros Hn a Ha. apply list_elem_of_In in Ha. exact (List.find_none _ _ Hn a Ha). }
  destruct c as [b |]; [| split; assumption].
  destruct (visible_b (heap s) t b) eqn:Hb; [| split; assumption].
  split; [intros a [= <-]; exact Hb | discriminate].
Qed.

Lemma focus_selects_visible_client_witness :
  wf two_client_state two_client_monitor [2%positive; 1%positive] [2%positive; 1%positive]
  ∧ viewed two_client_monitor = Some 1
  ∧ (∀ a, Some 1%positive = Some a -> is_Some (heap two_client_state !! a))
  ∧ ∃ p, focus (Some 1%positive) two_client_state
         = Ok tt (set_mons (Some (with_sel p two_client_monitor)) two_client_state)
         ∧ (∀ a, Some 1%positive = Some a ->
              visible_b (heap two_client_state) 1 a = true -> p = Some a)
         ∧ ((∀ a, Some 1%positive = Some a ->
               visible_b (heap two_client_state) 1 a = false) ->
            p = first_visible (heap two_client_state) 1 [2%positive; 1%positive])
         ∧ (∀ a, p = Some a -> visible_b (heap two_client_state) 1 a = true)
         ∧ (p = None ->
            ∀ a, a ∈ [2%positive; 1%positive] ->
                 visible_b (heap two_client_state) 1 a = false).
Proof.
  assert (Hlk : ∀ a, Some 1%positive = Some a -> is_Some (heap two_client_state !! a)).
  { intros a [= <-]. eexists. reflexivity. }
  split; [exact wf_two_client_state |]. split; [reflexivity |]. split; [exact Hlk |].
  exact (focus_selects_visible_client two_client_state two_client_monitor _ _ 1
           (Some 1%positive) wf_two_client_state eq_refl Hlk).
Defined.

(** X27: in every run [focusstack] with a selected client returns and
    selects a visible client of the client list and changes nothing else:
    with a positive argument the first visible client after the selected one,
    else the first visible client of the list; with another argument the last
    visible client before the selected one, else the last visible client from
    the selected one on.  When the selected client is the only visible one
    it stays selected. *)
Theorem focusstack_selects_neighbour cfg width height s m sl t x l1 l2 i :
  Run cfg width height s -> mons s = Some m -> viewed m = Some t ->
  chain c_next (heap s) (m_clients m) (l1 ++ x :: l2) ->
  chain c_snext (heap s) (m_stack m) sl -> m_sel m = Some x ->
  ∃ b, focusstack i s = Ok tt (set_mons (Some (with_sel (Some b) m)) s)
       ∧ focusstack_target (heap s) t l1 x l2 i = Some b
       ∧ b ∈ l1 ++ x :: l2 ∧ visible_b (heap s) t b = true
       ∧ ((∀ y, y ∈ l1 ++ l2 -> visible_b (heap s) t y = false) -> b = x).
Proof.
  intros Hr Hm Ht Hcl Hsl Hx.
  pose proof (Run_sound _ _ _ _ _ _ _ _ Hr Hm Ht Hcl Hsl) as Hsd.
  destruct (focusstack_run _ _ _ _ _ _ _ i Hsd Hx) as (b & Hb & _ & Hv & Hrun).
  destruct (focusstack_target_visible _ _ _ _ _ _ _ Hb) as [Hin _].
  exists b. split; [exact Hrun |]. split; [exact Hb |]. split; [exact Hin |].
  split; [exact Hv |]. intros Hno. destruct (decide (b = x)) as [-> | Hne]; [reflexivity |].
  rewrite (Hno b) in Hv; [discriminate |]. eapply elem_of_middle_ne; eassumption.
Qed.

Lemma focusstack_selects_neighbour_witness :
  Run config9 1000 800 two_client_state
  ∧ chain c_next (heap two_client_state) (m_clients two_client_monitor)
          ([] ++ 2%positive :: [1%positive])
  ∧ ∃ b, focusstack 1 two_client_state
         = Ok tt (set_mons (Some (with_sel (Some b) two_client_monitor)) two_client_state)
         ∧ focusstack_target (heap two_client_state) 1 [] 2%positive [1%positive] 1 = Some b
         ∧ b ∈ [] ++ 2%positive :: [1%positive]
         ∧ visible_b (heap two_client_state) 1 b = true
         ∧ ((∀ y, y ∈ [] ++ [1%positive] -> visible_b (heap two_client_state) 1 y = false) ->
            b = 2%positive).
Proof.
  split; [exact Run_two_client_state |].
  split; [exact (wf_clients _ _ _ _ wf_two_client_state) |].
  exact (focusstack_selects_neighbour config9 1000 800 two_client_state two_client_monitor
           [2%positive; 1%positive] 1 2%positive [] [1%positive] 1
           Run_two_client_state eq_refl eq_refl (wf_clients _ _ _ _ wf_two_client_state)
           (wf_stack _ _ _ _ wf_two_client_state) eq_refl).
Defined.

(** ** [main] without arguments *)

(** X28: [main] with no argument but the program name.  A missing locale
    only gives a warning on stderr.  When the display cannot be opened the
    process exits with status 1 after the message; otherwise the session runs
    and, when it returns, [main] returns [EXIT_SUCCESS].  With an empty
    argument vector ([argc] 0) the usage message is printed and the status is
    1. *)
Theorem main_without_arguments prog env s :
  let s0 := if locale_ok env then s
            else set_stderr (stderr s ++ ["warning: no locale support" +:+ newline]) s in
  main [prog] env s
  = (if display_ok env
     then match session env s0 with
          | Ok _ s' => Ok EXIT_SUCCESS s'
          | Fault => Fault
          | Diverge => Diverge
          | Exited n s' => Exited n s'
          end
     else Exited 1 (set_stderr (stderr s0 ++ ["dwm: cannot open display" +:+ newline]) s0))
  ∧ main [] env s = Exited 1 (set_stderr (stderr s ++ ["usage: dwm [-v]" +:+ newline]) s).
Proof.
  split.
  - unfold main, mbind, M_bind, bind, eprint, modify, die, mret, M_ret, ret. simpl.
    destruct (decide (1%nat = 2%nat ∧ None = Some "-v"%string)) as [[Hbad _] | _];
      [discriminate |].
    destruct (decide (1%nat ≠ 1%nat)) as [Hbad | _]; [contradiction |].
    destruct (locale_ok env), (display_ok env); simpl; try reflexivity;
      destruct (session env _) as [[] ? | | |]; reflexivity.
  - unfold main, mbind, M_bind, bind, die. simpl.
    destruct (decide (0%nat = 2%nat ∧ None = Some "-v"%string)) as [[Hbad _] | _];
      [discriminate |].
    destruct (decide (0%nat ≠ 1%nat)) as [_ | Hbad]; [reflexivity | exfalso; auto].
Qed.

(** ** [togglefloating] and [tag] *)

(** X29: [togglefloating] makes the selected client floating when it is not
    floating or is fixed, and not floating otherwise; it changes no list, no
    tag and no field of the monitor.  A client that becomes floating keeps
    its rectangle; other records change in their rectangle at most. *)
Theorem togglefloating_flips_selected_client s m cl sl t c r :
  wf s m cl sl -> mw_defined m -> viewed m = Some t ->
  m_sel m = Some c -> heap s !! c = Some r ->
  ∃ s' r',
    togglefloating s = Ok tt s' ∧ mons s' = Some m ∧ heap s' !! c = Some r'
    ∧ same_links
        (with_isfloating (if decide (c_isfloating r = 0 ∨ c_isfixed r ≠ 0) then 1 else 0) r) r'
    ∧ (c_isfloating r = 0 ∨ c_isfixed r ≠ 0 -> r' = with_isfloating 1 r)
    ∧ (∀ b rb, b ≠ c -> heap s !! b = Some rb ->
         ∃ rb', heap s' !! b = Some rb' ∧ same_links rb rb').
Proof.
  intros Hwf Hmw Ht Hc Hr. pose proof (wf_mons _ _ _ _ Hwf) as Hm. unfold togglefloating.
  rewrite (bind_Ok _ _ _ _ _ (selmon_Ok _ _ Hm)). rewrite Hc.
  rewrite (bind_Ok _ _ _ _ _ (load_Ok _ _ _ Hr)).
  rewrite (bind_Ok _ _ _ _ _ (store_Ok _ _ _ _ Hr)).
  set (f := if decide (c_isfloating r = 0 ∨ c_isfixed r ≠ 0) then 1 else 0).
  set (r1 := with_isfloating f r). set (s1 := set_heap _ s).
  assert (Hwf1 : wf s1 m cl sl) by (eapply wf_store_links; eauto).
  assert (Hr1 : heap s1 !! c = Some r1) by apply lookup_insert_eq.
  rewrite (bind_Ok _ _ _ _ _ (load_Ok _ _ _ Hr1)).
  assert (Hrs : ∃ s2, (if decide (c_isfloating r1 ≠ 0)
                       then resize (Some c) (c_x r1) (c_y r1) (c_w r1) (c_h r1) 0
                       else mret tt) s1 = Ok tt s2 ∧ frame s1 s2 ∧ heap s2 = heap s1).
  { destruct (decide (c_isfloating r1 ≠ 0)).
    - destruct (resize_exact s1 c r1 (c_x r1) (c_y r1) (c_w r1) (c_h r1) 0 Hr1)
        as (s2 & Hs2 & Hf2 & Hh2).
      exists s2. split; [exact Hs2 |]. split; [exact Hf2 |].
      rewrite Hh2, resized_own. now apply insert_id.
    - exists s1. split; [reflexivity |]. split; [apply frame_refl | reflexivity]. }
  destruct Hrs as (s2 & Hs2 & Hf2 & Hh2). rewrite (bind_Ok _ _ _ _ _ Hs2).
  pose proof (wf_frame _ _ _ _ _ Hwf1 Hf2) as Hwf2.
  destruct (arrange_untouched _ _ _ _ _ Hwf2 Hmw Ht) as (s' & Hs' & Hf' & Hun & _).
  assert (Hr2 : heap s2 !! c = Some r1) by (rewrite Hh2; exact Hr1).
  destruct (frame_lookup _ _ _ _ Hf' Hr2) as (r' & Hr' & Hl').
  exists s', r'. split; [exact Hs' |].
  split; [rewrite (fr_mons _ _ Hf'), (fr_mons _ _ Hf2); exact Hm |].
  split; [exact Hr' |]. split; [exact Hl' |]. split.
  - intros Hfl. assert (Hf1 : f = 1) by (unfold f; destruct (decide _); tauto).
    assert (Hnot : c ∉ tiled (heap s2) t cl).
    { rewrite elem_of_tiled. intros [_ Htl]. unfold tiled_b in Htl. rewrite Hr2 in Htl.
      unfold r1 in Htl. rewrite Hf1 in Htl. simpl in Htl. discriminate. }
    rewrite (Hun c Hnot), Hr2 in Hr'. injection Hr' as <-. unfold r1. now rewrite Hf1.
  - intros b rb Hne Hb.
    assert (Hb2 : heap s2 !! b = Some rb).
    { rewrite Hh2. unfold s1. simpl. rewrite lookup_insert_ne by congruence. exact Hb. }
    exact (frame_lookup _ _ _ _ Hf' Hb2).
Qed.

Lemma togglefloating_flips_selected_client_witness :
  wf two_client_state two_client_monitor [2%positive; 1%positive] [2%positive; 1%positive]
  ∧ mw_defined two_client_monitor ∧ viewed two_client_monitor = Some 1
  ∧ m_sel two_client_monitor = Some 2%positive
  ∧ heap two_client_state !! 2%positive
    = Some (mkClient 0 0 548 798 30 40 300 200 1 0 1 0 0
                     (Some 1%positive) (Some 1%positive) 102)
  ∧ ∃ s' r',
      togglefloating two_client_state = Ok tt s' ∧ mons s' = Some two_client_monitor
      ∧ heap s' !! 2%positive = Some r'
      ∧ same_links
          (with_isfloating (if decide (0 = 0 ∨ 0 ≠ 0) then 1 else 0)
             (mkClient 0 0 548 798 30 40 300 200 1 0 1 0 0
                       (Some 1%positive) (Some 1%positive) 102)) r'
      ∧ (0 = 0 ∨ 0 ≠ 0 ->
         r' = with_isfloating 1 (mkClient 0 0 548 798 30 40 300 200 1 0 1 0 0
                                          (Some 1%positive) (Some 1%positive) 102))
      ∧ (∀ b rb, b ≠ 2%positive -> heap two_client_state !! b = Some rb ->
           ∃ rb', heap s' !! b = Some rb' ∧ same_links rb rb').
Proof.
  split; [exact wf_two_client_state |].
  split; [exact (base_mw _ _ _ _ _ (proj1 sound_two_client_state)) |].
  split; [reflexivity |]. split; [reflexivity |]. split; [reflexivity |].
  exact (togglefloating_flips_selected_client two_client_state two_client_monitor _ _ 1
           2%positive _ wf_two_client_state
           (base_mw _ _ _ _ _ (proj1 sound_two_client_state)) eq_refl eq_refl eq_refl).
Defined.

(** X30: [tag] with a mask that is empty under [TAGMASK] changes nothing.
    Otherwise it gives the selected client exactly the masked tags, and the
    selection becomes the first visible client of the stack, which need not
    be that client; the lists stay, and the other records change in their
    rectangle at most. *)
Theorem tag_retags_selected_client cfg s m cl sl t c r ui :
  wf s m cl sl -> mw_defined m -> viewed m = Some t ->
  m_sel m = Some c -> heap s !! c = Some r ->
  (Z.land ui (TAGMASK cfg) = 0 -> tag cfg ui s = Ok tt s)
  ∧ (Z.land ui (TAGMASK cfg) ≠ 0 ->
     ∃ s' r',
       tag cfg ui s = Ok tt s'
       ∧ mons s' = Some (with_sel (first_visible (heap s') t sl) m)
       ∧ heap s' !! c = Some r'
       ∧ same_links (with_tags (Z.land ui (TAGMASK cfg)) r) r'
       ∧ (∀ b rb, b ≠ c -> heap s !! b = Some rb ->
            ∃ rb', heap s' !! b = Some rb' ∧ same_links rb rb')).
Proof.
  intros Hwf Hmw Ht Hc Hr. pose proof (wf_mons _ _ _ _ Hwf) as Hm. unfold tag.
  rewrite (bind_Ok _ _ _ _ _ (selmon_Ok _ _ Hm)). split.
  - intros Hz. destruct (decide _) as [[_ Hne] | _]; [contradiction | reflexivity].
  - intros Hne. destruct (decide _) as [_ | Hbad];
      [| exfalso; apply Hbad; split; [congruence | exact Hne]].
    rewrite Hc. rewrite (bind_Ok _ _ _ _ _ (store_Ok _ _ _ _ Hr)).
    set (a := Z.land ui (TAGMASK cfg)) in *. set (s1 := set_heap _ s).
    pose proof (wf_store_tags _ _ _ _ _ _ a Hwf Hr) as Hwf1. fold s1 in Hwf1.
    destruct (refocus_arrange_Ok _ _ _ _ _ Hwf1 Hmw Ht) as (s' & Hs' & Hwf' & Hf').
    assert (Hfv : first_visible (heap s') t sl = first_visible (heap s1) t sl).
    { apply first_visible_ext. intros b _. apply geom_only_visible, (fr_heap _ _ Hf'). }
    assert (Hr1 : heap s1 !! c = Some (with_tags a r)) by apply lookup_insert_eq.
    destruct (frame_lookup _ _ _ _ Hf' Hr1) as (r' & Hr' & Hl').
    exists s', r'. split; [exact Hs' |].
    split; [rewrite Hfv; apply (wf_mons _ _ _ _ Hwf') |].
    split; [exact Hr' |]. split; [exact Hl' |].
    intros b rb Hnb Hb. apply (frame_lookup _ _ _ _ Hf').
    simpl. rewrite lookup_insert_ne by congruence. exact Hb.
Qed.

Lemma tag_retags_selected_client_witness :
  wf two_client_state two_client_monitor [2%positive; 1%positive] [2%positive; 1%positive]
  ∧ mw_defined two_client_monitor ∧ viewed two_client_monitor = Some 1
  ∧ m_sel two_client_monitor = Some 2%positive
  ∧ heap two_client_state !! 2%positive
    = Some (mkClient 0 0 548 798 30 40 300 200 1 0 1 0 0
                     (Some 1%positive) (Some 1%positive) 102)
  ∧ (Z.land 2 (TAGMASK config9) = 0 -> tag config9 2 two_client_state = Ok tt two_client_state)
  ∧ (Z.land 2 (TAGMASK config9) ≠ 0 ->
     ∃ s' r',
       tag config9 2 two_client_state = Ok tt s'
       ∧ mons s'
         = Some (with_sel (first_visible (heap s') 1 [2%positive; 1%positive])
                   two_client_monitor)
       ∧ heap s' !! 2%positive = Some r'
       ∧ same_links
           (with_tags (Z.land 2 (TAGMASK config9))
              (mkClient 0 0 548 798 30 40 300 200 1 0 1 0 0
                        (Some 1%positive) (Some 1%positive) 102)) r'
       ∧ (∀ b rb, b ≠ 2%positive -> heap two_client_state !! b = Some rb ->
            ∃ rb', heap s' !! b = Some rb' ∧ same_links rb rb')).
Proof.
  split; [exact wf_two_client_state |].
  split; [exact (base_mw _ _ _ _ _ (proj1 sound_two_client_state)) |].
  split; [reflexivity |]. split; [reflexivity |]. split; [reflexivity |].
  exact (tag_retags_selected_client config9 two_client_state two_client_monitor _ _ 1
           2%positive _ 2 wf_two_client_state
           (base_mw _ _ _ _ _ (proj1 sound_two_client_state)) eq_refl eq_refl eq_refl).
Defined.
